(* ===== verification/_CoqProject ===== *)
-Q . S2P
Prelude.v
JsString.v
JsNumber.v
JsJson.v
JsRegex.v
JsExpr.v
JsPrint.v
PgTypes.v
PgCodec.v
PgMessages.v
PgStreamParser.v
PgPayload.v
PgStorage.v
PgExport.v
Currency.v
Format.v
PricingModels.v
PricingPrice.v
BillingExpr.v
BillingRules.v
TierExpr.v
TierRoundtrip.v
TierVisual.v
TierDisplay.v
TierEstimate.v
DynamicPrice.v
TierEditor.v
TierEditorTheory.v
UsageLogs.v
UsageLogsTheory.v
ApiKeys.v
ChatLinks.v
PricingSettings.v
PricingSheet.v
PgCost.v
PgSession.v
PgRegistry.v
HttpStatusRules.v
StatusCodeRisk.v
ModelMapping.v
ChannelTypes.v
ChannelUtils.v
ChannelForm.v
ChannelExtras.v
ParamOverride.v
ParamRoundtrip.v
ParamEditor.v
ParamDialog.v
NavModules.v
StatusPage.v
DashboardCharts.v
DashboardFilters.v
