(* ===== verification/Prelude.v ===== *)
(** * A verification library for the You-Box web client

    You-Box is a gateway for language-model APIs: a Go server and a TypeScript
    client under [web/default/src].  This library models the client's own
    logic, the code that decides what is sent, shown, stored and billed, as
    executable definitions, and proves what makes it correct.

    ** The program and its model

    _The chat playground_ ([features/playground]) keeps a conversation, sends
    it to one or several models and folds their streamed replies back into it.

    - [PgTypes] (Module [Pg]): [types.ts], [constants.ts].  One record per
      interface, one setter [set_x] per field for the spread update
      [{ ...m, x: v }].  Identification fields of server replies that the
      client never reads (id, object, created, model) are left out.
    - [PgMessages] ([Messages]): [lib/message-utils.ts].  Versions of a
      message, thinking tags, request content, streaming and error updates,
      finalisation, sanitising on load.  Ids come from [nanoid] and texts from
      [i18next]: the class [Platform], with the law that ids are distinct.
    - [PgStreamParser] ([Sse]): [lib/stream-parser.ts].  Server-sent payloads
      to events; fragments of tool calls to tool calls.
    - [PgPayload] ([Payload]): [lib/payload-builder.ts].  Active models,
      per-model history, request body.
    - [PgCost] ([Cost]): [lib/cost.ts], [lib/model-capabilities.ts].
    - [PgSession] ([Session]): [hooks/use-stream-request.ts],
      [hooks/use-chat-handler.ts], [updateMessages] of
      [hooks/use-playground-state.ts] and the message handlers of [index.tsx].
      Refs and React state form one record [State]; every callback and handler
      is a function on it; [step] lets the user and the network act in any
      order, and the invariants are proved for every [reachable] state.
    - [PgRegistry] ([Registry]): the abstract registry of running replies that
      a session implements, and the way a session comes to rest.
    - [PgCodec] ([Codec]): messages as JSON texts, written and read.
    - [PgStorage] ([Storage]): [lib/storage.ts] and
      [hooks/use-playground-state.ts].  The entries of the browser storage,
      where a write may be refused, and the state that is saved at every change.
    - [PgExport] ([Exports]): [lib/export.ts].  Markdown, JSON and [curl].

    _Pricing_ ([features/pricing]): [PricingModels] ([Pricing]) has the data
    model, model types ([lib/model-type.ts]), facets, filters and sorting
    ([lib/filters.ts]) and standard prices ([lib/model-helpers.ts]);
    [PricingPrice] ([Price]) the amounts of [lib/price.ts] and their text.
    Collation and case mapping are the class [Locale].

    _Billing expressions_ ([features/pricing/lib]) are texts such as
    [len <= 200000 ? tier('small', p * 3 + c * 15) : tier('large', p * 6)],
    with factors that depend on the request.  Several parts of the client read
    and write them, each with its own regular expressions:

    - [BillingExpr] ([Billing], [billing-expr.ts]): variables, tiers, request
      rules, joining and splitting the two.
    - [TierExpr] ([Tier], [tier-expr.ts]): the table of the visual editor to
      an expression and back.
    - [DynamicPrice] ([Dynamic], [dynamic-price.ts]): what the catalogue shows
      for a model with a billing expression.
    - [TierEstimate] ([Estimate], [evalExprLocally] of [tier-expr.ts]): the
      cost preview, which evaluates the expression as JavaScript.
    - [BillingRules], [TierRoundtrip], [TierVisual], [TierDisplay]: the
      theorems that relate these readers and writers.

    _Prices of the administrator_ ([features/system-settings/models]):
    [PricingSettings] the rows of the price table and how they are written to
    the options of the server, [PricingSheet] ([Sheet]) the form for one model
    with its ratios and prices, [TierEditor] ([Tiered],
    [tiered-pricing-editor.tsx]) the editor of tiered prices with its two modes
    as a state machine over the editor and the page around it, and
    [TierEditorTheory] what holds of every state of it.

    _Amounts_: [Currency] ([lib/currency.ts] and the currency part of
    [stores/system-config-store.ts], with [Intl.NumberFormat] as the class
    [Intl]) and [Format] ([lib/format.ts]).

    _Channel administration_ ([features/channels]): [StatusCodeRisk]
    ([StatusRisk], [lib/status-code-risk-guard.ts]), [ModelMapping] ([Mapping],
    [lib/model-mapping-validation.ts]), [ChannelTypes] ([Chan], [constants.ts]
    and [types.ts]), [ChannelUtils] ([ChanUtils], [lib/channel-utils.ts],
    [lib/multi-key-utils.ts]), [ChannelForm] ([Form], [lib/channel-form.ts] and
    the errors of a form), [ChannelExtras] ([Extras], the configuration of
    channel types, [lib/upstream-update-utils.ts] and [lib/ollama-utils.ts]).
    The editor of parameter overrides
    ([components/dialogs/param-override-editor-dialog.tsx]) is [ParamOverride]
    (operations, conditions and their JSON), [ParamRoundtrip] (saved and opened
    again), [ParamEditor] (the state of the dialog, one function per handler)
    and [ParamDialog] (what holds of every state of it).

    _The dashboard_ ([features/dashboard]): [DashboardCharts] ([Charts],
    [lib/charts.ts] with the time keys of [lib/time.ts]) sums the usage records
    for the charts; dates come from [dayjs], the class [Dayjs], of which a
    calendar in UTC is an instance.  [DashboardFilters] ([Filters],
    [lib/filters.ts]) has the filters and the saved preferences.

    _Usage logs_ ([features/usage-logs]): [UsageLogs] ([Logs]) has the filters
    and the queries they become ([lib/filter.ts], [lib/utils.ts], [api.ts]), the
    paged export as a CSV file ([lib/export-logs.ts]) and what is shown of a log
    ([lib/format.ts]); [UsageLogsTheory] ([LogsTheory]) an RFC 4180 reader and
    the theorems.

    _Keys, wallet and links_: [ApiKeys] has the form of an API key ([Keys],
    [features/keys/lib/api-key-form.ts]) and the helpers of the payment page
    ([Wallet], [features/wallet/lib]); [ChatLinks] the links to chat
    applications ([features/chat/lib]), with Base64 and percent encoding.

    _Shared libraries and other pages_: [HttpStatusRules] ([HttpStatus],
    [lib/http-status-code-rules.ts]), [NavModules] ([Nav],
    [lib/nav-modules.ts]) and [StatusPage] ([Status],
    [features/status/lib], [features/performance-metrics/lib/format.ts]).

    ** The language

    [Prelude] has arrays, [Map], [Set], [sort] and the two empty values;
    [JsString] strings as lists of UTF-16 code units with the string methods
    the code uses; [JsNumber] numbers as IEEE-754 binary64 (the standard
    library's [SpecFloat]) with [toString], [toFixed], [Number] and
    [parseFloat]; [JsJson] JSON values, [JSON.parse] and property order;
    [JsRegex] regular expressions with a backtracking matcher, captures, lazy
    repetition, [exec], [replace] and [split]; [JsExpr] a fragment of
    JavaScript expressions with lexer, parser and evaluator; [JsPrint]
    [JSON.stringify] and the theorem that its texts are read back.  Integers that are only counted, compared
    or used as indexes are [Z] or [nat].  [sort] is a stable insertion sort:
    every comparator of the code is consistent, so the result is the one
    ECMAScript prescribes.

    ** What is proved

    - The session: distinct keys, no message without versions, the
      connections the page has not closed are exactly the registered ones,
      sound counters
      ([session_invariant]); a completed stream, whatever events it had, leaves the whole
      reply in its message ([stream_run_complete]); streams do not touch other messages
      ([stream_isolation]); stopping settles everything
      ([stopGeneration_settles]).  The session refines an abstract registry
      of running replies ([session_refines_registry]), and once the network
      has answered everything no message is left pending
      ([session_comes_to_rest]).
    - Billing expressions: [as_read] is the table that the text of a table
      stands for (a blank label has a name, a typed limit is a number, the cache
      mode follows from the prices), and [canonical_config] says that its labels
      have no quotation mark, that its tiers but the last have conditions and
      that its numbers can be read from their text.  For such tables the
      editor reads back the table it printed ([visual_roundtrip]); the catalogue
      reads the same tiers from it ([display_reads_editor],
      [summary_of_editor]); the preview evaluates it to the first tier that
      applies, if JavaScript needs no escape in a label
      ([estimator_first_tier]).  An expression in parentheses is the text of no
      table ([paren_not_visual]).  Request rules of the kinds [readable_group]
      are read back ([rules_roundtrip]) and separated from the tiers again
      ([split_combine]); comparisons of a parameter are not
      ([param_rule_not_read]).
    - The editor of tiered prices: it comes to rest after every action, the page
      holds the expression on the screen, in visual mode the rules too, and the
      table is never empty ([editor_invariant]).  For tables and rules as above,
      what is saved is read back as the table and the rules
      ([saved_read_back]), opening changes nothing ([open_unchanged]) and the
      two modes show the same ([modes_keep]); with a rule that compares a
      parameter the cards are dead and the modes lose the table
      ([param_rule_spoils]).
    - Usage logs: the export ends after a hundred requests at most
      ([export_ends]) and has every log that a consistent gateway serves, up to
      the cap ([export_complete]); the file is read back ([csv_roundtrip]); users
      ask for their own logs only, in every category ([users_stay_in_scope]); filters arrive
      ([filters_arrive]); a log is shown with the tier it was charged with
      ([log_shows_tier]).
    - Amounts: the configuration in use always has positive rates
      ([getConfig_usable]); amounts of bills are never tokens
      ([billing_amounts]); small amounts do not vanish
      ([adjustForMinimum_spec]).
    - Messages and streams: thinking tags are read exactly, the loop ends
      ([parseThinkTags_spec], [parseThinkTags_render]); the final text does not
      depend on the cutting into chunks ([streamed_content]); tool calls are
      reassembled whatever the interleaving ([finalizeToolCalls_spec],
      [tool_calls_interleaving]); requests carry only settled messages of the
      right model ([payload_messages_spec]); loading settles interrupted
      replies ([sanitize_spec]).
    - Storage: if no write is refused, what is read the next time is the state
      of the page ([storage_mirrors_state]), and with refused writes each entry is that of
      an earlier state ([refused_writes_safe]); clearing removes every entry
      ([clear_spec]); exported messages are read back
      ([export_json_roundtrip]); a shell reads the copied command as meant
      ([curl_words]).
    - Price settings: prices that are saved read back, and the rows of other
      models are unchanged ([persist_rows]); the form of a new model stores the
      ratios its prices stand for, or the fixed price that is left in it
      ([new_sheet_saves]); a changed draft is recognised
      ([draft_changed_spec]).
    - Channels: a form that was saved shows the same values when the channel is
      opened again, except a field [other] that was cleared ([form_roundtrip],
      with the columns that [Channel.Update] of [model/channel.go] writes), settings that the form does not decide
      about are kept ([settings_spec]), a form without errors can be saved
      ([valid_form_saves]) and the models found upstream are shown as the form
      left them ([upstream_meta_saved]).
    - Parameter overrides: clean rules that are saved and opened again are the
      same ([override_roundtrip]); the dialog always has a rule to show, with
      distinct ids ([dialog_invariant]); switching between the modes loses
      nothing ([modes_roundtrip]); dragging moves one rule ([reorder_spec]).
    - Dashboard: charts add up to the records ([charts_conserve],
      [user_charts_conserve], [tooltip_conserves]); preferences are read back
      ([preferences_roundtrip]) and always usable ([preferences_usable]).
    - Keys and links: what opening and saving a key sends
      ([key_form_roundtrip]), and that an edit does not give back a spent budget
      ([unrelated_edit_keeps_quota]), for amounts that the form shows exactly;
      an application decodes the configuration of a link ([config_arrives]) and the list of applications has exactly the
      usable entries ([presets_spec]).
    - Rules and mappings: status-code rules have a canonical normal form that
      parses back ([parse_ok_canonical], [parse_ok_covers],
      [normalized_canonical], [parse_normalized_roundtrip]); risky redirects
      and missing models are reported exactly.
    - Tables: aggregation by tag, facets and the vendor summary partition and
      count exactly; filters keep exactly what matches; the lowest ratio is the
      lowest; costs and prices are not negative.
    - Deviations of the code from its intention are theorems too: a late answer
      after stopping ([late_answer_after_stop]), versions lost without
      streaming ([nonstreaming_regenerate_loses_versions]), late tool calls
      ([late_tool_call_revives]), a stale kill-switch
      ([chat_entry_ignores_given_sidebar]), reasoning left by a cut tag
      ([reasoning_depends_on_chunking]), overlooked degraded monitors
      ([worst_status_overlooks_degraded]), a colliding sentinel
      ([aggregate_priority_sentinel]), request rules that are not read back
      ([param_rule_not_read], [bad_escape_throws]), prices that two parsers
      read differently ([dense_prices_differ], [spread_keeps_nan]), a misread
      decimal comma ([decimal_comma_misread]), a unit that rounding
      overflows ([rounding_overflows_unit]), prices lost on a change of the
      mode ([token_prices_lost]), usage that no bar shows
      ([sparse_usage_not_shown]), times out of order
      ([new_year_out_of_order]), rules that cannot be edited or added
      ([prune_rule_edits_lost], [prune_rule_not_added]), a blank that cannot
      be typed ([typed_space_lost]), a first edit that is taken for the loaded
      record ([first_edit_reseeds]), rules that spoil the table
      ([param_rule_spoils]), a failed export that looks empty
      ([refused_export_looks_empty]), a key with two prefixes
      ([fluent_prefix_twice]) and an address that makes a link throw
      ([unicode_address_throws]).

    ** Fuel

    - The thinking-tag loop gets the length of the content plus one;
      [parseThinkTags_spec] proves that it never runs out.
    - The JSON parser gets twice the length of the text plus two;
      [JSON_parse_fuel] proves that more fuel gives the same result.
    - A repetition in a regular expression, and the loops of [exec], [replace]
      and [split], get the number of units that are left: an empty iteration
      ends a repetition in ECMAScript too, so each one consumes a unit.
    - The lexer and the parser of [JsExpr] get the number of units and of
      tokens; every recursive call consumes one, and the theorems about
      generated expressions prove that a result is returned.
    - The loop over the pages of an export gets a hundred rounds: each one that
      does not end it adds a hundred rows to at most ten thousand
      ([pages_end]).
    - The editor of tiered prices is rendered three times after an action;
      [settle_rests] proves that more changes nothing.
    - The search for the shortest decimal text of a number stops at 17 digits,
      which always identify a binary64 number.

    ** Not modelled

    React components, routing, styles, translations, HTTP and the Go server, of
    which only the columns that an update of a channel writes are used.
    Of the channel pages, the actions ([lib/channel-actions.ts]) and the drawer
    that edits a channel are calls of the API and rendering; of the charts, the
    options of the chart library.  [sse.js] is the environment of [step]: it may deliver
    anything at any time.  [reachable] starts from an empty conversation: the
    ids of messages loaded from storage are not drawn by the page.  Payloads
    whose values do not have the declared TypeScript types are the outcome
    [Untyped].  Of [new Function] only the fragment in [JsExpr] is modelled;
    a text outside it gives [None].  The digits that [Intl] produces, dates of
    [dayjs], time zones and the decoding of Base64 are left to the platform.  An
    index out of range changes nothing in the rows of an editor: the screen has
    no such row.

    ** Plan

    Next: the forms of models, users, redemption codes and subscription plans,
    and the settings of payment methods. *)

From stdpp Require Export base list list_numbers numbers option gmap sorting.
From Stdlib Require Export ZArith Lia.
From Stdlib Require Import Permutation Sorted.

Declare Scope js_scope.
Delimit Scope js_scope with js.
Open Scope js_scope.

Create HintDb jsdb.

(** ** JavaScript's two empty values

    A property declared [x?: T] is an [option T] ([None] is [undefined]).  A
    property declared [x?: T | null] distinguishes the two empty values. *)

Inductive nullable (A : Type) : Type :=
| Undef
| Null
| Val (a : A).
Arguments Undef {A}.
Arguments Null {A}.
Arguments Val {A} a.

#[export] Instance nullable_eq_dec {A} `{!EqDecision A} : EqDecision (nullable A).
Proof. solve_decision. Defined.

(** [a ?? b] on a nullable value with a nullable default. *)
Definition nullish {A} (a b : nullable A) : nullable A :=
  match a with
  | Val _ => a
  | _ => b
  end.

(** [a ?? b] on an optional value. *)
Definition coalesce {A} (a : option A) (b : A) : A := default b a.
Notation "a ?? b" := (coalesce a b) (at level 60, right associativity) : js_scope.

(** [a ?? b] where the default is itself optional. *)
Definition coalesce_opt {A} (a b : option A) : option A :=
  match a with
  | Some _ => a
  | None => b
  end.

(** ** Boolean filters, searches and updates of arrays *)

Abbreviation bfilter := List.filter (only parsing).

(** [Array.prototype.findIndex]: the position of the first match. *)
Fixpoint find_index {A} (p : A -> bool) (l : list A) : option nat :=
  match l with
  | [] => None
  | x :: l' => if p x then Some 0 else S <$> find_index p l'
  end.

(** [Array.prototype.sort] with a comparator: it is stable, and for a
    consistent comparator its result is determined by that. *)
Fixpoint sort_insert {A} (cmp : A -> A -> Z) (x : A) (l : list A) : list A :=
  match l with
  | [] => [x]
  | y :: l' => if (cmp x y <=? 0)%Z then x :: y :: l' else y :: sort_insert cmp x l'
  end.

Definition js_sort {A} (cmp : A -> A -> Z) (l : list A) : list A :=
  foldr (sort_insert cmp) [] l.

(** [Array.from(new Set(l))]: a [Set] iterates in insertion order and keeps
    the first occurrence of each value. *)
Definition set_add {A} `{!EqDecision A} (acc : list A) (x : A) : list A :=
  if decide (x ∈ acc) then acc else acc ++ [x].

Definition js_set {A} `{!EqDecision A} (l : list A) : list A :=
  foldl set_add [] l.

(** [Set.prototype.has], [Array.prototype.includes] *)
Definition includes {A} `{!EqDecision A} (l : list A) (x : A) : bool :=
  bool_decide (x ∈ l).

(** ** A [Map], in insertion order

    [Map.prototype.set] keeps the position of a key that is present and
    appends a new one. *)
Fixpoint map_get {K V} `{!EqDecision K} (k : K) (m : list (K * V)) : option V :=
  match m with
  | [] => None
  | (k', v) :: m' => if decide (k' = k) then Some v else map_get k m'
  end.

Fixpoint map_set {K V} `{!EqDecision K} (k : K) (v : V) (m : list (K * V)) : list (K * V) :=
  match m with
  | [] => [(k, v)]
  | (k', v') :: m' =>
      if decide (k' = k) then (k', v) :: m' else (k', v') :: map_set k v m'
  end.

Definition map_delete {K V} `{!EqDecision K} (k : K) (m : list (K * V)) : list (K * V) :=
  bfilter (fun kv => negb (bool_decide (kv.1 = k))) m.

(** ** Tactics *)

(** Split every boolean test and option match of the goal. *)
Ltac case_all :=
  repeat match goal with
  | |- context [if ?b then _ else _] =>
      lazymatch b with
      | decide _ => case_decide
      | bool_decide _ => case_bool_decide
      | _ => let H := fresh "Hb" in destruct b eqn:H
      end
  | |- context [match ?o with Some _ => _ | None => _ end] =>
      let H := fresh "Ho" in destruct o eqn:H
  end.

(** Turn boolean comparisons on [Z], [N] and [nat] into propositions. *)
Ltac bool_to_prop :=
  repeat match goal with
  | H : (_ && _)%bool = true |- _ => apply andb_prop in H; destruct H
  | H : (_ || _)%bool = false |- _ => apply orb_false_elim in H; destruct H
  | H : negb _ = true |- _ => apply negb_true_iff in H
  | H : negb _ = false |- _ => apply negb_false_iff in H
  | H : (_ <=? _)%Z = true |- _ => apply Z.leb_le in H
  | H : (_ <=? _)%Z = false |- _ => apply Z.leb_gt in H
  | H : (_ <? _)%Z = true |- _ => apply Z.ltb_lt in H
  | H : (_ <? _)%Z = false |- _ => apply Z.ltb_ge in H
  | H : (_ =? _)%Z = true |- _ => apply Z.eqb_eq in H
  | H : (_ =? _)%Z = false |- _ => apply Z.eqb_neq in H
  end.

(** ** Lemmas on filters *)

Lemma elem_of_bfilter {A} (p : A -> bool) (l : list A) x :
  x ∈ bfilter p l <-> x ∈ l /\ p x = true.
Proof. rewrite !list_elem_of_In. apply List.filter_In. Qed.

Lemma bfilter_all {A} (p : A -> bool) (l : list A) :
  (forall x, x ∈ l -> p x = true) -> bfilter p l = l.
Proof.
  induction l as [|x l IH]; intros H; cbn; [done|].
  rewrite (H x) by (by left). f_equal. apply IH. intros y Hy. apply H. by right.
Qed.

Lemma bfilter_none {A} (p : A -> bool) (l : list A) :
  (forall x, x ∈ l -> p x = false) -> bfilter p l = [].
Proof.
  induction l as [|x l IH]; intros H; cbn; [done|].
  rewrite (H x) by (by left). apply IH. intros y Hy. apply H. by right.
Qed.

Lemma bfilter_idemp {A} (p : A -> bool) (l : list A) :
  bfilter p (bfilter p l) = bfilter p l.
Proof. apply bfilter_all. intros x Hx. apply elem_of_bfilter in Hx. tauto. Qed.

Lemma bfilter_sublist {A} (p : A -> bool) (l : list A) : bfilter p l `sublist_of` l.
Proof.
  induction l as [|x l IH]; cbn; [done|].
  destruct (p x); [by apply sublist_skip | by apply sublist_cons].
Qed.

Lemma elem_of_sublist {A} (l k : list A) x : x ∈ l -> l `sublist_of` k -> x ∈ k.
Proof. intros Hx Hs. induction Hs; set_solver. Qed.

Lemma bfilter_NoDup {A} (p : A -> bool) (l : list A) : NoDup l -> NoDup (bfilter p l).
Proof. intros H. eapply sublist_NoDup; [done|apply bfilter_sublist]. Qed.

Lemma map_bfilter_NoDup {A B} (f : A -> B) (p : A -> bool) (l : list A) :
  NoDup (map f l) -> NoDup (map f (bfilter p l)).
Proof.
  induction l as [|x l IH]; cbn; [done|].
  rewrite NoDup_cons. intros [Hx Hl].
  destruct (p x); cbn; [|auto].
  rewrite NoDup_cons. split; [|auto].
  intros Hin. apply Hx. apply list_elem_of_In, List.in_map_iff in Hin as (y & <- & Hy).
  apply list_elem_of_In, List.in_map_iff. exists y. split; [done|].
  apply List.filter_In in Hy. tauto.
Qed.

(** ** Lemmas on [find_index] *)

Lemma find_index_Some {A} (p : A -> bool) (l : list A) i :
  find_index p l = Some i ->
  exists x, l !! i = Some x /\ p x = true /\
            forall j y, j < i -> l !! j = Some y -> p y = false.
Proof.
  revert i. induction l as [|x l IH]; intros i; cbn; [done|].
  destruct (p x) eqn:Hp.
  - intros [= <-]. exists x. split_and!; try done. lia.
  - destruct (find_index p l) as [i'|] eqn:Hf; [|done].
    intros [= <-]. destruct (IH i' eq_refl) as (y & Hy & Hpy & Hmin).
    exists y. split_and!; try done.
    intros [|j] z Hj Hz; cbn in Hz; [by simplify_eq|].
    eapply Hmin; [|done]. lia.
Qed.

Lemma find_index_None {A} (p : A -> bool) (l : list A) :
  find_index p l = None <-> forall x, x ∈ l -> p x = false.
Proof.
  induction l as [|x l IH]; cbn; [split; [set_solver|done]|].
  destruct (p x) eqn:Hp.
  - split; [done|]. intros H. specialize (H x ltac:(by left)). congruence.
  - destruct (find_index p l); cbn; split; intros H; try done.
    + exfalso. assert (Some n = None) as Habs; [|done]. apply IH. intros y Hy. apply H. by right.
    + intros y [->|Hy]%elem_of_cons; [done|]. by apply IH.
Qed.

(** ** Lemmas on sorting *)

Lemma sort_insert_perm {A} (cmp : A -> A -> Z) x (l : list A) :
  sort_insert cmp x l ≡ₚ x :: l.
Proof.
  induction l as [|y l IH]; cbn; [done|].
  destruct (cmp x y <=? 0)%Z; [done|]. rewrite IH. by apply Permutation_swap.
Qed.

Lemma js_sort_perm {A} (cmp : A -> A -> Z) (l : list A) : js_sort cmp l ≡ₚ l.
Proof.
  induction l as [|x l IH]; cbn; [done|].
  change (foldr (sort_insert cmp) [] l) with (js_sort cmp l).
  rewrite sort_insert_perm. by rewrite IH.
Qed.

Lemma elem_of_js_sort {A} (cmp : A -> A -> Z) (l : list A) x :
  x ∈ js_sort cmp l <-> x ∈ l.
Proof. by rewrite js_sort_perm. Qed.

Lemma js_sort_length {A} (cmp : A -> A -> Z) (l : list A) :
  length (js_sort cmp l) = length l.
Proof. by rewrite js_sort_perm. Qed.

(** A comparator whose verdicts agree with a total preorder [R]. *)
Class SortsBy {A} (cmp : A -> A -> Z) (R : A -> A -> Prop) : Prop := {
  sorts_trans : Transitive R;
  sorts_le : forall x y, (cmp x y <= 0)%Z -> R x y;
  sorts_gt : forall x y, (0 < cmp x y)%Z -> R y x;
}.

Section sorting.
Context {A : Type} (cmp : A -> A -> Z) (R : A -> A -> Prop) `{!SortsBy cmp R}.

Lemma sort_insert_sorted x l :
  StronglySorted R l -> StronglySorted R (sort_insert cmp x l).
Proof.
  pose proof (sorts_trans (cmp:=cmp) (R:=R)) as Htr.
  induction 1 as [|y l Hl IH Hy]; cbn; [repeat constructor|].
  destruct (cmp x y <=? 0)%Z eqn:Hc; bool_to_prop.
  - apply sorts_le in Hc. constructor; [by constructor|]. constructor; [done|].
    eapply List.Forall_impl; [|exact Hy]. intros z Hz. by eapply Htr.
  - apply sorts_gt in Hc. constructor; [done|].
    rewrite sort_insert_perm. by constructor.
Qed.

Lemma js_sort_sorted l : StronglySorted R (js_sort cmp l).
Proof. induction l; cbn; [constructor|]. by apply sort_insert_sorted. Qed.

(** A sorted array is left as it is. *)
Lemma js_sort_id l :
  (forall x y, x ∈ l -> y ∈ l -> R x y -> (cmp x y <= 0)%Z) ->
  StronglySorted R l -> js_sort cmp l = l.
Proof.
  intros Hle. induction 1 as [|x l Hl IH Hx]; cbn; [done|].
  change (foldr (sort_insert cmp) [] l) with (js_sort cmp l).
  rewrite IH by (intros; apply Hle; try (by right); done).
  destruct l as [|y l]; cbn; [done|].
  inversion Hx; subst. rewrite (proj2 (Z.leb_le _ _)); [done|].
  apply Hle; [by left| by right; left | done].
Qed.
End sorting.

(** Two sorted permutations are equal when the order is antisymmetric. *)
Lemma sorted_perm_unique {A} (R : A -> A -> Prop) (l k : list A) :
  (forall x y, R x y -> R y x -> x = y) ->
  StronglySorted R l -> StronglySorted R k -> l ≡ₚ k -> l = k.
Proof.
  intros Hanti Hl. revert k. induction Hl as [|x l Hl IH Hx]; intros k Hk Hp.
  - symmetry. by apply Permutation_nil.
  - destruct k as [|y k]; [by apply Permutation_sym, Permutation_nil_cons in Hp|].
    inversion Hk as [|? ? Hk' Hy]; subst.
    assert (x = y) as ->.
    { assert (x ∈ y :: k) as [->|Hxk]%elem_of_cons by (rewrite <- Hp; by left); [done|].
      assert (y ∈ x :: l) as [->|Hyl]%elem_of_cons by (rewrite Hp; by left); [done|].
      apply Hanti; [by eapply Forall_forall in Hx | by eapply Forall_forall in Hy]. }
    f_equal. apply IH; [done|]. by apply Permutation_cons_inv in Hp.
Qed.

(** ** Lemmas on [js_set] *)

Section js_set.
Context {A : Type} `{!EqDecision A}.
Implicit Types l acc : list A.

Lemma set_add_fold_elem l acc x : x ∈ foldl set_add acc l <-> x ∈ acc \/ x ∈ l.
Proof.
  revert acc. induction l as [|y l IH]; intros acc; cbn; [set_solver|].
  rewrite IH. unfold set_add. case_decide; set_solver.
Qed.

Lemma elem_of_js_set l x : x ∈ js_set l <-> x ∈ l.
Proof. unfold js_set. rewrite set_add_fold_elem. set_solver. Qed.

Lemma set_add_fold_NoDup l acc : NoDup acc -> NoDup (foldl set_add acc l).
Proof.
  revert acc. induction l as [|y l IH]; intros acc Hacc; cbn; [done|].
  apply IH. unfold set_add. case_decide; [done|].
  apply NoDup_app. split_and!; [done| set_solver | apply NoDup_singleton].
Qed.

Lemma js_set_NoDup l : NoDup (js_set l).
Proof. apply set_add_fold_NoDup. constructor. Qed.

Lemma set_add_fold_id l acc : NoDup (acc ++ l) -> foldl set_add acc l = acc ++ l.
Proof.
  revert acc. induction l as [|y l IH]; intros acc H; cbn; [by rewrite app_nil_r|].
  unfold set_add at 2. rewrite decide_False.
  - rewrite IH; rewrite <- app_assoc; done.
  - apply NoDup_app in H as (_ & Hd & _). intros Hy. apply (Hd y Hy). by left.
Qed.

Lemma js_set_id l : NoDup l -> js_set l = l.
Proof. apply (set_add_fold_id l []). Qed.

Lemma js_set_idemp l : js_set (js_set l) = js_set l.
Proof. apply js_set_id, js_set_NoDup. Qed.

Lemma js_set_length l : length (js_set l) <= length l.
Proof.
  apply submseteq_length, NoDup_submseteq; [apply js_set_NoDup|].
  intros x. by rewrite elem_of_js_set.
Qed.

Lemma includes_true l x : includes l x = true <-> x ∈ l.
Proof. apply bool_decide_eq_true. Qed.
End js_set.

(** ** Lemmas on [Map] *)

Section js_map.
Context {K V : Type} `{!EqDecision K}.
Implicit Types m : list (K * V).

Lemma map_get_set k v m k' :
  map_get k' (map_set k v m) = if decide (k = k') then Some v else map_get k' m.
Proof.
  induction m as [|[k1 v1] m IH]; cbn; [by case_all|].
  destruct (decide (k1 = k)) as [->|Hne]; cbn; case_all; subst; congruence.
Qed.

Lemma map_get_set_eq k v m : map_get k (map_set k v m) = Some v.
Proof. rewrite map_get_set. by rewrite decide_True. Qed.

Lemma map_get_set_ne k k' v m : k <> k' -> map_get k' (map_set k v m) = map_get k' m.
Proof. intros H. rewrite map_get_set. by rewrite decide_False. Qed.

Lemma map_set_keys k v m :
  (map_set k v m).*1 = if decide (k ∈ m.*1) then m.*1 else m.*1 ++ [k].
Proof.
  induction m as [|[k1 v1] m IH]; cbn; [by rewrite decide_False by set_solver|].
  destruct (decide (k1 = k)) as [->|Hne]; cbn.
  - by rewrite decide_True by (by left).
  - rewrite IH. case_all; set_solver.
Qed.

Lemma map_set_NoDup k v m : NoDup m.*1 -> NoDup (map_set k v m).*1.
Proof.
  intros H. rewrite map_set_keys. case_decide; [done|].
  apply NoDup_app. split_and!; [done| set_solver | apply NoDup_singleton].
Qed.

Lemma map_get_elem k v m : NoDup m.*1 -> (k, v) ∈ m <-> map_get k m = Some v.
Proof.
  induction m as [|[k1 v1] m IH]; cbn; [set_solver|].
  rewrite NoDup_cons, elem_of_cons. intros [Hk Hm].
  case_decide as Hd; subst.
  - split; [|intros [= ->]; by left].
    intros [[= ->]|Hin]; [done|]. exfalso. apply Hk.
    apply list_elem_of_fmap. by exists (k, v).
  - rewrite <- IH by done. split; [|tauto]. intros [[= -> ->]|?]; done.
Qed.

Lemma map_get_None k m : map_get k m = None <-> k ∉ m.*1.
Proof.
  induction m as [|[k1 v1] m IH]; cbn; [set_solver|].
  case_decide; subst; [split; [done|set_solver]|]. rewrite IH. set_solver.
Qed.

Lemma map_get_delete k k' m :
  map_get k' (map_delete k m) = if decide (k = k') then None else map_get k' m.
Proof.
  unfold map_delete. induction m as [|[k1 v1] m IH]; cbn; [by case_all|].
  case_bool_decide; cbn; case_all; subst; try congruence.
Qed.

Lemma map_delete_absent k m : map_get k m = None -> map_delete k m = m.
Proof.
  unfold map_delete. induction m as [|[k1 v1] m IH]; cbn; [done|].
  case_decide; [done|]. rewrite bool_decide_false by done. cbn. intros Hm. by rewrite IH.
Qed.
End js_map.

#[export] Hint Resolve js_set_NoDup map_set_NoDup bfilter_NoDup js_sort_perm : jsdb.
