(* ===== verification/JsString.v ===== *)
(** * JavaScript strings

    A JavaScript string is a finite sequence of 16-bit code units; it is a
    [list N] here, so that every list lemma applies to it.  [u "text"] decodes
    a UTF-8 literal into code units.  The operations are the ones the
    components use: [trim], [split] on a one-unit separator, [join],
    [indexOf], [slice], [startsWith], decimal printing and [parseInt]. *)

From S2P Require Import Prelude.
From Stdlib Require Ascii String.
Export String.StringSyntax.
Delimit Scope string_scope with string.

Open Scope N_scope.

Abbreviation jsstr := (list N) (only parsing).

(** ** Literals *)

(** UTF-8 to UTF-16.  [acc] is the partial scalar value and [k] the number of
    continuation bytes still expected. *)
Definition utf16 (c : N) : list N :=
  if c <? 65536 then [c]
  else let d := c - 65536 in [55296 + d / 1024; 56320 + d mod 1024].

Fixpoint utf8_decode (k : nat) (acc : N) (s : String.string) : list N :=
  match s with
  | String.EmptyString => []
  | String.String a s' =>
      let b := Ascii.N_of_ascii a in
      match k with
      | 0%nat =>
          if b <? 128 then b :: utf8_decode 0 0 s'
          else if b <? 224 then utf8_decode 1 (b - 192) s'
          else if b <? 240 then utf8_decode 2 (b - 224) s'
          else utf8_decode 3 (b - 240) s'
      | 1%nat => (utf16 (acc * 64 + (b - 128)) ++ utf8_decode 0 0 s')%list
      | S k' => utf8_decode k' (acc * 64 + (b - 128)) s'
      end
  end.

Definition u (s : String.string) : jsstr := utf8_decode 0 0 s.
Arguments u s%_string.

(** ** White space: the set that [String.prototype.trim] and [\s] share *)

Definition is_ws (c : N) : bool :=
  ((9 <=? c) && (c <=? 13)) || (c =? 32) || (c =? 160) || (c =? 5760)
  || ((8192 <=? c) && (c <=? 8202)) || (c =? 8232) || (c =? 8233)
  || (c =? 8239) || (c =? 8287) || (c =? 12288) || (c =? 65279).

Fixpoint trim_start (s : jsstr) : jsstr :=
  match s with
  | [] => []
  | c :: s' => if is_ws c then trim_start s' else s
  end.

Definition trim_end (s : jsstr) : jsstr := rev (trim_start (rev s)).

Definition trim (s : jsstr) : jsstr := trim_end (trim_start s).

(** [l.length > 0] *)
Definition truthy_list {A} (l : list A) : bool :=
  match l with [] => false | _ => true end.

(** A string is truthy when it is not empty. *)
Definition truthy (s : jsstr) : bool :=
  match s with [] => false | _ => true end.

(** [a || b] on strings. *)
Definition or_str (a b : jsstr) : jsstr := if truthy a then a else b.

(** [s?] truthy, for an optional string. *)
Definition truthy_opt (s : option jsstr) : bool :=
  match s with Some s => truthy s | None => false end.

(** ** [split] on a one-unit separator and [join] *)

Fixpoint split_on (c : N) (s : jsstr) : list jsstr :=
  match s with
  | [] => [[]]
  | x :: s' =>
      if x =? c then [] :: split_on c s'
      else match split_on c s' with
           | [] => [[x]]
           | p :: ps => (x :: p) :: ps
           end
  end.

Fixpoint join (sep : jsstr) (l : list jsstr) : jsstr :=
  match l with
  | [] => []
  | [s] => s
  | s :: l' => s ++ sep ++ join sep l'
  end.

(** ** Searching *)

Fixpoint starts_with (p s : jsstr) : bool :=
  match p, s with
  | [], _ => true
  | a :: p', b :: s' => (a =? b) && starts_with p' s'
  | _ :: _, [] => false
  end.

(** [s.indexOf(p)], [None] for -1. *)
Fixpoint index_of (p s : jsstr) : option nat :=
  if starts_with p s then Some 0%nat
  else match s with
       | [] => None
       | _ :: s' => S <$> index_of p s'
       end.

(** [s.indexOf(p, from)], a position of [s]. *)
Definition index_from (p s : jsstr) (from : nat) : option nat :=
  Nat.add from <$> index_of p (drop from s).

Definition str_includes (s p : jsstr) : bool :=
  match index_of p s with Some _ => true | None => false end.

(** [s.substring(i, j)] for [i <= j], and [s.slice(-n)] for [n > 0]. *)
Definition substring (s : jsstr) (i j : nat) : jsstr := take (j - i) (drop i s).

Definition slice_last (n : nat) (s : jsstr) : jsstr := drop (length s - n) s.

(** [s.replace(/c/g, '')] for a class [c] of code units. *)
Definition remove_class (p : N -> bool) (s : jsstr) : jsstr :=
  bfilter (fun c => negb (p c)) s.

(** [s.replace(/\s+/g, ' ')] *)
Fixpoint collapse_ws (in_ws : bool) (s : jsstr) : jsstr :=
  match s with
  | [] => []
  | c :: s' =>
      if is_ws c then (if in_ws then collapse_ws true s' else 32 :: collapse_ws true s')
      else c :: collapse_ws false s'
  end.

(** ** Decimal digits *)

Definition is_digit (c : N) : bool := (48 <=? c) && (c <=? 57).

(** [/^\d+$/.test(s)] *)
Definition all_digits (s : jsstr) : bool := truthy s && forallb is_digit s.

(** The digits a string starts with, and the rest. *)
Fixpoint span_digits (s : jsstr) : jsstr * jsstr :=
  match s with
  | [] => ([], [])
  | c :: s' =>
      if is_digit c then let '(d, r) := span_digits s' in (c :: d, r) else ([], s)
  end.

(** [Number.parseInt(s, 10)] of a digit string. *)
Definition digits_val (s : jsstr) : N := foldl (fun acc c => 10 * acc + (c - 48)) 0 s.

(** Decimal printing; [fuel] bounds the number of digits. *)
Fixpoint print_digits (fuel : nat) (n : N) : jsstr :=
  match fuel with
  | 0%nat => []
  | S f => if n <? 10 then [48 + n] else print_digits f (n / 10) ++ [48 + n mod 10]
  end.

Definition N_to_str (n : N) : jsstr := print_digits (S (N.to_nat (N.log2 n))) n.

Definition Z_to_str (z : Z) : jsstr :=
  match z with
  | Zneg p => u "-" ++ N_to_str (Npos p)
  | _ => N_to_str (Z.to_N z)
  end.

(** The default order of [Array.prototype.sort] on strings: by code units. *)
Fixpoint str_compare (a b : jsstr) : comparison :=
  match a, b with
  | [], [] => Eq
  | [], _ => Lt
  | _, [] => Gt
  | x :: a', y :: b' =>
      match x ?= y with
      | Eq => str_compare a' b'
      | c => c
      end
  end.

Definition str_cmp (a b : jsstr) : Z :=
  match str_compare a b with Lt => -1 | Eq => 0 | Gt => 1 end%Z.

(** ** Lemmas: [trim] *)

Definition ws_free_ends (s : jsstr) : Prop :=
  (forall c, head s = Some c -> is_ws c = false) /\
  (forall c, last s = Some c -> is_ws c = false).

Lemma trim_start_suffix s : exists w, s = w ++ trim_start s /\ forallb is_ws w = true.
Proof.
  induction s as [|c s IH]; cbn; [by exists []|].
  destruct (is_ws c) eqn:Hc; [|by exists []].
  destruct IH as (w & Hw & Hall). exists (c :: w). cbn. rewrite Hc. by rewrite Hw at 1.
Qed.

Lemma trim_start_head s c : head (trim_start s) = Some c -> is_ws c = false.
Proof.
  induction s as [|x s IH]; cbn; [done|]. destruct (is_ws x) eqn:Hx; [done|].
  cbn. by intros [= <-].
Qed.

Lemma trim_start_id s : (forall c, head s = Some c -> is_ws c = false) -> trim_start s = s.
Proof. destruct s as [|c s]; cbn; [done|]. intros H. by rewrite (H c). Qed.

Lemma last_rev (s : jsstr) : last (rev s) = head s.
Proof.
  destruct s as [|c s]; cbn; [done|]. by rewrite last_snoc.
Qed.

Lemma head_rev (s : jsstr) : head (rev s) = last s.
Proof. by rewrite <- (rev_involutive s) at 2; rewrite last_rev. Qed.

Lemma trim_end_id s : (forall c, last s = Some c -> is_ws c = false) -> trim_end s = s.
Proof.
  intros H. unfold trim_end. rewrite trim_start_id; [apply rev_involutive|].
  intros c. by rewrite head_rev; auto.
Qed.

Lemma trim_id s : ws_free_ends s -> trim s = s.
Proof.
  intros [Hh Hl]. unfold trim. rewrite trim_start_id by done. by apply trim_end_id.
Qed.

Lemma trim_end_last s c : last (trim_end s) = Some c -> is_ws c = false.
Proof. unfold trim_end. rewrite last_rev. apply trim_start_head. Qed.

Lemma trim_end_prefix s : exists w, s = trim_end s ++ w /\ forallb is_ws w = true.
Proof.
  unfold trim_end. destruct (trim_start_suffix (rev s)) as (w & Hw & Hall).
  exists (rev w). split.
  - rewrite <- (rev_involutive s) at 1. rewrite Hw at 1. by rewrite rev_app_distr.
  - rewrite forallb_forall in *. intros x Hx. apply Hall. by apply in_rev.
Qed.

Lemma trim_end_head s c : head (trim_end s) = Some c -> head s = Some c.
Proof.
  destruct (trim_end_prefix s) as (w & Hw & _). intros H. rewrite Hw.
  destruct (trim_end s); cbn in *; done.
Qed.

Lemma trim_ends s : ws_free_ends (trim s).
Proof.
  split; unfold trim.
  - intros c H%trim_end_head. by eapply trim_start_head.
  - intros c. apply trim_end_last.
Qed.

Lemma trim_idemp s : trim (trim s) = trim s.
Proof. apply trim_id, trim_ends. Qed.

Lemma ws_free_no_ws s : forallb (fun c => negb (is_ws c)) s = true -> ws_free_ends s.
Proof.
  rewrite forallb_forall. intros H. split; intros c Hc; apply negb_true_iff, H, list_elem_of_In.
  - by apply head_Some_elem_of.
  - by apply last_Some_elem_of.
Qed.

Lemma trim_start_snoc s c : trim_start (s ++ [c]) = if truthy (trim_start s) then trim_start s ++ [c] else trim_start [c].
Proof. induction s as [|d s IH]; [done|]. cbn [app trim_start]. by destruct (is_ws d). Qed.

Lemma trim_end_snoc s c : is_ws c = true -> trim_end (s ++ [c]) = trim_end s.
Proof. intros Hc. unfold trim_end. rewrite rev_app_distr. cbn. by rewrite Hc. Qed.

(** White space typed at the end is trimmed. *)
Lemma trim_snoc s c : is_ws c = true -> trim (s ++ [c]) = trim s.
Proof.
  intros Hc. unfold trim. rewrite trim_start_snoc. destruct (trim_start s) eqn:E; cbn [truthy]; [|by apply trim_end_snoc].
  cbn. by rewrite Hc.
Qed.

Lemma trim_split s : exists w1 w2,
  s = w1 ++ trim s ++ w2 /\ forallb is_ws w1 = true /\ forallb is_ws w2 = true.
Proof.
  destruct (trim_start_suffix s) as (w1 & H1 & Hw1).
  destruct (trim_end_prefix (trim_start s)) as (w2 & H2 & Hw2).
  exists w1, w2. split; [|done]. unfold trim. by rewrite <- H2.
Qed.

Lemma elem_of_trim s c : c ∈ trim s -> c ∈ s.
Proof.
  destruct (trim_split s) as (w1 & w2 & Hs & _). intros H. rewrite Hs. set_solver.
Qed.

(** ** Lemmas: [split] and [join] *)

Lemma split_on_no_sep c s : c ∉ s -> split_on c s = [s].
Proof.
  induction s as [|x s IH]; cbn; [done|]. intros H.
  rewrite (proj2 (N.eqb_neq x c)) by (intros ->; set_solver).
  by rewrite IH by set_solver.
Qed.

Lemma split_on_app c s t : c ∉ s -> split_on c (s ++ c :: t) = s :: split_on c t.
Proof.
  induction s as [|x s IH]; cbn; intros H; [by rewrite N.eqb_refl|].
  rewrite (proj2 (N.eqb_neq x c)) by (intros ->; set_solver).
  by rewrite IH by set_solver.
Qed.

Lemma split_join c l :
  l <> [] -> Forall (fun s => c ∉ s) l -> split_on c (join [c] l) = l.
Proof.
  intros Hne. induction 1 as [|s l Hs Hl IH]; [done|].
  destruct l as [|s' l']; cbn; [by apply split_on_no_sep|].
  rewrite split_on_app by done. f_equal. by apply IH.
Qed.

Lemma split_on_ne c s : split_on c s <> [].
Proof.
  destruct s as [|x s]; cbn; [done|]. destruct (x =? c); [done|].
  by destruct (split_on c s).
Qed.

Lemma split_on_parts c s p : p ∈ split_on c s -> c ∉ p.
Proof.
  revert p. induction s as [|x s IH]; intros p; cbn.
  { intros ->%list_elem_of_singleton. apply not_elem_of_nil. }
  destruct (N.eqb_spec x c) as [->|Hne].
  - intros [->|H]%elem_of_cons; [apply not_elem_of_nil|auto].
  - destruct (split_on c s) as [|q qs] eqn:Hq.
    + by apply split_on_ne in Hq.
    + intros [->|H]%elem_of_cons; [|by apply IH; right].
      rewrite elem_of_cons. intros [->|H]; [done|]. eapply IH; [|exact H]. by left.
Qed.

Lemma join_split c s : join [c] (split_on c s) = s.
Proof.
  induction s as [|x s IH]; cbn; [done|].
  destruct (N.eqb_spec x c) as [->|Hne].
  - pose proof (split_on_ne c s). destruct (split_on c s); [done|]. cbn. by rewrite <- IH.
  - pose proof (split_on_ne c s). destruct (split_on c s) as [|q [|q' qs]]; [done| |].
    + cbn in *. by rewrite IH.
    + cbn in *. by rewrite <- IH.
Qed.

Lemma join_cons sep a b l : join sep (a :: b :: l) = a ++ sep ++ join sep (b :: l).
Proof. done. Qed.

Lemma join_elem sep l c : c ∈ join sep l -> c ∈ sep \/ exists s, s ∈ l /\ c ∈ s.
Proof.
  induction l as [|s l IH]; [set_solver|].
  destruct l as [|s' l'].
  - cbn. intros H. right. exists s. set_solver.
  - change (join sep (s :: s' :: l')) with (s ++ sep ++ join sep (s' :: l')).
    rewrite !elem_of_app. intros [H|[H|H]].
    + right. exists s. set_solver.
    + by left.
    + destruct (IH H) as [?|(t & Ht & Hc)]; [by left|].
      right. exists t. split; [by right|done].
Qed.

(** ** Lemmas: searching *)

Lemma starts_with_spec p s : starts_with p s = true <-> exists t, s = p ++ t.
Proof.
  revert s. induction p as [|a p IH]; intros s; cbn.
  - split; [|done]. intros _. by exists s.
  - destruct s as [|b s]; [split; [done|intros (t & Ht); done]|].
    rewrite andb_true_iff, N.eqb_eq, IH. split.
    + intros [-> (t & ->)]. by exists t.
    + intros (t & [= -> ->]). split; [done|]. by exists t.
Qed.

Lemma starts_with_app p t : starts_with p (p ++ t) = true.
Proof. apply starts_with_spec. by exists t. Qed.

Lemma index_of_Some p s i :
  index_of p s = Some i -> starts_with p (drop i s) = true /\ (i <= length s)%nat.
Proof.
  revert i. induction s as [|x s IH]; intros i; cbn; destruct (starts_with p _) eqn:Hs.
  - intros [= <-]. cbn. by rewrite Hs.
  - done.
  - intros [= <-]. cbn. rewrite Hs. split; [done|lia].
  - destruct (index_of p s) as [j|]; [|done]. intros [= <-]. cbn.
    destruct (IH j eq_refl). split; [done|lia].
Qed.

Lemma index_of_Some_length p s i :
  index_of p s = Some i -> (i + length p <= length s)%nat.
Proof.
  intros [H Hi]%index_of_Some. apply starts_with_spec in H as (t & Ht).
  apply (f_equal length) in Ht. rewrite length_app, length_drop in Ht. lia.
Qed.

(** An occurrence of [p] cannot start inside [v] and end after it when the
    first unit of [p] occurs only once in [p]. *)
Lemma index_of_app c p v t :
  c ∉ p -> index_of (c :: p) v = None ->
  index_of (c :: p) (v ++ (c :: p) ++ t) = Some (length v).
Proof.
  intros Hc. induction v as [|x v IH]; intros Hv.
  - change (index_of (c :: p) ((c :: p) ++ t) = Some 0%nat).
    destruct t as [|y t]; cbn [index_of]; cbn [app].
    + rewrite app_nil_r. unfold index_of. rewrite <-(app_nil_r (c :: p)) at 2.
      by rewrite starts_with_app.
    + unfold index_of. change (c :: p ++ y :: t) with ((c :: p) ++ y :: t). by rewrite starts_with_app.
  - cbn [index_of] in Hv. destruct (starts_with (c :: p) (x :: v)) eqn:Hs; [done|].
    destruct (index_of (c :: p) v) eqn:Hi; [done|]. specialize (IH eq_refl).
    change ((x :: v) ++ (c :: p) ++ t) with (x :: (v ++ (c :: p) ++ t)).
    cbn [index_of]. rewrite IH.
    destruct (starts_with (c :: p) (x :: v ++ (c :: p) ++ t)) eqn:Hs'; [|done].
    exfalso. apply starts_with_spec in Hs' as (w & Hw).
    change (x :: v ++ (c :: p) ++ t) with ((x :: v) ++ ((c :: p) ++ t)) in Hw.
    apply app_eq_inv in Hw as [(k & Hk & Hw)|(k & Hk & Hw)].
    + pose proof (starts_with_app (c :: p) k) as Ht. cbn [app] in Ht, Hk.
      rewrite <-Hk in Ht. congruence.
    + destruct k as [|y k].
      * rewrite app_nil_r in Hk. pose proof (starts_with_app (c :: p) []) as Ht.
        rewrite app_nil_r in Ht. congruence.
      * change ((c :: p) ++ t) with (c :: (p ++ t)) in Hw. injection Hw as <- _.
        injection Hk as _ Hk. apply Hc. rewrite Hk. set_solver.
Qed.

Lemma starts_with_take p s i : starts_with p (take i s) = true -> starts_with p s = true.
Proof.
  intros (t & Ht)%starts_with_spec. apply starts_with_spec.
  exists (t ++ drop i s). by rewrite app_assoc, <-Ht, take_drop.
Qed.

(** [indexOf] finds the first occurrence. *)
Lemma index_of_first p s i :
  p <> [] -> index_of p s = Some i ->
  s = take i s ++ p ++ drop (i + length p) s /\ index_of p (take i s) = None.
Proof.
  intros Hp Hi. split.
  - destruct (index_of_Some _ _ _ Hi) as [(t & Ht)%starts_with_spec _].
    rewrite <-(take_drop i s) at 1. rewrite <-(drop_drop s (length p) i), Ht.
    by rewrite drop_app_length.
  - revert i Hi. induction s as [|x s IH]; intros i; cbn [index_of].
    + destruct (starts_with p []) eqn:Hs; [|done]. by destruct p.
    + destruct (starts_with p (x :: s)) eqn:Hs.
      * intros [= <-]. cbn. by destruct p.
      * destruct (index_of p s) as [j|] eqn:Hj; [|done]. intros [= <-]. cbn [take index_of].
        destruct (starts_with p (x :: take j s)) eqn:Ht.
        -- change (x :: take j s) with (take (S j) (x :: s)) in Ht.
           apply starts_with_take in Ht. congruence.
        -- by rewrite (IH j).
Qed.

(** ** Lemmas: digits *)

Lemma print_digits_digit f n c : c ∈ print_digits f n -> is_digit c = true.
Proof.
  revert n. induction f as [|f IH]; intros n; cbn [print_digits]; [set_solver|].
  destruct (N.ltb_spec n 10).
  - intros ->%list_elem_of_singleton. unfold is_digit. apply andb_true_iff.
    rewrite !N.leb_le. lia.
  - intros [Hc|Hc]%elem_of_app; [eauto|].
    apply list_elem_of_singleton in Hc as ->. unfold is_digit. apply andb_true_iff.
    rewrite !N.leb_le. pose proof (N.mod_lt n 10 ltac:(done)) as Hm.
    clear -Hm. revert Hm. generalize (n mod 10). lia.
Qed.

Lemma print_digits_val f n : (N.log2 n < N.of_nat f) -> digits_val (print_digits f n) = n.
Proof.
  revert n. induction f as [|f IH]; intros n Hf; [lia|]. cbn [print_digits].
  destruct (N.ltb_spec n 10) as [Hn|Hn].
  - unfold digits_val. cbn. lia.
  - unfold digits_val. rewrite foldl_app. fold (digits_val (print_digits f (n / 10))).
    rewrite IH.
    + cbn [foldl]. pose proof (N.div_mod n 10 ltac:(done)) as Hm.
      clear -Hm. revert Hm. generalize (n mod 10), (n / 10). lia.
    + assert (N.log2 (n / 10) < N.log2 n); [|lia].
      assert (N.log2 (n / 10) <= N.log2 (n / 2)).
      { apply N.log2_le_mono. apply N.div_le_compat_l. lia. }
      rewrite <- N.div2_div, N.div2_spec, N.log2_shiftr in H.
      pose proof (N.log2_pos n). lia.
Qed.

Lemma N_to_str_val n : digits_val (N_to_str n) = n.
Proof. apply print_digits_val. lia. Qed.

Lemma N_to_str_ne n : N_to_str n <> [].
Proof.
  unfold N_to_str. cbn. destruct (n <? 10); [done|]. intros H. by apply app_nil in H as [_ ?].
Qed.

Lemma N_to_str_digits n : all_digits (N_to_str n) = true.
Proof.
  unfold all_digits. apply andb_true_iff. split.
  - pose proof (N_to_str_ne n). by destruct (N_to_str n).
  - apply forallb_forall. intros c Hc%list_elem_of_In. by eapply print_digits_digit.
Qed.

Lemma is_digit_range c : is_digit c = true <-> 48 <= c <= 57.
Proof. unfold is_digit. rewrite andb_true_iff, !N.leb_le. done. Qed.

Lemma is_digit_not_ws c : is_digit c = true -> is_ws c = false.
Proof.
  rewrite is_digit_range. intros H. unfold is_ws.
  rewrite !orb_false_iff, !andb_false_iff, !N.leb_gt, !N.eqb_neq. lia.
Qed.

Lemma all_digits_elem s c : all_digits s = true -> c ∈ s -> is_digit c = true.
Proof.
  unfold all_digits. rewrite andb_true_iff, forallb_forall. intros [_ H] Hc.
  by apply H, list_elem_of_In.
Qed.

(** ** Lemmas: the code-unit order *)

Lemma str_compare_eq a b : str_compare a b = Eq <-> a = b.
Proof.
  revert b. induction a as [|x a IH]; intros [|y b]; cbn; try done.
  destruct (N.compare_spec x y) as [->|H|H].
  - rewrite IH. split; [by intros ->|by intros [= ->]].
  - split; [done|]. intros [= ->]. lia.
  - split; [done|]. intros [= ->]. lia.
Qed.

Lemma str_compare_antisym a b : str_compare b a = CompOpp (str_compare a b).
Proof.
  revert b. induction a as [|x a IH]; intros [|y b]; cbn; try done.
  rewrite (N.compare_antisym x y). destruct (x ?= y); cbn; auto.
Qed.

Lemma str_compare_lt_trans a b c :
  str_compare a b = Lt -> str_compare b c = Lt -> str_compare a c = Lt.
Proof.
  revert b c. induction a as [|x a IH]; intros [|y b] [|z c]; cbn; try done.
  destruct (N.compare_spec x y), (N.compare_spec y z), (N.compare_spec x z);
    subst; try done; try lia; eauto.
Qed.

Definition str_le (a b : jsstr) : Prop := str_compare a b <> Gt.

Lemma str_le_antisym a b : str_le a b -> str_le b a -> a = b.
Proof.
  unfold str_le. rewrite (str_compare_antisym a b). intros H1 H2.
  apply str_compare_eq. by destruct (str_compare a b).
Qed.

Lemma str_le_trans : Transitive str_le.
Proof.
  intros a b c. unfold str_le. intros H1 H2 H3.
  destruct (str_compare a b) eqn:Hab; [apply str_compare_eq in Hab as ->; done| |done].
  destruct (str_compare b c) eqn:Hbc; [apply str_compare_eq in Hbc as ->; congruence| |done].
  rewrite (str_compare_lt_trans _ _ _ Hab Hbc) in H3. done.
Qed.

#[export] Instance str_cmp_sorts : SortsBy str_cmp str_le.
Proof.
  split; [apply str_le_trans| |]; intros x y; unfold str_cmp, str_le.
  - destruct (str_compare x y) eqn:H; intros; [done..|lia].
  - rewrite (str_compare_antisym x y). destruct (str_compare x y) eqn:H; intros; cbn; done.
Qed.

#[export] Hint Resolve trim_idemp trim_ends N_to_str_digits : jsdb.
