(* ===== verification/JsNumber.v ===== *)
(** * JavaScript numbers

    A JavaScript number is an IEEE-754 binary64 value.  [number] is the
    standard library's executable specification of it ([SpecFloat], precision
    53 and maximal exponent 1024), so every product, quotient and comparison
    of the components is computed with the rounding JavaScript has.  Integers
    that the code only counts, compares or indexes with stay [Z] or [nat] in
    the components.

    Decimal input ([Number(text)]) is exact division followed by one rounding,
    which is what ECMAScript's [StringToNumber] asks for. *)

From S2P Require Import Prelude JsString.
From Stdlib Require Export SpecFloat.

Open Scope Z_scope.

Abbreviation number := spec_float (only parsing).

Definition prec : Z := 53.
Definition emax : Z := 1024.

#[export] Instance number_eq_dec : EqDecision number.
Proof. solve_decision. Defined.

(** ** Constants and conversions *)

Definition NaN : number := S754_nan.
Definition Infinity : number := S754_infinity false.

Definition num_of_Z (z : Z) : number := binary_normalize prec emax z 0 false.

(** The number nearest to [m * 10^e], [e] any integer. *)
Definition num_of_decimal (m e : Z) : number :=
  match m with
  | Z0 => S754_zero false
  | _ =>
      if 0 <=? e then num_of_Z (m * 10 ^ e)
      else
        let '(q, e', l) := SFdiv_core_binary prec emax (Z.abs m) 0 (10 ^ (- e)) 0 in
        binary_round_aux prec emax (m <? 0) q e' l
  end.

(** ** Arithmetic *)

Definition num_add (x y : number) : number := SFadd prec emax x y.
Definition num_sub (x y : number) : number := SFsub prec emax x y.
Definition num_mul (x y : number) : number := SFmul prec emax x y.
Definition num_div (x y : number) : number := SFdiv prec emax x y.
Definition num_opp (x : number) : number := SFopp x.
Definition num_abs (x : number) : number := SFabs x.

(** ** Comparisons *)

Definition num_eq (x y : number) : bool := SFeqb x y.
Definition num_lt (x y : number) : bool := SFltb x y.
Definition num_le (x y : number) : bool := SFleb x y.
Definition num_gt (x y : number) : bool := SFltb y x.
Definition num_ge (x y : number) : bool := SFleb y x.

Definition is_nan (x : number) : bool :=
  match x with S754_nan => true | _ => false end.

(** [Number.isFinite] *)
Definition is_finite (x : number) : bool :=
  match x with S754_zero _ | S754_finite _ _ _ => true | _ => false end.

(** The value of an integral number ([Number.isInteger]). *)
Definition num_int (x : number) : option Z :=
  match x with
  | S754_zero _ => Some 0
  | S754_finite s m e =>
      let a := if 0 <=? e then Some (Zpos m * 2 ^ e)
               else if Zpos m mod 2 ^ (- e) =? 0 then Some (Zpos m / 2 ^ (- e)) else None in
      (if s then Z.opp else id) <$> a
  | _ => None
  end.

(** A number is falsy when it is a zero or [NaN]. *)
Definition num_truthy (x : number) : bool :=
  match x with S754_zero _ | S754_nan => false | _ => true end.

(** [Math.max(x, y)]: [NaN] wins, and [+0] is above [-0]. *)
Definition num_max (x y : number) : number :=
  if is_nan x || is_nan y then NaN
  else if num_lt x y then y
  else match x, y with
       | S754_zero true, S754_zero _ => y
       | _, _ => x
       end.

Declare Scope num_scope.
Delimit Scope num_scope with num.
Infix "+" := num_add : num_scope.
Infix "-" := num_sub : num_scope.
Infix "*" := num_mul : num_scope.
Infix "/" := num_div : num_scope.

(** ** [Math.floor], [Math.round] and the remainder *)

(** [floor (m * 2^e)] of a signed mantissa, [e] negative *)
Definition floor_shift (z e : Z) : Z := z / 2 ^ (- e).

Definition signed (s : bool) (m : positive) : Z := if s then Zneg m else Zpos m.

Definition num_floor (x : number) : number :=
  match x with
  | S754_finite s m e => if 0 <=? e then x else num_of_Z (floor_shift (signed s m) e)
  | _ => x
  end.

(** The nearest integer, the larger one on a tie; [-0] when a negative number
    rounds to zero. *)
Definition num_round (x : number) : number :=
  match x with
  | S754_finite s m e =>
      if 0 <=? e then x
      else
        let z := floor_shift (2 * signed s m + 2 ^ (- e)) (e - 1) in
        if z =? 0 then S754_zero s else num_of_Z z
  | _ => x
  end.

(** [x % y]: exact, with the sign of [x] *)
Definition num_rem (x y : number) : number :=
  match x, y with
  | S754_nan, _ | _, S754_nan | S754_infinity _, _ | _, S754_zero _ => NaN
  | _, S754_infinity _ | S754_zero _, _ => x
  | S754_finite s m1 e1, S754_finite _ m2 e2 =>
      let e := Z.min e1 e2 in
      let r := (Zpos m1 * 2 ^ (e1 - e)) mod (Zpos m2 * 2 ^ (e2 - e)) in
      if r =? 0 then S754_zero s
      else binary_normalize prec emax (if s then - r else r) e false
  end.

Example round_half : num_round (num_of_decimal (-25) (-1)) = num_of_Z (-2) /\ num_round (num_of_decimal 25 (-1)) = num_of_Z 3.
Proof. split; vm_compute; reflexivity. Qed.

Example rem_mixed : num_rem (num_of_decimal (-755) (-1)) (num_of_Z 60) = num_of_decimal (-155) (-1).
Proof. vm_compute. reflexivity. Qed.

(** ** Printing: [Number.prototype.toString] and [toFixed] *)

(** [floor (m * 2^e * 10^k)] *)
Definition scaled_floor (m : positive) (e k : Z) : Z :=
  let num := (if 0 <=? k then Zpos m * 10 ^ k else Zpos m) in
  let num := (if 0 <=? e then num * 2 ^ e else num) in
  let den := (if 0 <=? k then 1 else 10 ^ (- k)) in
  let den := (if 0 <=? e then den else den * 2 ^ (- e)) in
  num / den.

(** The [n] with [10^(n-1) <= m * 2^e < 10^n]; 330 exceeds the number of
    leading zeros of the smallest positive number. *)
Definition decimal_exponent (m : positive) (e : Z) : Z :=
  Z.of_nat (length (N_to_str (Z.to_N (scaled_floor m e 330)))) - 330.

(** Of two candidates the one closer to the number, the lower one on a tie. *)
Definition closer (m : positive) (e k lo : Z) : Z :=
  if 2 * (scaled_floor m e (k + 30) - lo * 10 ^ 30) <=? 10 ^ 30 then lo else lo + 1.

(** The shortest decimal [s * 10^(n-k)] that reads back as the number: digits
    are tried from 1 to 17, which always suffices for binary64. *)
Fixpoint shortest (fuel : nat) (x : number) (m : positive) (e n k : Z) : Z * Z * Z :=
  let lo := scaled_floor m e (k - n) in
  let ok s := bool_decide (num_of_decimal s (n - k) = x) in
  let pick s := if s =? 10 ^ k then (10 ^ (k - 1), n + 1, k) else (s, n, k) in
  match fuel with
  | 0%nat => pick lo
  | S f =>
      match ok lo, ok (lo + 1) with
      | true, true => pick (closer m e (k - n) lo)
      | true, false => pick lo
      | false, true => pick (lo + 1)
      | false, false => shortest f x m e n (k + 1)
      end
  end.

Definition zeros (n : Z) : jsstr := repeat 48%N (Z.to_nat n).

Definition format_digits (s n k : Z) : jsstr :=
  let ds := N_to_str (Z.to_N s) in
  if (k <=? n) && (n <=? 21) then ds ++ zeros (n - k)
  else if (0 <? n) && (n <=? 21) then take (Z.to_nat n) ds ++ u "." ++ drop (Z.to_nat n) ds
  else if (-6 <? n) && (n <=? 0) then u "0." ++ zeros (- n) ++ ds
  else
    let ex := n - 1 in
    let tail := u "e" ++ (if ex <? 0 then u "-" else u "+") ++ N_to_str (Z.to_N (Z.abs ex)) in
    match ds with
    | d :: (_ :: _) as rest => [d] ++ u "." ++ drop 1 ds ++ tail
    | _ => ds ++ tail
    end.

Definition num_to_str (x : number) : jsstr :=
  match x with
  | S754_nan => u "NaN"
  | S754_zero _ => u "0"
  | S754_infinity s => (if s then u "-" else []) ++ u "Infinity"
  | S754_finite s m e =>
      let '(d, n, k) := shortest 17 (S754_finite false m e) m e (decimal_exponent m e) 1 in
      (if s then u "-" else []) ++ format_digits d n k
  end.

(** ** Reading: [Number(text)] *)

(** [[eE][+-]?digits], or nothing, up to the end of the text. *)
Definition read_exponent (s : jsstr) : option Z :=
  match s with
  | [] => Some 0
  | c :: s1 =>
      if ((c =? 101) || (c =? 69))%N then
        let '(neg, s2) := match s1 with
                          | 45%N :: r => (true, r)
                          | 43%N :: r => (false, r)
                          | _ => (false, s1)
                          end in
        if all_digits s2 then
          Some (if neg then - Z.of_N (digits_val s2) else Z.of_N (digits_val s2))
        else None
      else None
  end.

(** [StrUnsignedDecimalLiteral] *)
Definition read_unsigned (s : jsstr) : option number :=
  if bool_decide (s = u "Infinity") then Some Infinity
  else
    let '(ip, r1) := span_digits s in
    let '(fp, r2) := match r1 with
                     | 46%N :: r => span_digits r
                     | _ => ([], r1)
                     end in
    if negb (truthy (ip ++ fp)) then None
    else
      match read_exponent r2 with
      | Some ex => Some (num_of_decimal (Z.of_N (digits_val (ip ++ fp))) (ex - Z.of_nat (length fp)))
      | None => None
      end.

(** A digit of the given radix. *)
Definition radix_digit (radix c : N) : option N :=
  let d := if is_digit c then (c - 48)%N
           else if ((97 <=? c) && (c <=? 122))%N then (c - 87)%N
           else if ((65 <=? c) && (c <=? 90))%N then (c - 55)%N
           else radix in
  if (d <? radix)%N then Some d else None.

Fixpoint read_radix (radix acc : N) (s : jsstr) : option number :=
  match s with
  | [] => Some (num_of_Z (Z.of_N acc))
  | c :: s' =>
      match radix_digit radix c with
      | Some d => read_radix radix (acc * radix + d)%N s'
      | None => None
      end
  end.

Definition str_to_num (text : jsstr) : number :=
  let s := trim text in
  let read := match s with
              | [] => Some (S754_zero false)
              | 48%N :: x :: ((_ :: _) as digits) =>
                  if ((x =? 120) || (x =? 88))%N then read_radix 16 0 digits
                  else if ((x =? 111) || (x =? 79))%N then read_radix 8 0 digits
                  else if ((x =? 98) || (x =? 66))%N then read_radix 2 0 digits
                  else read_unsigned s
              | 45%N :: r => num_opp <$> read_unsigned r
              | 43%N :: r => read_unsigned r
              | _ => read_unsigned s
              end in
  match read with Some x => x | None => NaN end.

(** The exponent at the start of a text; 0 when there is none. *)
Definition prefix_exponent (s : jsstr) : Z :=
  match s with
  | c :: s1 =>
      if ((c =? 101) || (c =? 69))%N then
        let '(neg, s2) := match s1 with
                          | 45%N :: r => (true, r)
                          | 43%N :: r => (false, r)
                          | _ => (false, s1)
                          end in
        let v := Z.of_N (digits_val (span_digits s2).1) in
        if neg then - v else v
      else 0
  | [] => 0
  end.

(** [parseFloat(text)]: the longest prefix that is a decimal literal *)
Definition parse_float (text : jsstr) : number :=
  let s := trim_start text in
  let '(neg, s) := match s with
                   | 45%N :: r => (true, r)
                   | 43%N :: r => (false, r)
                   | _ => (false, s)
                   end in
  let x := if starts_with (u "Infinity") s then Infinity
           else
             let '(ip, r1) := span_digits s in
             let '(fp, r2) := match r1 with
                              | 46%N :: r => span_digits r
                              | _ => ([], r1)
                              end in
             if negb (truthy (ip ++ fp)) then NaN
             else num_of_decimal (Z.of_N (digits_val (ip ++ fp))) (prefix_exponent r2 - Z.of_nat (length fp)) in
  if neg then num_opp x else x.

(** [Number.parseInt(text, 10)]: the longest prefix that is a decimal integer *)
Definition parse_int10 (text : jsstr) : number :=
  let s := trim_start text in
  let '(neg, s) := match s with
                   | 45%N :: r => (true, r)
                   | 43%N :: r => (false, r)
                   | _ => (false, s)
                   end in
  let ip := (span_digits s).1 in
  let x := if truthy ip then num_of_Z (Z.of_N (digits_val ip)) else NaN in
  if neg then num_opp x else x.

Example parse_float_prefix : parse_float (u " -12.50k") = num_of_decimal (-125) (-1) /\ parse_float (u "1e3x") = num_of_Z 1000 /\
  parse_float (u "k") = NaN.
Proof. vm_compute. done. Qed.

Example str_to_num_hex : str_to_num (u " 0x1F ") = num_of_Z 31.
Proof. vm_compute. reflexivity. Qed.

Example str_to_num_dots : str_to_num (u "1.2.3") = NaN.
Proof. vm_compute. reflexivity. Qed.

Example str_to_num_exp : str_to_num (u "-2.50e+3") = num_of_Z (-2500).
Proof. vm_compute. reflexivity. Qed.

(** [x.toFixed(d)]: the integer nearest to [x * 10^d], the larger one on a tie,
    printed with [d] digits after the point. *)
Definition fixed_digits (n d : Z) : jsstr :=
  let m := N_to_str (Z.to_N n) in
  if d =? 0 then m
  else
    let k := Z.of_nat (length m) in
    let m := if k <=? d then zeros (d + 1 - k) ++ m else m in
    let k := Z.of_nat (length m) in
    take (Z.to_nat (k - d)) m ++ u "." ++ drop (Z.to_nat (k - d)) m.

Definition fixed_integer (m : positive) (e d : Z) : Z := (scaled_floor m (e + 1) d + 1) / 2.

Definition to_fixed (d : Z) (x : number) : jsstr :=
  match x with
  | S754_nan | S754_infinity _ => num_to_str x
  | S754_zero _ => fixed_digits 0 d
  | S754_finite s m e =>
      if num_ge (num_abs x) (num_of_Z (10 ^ 21)) then num_to_str x
      else (if s then u "-" else []) ++ fixed_digits (fixed_integer m e d) d
  end.

Example to_fixed_1005 : to_fixed 2 (num_of_decimal 1005 (-3)) = u "1.00".
Proof. vm_compute. reflexivity. Qed.

Example to_fixed_tie : to_fixed 1 (num_of_decimal 25 (-2)) = u "0.3".
Proof. vm_compute. reflexivity. Qed.

(** ** The text of a number

    [[\d.eE+-]] is the class the expression parsers use for numbers: every
    finite number prints inside it. *)

Definition is_num_char (c : N) : bool :=
  is_digit c || (c =? 46)%N || (c =? 101)%N || (c =? 69)%N || (c =? 43)%N || (c =? 45)%N.

Lemma is_digit_num_char c : is_digit c = true -> is_num_char c = true.
Proof. unfold is_num_char. by intros ->. Qed.

Lemma digits_num_chars n : forallb is_num_char (N_to_str n) = true.
Proof.
  apply forallb_forall. intros c Hc%list_elem_of_In. apply is_digit_num_char.
  eapply all_digits_elem; [apply N_to_str_digits|done].
Qed.

Lemma zeros_num_chars n : forallb is_num_char (zeros n) = true.
Proof. unfold zeros. induction (Z.to_nat n); cbn; done. Qed.

Lemma forallb_take_drop {A} (p : A -> bool) n l :
  forallb p l = true -> forallb p (take n l) = true /\ forallb p (drop n l) = true.
Proof. rewrite <-(take_drop n l) at 1. by rewrite forallb_app, andb_true_iff. Qed.

Lemma format_digits_chars s n k : forallb is_num_char (format_digits s n k) = true.
Proof.
  unfold format_digits. pose proof (digits_num_chars (Z.to_N s)) as Hd.
  destruct (forallb_take_drop is_num_char (Z.to_nat n) _ Hd) as [Ht Hr].
  set (ds := N_to_str _) in *.
  set (tail := u "e" ++ (if n - 1 <? 0 then u "-" else u "+") ++ N_to_str (Z.to_N (Z.abs (n - 1)))).
  assert (forallb is_num_char tail = true) as Htail.
  { unfold tail. rewrite !forallb_app, digits_num_chars. by destruct (n - 1 <? 0). }
  destruct ((k <=? n) && (n <=? 21)); [by rewrite forallb_app, Hd, zeros_num_chars|].
  destruct ((0 <? n) && (n <=? 21)); [by rewrite !forallb_app, Ht, Hr|].
  destruct ((-6 <? n) && (n <=? 0)); [by rewrite !forallb_app, zeros_num_chars, Hd|].
  destruct ds as [|d [|d' ds]]; [by rewrite forallb_app, Htail|by rewrite forallb_app, Hd|].
  cbn [forallb] in Hd. apply andb_true_iff in Hd as [Hd1 Hd2].
  change (forallb is_num_char (d' :: ds) = true) in Hd2. change (drop 1 (d :: d' :: ds)) with (d' :: ds).
  rewrite !forallb_app, Hd2, Htail. cbn. by rewrite Hd1.
Qed.

Lemma num_to_str_chars x : is_finite x = true -> forallb is_num_char (num_to_str x) = true.
Proof.
  destruct x as [s|s| |s m e]; try done. intros _. unfold num_to_str.
  destruct (shortest _ _ _ _ _ _) as [[d n] k]. rewrite forallb_app, format_digits_chars.
  by destruct s.
Qed.

Lemma format_digits_ne s n k : format_digits s n k <> [].
Proof.
  unfold format_digits. pose proof (N_to_str_ne (Z.to_N s)) as Hd. set (ds := N_to_str _) in *.
  destruct ((k <=? n) && (n <=? 21)); [by destruct ds|].
  destruct ((0 <? n) && (n <=? 21)); [by destruct (take _ ds)|].
  destruct ((-6 <? n) && (n <=? 0)); [done|]. by destruct ds as [|d [|d' ds]].
Qed.

Lemma num_to_str_ne x : num_to_str x <> [].
Proof.
  destruct x as [s|s| |s m e]; try done; [by destruct s|]. unfold num_to_str.
  destruct (shortest _ _ _ _ _ _) as [[d n] k]. pose proof (format_digits_ne d n k).
  destruct s; [done|]. by destruct (format_digits d n k).
Qed.

(** [Number(String(x)) = x]: so for every number but [-0]; it is checked by
    evaluation where a theorem needs it. *)
Definition reads_back (x : number) : bool := bool_decide (str_to_num (num_to_str x) = x).

(** ** The order of numbers *)

Lemma num_lt_trans x y z : num_lt x y = true -> num_lt y z = true -> num_lt x z = true.
Proof.
  unfold num_lt, SFltb, SFcompare.
  destruct x as [[]|[]| |[] m1 e1], y as [[]|[]| |[] m2 e2], z as [[]|[]| |[] m3 e3]; try done.
  all: destruct (Z.compare_spec e1 e2), (Z.compare_spec e2 e3), (Z.compare_spec e1 e3); subst; try lia; try done.
  all: rewrite ?Pos.compare_cont_spec; unfold Pos.switch_Eq;
    destruct (Pos.compare_spec m1 m2), (Pos.compare_spec m2 m3), (Pos.compare_spec m1 m3); subst; try done; lia.
Qed.

Lemma num_lt_irrefl x : num_lt x x = false.
Proof.
  unfold num_lt, SFltb, SFcompare. destruct x as [[]|[]| |[] m e]; try done;
    rewrite Z.compare_refl; fold (Pos.compare m m); by rewrite Pos.compare_refl.
Qed.

(** ** Signs

    [nonneg x] holds of every number that is not below zero: the ones with a
    positive sign bit, the zeros, and [NaN], for which every comparison is
    false. *)

Definition nonneg (x : number) : bool :=
  match x with
  | S754_zero _ | S754_nan => true
  | S754_infinity s | S754_finite s _ _ => negb s
  end.

Lemma nonneg_not_lt x : nonneg x = true <-> num_lt x (num_of_Z 0) = false.
Proof. destruct x as [[]|[]| |[] ? ?]; cbn; split; congruence. Qed.

(** Rounding keeps the sign it is given. *)
Lemma binary_round_aux_sign s m e l :
  match binary_round_aux prec emax s m e l with
  | S754_zero s' | S754_infinity s' | S754_finite s' _ _ => s' = s
  | S754_nan => True
  end.
Proof.
  unfold binary_round_aux.
  destruct (shr_fexp prec emax m e l) as [mrs e'].
  destruct (shr_fexp prec emax (round_nearest_even _ _) e' loc_Exact) as [mrs' e''].
  destruct (shr_m mrs'); [done| |done]. by destruct (_ <=? _).
Qed.

Lemma binary_round_aux_nonneg m e l : nonneg (binary_round_aux prec emax false m e l) = true.
Proof.
  pose proof (binary_round_aux_sign false m e l) as H.
  destruct (binary_round_aux prec emax false m e l); cbn; by subst.
Qed.

Lemma binary_normalize_nonneg m e : 0 <= m -> nonneg (binary_normalize prec emax m e false) = true.
Proof.
  destruct m as [|m|m]; intros H; cbn; [done| |lia].
  unfold binary_round. destruct (shl_align _ _ _). apply binary_round_aux_nonneg.
Qed.

Lemma num_of_Z_nonneg z : 0 <= z -> nonneg (num_of_Z z) = true.
Proof. apply binary_normalize_nonneg. Qed.

Lemma num_mul_nonneg x y : nonneg x = true -> nonneg y = true -> nonneg (x * y)%num = true.
Proof.
  destruct x as [[]|[]| |[] ? ?], y as [[]|[]| |[] ? ?]; cbn; try done; intros _ _;
    apply binary_round_aux_nonneg.
Qed.

Lemma num_div_nonneg x y :
  nonneg x = true -> nonneg y = true -> y <> S754_zero true -> nonneg (x / y)%num = true.
Proof.
  destruct x as [[]|[]| |[] ? ?], y as [[]|[]| |[] ? ?]; cbn; try done; intros _ _ ?; try done;
    unfold SFdiv; destruct (SFdiv_core_binary _ _ _ _ _ _) as [[? ?] ?];
    apply binary_round_aux_nonneg.
Qed.

Lemma num_add_nonneg x y : nonneg x = true -> nonneg y = true -> nonneg (x + y)%num = true.
Proof.
  destruct x as [[]|[]| |[] ? ?], y as [[]|[]| |[] ? ?]; cbn; try done; intros _ _;
    apply binary_normalize_nonneg; cbn; lia.
Qed.

Lemma num_max_nonneg x : nonneg (num_max (num_of_Z 0) x) = true.
Proof. by destruct x as [[]|[]| |[] ? ?]. Qed.

Lemma num_gt_nonneg x : num_gt x (num_of_Z 0) = true -> nonneg x = true.
Proof. by destruct x as [[]|[]| |[] ? ?]. Qed.

Lemma num_gt_not_zero x s : num_gt x (num_of_Z 0) = true -> x <> S754_zero s.
Proof. by destruct x as [[]|[]| |[] ? ?]. Qed.

Create HintDb numdb.
#[export] Hint Resolve num_mul_nonneg num_div_nonneg num_add_nonneg num_max_nonneg
  num_of_Z_nonneg num_gt_nonneg : numdb.
