(* ===== verification/JsJson.v ===== *)
(** * JSON values, [JSON.parse] and property access

    [json] is the type of the values [JSON.parse] can return.  An object keeps
    its properties in insertion order, a repeated key overwrites in place, and
    [Object.entries] lists array-index keys first in numeric order, as
    ECMAScript's [OrdinaryOwnPropertyKeys] prescribes.

    The parser is recursive descent with fuel.  Every recursive call is made
    on a strictly shorter rest or follows a call that consumed a bracket, so
    twice the length of the text (plus two) is enough ([JSON_parse_fuel]). *)

From S2P Require Import Prelude JsString JsNumber.

Open Scope N_scope.

Inductive json : Type :=
| JNull
| JBool (b : bool)
| JNum (n : number)
| JStr (s : jsstr)
| JArr (l : list json)
| JObj (fields : list (jsstr * json)).

(** A JSON literal in which an apostrophe stands for a quotation mark. *)
Definition uj (s : String.string) : jsstr :=
  map (fun c => if c =? 39 then 34 else c) (u s).
Arguments uj s%_string.

(** ** Lexing *)

Definition is_json_ws (c : N) : bool := (c =? 9) || (c =? 10) || (c =? 13) || (c =? 32).

Fixpoint skip_ws (s : jsstr) : jsstr :=
  match s with
  | [] => []
  | c :: s' => if is_json_ws c then skip_ws s' else s
  end.

Definition hex_val (c : N) : option N :=
  if is_digit c then Some (c - 48)
  else if (97 <=? c) && (c <=? 102) then Some (c - 87)
  else if (65 <=? c) && (c <=? 70) then Some (c - 55)
  else None.

(** The body of a string literal after its opening quote. *)
Fixpoint parse_string (s : jsstr) : option (jsstr * jsstr) :=
  match s with
  | [] => None
  | c :: s1 =>
      if c =? 34 then Some ([], s1)
      else if c <? 32 then None
      else if c =? 92 then
        match s1 with
        | [] => None
        | e :: s2 =>
            if e =? 117 then
              match s2 with
              | a :: b :: x :: y :: s3 =>
                  match hex_val a, hex_val b, hex_val x, hex_val y with
                  | Some a', Some b', Some x', Some y' =>
                      match parse_string s3 with
                      | Some (t, r) => Some ((((a' * 16 + b') * 16 + x') * 16 + y') :: t, r)
                      | None => None
                      end
                  | _, _, _, _ => None
                  end
              | _ => None
              end
            else
              match (if e =? 34 then Some 34 else if e =? 92 then Some 92
                     else if e =? 47 then Some 47 else if e =? 98 then Some 8
                     else if e =? 102 then Some 12 else if e =? 110 then Some 10
                     else if e =? 114 then Some 13 else if e =? 116 then Some 9
                     else None) with
              | Some v =>
                  match parse_string s2 with
                  | Some (t, r) => Some (v :: t, r)
                  | None => None
                  end
              | None => None
              end
        end
      else
        match parse_string s1 with
        | Some (t, r) => Some (c :: t, r)
        | None => None
        end
  end.

(** The exponent part, if there is one. *)
Definition parse_exponent (s : jsstr) : option (Z * jsstr) :=
  match s with
  | c :: s1 =>
      if (c =? 101) || (c =? 69) then
        let '(neg, s2) := match s1 with
                          | 45 :: r => (true, r)
                          | 43 :: r => (false, r)
                          | _ => (false, s1)
                          end in
        match span_digits s2 with
        | ([], _) => None
        | (d, r) => Some (if neg then (- Z.of_N (digits_val d))%Z else Z.of_N (digits_val d), r)
        end
      else Some (0%Z, s)
  | [] => Some (0%Z, s)
  end.

(** A number without its sign. *)
Definition parse_unsigned (s : jsstr) : option (number * jsstr) :=
  match span_digits s with
  | ([], _) => None
  | (48 :: _ :: _, _) => None
  | (ip, r1) =>
      let '(fp, r2) := match r1 with
                       | 46 :: r => span_digits r
                       | _ => ([], r1)
                       end in
      if (match r1 with 46 :: _ => negb (truthy fp) | _ => false end) then None
      else
        match parse_exponent r2 with
        | None => None
        | Some (ex, r3) =>
            Some (num_of_decimal (Z.of_N (digits_val (ip ++ fp)))
                                 (ex - Z.of_nat (length fp)), r3)
        end
  end.

Definition parse_number (s : jsstr) : option (number * jsstr) :=
  match s with
  | 45 :: s' =>
      match parse_unsigned s' with
      | Some (n, r) => Some (num_opp n, r)
      | None => None
      end
  | _ => parse_unsigned s
  end.

Definition expect (lit : jsstr) (v : json) (s : jsstr) : option (json * jsstr) :=
  if starts_with lit s then Some (v, drop (length lit) s) else None.

(** ** Parsing *)

Fixpoint parse_value (fuel : nat) (s : jsstr) : option (json * jsstr) :=
  match fuel with
  | 0%nat => None
  | S f =>
      match skip_ws s with
      | [] => None
      | c :: r =>
          if c =? 123 then
            match skip_ws r with
            | 125 :: r' => Some (JObj [], r')
            | _ => parse_members f [] r
            end
          else if c =? 91 then
            match skip_ws r with
            | 93 :: r' => Some (JArr [], r')
            | _ => parse_elements f [] r
            end
          else if c =? 34 then
            match parse_string r with
            | Some (t, r') => Some (JStr t, r')
            | None => None
            end
          else if c =? 116 then expect (u "true") (JBool true) (c :: r)
          else if c =? 102 then expect (u "false") (JBool false) (c :: r)
          else if c =? 110 then expect (u "null") JNull (c :: r)
          else
            match parse_number (c :: r) with
            | Some (n, r') => Some (JNum n, r')
            | None => None
            end
      end
  end
with parse_elements (fuel : nat) (acc : list json) (s : jsstr) : option (json * jsstr) :=
  match fuel with
  | 0%nat => None
  | S f =>
      match parse_value f s with
      | None => None
      | Some (v, r) =>
          match skip_ws r with
          | 44 :: r' => parse_elements f (acc ++ [v]) r'
          | 93 :: r' => Some (JArr (acc ++ [v]), r')
          | _ => None
          end
      end
  end
with parse_members (fuel : nat) (acc : list (jsstr * json)) (s : jsstr)
  : option (json * jsstr) :=
  match fuel with
  | 0%nat => None
  | S f =>
      match skip_ws s with
      | 34 :: r =>
          match parse_string r with
          | None => None
          | Some (k, r1) =>
              match skip_ws r1 with
              | 58 :: r2 =>
                  match parse_value f r2 with
                  | None => None
                  | Some (v, r3) =>
                      match skip_ws r3 with
                      | 44 :: r4 => parse_members f (map_set k v acc) r4
                      | 125 :: r4 => Some (JObj (map_set k v acc), r4)
                      | _ => None
                      end
                  end
              | _ => None
              end
          end
      | _ => None
      end
  end.

(** [JSON.parse]; [None] is the [SyntaxError]. *)
Definition JSON_parse (s : jsstr) : option json :=
  match parse_value (2 * length s + 2) s with
  | Some (v, r) => match skip_ws r with [] => Some v | _ => None end
  | None => None
  end.

(** ** Printing: [JSON.stringify] of a string *)

Definition is_high (c : N) : bool := (55296 <=? c) && (c <=? 56319).
Definition is_low (c : N) : bool := (56320 <=? c) && (c <=? 57343).

Definition hex_digit (n : N) : N := if n <? 10 then 48 + n else 87 + n.

(** [\uXXXX] in lower case *)
Definition unicode_escape (c : N) : jsstr :=
  [92; 117; hex_digit (c / 4096); hex_digit (c / 256 mod 16); hex_digit (c / 16 mod 16); hex_digit (c mod 16)].

(** One code unit that is not the first of a surrogate pair. *)
Definition quote_unit (c : N) : jsstr :=
  if c =? 8 then [92; 98] else if c =? 9 then [92; 116] else if c =? 10 then [92; 110]
  else if c =? 12 then [92; 102] else if c =? 13 then [92; 114]
  else if c =? 34 then [92; 34] else if c =? 92 then [92; 92]
  else if (c <? 32) || is_high c || is_low c then unicode_escape c
  else [c].

(** Surrogate pairs stay, lone surrogates are escaped. *)
Fixpoint quote_body (s : jsstr) : jsstr :=
  match s with
  | [] => []
  | c :: t =>
      match t with
      | d :: t' => if is_high c && is_low d then c :: d :: quote_body t' else quote_unit c ++ quote_body t
      | [] => quote_unit c
      end
  end.

Definition json_quote (s : jsstr) : jsstr := [34] ++ quote_body s ++ [34].

(** ** Operators on values *)

Definition json_truthy (j : json) : bool :=
  match j with
  | JNull => false
  | JBool b => b
  | JNum n => num_truthy n
  | JStr s => truthy s
  | JArr _ | JObj _ => true
  end.

(** [j.k] for an object [j]; [None] is [undefined]. *)
Definition json_get (k : jsstr) (j : json) : option json :=
  match j with
  | JObj fs => map_get k fs
  | _ => None
  end.

(** A plain object: [typeof j === 'object'], not null and not an array. *)
Definition as_object (j : json) : option (list (jsstr * json)) :=
  match j with JObj fs => Some fs | _ => None end.

Definition as_string (j : json) : option jsstr :=
  match j with JStr s => Some s | _ => None end.

(** ** Property order *)

(** A canonical array index: [0], or digits without a leading zero, below
    [2^32 - 1]. *)
Definition array_index (k : jsstr) : option N :=
  if all_digits k && bool_decide (N_to_str (digits_val k) = k) && (digits_val k <? 4294967295)
  then Some (digits_val k) else None.

Definition index_cmp {A} (a b : jsstr * A) : Z :=
  (Z.of_N (digits_val a.1) - Z.of_N (digits_val b.1))%Z.

Definition is_index {A} (kv : jsstr * A) : bool :=
  match array_index kv.1 with Some _ => true | None => false end.

(** [Object.entries] *)
Definition obj_entries {A} (fs : list (jsstr * A)) : list (jsstr * A) :=
  js_sort index_cmp (bfilter is_index fs) ++ bfilter (fun kv => negb (is_index kv)) fs.

(** [Object.keys] *)
Definition obj_keys {A} (fs : list (jsstr * A)) : list jsstr := (obj_entries fs).*1.

(** [Object.values] *)
Definition obj_values {A} (fs : list (jsstr * A)) : list A := (obj_entries fs).*2.

(** [String(j)]; an array joins its elements with commas, [null] as empty. *)
Fixpoint json_to_str (j : json) : jsstr :=
  match j with
  | JNull => u "null"
  | JBool true => u "true"
  | JBool false => u "false"
  | JNum n => num_to_str n
  | JStr s => s
  | JArr l => join (u ",") (map (fun x => match x with JNull => [] | _ => json_to_str x end) l)
  | JObj _ => u "[object Object]"
  end.

(** [Number(j)], [undefined] being absent *)
Definition json_to_num (j : option json) : number :=
  match j with
  | None => NaN
  | Some JNull => num_of_Z 0
  | Some (JBool b) => num_of_Z (if b then 1 else 0)
  | Some (JNum x) => x
  | Some j => str_to_num (json_to_str j)
  end.

(** The members of a value that is spread in an object. *)
Definition spread (j : json) : list (jsstr * json) :=
  match j with
  | JObj fs => obj_entries fs
  | JArr l => imap (fun i x => (N_to_str (N.of_nat i), x)) l
  | JStr s => imap (fun i c => (N_to_str (N.of_nat i), JStr [c])) s
  | _ => []
  end.

(** [{ ...o, ...j }] *)
Definition spread_into (o : list (jsstr * json)) (j : json) : list (jsstr * json) :=
  foldl (fun o kv => map_set kv.1 kv.2 o) o (spread j).

(** [a ?? d] *)
Definition nullish_json (j : option json) (d : json) : json := match j with Some JNull | None => d | Some v => v end.

(** ** Lemmas *)

Lemma bfilter_split_perm {A} (p : A -> bool) (l : list A) :
  bfilter p l ++ bfilter (fun x => negb (p x)) l ≡ₚ l.
Proof.
  induction l as [|x l IH]; cbn; [done|].
  destruct (p x); cbn; [by rewrite IH|]. rewrite <- Permutation_middle. by rewrite IH.
Qed.

Lemma obj_entries_perm {A} (fs : list (jsstr * A)) : obj_entries fs ≡ₚ fs.
Proof. unfold obj_entries. rewrite js_sort_perm. apply bfilter_split_perm. Qed.

Lemma elem_of_obj_entries {A} (fs : list (jsstr * A)) kv : kv ∈ obj_entries fs <-> kv ∈ fs.
Proof. by rewrite obj_entries_perm. Qed.

Lemma obj_entries_NoDup {A} (fs : list (jsstr * A)) : NoDup fs.*1 -> NoDup (obj_keys fs).
Proof. unfold obj_keys. by rewrite obj_entries_perm. Qed.

Lemma map_get_entries {A} k (fs : list (jsstr * A)) : NoDup fs.*1 -> map_get k (obj_entries fs) = map_get k fs.
Proof.
  intros Hnd. pose proof (obj_entries_NoDup fs Hnd) as Hnd'. change (obj_keys fs) with (obj_entries fs).*1 in Hnd'.
  destruct (map_get k fs) as [v|] eqn:Hg.
  - apply (map_get_elem k v (obj_entries fs) Hnd'). apply elem_of_obj_entries.
    exact (proj2 (map_get_elem k v fs Hnd) Hg).
  - apply map_get_None. apply map_get_None in Hg. intros Hin. apply Hg.
    apply list_elem_of_fmap in Hin as (kv & -> & Hkv). rewrite elem_of_obj_entries in Hkv.
    apply list_elem_of_fmap. by exists kv.
Qed.

(** Objects have distinct keys. *)
Fixpoint json_wf (j : json) : Prop :=
  match j with
  | JArr l => foldr (fun x P => json_wf x /\ P) True l
  | JObj fs => NoDup fs.*1 /\ foldr (fun kv P => json_wf kv.2 /\ P) True fs
  | _ => True
  end.

Lemma wf_fields_set (k : jsstr) (v : json) (fs : list (jsstr * json)) :
  NoDup fs.*1 /\ foldr (fun kv P => json_wf kv.2 /\ P) True fs -> json_wf v ->
  NoDup (map_set k v fs).*1 /\ foldr (fun kv P => json_wf kv.2 /\ P) True (map_set k v fs).
Proof.
  intros [Hn Hf] Hv. split; [by apply map_set_NoDup|]. clear Hn.
  induction fs as [|[k' v'] fs IH]; cbn in *; [done|].
  case_decide; cbn; tauto.
Qed.

Lemma wf_elements_snoc v l :
  foldr (fun x P => json_wf x /\ P) True l -> json_wf v ->
  foldr (fun x P => json_wf x /\ P) True (l ++ [v]).
Proof. induction l; cbn; tauto. Qed.

Lemma parse_wf fuel :
  (forall s v r, parse_value fuel s = Some (v, r) -> json_wf v) /\
  (forall acc s v r, parse_elements fuel acc s = Some (v, r) ->
     foldr (fun x P => json_wf x /\ P) True acc -> json_wf v) /\
  (forall acc s v r, parse_members fuel acc s = Some (v, r) ->
     NoDup acc.*1 /\ foldr (fun kv P => json_wf kv.2 /\ P) True acc -> json_wf v).
Proof.
  induction fuel as [|f (IHv & IHe & IHm)]; [by split_and!|].
  split_and!.
  - intros s v r. cbn [parse_value]. unfold expect. intros H.
    repeat (case_match; simplify_eq; try done);
      first [ by eapply IHm; [eassumption|repeat constructor]
            | by eapply IHe; [eassumption|] | cbn; split; [constructor|done] ].
  - intros acc s v r. cbn [parse_elements]. intros H Hacc.
    repeat (case_match; simplify_eq; try done);
      first [ eapply IHe; [eassumption|]; by eauto using wf_elements_snoc
            | cbn; by eauto using wf_elements_snoc ].
  - intros acc s v r. cbn [parse_members]. intros H Hacc.
    repeat (case_match; simplify_eq; try done);
      first [ eapply IHm; [eassumption|]; by eauto using wf_fields_set
            | cbn; by eauto using wf_fields_set ].
Qed.

(** [JSON.parse] returns objects with distinct keys. *)
Lemma JSON_parse_wf s j : JSON_parse s = Some j -> json_wf j.
Proof.
  unfold JSON_parse. intros H. repeat (case_match; simplify_eq; try done).
  by eapply (proj1 (parse_wf _)).
Qed.

Lemma JSON_parse_obj_NoDup s fs : JSON_parse s = Some (JObj fs) -> NoDup fs.*1.
Proof. by intros [H _]%JSON_parse_wf. Qed.

(** ** Fuel *)

Lemma skip_ws_length s : (length (skip_ws s) <= length s)%nat.
Proof. induction s as [|c s IH]; cbn; [lia|]. destruct (is_json_ws c); cbn; lia. Qed.

Lemma skip_ws_tail s c r : skip_ws s = c :: r -> (S (length r) <= length s)%nat.
Proof. intros H. pose proof (skip_ws_length s) as Hl. rewrite H in Hl. exact Hl. Qed.

Lemma span_digits_length s d r : span_digits s = (d, r) -> (length r <= length s)%nat.
Proof.
  revert d r. induction s as [|c s IH]; cbn; intros d r; [by intros [= _ <-]|].
  destruct (is_digit c); [|by intros [= _ <-]].
  destruct (span_digits s) as [d' r'] eqn:E. intros [= _ <-]. specialize (IH _ _ eq_refl). lia.
Qed.

Lemma parse_string_length : forall n s t r,
  (length s <= n)%nat -> parse_string s = Some (t, r) -> (length r <= length s)%nat.
Proof.
  induction n as [|n IH]; intros s t r Hn; destruct s as [|c s]; cbn [parse_string length] in *; try done; [lia|].
  intros H. repeat (case_match; simplify_eq/=; try done);
    repeat match goal with E : parse_string _ = Some _ |- _ => apply IH in E; [|lia] end; lia.
Qed.

Lemma parse_exponent_length s e r : parse_exponent s = Some (e, r) -> (length r <= length s)%nat.
Proof.
  unfold parse_exponent. intros H.
  repeat (case_match; simplify_eq/=; try done); try lia;
    repeat match goal with E : span_digits _ = (_, _) |- _ => apply span_digits_length in E end; cbn in *; lia.
Qed.

Lemma parse_unsigned_length s n r : parse_unsigned s = Some (n, r) -> (length r <= length s)%nat.
Proof.
  unfold parse_unsigned. destruct (span_digits s) as [ip r1] eqn:E1. apply span_digits_length in E1.
  set (q := match r1 with 46 :: r => span_digits r | _ => ([], r1) end).
  assert (length q.2 <= length r1)%nat as Hq.
  { subst q. repeat (case_match; subst; cbn [snd]; try lia).
    destruct (span_digits _) as [d r2] eqn:E2. apply span_digits_length in E2. cbn in *. lia. }
  destruct q as [fp r2]. cbn [snd] in Hq. intros H.
  assert (exists e, parse_exponent r2 = Some (e, r)) as [e He%parse_exponent_length]; [|lia].
  destruct (parse_exponent r2) as [[e r3]|]; [|by repeat (case_match; try done)].
  exists e. repeat (case_match; simplify_eq; try done).
Qed.

Lemma parse_number_length s n r : parse_number s = Some (n, r) -> (length r <= length s)%nat.
Proof.
  unfold parse_number. intros H.
  assert (exists n' s', parse_unsigned s' = Some (n', r) /\ (length s' <= length s)%nat)
    as (n' & s' & He%parse_unsigned_length & Hl); [|lia].
  repeat (case_match; simplify_eq/=; try done);
    first [do 2 eexists; split; [eassumption|cbn; lia]].
Qed.

(** Turns what was lexed into inequalities between lengths. *)
Ltac rest_lengths :=
  repeat match goal with
  | E : skip_ws _ = _ :: _ |- _ => apply skip_ws_tail in E
  | E : parse_string _ = Some _ |- _ => apply (parse_string_length _ _ _ _ (le_n _)) in E
  | E : parse_number _ = Some _ |- _ => apply parse_number_length in E
  end.

Lemma parse_rest f :
  (forall s v r, parse_value f s = Some (v, r) -> (length r <= length s)%nat) /\
  (forall acc s v r, parse_elements f acc s = Some (v, r) -> (length r <= length s)%nat) /\
  (forall acc s v r, parse_members f acc s = Some (v, r) -> (length r <= length s)%nat).
Proof.
  induction f as [|f (IHv & IHe & IHm)]; [by split_and!|].
  split_and!; intros *; cbn [parse_value parse_elements parse_members]; unfold expect; intros H;
    repeat (case_match; simplify_eq; try done); rest_lengths;
    repeat match goal with
    | E : parse_value _ _ = Some _ |- _ => apply IHv in E
    | E : parse_elements _ _ _ = Some _ |- _ => apply IHe in E
    | E : parse_members _ _ _ = Some _ |- _ => apply IHm in E
    end; rewrite ?length_drop; cbn [length] in *; lia.
Qed.

(** With enough fuel the parsers do not depend on it. *)
Lemma parse_enough_fuel f : forall g,
  (forall s, (2 * length s + 1 <= f)%nat -> (2 * length s + 1 <= g)%nat ->
     parse_value f s = parse_value g s) /\
  (forall acc s, (2 * length s + 2 <= f)%nat -> (2 * length s + 2 <= g)%nat ->
     parse_elements f acc s = parse_elements g acc s) /\
  (forall acc s, (2 * length s + 2 <= f)%nat -> (2 * length s + 2 <= g)%nat ->
     parse_members f acc s = parse_members g acc s).
Proof.
  induction f as [|f IH]; intros g; [split_and!; lia|].
  destruct g as [|g]; [split_and!; lia|]. destruct (IH g) as (IHv & IHe & IHm). split_and!.
  - intros s Hf Hg. cbn [parse_value]. destruct (skip_ws s) as [|c r] eqn:E; [done|].
    apply skip_ws_tail in E. by rewrite (IHm [] r), (IHe [] r) by lia.
  - intros acc s Hf Hg. cbn [parse_elements]. rewrite (IHv s) by lia.
    destruct (parse_value g s) as [[v r]|] eqn:Ev; [|done]. apply (proj1 (parse_rest g)) in Ev.
    destruct (skip_ws r) as [|c r'] eqn:E; [done|]. apply skip_ws_tail in E.
    by rewrite (IHe (acc ++ [v]) r') by lia.
  - intros acc s Hf Hg. cbn [parse_members]. destruct (skip_ws s) as [|q r] eqn:E; [done|].
    apply skip_ws_tail in E. destruct (parse_string r) as [[k r1]|] eqn:Ek; [|done].
    apply (parse_string_length _ _ _ _ (le_n _)) in Ek.
    destruct (skip_ws r1) as [|c r2] eqn:E2; [done|]. apply skip_ws_tail in E2. rewrite (IHv r2) by lia.
    destruct (parse_value g r2) as [[v r3]|] eqn:Ev; [|done]. apply (proj1 (parse_rest g)) in Ev.
    destruct (skip_ws r3) as [|c' r4] eqn:E4; [done|]. apply skip_ws_tail in E4.
    by rewrite (IHm (map_set k v acc) r4) by lia.
Qed.

(** The fuel of [JSON_parse] is enough: [None] is a syntax error, never a
    parse that was cut short. *)
Theorem JSON_parse_fuel s f :
  (2 * length s + 1 <= f)%nat ->
  JSON_parse s =
    match parse_value f s with
    | Some (v, r) => match skip_ws r with [] => Some v | _ => None end
    | None => None
    end.
Proof.
  intros Hf. unfold JSON_parse.
  by rewrite (proj1 (parse_enough_fuel (2 * length s + 2) f) s) by lia.
Qed.

(** ** Round trip of strings *)

Lemma hex_val_digit n : n < 16 -> hex_val (hex_digit n) = Some n.
Proof.
  intros H. unfold hex_digit, hex_val, is_digit.
  destruct (N.ltb_spec n 10).
  - rewrite !(proj2 (N.leb_le _ _)) by lia. cbn. f_equal. lia.
  - rewrite (proj2 (N.leb_gt (87 + n) 57)), andb_false_r by lia.
    rewrite !(proj2 (N.leb_le _ _)) by lia. cbn. f_equal. lia.
Qed.

Lemma parse_unicode_escape c t :
  c < 65536 ->
  parse_string (unicode_escape c ++ t) =
    match parse_string t with Some (x, r) => Some (c :: x, r) | None => None end.
Proof.
  intros Hc. unfold unicode_escape. cbn [app parse_string].
  rewrite !hex_val_digit.
  - cbn. destruct (parse_string t) as [[x r]|]; [|done]. do 3 f_equal.
    pose proof (N.div_mod c 16). pose proof (N.div_mod (c / 16) 16). pose proof (N.div_mod (c / 16 / 16) 16).
    rewrite !N.Div0.div_div in *. change (16 * 16) with 256 in *. change (256 * 16) with 4096 in *. lia.
  - apply N.mod_lt. lia.
  - apply N.mod_lt. lia.
  - apply N.mod_lt. lia.
  - apply N.Div0.div_lt_upper_bound. lia.
Qed.

Lemma parse_plain_unit c t :
  32 <= c -> c <> 34 -> c <> 92 ->
  parse_string (c :: t) = match parse_string t with Some (x, r) => Some (c :: x, r) | None => None end.
Proof.
  intros H1 H2 H3. cbn [parse_string].
  rewrite (proj2 (N.eqb_neq c 34)), (proj2 (N.ltb_ge c 32)), (proj2 (N.eqb_neq c 92)) by lia. done.
Qed.

Lemma parse_quote_unit c t :
  parse_string (quote_unit c ++ t) =
    match parse_string t with Some (x, r) => Some (c :: x, r) | None => None end.
Proof.
  unfold quote_unit.
  repeat match goal with
  | |- context [if ?a =? ?b then _ else _] => destruct (N.eqb_spec a b) as [->|?]; [done|]
  end.
  destruct ((c <? 32) || is_high c || is_low c) eqn:He.
  - apply parse_unicode_escape. unfold is_high, is_low in He.
    rewrite !orb_true_iff, !andb_true_iff, N.ltb_lt, !N.leb_le in He. lia.
  - apply parse_plain_unit; [|done..]. rewrite !orb_false_iff in He. destruct He as [[He%N.ltb_ge _] _]. done.
Qed.

(** A quoted string reads back, whatever follows. *)
Lemma parse_quote_body s t : parse_string (quote_body s ++ 34 :: t) = Some (s, t).
Proof.
  cut (forall n s, (length s <= n)%nat -> parse_string (quote_body s ++ 34 :: t) = Some (s, t)); [eauto|].
  clear s. induction n as [|n IH]; intros s Hn; destruct s as [|c s]; cbn in Hn; try done; [lia|].
  cbn [quote_body]. destruct s as [|d s].
  - by rewrite parse_quote_unit.
  - destruct (is_high c && is_low d) eqn:Hp.
    + unfold is_high, is_low in Hp. rewrite !andb_true_iff, !N.leb_le in Hp.
      change ((c :: d :: quote_body s) ++ 34 :: t) with (c :: d :: (quote_body s ++ 34 :: t)).
      rewrite !parse_plain_unit by lia. rewrite IH; [done|]. cbn in Hn. lia.
    + rewrite <-app_assoc, parse_quote_unit, IH; [done|lia].
Qed.

Theorem JSON_parse_quote s : JSON_parse (json_quote s) = Some (JStr s).
Proof.
  rewrite (JSON_parse_fuel _ (2 * length (json_quote s) + 1)) by done. unfold json_quote at 2.
  rewrite Nat.add_1_r. cbn [parse_value app skip_ws is_json_ws N.eqb orb Pos.eqb].
  by rewrite parse_quote_body.
Qed.
