(* ===== verification/JsRegex.v ===== *)
(** * ECMAScript regular expressions

    The fragment the components use: character classes, sequence, alternation,
    greedy and lazy repetition, capturing groups, back references, the anchors [^], [$]
    and [\b].  [rmatch] is the backtracking matcher of the language definition
    in continuation-passing style: alternatives are tried from left to right, a
    greedy repetition takes as much as it can first and a lazy one as little, an iteration that consumes
    nothing fails, and entering an iteration clears the groups inside it.  The
    loop of a repetition carries the length of the rest as fuel: every
    iteration consumes a code unit, so it never runs out.

    A state is a zipper over the input: the code units already consumed, in
    reverse, and the rest.  The lemmas describe the matcher on literals and on
    repeated classes, which is what proofs about concrete patterns need; the
    last section relates the matcher to the relation a pattern denotes. *)

From S2P Require Import Prelude JsString.

Open Scope N_scope.

Record mstate := mkSt {
  before : jsstr;                   (** consumed, last unit first *)
  after : jsstr;
  caps : list (nat * jsstr);        (** the groups that took part *)
}.

Inductive re : Type :=
| REps
| RCls (p : N -> bool)
| RSeq (r1 r2 : re)
| RAlt (r1 r2 : re)
| RStar (r : re)
| RLazy (r : re)
| RGroup (n : nat) (r : re)
| RBack (n : nat)
| RStart
| REnd
| RWordB.

(** The numbers of the groups of a pattern. *)
Fixpoint groups (r : re) : list nat :=
  match r with
  | RSeq a b | RAlt a b => groups a ++ groups b
  | RStar a | RLazy a => groups a
  | RGroup n a => n :: groups a
  | _ => []
  end.

(** [\w] *)
Definition is_word (c : N) : bool :=
  is_digit c || ((65 <=? c) && (c <=? 90)) || ((97 <=? c) && (c <=? 122)) || (c =? 95).

Definition word_at (s : jsstr) : bool :=
  match s with c :: _ => is_word c | [] => false end.

(** Consume the prefix [a] of the rest. *)
Definition adv (a : jsstr) (st : mstate) : mstate :=
  mkSt (rev a ++ before st) (drop (length a) (after st)) (caps st).

Definition set_caps (c : list (nat * jsstr)) (st : mstate) : mstate :=
  mkSt (before st) (after st) c.

Definition clear_groups (ns : list nat) (st : mstate) : mstate :=
  set_caps (bfilter (fun kv => negb (bool_decide (kv.1 ∈ ns))) (caps st)) st.

(** What was consumed between two states. *)
Definition consumed (st st' : mstate) : jsstr :=
  take (length (after st) - length (after st')) (after st).

Definition capture (n : nat) (st st' : mstate) : mstate :=
  set_caps (map_set n (consumed st st') (caps st')) st'.

Definition cont := mstate -> option mstate.

(** The repetition of a body with the groups [ns]. *)
Fixpoint star_loop (body : cont -> cont) (ns : list nat) (k : cont) (fuel : nat) (st : mstate)
  : option mstate :=
  match fuel with
  | 0%nat => None
  | S f =>
      match body (fun st' => if (length (after st') <? length (after st))%nat
                             then star_loop body ns k f st' else None)
              (clear_groups ns st) with
      | Some x => Some x
      | None => k st
      end
  end.

(** The lazy repetition leaves as soon as it can. *)
Fixpoint lazy_loop (body : cont -> cont) (ns : list nat) (k : cont) (fuel : nat) (st : mstate)
  : option mstate :=
  match fuel with
  | 0%nat => None
  | S f =>
      match k st with
      | Some x => Some x
      | None =>
          body (fun st' => if (length (after st') <? length (after st))%nat
                           then lazy_loop body ns k f st' else None)
            (clear_groups ns st)
      end
  end.

Fixpoint rmatch (r : re) (k : cont) (st : mstate) : option mstate :=
  match r with
  | REps => k st
  | RCls p =>
      match after st with
      | c :: t => if p c then k (mkSt (c :: before st) t (caps st)) else None
      | [] => None
      end
  | RSeq a b => rmatch a (rmatch b k) st
  | RAlt a b =>
      match rmatch a k st with
      | Some x => Some x
      | None => rmatch b k st
      end
  | RStar a =>
      star_loop (rmatch a) (groups a) k (S (length (after st))) st
  | RLazy a =>
      lazy_loop (rmatch a) (groups a) k (S (length (after st))) st
  | RGroup n a => rmatch a (fun st' => k (capture n st st')) st
  | RBack n =>
      match map_get n (caps st) with
      | Some t => if starts_with t (after st) then k (adv t st) else None
      | None => k st
      end
  | RStart => match before st with [] => k st | _ => None end
  | REnd => match after st with [] => k st | _ => None end
  | RWordB => if xorb (word_at (before st)) (word_at (after st)) then k st else None
  end.

(** ** Pattern abbreviations *)

Definition RChr (c : N) : re := RCls (fun x => x =? c).

(** A literal. *)
Definition RStr (s : jsstr) : re := foldr (fun c r => RSeq (RChr c) r) REps s.

Definition RPlus (r : re) : re := RSeq r (RStar r).

(** [r?], for a pattern that does not match the empty string. *)
Definition ROpt (r : re) : re := RAlt r REps.

Definition rseq (l : list re) : re := foldr RSeq REps l.

(** [(?:a|b|c)] *)
Fixpoint ralt (l : list re) : re :=
  match l with
  | [] => RCls (fun _ => false)
  | [r] => r
  | r :: l' => RAlt r (ralt l')
  end.

(** [\s*] *)
Definition rws : re := RStar (RCls is_ws).

(** [.] without the [s] flag *)
Definition is_line_end (c : N) : bool := (c =? 10) || (c =? 13) || (c =? 8232) || (c =? 8233).

Definition RDot : re := RCls (fun c => negb (is_line_end c)).

(** Any code unit but a quotation mark. *)
Definition not_quote (c : N) : bool := negb (c =? 34).

(** ** Running a pattern *)

(** A match: the state at its end, with its groups, and its start. *)
Definition start_state (bef s : jsstr) : mstate := mkSt bef s [].

Definition group (n : nat) (m : mstate) : option jsstr := map_get n (caps m).

(** Search from a position of the input; [bef] is what lies before it. *)
Fixpoint search (r : re) (bef s : jsstr) : option (mstate * mstate) :=
  match rmatch r Some (start_state bef s) with
  | Some m => Some (start_state bef s, m)
  | None =>
      match s with
      | [] => None
      | c :: s' => search r (c :: bef) s'
      end
  end.

(** [s.match(r)], [r.test(s)] *)
Definition re_match (r : re) (s : jsstr) : option mstate := snd <$> search r [] s.

Definition re_test (r : re) (s : jsstr) : bool :=
  match search r [] s with Some _ => true | None => false end.

(** The successive results of [r.exec(s)] for a global pattern that does not
    match the empty string, each with the state its match starts in. *)
Fixpoint exec_loop (fuel : nat) (r : re) (bef s : jsstr) : list (mstate * mstate) :=
  match fuel with
  | 0%nat => []
  | S f =>
      match search r bef s with
      | Some (m0, m) => (m0, m) :: exec_loop f r (before m) (after m)
      | None => []
      end
  end.

Definition exec_all (r : re) (s : jsstr) : list mstate := (exec_loop (S (length s)) r [] s).*2.

(** [s.replace(r, t)] for such a global pattern. *)
Fixpoint replace_loop (fuel : nat) (r : re) (t bef s : jsstr) : jsstr :=
  match fuel with
  | 0%nat => s
  | S f =>
      match search r bef s with
      | Some (m0, m) =>
          take (length s - length (after m0)) s ++ t ++ replace_loop f r t (before m) (after m)
      | None => s
      end
  end.

Definition replace_all (r : re) (t s : jsstr) : jsstr := replace_loop (S (length s)) r t [] s.

(** [s.replace(r, t)] for a pattern without the global flag; [t] may use the
    groups of the match. *)
Definition replace_first (r : re) (t : mstate -> jsstr) (s : jsstr) : jsstr :=
  match search r [] s with
  | Some (m0, m) => take (length s - length (after m0)) s ++ t m ++ after m
  | None => s
  end.

(** [s.split(r)] for a pattern that does not match the empty string. *)
Fixpoint split_loop (fuel : nat) (r : re) (bef s : jsstr) : list jsstr :=
  match fuel with
  | 0%nat => [s]
  | S f =>
      match search r bef s with
      | Some (m0, m) =>
          take (length s - length (after m0)) s :: split_loop f r (before m) (after m)
      | None => [s]
      end
  end.

Definition re_split (r : re) (s : jsstr) : list jsstr := split_loop (S (length s)) r [] s.

(** ** Lemmas: states *)

Lemma clear_groups_nil st : clear_groups [] st = st.
Proof.
  destruct st as [b a c]. unfold clear_groups, set_caps. cbn. f_equal.
  apply bfilter_all. intros x _. apply negb_true_iff, bool_decide_eq_false. set_solver.
Qed.

Lemma adv_nil st : adv [] st = st.
Proof. by destruct st. Qed.

Lemma adv_app a b st : adv (a ++ b) st = adv b (adv a st).
Proof.
  unfold adv. cbn. rewrite rev_app_distr, <-app_assoc, length_app. f_equal.
  by rewrite drop_drop.
Qed.

Lemma after_adv a t b c : after (adv a (mkSt b (a ++ t) c)) = t.
Proof. unfold adv. cbn. by rewrite drop_app_length. Qed.

Lemma adv_mk a b t c : adv a (mkSt b (a ++ t) c) = mkSt (rev a ++ b) t c.
Proof. unfold adv. cbn. by rewrite drop_app_length. Qed.

Lemma consumed_mk b b' a t c c' : consumed (mkSt b (a ++ t) c) (mkSt b' t c') = a.
Proof.
  unfold consumed. cbn. rewrite length_app.
  replace (length a + length t - length t)%nat with (length a) by lia. by rewrite take_app_length.
Qed.

(** ** Lemmas: the continuation matters by its values only *)

Lemma star_loop_ext body ns k1 k2 :
  (forall c1 c2, (forall st, c1 st = c2 st) -> forall st, body c1 st = body c2 st) ->
  (forall st, k1 st = k2 st) ->
  forall f st, star_loop body ns k1 f st = star_loop body ns k2 f st.
Proof.
  intros Hb Hk. induction f as [|f IH]; intros st; cbn [star_loop]; [done|].
  rewrite (Hb _ (fun st' => if (length (after st') <? length (after st))%nat
                            then star_loop body ns k2 f st' else None)).
  - by rewrite Hk.
  - intros st'. by rewrite IH.
Qed.

Lemma lazy_loop_ext body ns k1 k2 :
  (forall c1 c2, (forall st, c1 st = c2 st) -> forall st, body c1 st = body c2 st) ->
  (forall st, k1 st = k2 st) ->
  forall f st, lazy_loop body ns k1 f st = lazy_loop body ns k2 f st.
Proof.
  intros Hb Hk. induction f as [|f IH]; intros st; cbn [lazy_loop]; [done|]. rewrite Hk.
  destruct (k2 st); [done|]. apply Hb. intros st'. by rewrite IH.
Qed.

Lemma rmatch_ext r : forall k1 k2, (forall st, k1 st = k2 st) -> forall st, rmatch r k1 st = rmatch r k2 st.
Proof.
  induction r as [|p|r1 IH1 r2 IH2|r1 IH1 r2 IH2|r IH|r IH|n r IH|n| | |]; intros k1 k2 Hk st; cbn [rmatch];
    rewrite ?Hk; try done.
  - repeat case_match; auto.
  - by apply IH1, IH2.
  - by rewrite (IH1 k1 k2), (IH2 k1 k2).
  - by apply star_loop_ext.
  - by apply lazy_loop_ext.
  - apply IH. intros st'. apply Hk.
  - case_match; [case_match|]; auto.
Qed.

(** ** Lemmas: literals *)

Lemma rmatch_chr c k b s caps0 :
  rmatch (RChr c) k (mkSt b (c :: s) caps0) = k (mkSt (c :: b) s caps0).
Proof. cbn. by rewrite N.eqb_refl. Qed.

Lemma rmatch_str p k st :
  rmatch (RStr p) k st = if starts_with p (after st) then k (adv p st) else None.
Proof.
  revert st. induction p as [|c p IH]; intros [b s cs]; cbn; [done|].
  destruct s as [|x s]; cbn; [done|]. rewrite (N.eqb_sym c x).
  destruct (N.eqb_spec x c) as [->|Hne]; cbn; [|done].
  rewrite IH. cbn. destruct (starts_with p s); [|done]. unfold adv. cbn. by rewrite <-app_assoc.
Qed.

Lemma rmatch_str_app p k b t cs :
  rmatch (RStr p) k (mkSt b (p ++ t) cs) = k (mkSt (rev p ++ b) t cs).
Proof. rewrite rmatch_str. cbn [after]. by rewrite starts_with_app, adv_mk. Qed.

(** ** Lemmas: repeated classes *)

(** The matcher on a repeated class, from the longest prefix down. *)
Fixpoint greedy (p : N -> bool) (k : cont) (b s : jsstr) (cs : list (nat * jsstr)) : option mstate :=
  match s with
  | c :: t =>
      if p c then
        match greedy p k (c :: b) t cs with
        | Some x => Some x
        | None => k (mkSt b s cs)
        end
      else k (mkSt b s cs)
  | [] => k (mkSt b s cs)
  end.

Lemma rmatch_star_cls p k b s cs : rmatch (RStar (RCls p)) k (mkSt b s cs) = greedy p k b s cs.
Proof.
  cut (forall fuel b s, (length s < fuel)%nat ->
         star_loop (rmatch (RCls p)) [] k fuel (mkSt b s cs) = greedy p k b s cs);
    [intros H; apply H; cbn; lia|].
  clear b s. induction fuel as [|f IH]; intros b s Hf; [lia|]. cbn [star_loop].
  rewrite clear_groups_nil. cbn [rmatch after]. destruct s as [|c t]; cbn [greedy]; [done|].
  destruct (p c); [|done]. cbn [after before caps length].
  rewrite (proj2 (Nat.ltb_lt _ _)) by lia. rewrite IH by (cbn in Hf; lia). done.
Qed.

(** A continuation that succeeds after the longest run is the result. *)
Lemma greedy_longest p k b a t cs x :
  forallb p a = true -> (forall c, head t = Some c -> p c = false) ->
  k (mkSt (rev a ++ b) t cs) = Some x -> greedy p k b (a ++ t) cs = Some x.
Proof.
  revert b. induction a as [|c a IH]; intros b Ha Ht Hk; cbn in *.
  - destruct t as [|d t]; cbn; [done|]. by rewrite (Ht d eq_refl).
  - apply andb_true_iff in Ha as [-> Ha]. rewrite (IH (c :: b)); [done..|].
    by rewrite <-app_assoc in Hk.
Qed.

(** A continuation that needs a unit outside the class decides at the end of
    the run. *)
Definition rejects (p : N -> bool) (k : cont) : Prop :=
  forall b c t cs, p c = true -> k (mkSt b (c :: t) cs) = None.

Lemma greedy_rejects p k b a t cs :
  rejects p k -> forallb p a = true -> (forall c, head t = Some c -> p c = false) ->
  greedy p k b (a ++ t) cs = k (mkSt (rev a ++ b) t cs).
Proof.
  intros Hk. revert b. induction a as [|c a IH]; intros b Ha Ht; cbn in *.
  - destruct t as [|d t]; cbn; [done|]. by rewrite (Ht d eq_refl).
  - apply andb_true_iff in Ha as [Hc Ha]. rewrite Hc, IH by done. rewrite <-app_assoc. cbn.
    rewrite (Hk b c (a ++ t) cs Hc). by destruct (k _).
Qed.

(** Everything the continuation is tried on is a suffix of the run. *)
Lemma greedy_None p k b s cs :
  (forall a t, s = a ++ t -> forallb p a = true -> k (mkSt (rev a ++ b) t cs) = None) ->
  greedy p k b s cs = None.
Proof.
  revert b. induction s as [|c s IH]; intros b H; cbn; [by apply (H [] [])|].
  pose proof (H [] (c :: s) eq_refl eq_refl) as H0. cbn in H0. rewrite H0.
  destruct (p c) eqn:Hc; [|done]. rewrite IH; [done|]. intros a t -> Ha.
  specialize (H (c :: a) t eq_refl). cbn in H. rewrite Hc, <-app_assoc in H. by apply H.
Qed.

(** The last position at which the continuation succeeds, when the run goes
    on behind it. *)
Lemma greedy_last p k b a t cs x :
  forallb p a = true -> k (mkSt (rev a ++ b) t cs) = Some x ->
  (forall a' t', t = a' ++ t' -> a' <> [] -> k (mkSt (rev a' ++ rev a ++ b) t' cs) = None) ->
  greedy p k b (a ++ t) cs = Some x.
Proof.
  revert b. induction a as [|c a IH]; intros b Ha Hk Hlater; cbn in *.
  - destruct t as [|d t]; cbn; [done|]. destruct (p d); [|done].
    rewrite greedy_None; [done|]. intros a' t' -> _.
    specialize (Hlater (d :: a') t' eq_refl ltac:(done)). cbn in Hlater. by rewrite <-app_assoc in Hlater.
  - apply andb_true_iff in Ha as [-> Ha]. rewrite IH; [done..| |].
    + by rewrite <-app_assoc in Hk.
    + intros a' t' Ht Hne. specialize (Hlater a' t' Ht Hne). by rewrite <-(app_assoc (rev a)) in Hlater.
Qed.

(** The lazy repetition of a class. *)
Fixpoint lazily (p : N -> bool) (k : cont) (b s : jsstr) (cs : list (nat * jsstr)) : option mstate :=
  match k (mkSt b s cs) with
  | Some x => Some x
  | None =>
      match s with
      | c :: t => if p c then lazily p k (c :: b) t cs else None
      | [] => None
      end
  end.

Lemma rmatch_lazy_cls p k b s cs : rmatch (RLazy (RCls p)) k (mkSt b s cs) = lazily p k b s cs.
Proof.
  cut (forall fuel b s, (length s < fuel)%nat ->
         lazy_loop (rmatch (RCls p)) [] k fuel (mkSt b s cs) = lazily p k b s cs);
    [intros H; apply H; cbn; lia|].
  induction fuel as [|f IH]; intros b' s' Hf; [lia|]. cbn [lazy_loop]. rewrite clear_groups_nil.
  destruct s' as [|c t]; cbn [lazily rmatch after before caps]; destruct (k _); try done.
  destruct (p c); [|done]. cbn [after]. rewrite (proj2 (Nat.ltb_lt _ _)) by (cbn; lia). apply IH. cbn in Hf. lia.
Qed.

(** It stops at the first place where the rest of the pattern matches. *)
Lemma lazily_first p k b a t cs x :
  forallb p a = true -> k (mkSt (rev a ++ b) t cs) = Some x ->
  (forall a1 a2, a = a1 ++ a2 -> a2 <> [] -> k (mkSt (rev a1 ++ b) (a2 ++ t) cs) = None) ->
  lazily p k b (a ++ t) cs = Some x.
Proof.
  revert b. induction a as [|c a IH]; intros b Ha Hk Hn; cbn [app].
  - cbn in Hk. destruct t; cbn [lazily]; by rewrite Hk.
  - cbn [lazily]. pose proof (Hn [] (c :: a) eq_refl ltac:(done)) as H0. cbn in H0. rewrite H0.
    cbn in Ha. apply andb_true_iff in Ha as [-> Ha]. apply IH; [done| |].
    + cbn in Hk. by rewrite <-app_assoc in Hk.
    + intros a1 a2 -> Hne. specialize (Hn (c :: a1) a2 eq_refl Hne). cbn in Hn. by rewrite <-app_assoc in Hn.
Qed.

Lemma rmatch_plus_cls p k b c s cs :
  rmatch (RPlus (RCls p)) k (mkSt b (c :: s) cs) =
  if p c then greedy p k (c :: b) s cs else None.
Proof. cbn [RPlus rmatch after before caps]. destruct (p c); [|done]. apply rmatch_star_cls. Qed.

Lemma rmatch_plus_longest p k b a t cs x :
  a <> [] -> forallb p a = true -> (forall c, head t = Some c -> p c = false) ->
  k (mkSt (rev a ++ b) t cs) = Some x -> rmatch (RPlus (RCls p)) k (mkSt b (a ++ t) cs) = Some x.
Proof.
  destruct a as [|c a]; [done|]. intros _ [Hc Ha]%andb_true_iff Ht Hk.
  change ((c :: a) ++ t) with (c :: (a ++ t)). rewrite rmatch_plus_cls, Hc.
  apply greedy_longest; [done..|]. cbn in Hk. by rewrite <-app_assoc in Hk.
Qed.

Lemma rmatch_plus_rejects p k b a t cs :
  rejects p k -> a <> [] -> forallb p a = true -> (forall c, head t = Some c -> p c = false) ->
  rmatch (RPlus (RCls p)) k (mkSt b (a ++ t) cs) = k (mkSt (rev a ++ b) t cs).
Proof.
  intros Hk. destruct a as [|c a]; [done|]. intros _ [Hc Ha]%andb_true_iff Ht.
  change ((c :: a) ++ t) with (c :: (a ++ t)). rewrite rmatch_plus_cls, Hc.
  rewrite greedy_rejects by done. cbn. by rewrite <-app_assoc.
Qed.

Lemma rmatch_plus_last p k b a t cs x :
  a <> [] -> forallb p a = true -> k (mkSt (rev a ++ b) t cs) = Some x ->
  (forall a' t', t = a' ++ t' -> a' <> [] -> k (mkSt (rev a' ++ rev a ++ b) t' cs) = None) ->
  rmatch (RPlus (RCls p)) k (mkSt b (a ++ t) cs) = Some x.
Proof.
  destruct a as [|c a]; [done|]. intros _ [Hc Ha]%andb_true_iff Hk Hl.
  change ((c :: a) ++ t) with (c :: (a ++ t)). rewrite rmatch_plus_cls, Hc.
  change (rev (c :: a)) with (rev a ++ [c]) in *. rewrite <-(app_assoc (rev a)) in Hk.
  apply greedy_last; [done..|]. intros a' t' Ht Hne. specialize (Hl a' t' Ht Hne).
  by rewrite <-(app_assoc (rev a)) in Hl.
Qed.

Lemma rejects_str p x s k : p x = false -> rejects p (rmatch (RStr (x :: s)) k).
Proof.
  intros Hx b c t cs Hc. rewrite rmatch_str. cbn [after starts_with].
  destruct (N.eqb_spec x c) as [->|]; [congruence|done].
Qed.

(** Blanks in front of a literal. *)
Lemma rmatch_ws_rejects k b a t cs :
  rejects is_ws k -> forallb is_ws a = true -> (forall c, head t = Some c -> is_ws c = false) ->
  rmatch rws k (mkSt b (a ++ t) cs) = k (mkSt (rev a ++ b) t cs).
Proof. intros Hk Ha Ht. unfold rws. rewrite rmatch_star_cls. by apply greedy_rejects. Qed.

Lemma rmatch_no_ws k b t cs :
  rejects is_ws k -> (forall c, head t = Some c -> is_ws c = false) ->
  rmatch rws k (mkSt b t cs) = k (mkSt b t cs).
Proof. intros Hk Ht. by apply (rmatch_ws_rejects k b []). Qed.

(** ** What a pattern denotes

    [matches r st st'] holds when [r] can lead from [st] to [st'].  The matcher
    finds a way that satisfies its continuation exactly when there is one. *)

Inductive matches : re -> mstate -> mstate -> Prop :=
| M_eps st : matches REps st st
| M_cls p b c t cs : p c = true -> matches (RCls p) (mkSt b (c :: t) cs) (mkSt (c :: b) t cs)
| M_seq r1 r2 st st1 st2 : matches r1 st st1 -> matches r2 st1 st2 -> matches (RSeq r1 r2) st st2
| M_alt_l r1 r2 st st' : matches r1 st st' -> matches (RAlt r1 r2) st st'
| M_alt_r r1 r2 st st' : matches r2 st st' -> matches (RAlt r1 r2) st st'
| M_star_0 r st : matches (RStar r) st st
| M_star_S r st st1 st2 :
    matches r (clear_groups (groups r) st) st1 -> (length (after st1) < length (after st))%nat ->
    matches (RStar r) st1 st2 -> matches (RStar r) st st2
| M_lazy_0 r st : matches (RLazy r) st st
| M_lazy_S r st st1 st2 :
    matches r (clear_groups (groups r) st) st1 -> (length (after st1) < length (after st))%nat ->
    matches (RLazy r) st1 st2 -> matches (RLazy r) st st2
| M_group n r st st' : matches r st st' -> matches (RGroup n r) st (capture n st st')
| M_back n t st : map_get n (caps st) = Some t -> starts_with t (after st) = true ->
    matches (RBack n) st (adv t st)
| M_back_unset n st : map_get n (caps st) = None -> matches (RBack n) st st
| M_start s cs : matches RStart (mkSt [] s cs) (mkSt [] s cs)
| M_end b cs : matches REnd (mkSt b [] cs) (mkSt b [] cs)
| M_word st : xorb (word_at (before st)) (word_at (after st)) = true -> matches RWordB st st.

#[local] Hint Constructors matches : core.

Lemma rmatch_sound r : forall k st x,
  rmatch r k st = Some x -> exists st', matches r st st' /\ k st' = Some x.
Proof.
  induction r as [|p|r1 IH1 r2 IH2|r1 IH1 r2 IH2|r IH|r IH|n r IH|n| | |]; intros k st x; cbn [rmatch].
  - eauto.
  - destruct st as [b [|c t] cs]; cbn; [done|]. destruct (p c) eqn:Hp; [|done]. eauto.
  - intros (st1 & H1 & (st2 & H2 & Hk)%IH2)%IH1. eauto.
  - destruct (rmatch r1 k st) eqn:H1; [|intros (st' & ? & ?)%IH2; eauto].
    intros [= ->]. apply IH1 in H1 as (st' & ? & ?). eauto.
  - generalize (S (length (after st))). intros fuel. revert st.
    induction fuel as [|f IHf]; intros st; cbn [star_loop]; [done|].
    destruct (rmatch r _ _) eqn:Hr; [|eauto]. intros [= ->].
    apply IH in Hr as (st1 & H1 & Hk). destruct (Nat.ltb_spec (length (after st1)) (length (after st))); [|done].
    apply IHf in Hk as (st2 & ? & ?). eauto.
  - generalize (S (length (after st))). intros fuel. revert st.
    induction fuel as [|f IHf]; intros st; cbn [lazy_loop]; [done|].
    destruct (k st) eqn:Hk0; [intros [= ->]; eauto|]. intros Hr.
    apply IH in Hr as (st1 & H1 & Hk). destruct (Nat.ltb_spec (length (after st1)) (length (after st))); [|done].
    apply IHf in Hk as (st2 & ? & ?). eauto.
  - intros (st' & ? & ?)%IH. eauto.
  - destruct (map_get n (caps st)) eqn:Hg; [|eauto]. destruct (starts_with _ _) eqn:Hs; [|done]. eauto.
  - destruct st as [[|] s cs]; [eauto|done].
  - destruct st as [b [|] cs]; [eauto|done].
  - destruct (xorb _ _) eqn:Hx; [|done]. eauto.
Qed.

Lemma rmatch_complete r : forall k st st',
  matches r st st' -> k st' <> None -> rmatch r k st <> None.
Proof.
  induction r as [|p|r1 IH1 r2 IH2|r1 IH1 r2 IH2|r IH|r IH|n r IH|n| | |]; intros k st st' Hm Hk; cbn [rmatch].
  - by inversion Hm; subst.
  - inversion Hm; subst. cbn. by rewrite H0.
  - inversion Hm; subst. eapply IH1; [eassumption|]. by eapply IH2.
  - destruct (rmatch r1 k st) eqn:H1; [done|]. inversion Hm; subst; [|by eapply IH2].
    by eapply IH1 in H1.
  - cut (forall fuel, (length (after st) < fuel)%nat -> star_loop (rmatch r) (groups r) k fuel st <> None);
      [intros H; apply H; lia|].
    remember (RStar r) as q eqn:Hq. revert Hk. induction Hm as [| | | | | |q st st1 st2 H1 _ Hlt H2 IH2| | | | | | | |];
      simplify_eq; intros Hk [|f] Hf; try lia; cbn [star_loop].
    + by destruct (rmatch r _ _).
    + destruct (rmatch r _ _) eqn:Hr; [done|]. exfalso. revert Hr. eapply IH; [exact H1|].
      rewrite (proj2 (Nat.ltb_lt _ _)) by done. apply IH2; [done..|lia].
  - cut (forall fuel, (length (after st) < fuel)%nat -> lazy_loop (rmatch r) (groups r) k fuel st <> None);
      [intros H; apply H; lia|].
    remember (RLazy r) as q eqn:Hq. revert Hk. induction Hm as [| | | | | | | |q st st1 st2 H1 _ Hlt H2 IH2| | | | | |];
      simplify_eq; intros Hk [|f] Hf; try lia; cbn [lazy_loop].
    + by destruct (k st).
    + destruct (k st); [done|]. eapply IH; [exact H1|].
      rewrite (proj2 (Nat.ltb_lt _ _)) by done. apply IH2; [done..|lia].
  - inversion Hm; subst. by eapply IH.
  - inversion Hm; subst.
    + repeat match goal with H : _ = _ |- _ => rewrite H end. done.
    + by match goal with H : _ = _ |- _ => rewrite H end.
  - by inversion Hm; subst.
  - by inversion Hm; subst.
  - inversion Hm; subst. by rewrite H.
Qed.

(** The matcher accepts exactly what the pattern denotes. *)
Theorem rmatch_accepts r st :
  is_Some (rmatch r Some st) <-> exists st', matches r st st'.
Proof.
  split.
  - intros [x (st' & Hm & _)%rmatch_sound]. by exists st'.
  - intros [st' Hm]. apply not_eq_None_Some. by eapply rmatch_complete.
Qed.

(** ** Lemmas: anchors, alternatives of literals, captured text *)

Lemma search_anchored_later r b s : b <> [] -> search (RSeq RStart r) b s = None.
Proof.
  revert b. induction s as [|c s IH]; intros b Hb; cbn; (destruct b; [done|]); [done|]. by apply IH.
Qed.

(** A pattern that starts with [^] is tried at the start only. *)
Lemma re_match_anchored r s : re_match (RSeq RStart r) s = rmatch r Some (start_state [] s).
Proof.
  unfold re_match. destruct s as [|c s]; cbn [search].
  - cbn [rmatch start_state before]. by destruct (rmatch r _ _).
  - cbn [rmatch start_state before]. destruct (rmatch r _ _); [done|]. by rewrite search_anchored_later.
Qed.

Lemma re_test_match r s : re_test r s = match re_match r s with Some _ => true | None => false end.
Proof. unfold re_test, re_match. by destruct (search r [] s). Qed.

Lemma rmatch_ralt r l k st :
  rmatch (ralt (r :: l)) k st =
  match rmatch r k st with Some x => Some x | None => rmatch (ralt l) k st end.
Proof.
  destruct l as [|r' l]; [|done]. cbn. destruct (rmatch r k st); [done|]. by destruct (after st).
Qed.

(** Exactly one literal of the alternatives is a prefix. *)
Lemma rmatch_ralt_str l a k b t cs :
  a ∈ l -> (forall x, x ∈ l -> starts_with x (a ++ t) = true -> x = a) ->
  rmatch (ralt (map RStr l)) k (mkSt b (a ++ t) cs) = k (mkSt (rev a ++ b) t cs).
Proof.
  intros Ha Hu. cut (rmatch (ralt (map RStr l)) k (mkSt b (a ++ t) cs) =
                     if decide (a ∈ l) then k (mkSt (rev a ++ b) t cs) else None);
    [by rewrite decide_True by done|]. clear Ha.
  induction l as [|x l IH].
  { rewrite decide_False by set_solver. cbn. by destruct (a ++ t). }
  cbn [map]. rewrite rmatch_ralt, rmatch_str. cbn [after].
  rewrite IH by (intros y Hy; apply Hu; by right).
  destruct (starts_with x (a ++ t)) eqn:Hs.
  - apply Hu in Hs as ->; [|by left]. rewrite adv_mk, (decide_True (P := a ∈ a :: l)) by (by left).
    destruct (k _) eqn:Hk; [done|]. by destruct (decide (a ∈ l)).
  - destruct (decide (a ∈ l)); [by rewrite decide_True by (by right)|].
    rewrite decide_False; [done|]. intros [->|?]%elem_of_cons; [|done]. by rewrite starts_with_app in Hs.
Qed.

(** The classes of a pattern without back references lie inside [p]. *)
Fixpoint re_only (p : N -> bool) (r : re) : Prop :=
  match r with
  | RCls q => forall c, q c = true -> p c = true
  | RSeq a b | RAlt a b => re_only p a /\ re_only p b
  | RStar a | RLazy a | RGroup _ a => re_only p a
  | RBack _ => False
  | _ => True
  end.

Lemma matches_only p r st st' :
  matches r st st' -> re_only p r ->
  exists a, after st = a ++ after st' /\ forallb p a = true /\ before st' = rev a ++ before st.
Proof.
  induction 1 as [st|q b c t cs Hq|r1 r2 st st1 st2 _ IH1 _ IH2|r1 r2 st st' _ IH|r1 r2 st st' _ IH|r st
                 |r st st1 st2 _ IH1 _ _ IH2|r st|r st st1 st2 _ IH1 _ _ IH2|n r st st' _ IH|n t st Hg Hs|n st Hg|s cs|b cs|st Hx]; cbn; intros Hp.
  - by exists [].
  - exists [c]. cbn. by rewrite (Hp c Hq).
  - destruct Hp as [Hp1 Hp2]. destruct (IH1 Hp1) as (a1 & E1 & F1 & B1), (IH2 Hp2) as (a2 & E2 & F2 & B2).
    exists (a1 ++ a2). rewrite E1, E2, forallb_app, F1, F2, B2, B1, rev_app_distr, !app_assoc. done.
  - destruct Hp. auto.
  - destruct Hp. auto.
  - by exists [].
  - destruct (IH1 Hp) as (a1 & E1 & F1 & B1), (IH2 Hp) as (a2 & E2 & F2 & B2). cbn in E1, B1.
    exists (a1 ++ a2). rewrite E1, E2, forallb_app, F1, F2, B2, B1, rev_app_distr, !app_assoc. done.
  - by exists [].
  - destruct (IH1 Hp) as (a1 & E1 & F1 & B1), (IH2 Hp) as (a2 & E2 & F2 & B2). cbn in E1, B1.
    exists (a1 ++ a2). rewrite E1, E2, forallb_app, F1, F2, B2, B1, rev_app_distr, !app_assoc. done.
  - apply IH, Hp.
  - done.
  - done.
  - by exists [].
  - by exists [].
  - by exists [].
Qed.

Lemma clear_groups_get ns n st : n ∉ ns -> map_get n (caps (clear_groups ns st)) = map_get n (caps st).
Proof.
  intros Hn. cbn [clear_groups set_caps caps]. induction (caps st) as [|[k v] l IH]; [done|]. cbn [bfilter fst map_get].
  case_bool_decide as Hk; cbn [negb].
  - rewrite IH. by rewrite decide_False by congruence.
  - cbn [map_get]. by rewrite IH.
Qed.

(** A pattern leaves the groups of others alone. *)
Lemma matches_caps r st st' n : matches r st st' -> n ∉ groups r -> map_get n (caps st') = map_get n (caps st).
Proof.
  induction 1 as [st|q b c t cs Hq|r1 r2 st st1 st2 _ IH1 _ IH2|r1 r2 st st' _ IH|r1 r2 st st' _ IH|r st
                 |r st st1 st2 _ IH1 _ _ IH2|r st|r st st1 st2 _ IH1 _ _ IH2|k r st st' _ IH|k t st Hg Hs|k st Hg|s cs|b cs|st Hx];
    cbn [groups]; try done.
  - rewrite not_elem_of_app. intros [H1 H2]. by rewrite IH2, IH1.
  - rewrite not_elem_of_app. intros [H1 H2]. by rewrite IH.
  - rewrite not_elem_of_app. intros [H1 H2]. by rewrite IH.
  - intros Hn. rewrite IH2, IH1 by done. by apply clear_groups_get.
  - intros Hn. rewrite IH2, IH1 by done. by apply clear_groups_get.
  - rewrite not_elem_of_cons. intros [H1 H2]. cbn [capture set_caps caps]. by rewrite map_get_set_ne, IH.
Qed.

Lemma search_after r s : forall b m0 m, search r b s = Some (m0, m) -> (length (after m0) <= length s)%nat.
Proof.
  induction s as [|c s IH]; intros b m0 m; cbn [search].
  - destruct (rmatch r _ _); [|done]. by intros [= <- _].
  - destruct (rmatch r _ _); [by intros [= <- _]|]. intros H%IH. cbn [length]. lia.
Qed.

(** Deleting runs of a class keeps a first unit outside it. *)
Lemma replace_head p t c s : p c = false -> exists s', replace_all (RPlus (RCls p)) t (c :: s) = c :: s'.
Proof.
  intros Hc. unfold replace_all. cbn [length replace_loop search].
  assert (rmatch (RPlus (RCls p)) Some (start_state [] (c :: s)) = None) as -> by (cbn; by rewrite Hc).
  destruct (search _ [c] s) as [[m0 m]|] eqn:Hm; [|by eexists]. apply search_after in Hm.
  rewrite Nat.sub_succ_l by done. cbn [take app]. by eexists.
Qed.

(** ** Successful runs

    [succeeds k t cs P]: from the rest [t] with the groups [cs], whatever lies
    before, the continuation [k] finds a match that satisfies [P].  The rules
    below follow a pattern along the path the matcher tries first. *)

Definition succeeds (k : cont) (t : jsstr) (cs : list (nat * jsstr)) (P : mstate -> Prop) : Prop :=
  forall b, exists x, k (mkSt b t cs) = Some x /\ P x.

Lemma succeeds_str p k t cs P : succeeds k t cs P -> succeeds (rmatch (RStr p) k) (p ++ t) cs P.
Proof. intros H b. rewrite rmatch_str_app. apply H. Qed.

Lemma succeeds_seq r1 r2 k t cs P :
  succeeds (rmatch r1 (rmatch r2 k)) t cs P -> succeeds (rmatch (RSeq r1 r2) k) t cs P.
Proof. done. Qed.

(** A repeated class that stops where its run ends. *)
Lemma succeeds_star p k a t cs P :
  forallb p a = true -> (forall c, head t = Some c -> p c = false) ->
  succeeds k t cs P -> succeeds (rmatch (RStar (RCls p)) k) (a ++ t) cs P.
Proof.
  intros Ha Ht H b. rewrite rmatch_star_cls. destruct (H (rev a ++ b)) as (x & Hx & HP).
  exists x. split; [|done]. by apply greedy_longest.
Qed.

Lemma succeeds_plus p k a t cs P :
  a <> [] -> forallb p a = true -> (forall c, head t = Some c -> p c = false) ->
  succeeds k t cs P -> succeeds (rmatch (RPlus (RCls p)) k) (a ++ t) cs P.
Proof.
  intros Hne Ha Ht H b. destruct (H (rev a ++ b)) as (x & Hx & HP).
  exists x. split; [|done]. by apply rmatch_plus_longest.
Qed.

Lemma succeeds_group n r k a t cs P :
  (forall k', succeeds k' t cs P -> succeeds (rmatch r k') (a ++ t) cs P) ->
  succeeds k t (map_set n a cs) P -> succeeds (rmatch (RGroup n r) k) (a ++ t) cs P.
Proof.
  intros Hr H b. cbn [rmatch].
  destruct (Hr (fun st' => k (capture n (mkSt b (a ++ t) cs) st'))) with (b := b) as (x & Hx & HP); [|by exists x].
  intros b'. unfold capture. rewrite consumed_mk. apply H.
Qed.

(** At the end of the text. *)
Lemma succeeds_run_end n p k a cs P :
  a <> [] -> forallb p a = true -> succeeds k [] (map_set n a cs) P ->
  succeeds (rmatch (RGroup n (RPlus (RCls p))) k) a cs P.
Proof.
  intros Hne Ha H. pose proof (succeeds_group n (RPlus (RCls p)) k a [] cs P) as Hg. rewrite app_nil_r in Hg.
  apply Hg; [|done]. intros k' Hk'. rewrite <-(app_nil_r a). by apply succeeds_plus.
Qed.

Lemma succeeds_alt_l r1 r2 k t cs P :
  succeeds (rmatch r1 k) t cs P -> succeeds (rmatch (RAlt r1 r2) k) t cs P.
Proof. intros H b. destruct (H b) as (x & Hx & HP). exists x. cbn [rmatch]. by rewrite Hx. Qed.

Lemma succeeds_alt_r r1 r2 k t cs P :
  (forall b, rmatch r1 k (mkSt b t cs) = None) ->
  succeeds (rmatch r2 k) t cs P -> succeeds (rmatch (RAlt r1 r2) k) t cs P.
Proof. intros Hn H b. destruct (H b) as (x & Hx & HP). exists x. cbn [rmatch]. by rewrite Hn. Qed.

(** The iterations of a repetition without groups over the pieces of a text. *)
Lemma succeeds_star_pieces r k l t cs P :
  groups r = [] ->
  (forall k' a t', a ∈ l -> (forall c, head t' = Some c -> head t = Some c \/ exists a', a' ∈ l /\ head a' = Some c) ->
     succeeds k' t' cs P -> succeeds (rmatch r k') (a ++ t') cs P) ->
  Forall (fun a => a <> []) l ->
  (forall k' b, rmatch r k' (mkSt b t cs) = None) ->
  succeeds k t cs P -> succeeds (rmatch (RStar r) k) (concat l ++ t) cs P.
Proof.
  intros Hg Hr Hne Hend H b. cbn [rmatch after]. rewrite Hg.
  generalize (Nat.lt_succ_diag_r (length (concat l ++ t))).
  generalize (S (length (concat l ++ t))). intros fuel. revert b fuel.
  assert (forall l', (forall a, a ∈ l' -> a ∈ l) -> forall b fuel, (length (concat l' ++ t) < fuel)%nat ->
    exists x, star_loop (rmatch r) [] k fuel (mkSt b (concat l' ++ t) cs) = Some x /\ P x) as Hall; [|by apply Hall].
  induction l' as [|a l' IH]; intros Hsub b [|f] Hf; try lia; cbn [star_loop]; rewrite clear_groups_nil.
  - cbn [concat app]. rewrite Hend. apply H.
  - cbn [concat]. rewrite <-app_assoc.
    assert (a ∈ l) as Hal by (apply Hsub; by left).
    destruct (Hr (fun st' => if (length (after st') <? length (a ++ concat l' ++ t))%nat
                             then star_loop (rmatch r) [] k f st' else None) a (concat l' ++ t) Hal) with (b := b)
      as (x & Hx & HP).
    + intros c Hc. destruct l' as [|a' l']; [by left|]. right. exists a'.
      assert (a' ∈ l) as Ha' by (apply Hsub; right; by left). split; [done|].
      rewrite Forall_forall in Hne. specialize (Hne a' Ha'). by destruct a'.
    + intros b'. cbn [after]. rewrite (proj2 (Nat.ltb_lt _ _)).
      * apply IH; [intros; apply Hsub; by right|]. cbn [concat] in Hf. rewrite <-app_assoc, length_app in Hf.
        rewrite Forall_forall in Hne. specialize (Hne a Hal). destruct a; [done|]. cbn in Hf. lia.
      * rewrite (length_app a). rewrite Forall_forall in Hne. specialize (Hne a Hal). destruct a; [done|]. cbn. lia.
    + exists x. cbn [after]. by rewrite Hx.
Qed.

(** A match at the current position is the first result of a search. *)
Lemma search_here r s P :
  succeeds (rmatch r Some) s [] P -> forall b, exists m, search r b s = Some (start_state b s, m) /\ P m.
Proof.
  intros H b. destruct (H b) as (x & Hx & HP). exists x. split; [|done].
  destruct s; cbn [search]; unfold start_state; by rewrite Hx.
Qed.

Lemma search_skip r c s :
  (forall b, rmatch r Some (mkSt b (c :: s) []) = None) -> forall b, search r b (c :: s) = search r (c :: b) s.
Proof. intros H b. cbn [search]. unfold start_state. by rewrite H. Qed.
