(* ===== verification/JsExpr.v ===== *)
(** * A fragment of JavaScript expressions

    [new Function] compiles the text of a billing expression as JavaScript.
    The fragment here has numbers, strings without escapes, variables, calls of
    named functions, the arithmetic, comparison, equality and logical operators
    and the conditional operator, with JavaScript's precedence, conversions and
    order of evaluation.  A text that needs anything else is outside the model:
    the functions return [None].

    The lexer takes the longest token, as the language does.  The parser has
    one function per precedence level; only parentheses, arguments and the
    branches of a conditional recurse, with the number of tokens as fuel. *)

From S2P Require Import Prelude JsString JsNumber JsJson JsRegex.

Open Scope N_scope.

Module Expr.

(** ** Tokens *)

Inductive token :=
| TNum (x : number)
| TId (s : jsstr)
| TStr (s : jsstr)
| TOp (s : jsstr).

#[export] Instance token_eq_dec : EqDecision token.
Proof. solve_decision. Defined.

Definition is_id_start (c : N) : bool :=
  ((65 <=? c) && (c <=? 90)) || ((97 <=? c) && (c <=? 122)) || (c =? 95) || (c =? 36).
Definition is_id_part (c : N) : bool := is_id_start c || is_digit c.

Fixpoint span (p : N -> bool) (s : jsstr) : jsstr * jsstr :=
  match s with
  | [] => ([], [])
  | c :: s' => if p c then let '(a, r) := span p s' in (c :: a, r) else ([], s)
  end.

(** The exponent part at the start of a text, if there is one; [None] for an
    exponent sign without digits. *)
Definition lex_exponent (s : jsstr) : option (jsstr * jsstr) :=
  match s with
  | c :: s1 =>
      if (c =? 101) || (c =? 69) then
        let '(sign, s2) := match s1 with
                           | d :: r => if (d =? 43) || (d =? 45) then ([d], r) else ([], s1)
                           | [] => ([], s1)
                           end in
        let '(ds, r) := span is_digit s2 in
        if truthy ds then Some (c :: sign ++ ds, r) else None
      else Some ([], s)
  | [] => Some ([], s)
  end.

(** A decimal literal.  An integer part of several digits does not start with
    zero, and no identifier follows immediately. *)
Definition lex_number (s : jsstr) : option (number * jsstr) :=
  let '(ip, r1) := span is_digit s in
  let '(fp, r2) := match r1 with
                   | 46 :: r => let '(ds, r') := span is_digit r in (46 :: ds, r')
                   | _ => ([], r1)
                   end in
  match lex_exponent r2 with
  | None => None
  | Some (ex, r3) =>
      let octal := match ip with 48 :: _ :: _ => true | _ => false end in
      let digits := truthy ip || (1 <? length fp)%nat in
      let next := match r3 with c :: _ => is_id_start c | [] => false end in
      if negb digits || octal || next then None else Some (str_to_num (ip ++ fp ++ ex), r3)
  end.

(** The operators, longer ones first; increment and decrement are tokens that
    the parser does not accept. *)
Definition OPERATORS : list jsstr :=
  [u "==="; u "!=="; u "++"; u "--"; u "&&"; u "||"; u "=="; u "!="; u "<="; u ">=";
   u "("; u ")"; u ","; u "?"; u ":"; u "+"; u "-"; u "*"; u "/"; u "%"; u "<"; u ">"; u "!"].

Definition lex_operator (s : jsstr) : option (jsstr * jsstr) :=
  match List.find (fun o => starts_with o s) OPERATORS with
  | Some o => Some (o, drop (length o) s)
  | None => None
  end.

(** A string between quotation marks, without escapes or line ends. *)
Definition is_plain_char (c : N) : bool := negb (c =? 34) && negb (c =? 92) && negb (c =? 10) && negb (c =? 13).

Definition lex1 (s : jsstr) : option (token * jsstr) :=
  match s with
  | [] => None
  | c :: s' =>
      if is_digit c || (c =? 46) then '(x, r) ← lex_number s; Some (TNum x, r)
      else if is_id_start c then let '(a, r) := span is_id_part s in Some (TId a, r)
      else if c =? 34 then
        let '(a, r) := span is_plain_char s' in
        match r with
        | 34 :: r' => Some (TStr a, r')
        | _ => None
        end
      else '(o, r) ← lex_operator s; Some (TOp o, r)
  end.

Fixpoint skip_blanks (s : jsstr) : jsstr :=
  match s with c :: s' => if is_ws c then skip_blanks s' else s | [] => [] end.

Fixpoint lex_loop (fuel : nat) (s : jsstr) : option (list token) :=
  match fuel with
  | 0%nat => None
  | S f =>
      match skip_blanks s with
      | [] => Some []
      | s' => '(t, r) ← lex1 s'; ts ← lex_loop f r; Some (t :: ts)
      end
  end.

Definition lex (s : jsstr) : option (list token) := lex_loop (S (length s)) s.

(** ** Syntax *)

Inductive expr :=
| ENum (x : number)
| EStr (s : jsstr)
| EVar (v : jsstr)
| ECall (f : jsstr) (args : list expr)
| EUn (op : jsstr) (e : expr)
| EBin (op : jsstr) (a b : expr)
| ECond (c a b : expr).

Definition parser := list token -> option (expr * list token).

(** ** Parsing *)

Section levels.
Context (sub : parser).

Fixpoint parse_args (fuel : nat) (ts : list token) : option (list expr * list token) :=
  match fuel with
  | 0%nat => None
  | S f =>
      '(e, r) ← sub ts;
      match r with
      | TOp o :: r' =>
          if bool_decide (o = u ",") then '(es, r'') ← parse_args f r'; Some (e :: es, r'')
          else if bool_decide (o = u ")") then Some ([e], r') else None
      | _ => None
      end
  end.

Definition parse_primary (ts : list token) : option (expr * list token) :=
  match ts with
  | TNum x :: r => Some (ENum x, r)
  | TStr s :: r => Some (EStr s, r)
  | TId v :: TOp o :: r =>
      if bool_decide (o = u "(") then
        match r with
        | TOp c :: r' =>
            if bool_decide (c = u ")") then Some (ECall v [], r')
            else '(es, r'') ← parse_args (length r) r; Some (ECall v es, r'')
        | _ => '(es, r'') ← parse_args (length r) r; Some (ECall v es, r'')
        end
      else Some (EVar v, TOp o :: r)
  | TId v :: r => Some (EVar v, r)
  | TOp o :: r =>
      if bool_decide (o = u "(") then
        '(e, r') ← sub r;
        match r' with
        | TOp c :: r'' => if bool_decide (c = u ")") then Some (e, r'') else None
        | _ => None
        end
      else None
  | _ => None
  end.

Fixpoint parse_unary (fuel : nat) (ts : list token) : option (expr * list token) :=
  match fuel with
  | 0%nat => None
  | S f =>
      match ts with
      | TOp o :: r =>
          if includes [u "-"; u "+"; u "!"] o then '(e, r') ← parse_unary f r; Some (EUn o e, r')
          else parse_primary ts
      | _ => parse_primary ts
      end
  end.

(** A chain of left-associative operators. *)
Fixpoint chain_loop (ops : list jsstr) (p : parser) (fuel : nat) (e : expr) (ts : list token)
  : option (expr * list token) :=
  match fuel with
  | 0%nat => None
  | S f =>
      match ts with
      | TOp o :: r =>
          if includes ops o then '(e', r') ← p r; chain_loop ops p f (EBin o e e') r'
          else Some (e, ts)
      | _ => Some (e, ts)
      end
  end.

Definition chain (ops : list jsstr) (p : parser) : parser :=
  fun ts => '(e, r) ← p ts; chain_loop ops p (S (length r)) e r.

Definition unary : parser := fun ts => parse_unary (S (length ts)) ts.
Definition MUL := [u "*"; u "/"; u "%"].
Definition ADD := [u "+"; u "-"].
Definition REL := [u "<"; u "<="; u ">"; u ">="].
Definition EQU := [u "=="; u "!="; u "==="; u "!=="].
Definition mul_level : parser := chain MUL unary.
Definition add_level : parser := chain ADD mul_level.
Definition rel_level : parser := chain REL add_level.
Definition equ_level : parser := chain EQU rel_level.
Definition and_level : parser := chain [u "&&"] equ_level.
Definition or_level : parser := chain [u "||"] and_level.

Definition cond_level : parser := fun ts =>
  '(c, r) ← or_level ts;
  match r with
  | TOp o :: r' =>
      if bool_decide (o = u "?") then
        '(a, r1) ← sub r';
        match r1 with
        | TOp o' :: r2 =>
            if bool_decide (o' = u ":") then '(b, r3) ← sub r2; Some (ECond c a b, r3) else None
        | _ => None
        end
      else Some (c, r)
  | _ => Some (c, r)
  end.

End levels.

Fixpoint parse_expr (fuel : nat) : parser :=
  match fuel with
  | 0%nat => fun _ => None
  | S f => cond_level (parse_expr f)
  end.

(** [(text)] as a whole *)
Definition parse (s : jsstr) : option expr :=
  ts ← lex s;
  match parse_expr (S (length ts)) ts with
  | Some (e, []) => Some e
  | _ => None
  end.

(** ** Evaluation *)

Inductive value :=
| VN (x : number)
| VB (b : bool)
| VS (s : jsstr)
| VU.

Definition to_num (v : value) : number :=
  match v with
  | VN x => x
  | VB b => num_of_Z (if b then 1 else 0)
  | VS s => str_to_num s
  | VU => NaN
  end.

Definition to_bool (v : value) : bool :=
  match v with VN x => num_truthy x | VB b => b | VS s => truthy s | VU => false end.

Definition to_text (v : value) : jsstr :=
  match v with
  | VN x => num_to_str x
  | VB b => if b then u "true" else u "false"
  | VS s => s
  | VU => u "undefined"
  end.

Definition is_str (v : value) : bool := match v with VS _ => true | _ => false end.

(** Comparison of two strings by code units, of other values as numbers. *)
Definition compare_values (a b : value) (cmp : comparison -> bool) (num : number -> number -> bool) : bool :=
  match a, b with
  | VS s, VS t => cmp (str_compare s t)
  | _, _ => num (to_num a) (to_num b)
  end.

Definition strict_equal (a b : value) : bool :=
  match a, b with
  | VN x, VN y => num_eq x y
  | VB x, VB y => Bool.eqb x y
  | VS x, VS y => bool_decide (x = y)
  | VU, VU => true
  | _, _ => false
  end.

Definition loose_equal (a b : value) : bool :=
  match a, b with
  | VS _, VS _ => strict_equal a b
  | VU, VU => true
  | VU, _ | _, VU => false
  | _, _ => num_eq (to_num a) (to_num b)
  end.

Definition apply_binary (op : jsstr) (a b : value) : option value :=
  if bool_decide (op = u "*") then Some (VN (to_num a * to_num b)%num)
  else if bool_decide (op = u "+") then
    Some (if is_str a || is_str b then VS (to_text a ++ to_text b) else VN (to_num a + to_num b)%num)
  else if bool_decide (op = u "-") then Some (VN (to_num a - to_num b)%num)
  else if bool_decide (op = u "/") then Some (VN (to_num a / to_num b)%num)
  else if bool_decide (op = u "%") then Some (VN (num_rem (to_num a) (to_num b)))
  else if bool_decide (op = u "<") then Some (VB (compare_values a b (fun c => bool_decide (c = Lt)) num_lt))
  else if bool_decide (op = u "<=") then Some (VB (compare_values a b (fun c => negb (bool_decide (c = Gt))) num_le))
  else if bool_decide (op = u ">") then Some (VB (compare_values a b (fun c => bool_decide (c = Gt)) num_gt))
  else if bool_decide (op = u ">=") then Some (VB (compare_values a b (fun c => negb (bool_decide (c = Lt))) num_ge))
  else if bool_decide (op = u "==") then Some (VB (loose_equal a b))
  else if bool_decide (op = u "!=") then Some (VB (negb (loose_equal a b)))
  else if bool_decide (op = u "===") then Some (VB (strict_equal a b))
  else if bool_decide (op = u "!==") then Some (VB (negb (strict_equal a b)))
  else None.

Definition apply_unary (op : jsstr) (a : value) : option value :=
  if bool_decide (op = u "-") then Some (VN (num_opp (to_num a)))
  else if bool_decide (op = u "+") then Some (VN (to_num a))
  else if bool_decide (op = u "!") then Some (VB (negb (to_bool a)))
  else None.

Section eval.
Context {St : Type} (vars : list (jsstr * value)).
Context (call : jsstr -> list value -> St -> option (value * St)).

Fixpoint eval (e : expr) (st : St) : option (value * St) :=
  match e with
  | ENum x => Some (VN x, st)
  | EStr s => Some (VS s, st)
  | EVar v => x ← map_get v vars; Some (x, st)
  | ECall f args =>
      '(vs, st') ← (fix eval_list (l : list expr) (st : St) : option (list value * St) :=
                      match l with
                      | [] => Some ([], st)
                      | a :: l' => '(v, st1) ← eval a st; '(vs, st2) ← eval_list l' st1; Some (v :: vs, st2)
                      end) args st;
      call f vs st'
  | EUn op a => '(v, st1) ← eval a st; r ← apply_unary op v; Some (r, st1)
  | EBin op a b =>
      '(v, st1) ← eval a st;
      if bool_decide (op = u "&&") then if to_bool v then eval b st1 else Some (v, st1)
      else if bool_decide (op = u "||") then if to_bool v then Some (v, st1) else eval b st1
      else '(w, st2) ← eval b st1; r ← apply_binary op v w; Some (r, st2)
  | ECond c a b => '(v, st1) ← eval c st; if to_bool v then eval a st1 else eval b st1
  end.

End eval.

(** ** Lemmas: tokens *)

Lemma span_app p a r : forallb p a = true -> (forall c, head r = Some c -> p c = false) -> span p (a ++ r) = (a, r).
Proof.
  intros Ha Hr. induction a as [|c a IH]; cbn [app span].
  - destruct r as [|c r]; [done|]. cbn [span]. by rewrite (Hr c eq_refl).
  - cbn in Ha. apply andb_true_iff in Ha as [-> Ha]. by rewrite IH.
Qed.

Lemma span_spec p s : let '(a, r) := span p s in s = a ++ r /\ forallb p a = true /\ (forall c, head r = Some c -> p c = false).
Proof.
  induction s as [|c s IH]; [done|]. cbn [span]. destruct (p c) eqn:Hc; [|split_and!; [done..|by intros x [= <-]]].
  destruct (span p s) as [a r]. destruct IH as (-> & Ha & Hr). cbn. by rewrite Hc.
Qed.

(** A text that may follow a numeral. *)
Definition ends_number (r : jsstr) : Prop :=
  forall c, head r = Some c -> is_id_start c = false /\ is_digit c = false /\ c <> 46 /\ c <> 43 /\ c <> 45.

Lemma is_id_start_e c : is_id_start c = false -> (c =? 101) || (c =? 69) = false.
Proof.
  unfold is_id_start. rewrite !orb_false_iff, !andb_false_iff, !N.leb_gt, !N.eqb_neq. lia.
Qed.

Lemma lex_exponent_app s ex r : ends_number r -> lex_exponent s = Some (ex, []) -> lex_exponent (s ++ r) = Some (ex, r).
Proof.
  intros Hr H. destruct s as [|c s].
  - cbn in H. injection H as <-. destruct r as [|c r]; [done|]. cbn [app lex_exponent].
    destruct (Hr c eq_refl) as (Hc & _). by rewrite (is_id_start_e c Hc).
  - cbn [app lex_exponent] in *. destruct ((c =? 101) || (c =? 69)); [|done].
    assert (forall s2, span is_digit s2 = (s2, []) -> s2 <> [] -> span is_digit (s2 ++ r) = (s2, r)) as Hspan.
    { intros s2 E Hne. apply span_app; [|intros x Hx; by apply Hr].
      pose proof (span_spec is_digit s2) as Hs. rewrite E in Hs. tauto. }
    destruct s as [|d s]; cbn [app].
    + done.
    + destruct ((d =? 43) || (d =? 45)) eqn:Hd.
      * destruct (span is_digit s) as [ds r'] eqn:E. destruct (truthy ds) eqn:Ht; [|done]. injection H as <- ->.
        pose proof (span_spec is_digit s) as Hs. rewrite E in Hs. destruct Hs as (Es & _). rewrite app_nil_r in Es. subst s.
        rewrite Hspan; [by rewrite Ht|done|by destruct ds].
      * destruct (span is_digit (d :: s)) as [ds r'] eqn:E. destruct (truthy ds) eqn:Ht; [|done]. injection H as <- ->.
        pose proof (span_spec is_digit (d :: s)) as Hs. rewrite E in Hs. destruct Hs as (Es & _). rewrite app_nil_r in Es.
        change (d :: s ++ r) with ((d :: s) ++ r). rewrite Es in *. rewrite Hspan; [by rewrite Ht|done|by destruct ds].
Qed.

(** A numeral that is a whole literal is lexed up to its end. *)
Lemma lex_number_app s x r : ends_number r -> lex_number s = Some (x, []) -> lex_number (s ++ r) = Some (x, r).
Proof.
  intros Hr. unfold lex_number. pose proof (span_spec is_digit s) as Hs. destruct (span is_digit s) as [ip r1].
  destruct Hs as (-> & Hip & Hr1). rewrite <-app_assoc.
  assert (span is_digit (ip ++ r1 ++ r) = (ip, r1 ++ r)) as ->.
  { apply span_app; [done|]. intros c. destruct r1 as [|d r1]; cbn; [intros Hc; by apply Hr|intros [= <-]; by apply Hr1]. }
  assert (forall fp r2, match r1 with 46 :: q => let '(ds, r') := span is_digit q in (46 :: ds, r') | _ => ([], r1) end = (fp, r2) ->
    match r1 ++ r with 46 :: q => let '(ds, r') := span is_digit q in (46 :: ds, r') | _ => ([], r1 ++ r) end = (fp, r2 ++ r)) as Hf.
  { intros fp r2. destruct r1 as [|d r1]; cbn [app].
    - intros [= <- <-]. destruct r as [|c r]; [done|]. destruct (Hr c eq_refl) as (_ & _ & Hc & _).
      cbn [app]. destruct c as [|c]; [done|]. do 6 (destruct c as [c|c|]; try done).
    - destruct (decide (d = 46)) as [->|Hne].
      + pose proof (span_spec is_digit r1) as Hs. destruct (span is_digit r1) as [ds q]. destruct Hs as (-> & Hds & Hq).
        intros [= <- <-]. rewrite <-app_assoc, span_app; [done|done|].
        intros c. destruct q as [|y q]; cbn; [intros Hc; by apply Hr|intros [= <-]; by apply Hq].
      + assert (forall (A : Type) (a b : A) q, match d :: q with 46 :: _ => a | _ => b end = b) as Hd.
        { intros. destruct d as [|d]; [done|]. do 6 (destruct d as [d|d|]; try done). }
        assert (forall q, match d :: q with 46 :: q' => let '(ds, r') := span is_digit q' in (46 :: ds, r') | _ => ([], d :: q) end
                = ([] : jsstr, d :: q)) as Hd'.
        { intros. destruct d as [|d]; [done|]. do 6 (destruct d as [d|d|]; try done). }
        rewrite !Hd'. by intros [= <- <-]. }
  destruct (match r1 with 46 :: q => _ | _ => _ end) as [fp r2] eqn:E. rewrite (Hf fp r2 eq_refl).
  destruct (lex_exponent r2) as [[ex r3]|] eqn:Ee; [|done].
  set (digits := truthy ip || (1 <? length fp)%nat). set (octal := match ip with 48 :: _ :: _ => true | _ => false end).
  destruct (negb digits || octal || _) eqn:Eb; [done|]. intros [= <- ->].
  rewrite (lex_exponent_app r2 ex r Hr Ee).
  apply orb_false_iff in Eb as [Eb _]. rewrite Eb. cbn [orb].
  destruct r as [|c r]; [done|]. by rewrite (proj1 (Hr c eq_refl)).
Qed.

(** The tokens of a text, one at a time. *)
Inductive lexed : jsstr -> list token -> Prop :=
| lexed_end s : skip_blanks s = [] -> lexed s []
| lexed_tok s t r ts : skip_blanks s <> [] -> lex1 (skip_blanks s) = Some (t, r) ->
    (length r < length (skip_blanks s))%nat -> lexed r ts -> lexed s (t :: ts).

Lemma skip_blanks_length s : (length (skip_blanks s) <= length s)%nat.
Proof. induction s as [|c s IH]; [done|]. cbn [skip_blanks]. destruct (is_ws c); cbn [length]; lia. Qed.

Lemma lexed_lex s ts : lexed s ts -> lex s = Some ts.
Proof.
  unfold lex. intros H. assert (forall fuel, (length s < fuel)%nat -> lex_loop fuel s = Some ts) as Hall; [|apply Hall; lia].
  induction H as [s E|s t r ts Hne Hl Hlt _ IH]; intros [|fuel] Hf; try lia; cbn [lex_loop].
  - by rewrite E.
  - pose proof (skip_blanks_length s). destruct (skip_blanks s) as [|c s'] eqn:E; [done|].
    rewrite Hl. cbn [mbind option_bind]. rewrite IH by lia. done.
Qed.

Lemma lexed_blank s ts : lexed s ts -> lexed (32 :: s) ts.
Proof. intros H. inversion H as [? E|? t r ? Hne Hl Hlt Hr]; subst; [by constructor|]. by eapply lexed_tok. Qed.

(** One token without a blank in front of it. *)
Lemma lexed_one s t r ts :
  (forall c, head s = Some c -> is_ws c = false) -> lex1 s = Some (t, r) -> (length r < length s)%nat ->
  lexed r ts -> lexed s (t :: ts).
Proof.
  intros Hs Hl Hlt H. destruct s as [|c s]; [done|].
  assert (skip_blanks (c :: s) = c :: s) as E by (cbn; by rewrite (Hs c eq_refl)).
  eapply lexed_tok; rewrite ?E; done.
Qed.

Lemma id_start_facts c : is_id_start c = true -> is_ws c = false /\ is_digit c || (c =? 46) = false.
Proof.
  unfold is_id_start. rewrite !orb_true_iff, !andb_true_iff, !N.leb_le, !N.eqb_eq. intros H. split.
  - unfold is_ws. rewrite !orb_false_iff, !andb_false_iff, !N.leb_gt, !N.eqb_neq. lia.
  - apply orb_false_iff. split; [|apply N.eqb_neq; lia]. apply not_true_is_false. rewrite is_digit_range. lia.
Qed.

Lemma lexed_id v r ts :
  (exists c s, v = c :: s /\ is_id_start c = true) -> forallb is_id_part v = true ->
  (forall c, head r = Some c -> is_id_part c = false) -> lexed r ts -> lexed (v ++ r) (TId v :: ts).
Proof.
  intros (c & s & -> & Hc) Hv Hr H. destruct (id_start_facts c Hc) as [Hw Hd]. eapply lexed_one; [| | |exact H].
  - by intros x [= <-].
  - pose proof (span_app is_id_part (c :: s) r Hv Hr) as E. cbn [app lex1] in *. by rewrite Hd, Hc, E.
  - rewrite length_app. cbn. lia.
Qed.

Lemma lexed_num s x r ts :
  (exists c s', s = c :: s' /\ is_digit c = true) -> lex_number s = Some (x, []) -> ends_number r -> lexed r ts ->
  lexed (s ++ r) (TNum x :: ts).
Proof.
  intros (c & s' & -> & Hc) Hx Hr H. eapply lexed_one; [| | |exact H].
  - intros y [= <-]. by apply is_digit_not_ws.
  - pose proof (lex_number_app _ _ _ Hr Hx) as E. cbn [app lex1] in *. rewrite Hc. cbn [orb]. by rewrite E.
  - rewrite length_app. cbn. lia.
Qed.

Lemma lexed_str s r ts : forallb is_plain_char s = true -> lexed r ts -> lexed (34 :: s ++ 34 :: r) (TStr s :: ts).
Proof.
  intros Hs H. eapply lexed_one; [| | |exact H].
  - by intros c [= <-].
  - cbn [lex1]. change (is_digit 34 || (34 =? 46)) with false. change (is_id_start 34) with false. cbn iota.
    rewrite N.eqb_refl. by rewrite span_app; [|done|by intros c [= <-]].
  - cbn. rewrite length_app. cbn. lia.
Qed.

Lemma lexed_op o r ts :
  (forall c, head (o ++ r) = Some c -> is_ws c = false) -> o <> [] -> lex1 (o ++ r) = Some (TOp o, r) ->
  lexed r ts -> lexed (o ++ r) (TOp o :: ts).
Proof.
  intros Hw Hne Hl H. eapply lexed_one; [exact Hw|exact Hl| |exact H]. rewrite length_app. destruct o; [done|]. cbn. lia.
Qed.

(** ** Lemmas: parsing

    A token list is read by a level when an operator of that level does not
    follow. *)

Definition follows (ops : list jsstr) (ts : list token) : Prop :=
  match ts with TOp o :: _ => includes ops o = false | _ => True end.

(** The operands and operators of a chain, up to the rest of the text. *)
Inductive chained (ops : list jsstr) (p : parser) : expr -> list token -> expr -> list token -> Prop :=
| chained_end e r : follows ops r -> chained ops p e r e r
| chained_step e o r e1 r1 e' r' :
    includes ops o = true -> p r = Some (e1, r1) -> (length r1 <= length r)%nat ->
    chained ops p (EBin o e e1) r1 e' r' -> chained ops p e (TOp o :: r) e' r'.

Lemma chain_loop_reads ops p e r e' r' :
  chained ops p e r e' r' -> forall fuel, (length r < fuel)%nat -> chain_loop ops p fuel e r = Some (e', r').
Proof.
  induction 1 as [e r Hr|e o r e1 r1 e' r' Ho Hp Hlen _ IH]; intros [|fuel] Hf; try lia; cbn [chain_loop].
  - destruct r as [|[] r]; try done. cbn in Hr. by rewrite Hr.
  - rewrite Ho, Hp. cbn. apply IH. cbn in Hf. lia.
Qed.

Lemma chain_reads ops p ts e r e' r' :
  p ts = Some (e, r) -> chained ops p e r e' r' -> chain ops p ts = Some (e', r').
Proof. intros Hp H. unfold chain. rewrite Hp. cbn [mbind option_bind]. eapply chain_loop_reads; [done|lia]. Qed.

Lemma chain_one ops p ts e r : p ts = Some (e, r) -> follows ops r -> chain ops p ts = Some (e, r).
Proof. intros Hp Hr. eapply chain_reads; [done|]. by apply chained_end. Qed.

(** From one level to a looser one. *)
Lemma reads_equ sub ts e r :
  add_level sub ts = Some (e, r) -> follows REL r -> follows EQU r -> equ_level sub ts = Some (e, r).
Proof. intros H H1 H2. apply chain_one; [|done]. by apply chain_one. Qed.

Lemma reads_cond sub ts e r :
  add_level sub ts = Some (e, r) -> follows REL r -> follows EQU r -> follows [u "&&"] r -> follows [u "||"] r ->
  follows [u "?"] r -> cond_level sub ts = Some (e, r).
Proof.
  intros H H1 H2 H3 H4 H5. unfold cond_level, or_level.
  rewrite (chain_one [u "||"] (and_level sub) ts e r); [|by apply chain_one; [apply reads_equ|]|done]. cbn.
  destruct r as [|[] r]; try done. rewrite bool_decide_eq_false_2; [done|]. intros ->. discriminate H5.
Qed.

(** A conditional whose test is a conjunction. *)
Lemma reads_choice sub ts c r a r1 b r2 :
  and_level sub ts = Some (c, TOp (u "?") :: r) -> sub r = Some (a, TOp (u ":") :: r1) -> sub r1 = Some (b, r2) ->
  cond_level sub ts = Some (ECond c a b, r2).
Proof.
  intros H Ha Hb. unfold cond_level, or_level. rewrite (chain_one _ _ _ _ _ H) by done. cbn. rewrite Ha. cbn. by rewrite Hb.
Qed.

Lemma unary_id sub v o r : o <> u "(" -> unary sub (TId v :: TOp o :: r) = Some (EVar v, TOp o :: r).
Proof. intros Ho. unfold unary. cbn [parse_unary parse_primary]. by rewrite bool_decide_eq_false_2. Qed.

(** A call of a function with two arguments. *)
Lemma unary_call2 sub f ts a r1 b r :
  (forall c ts', ts <> TOp c :: ts') ->
  sub ts = Some (a, TOp (u ",") :: r1) -> sub r1 = Some (b, TOp (u ")") :: r) -> (1 < length ts)%nat ->
  unary sub (TId f :: TOp (u "(") :: ts) = Some (ECall f [a; b], r).
Proof.
  intros Hts Ha Hb Hlen. unfold unary. cbn [parse_unary parse_primary].
  assert (parse_args sub (length ts) ts = Some ([a; b], r)) as E.
  { destruct ts as [|t1 [|t2 ts]]; [cbn in Hlen; lia..|]. cbn [length]. cbn [parse_args]. rewrite Ha.
    cbn [mbind option_bind]. rewrite bool_decide_eq_true_2 by done. rewrite Hb. cbn [mbind option_bind].
    by rewrite bool_decide_eq_false_2, bool_decide_eq_true_2. }
  rewrite bool_decide_eq_true_2 by done. destruct ts as [|[] ts]; try (rewrite E; done). by destruct (Hts s ts).
Qed.

Lemma add_of_unary sub ts e r :
  unary sub ts = Some (e, r) -> follows MUL r -> follows ADD r -> add_level sub ts = Some (e, r).
Proof. intros H H1 H2. apply chain_one; [|done]. by apply chain_one. Qed.

(** [v * x] *)
Definition times (vx : jsstr * number) : expr := EBin (u "*") (EVar vx.1) (ENum vx.2).
Definition times_tokens (vx : jsstr * number) : list token := [TId vx.1; TOp (u "*"); TNum vx.2].

Lemma mul_times sub vx r : follows MUL r -> mul_level sub (times_tokens vx ++ r) = Some (times vx, r).
Proof.
  intros Hr. unfold mul_level. cbn [times_tokens app]. eapply chain_reads; [by apply unary_id|].
  eapply chained_step; [done|reflexivity|cbn; lia|]. by apply chained_end.
Qed.

(** A sum of products. *)
Definition sum_expr (e : expr) (l : list (jsstr * number)) : expr := foldl (fun e vx => EBin (u "+") e (times vx)) e l.
Definition sum_tokens (l : list (jsstr * number)) : list token := concat (map (fun vx => TOp (u "+") :: times_tokens vx) l).

Lemma sum_chained sub l r : follows MUL r -> follows ADD r -> forall e,
  chained ADD (mul_level sub) e (sum_tokens l ++ r) (sum_expr e l) r.
Proof.
  intros Hm Ha. unfold sum_tokens. induction l as [|vx l IH]; intros e; cbn [map concat app]; [by apply chained_end|].
  eapply chained_step; [done| | |apply IH].
  - rewrite <-app_assoc. apply mul_times. by destruct l.
  - cbn. lia.
Qed.

Lemma add_sum sub vx l r :
  follows MUL r -> follows ADD r ->
  add_level sub (times_tokens vx ++ sum_tokens l ++ r) = Some (sum_expr (times vx) l, r).
Proof.
  intros Hm Ha. unfold add_level. eapply chain_reads; [apply mul_times|by apply sum_chained]. by destruct l.
Qed.

Example parse_precedence :
  parse (u "a + 2 * b < 10 && !c ? f(1, x) : 0.5e1") =
  Some (ECond (EBin (u "&&") (EBin (u "<") (EBin (u "+") (EVar (u "a")) (EBin (u "*") (ENum (num_of_Z 2)) (EVar (u "b"))))
                                  (ENum (num_of_Z 10)))
                     (EUn (u "!") (EVar (u "c"))))
          (ECall (u "f") [ENum (num_of_Z 1); EVar (u "x")]) (ENum (num_of_Z 5))).
Proof. vm_compute. reflexivity. Qed.

Example parse_outside : parse (u "a = 1") = None /\ parse (u "012") = None /\ parse (u "3in") = None.
Proof. vm_compute. done. Qed.

End Expr.
