(* ===== verification/JsPrint.v ===== *)
(** * [JSON.stringify] and its round trip

    [stringify gap indent j] is the text of [j] at the indentation [indent],
    as ECMAScript's [SerializeJSONProperty] writes it; the gap is empty for
    [JSON.stringify(j)] and two blanks for [JSON.stringify(j, null, 2)].  The
    properties of an object are written in the order of [Object.entries].

    A text that was printed reads back as the value, with its properties in
    that order ([parse_stringify]).  Numbers must be ones that their decimal
    text denotes: an infinity is written as [null] and a negative zero as
    [0]. *)

From S2P Require Import Prelude JsString JsNumber JsJson.

Open Scope N_scope.

Module Print.

(** ** Printing *)

(** [{} / []], or the members on lines of their own between two brackets. *)
Definition bracket (gap indent : jsstr) (op cl : N) (members : list jsstr) : jsstr :=
  match members with
  | [] => [op; cl]
  | _ =>
      if truthy gap then
        let inner := 10 :: indent ++ gap in
        op :: inner ++ join (44 :: inner) members ++ 10 :: indent ++ [cl]
      else op :: join [44] members ++ [cl]
  end.

(** [`"key": text`], without the blank when there is no gap *)
Definition member (gap : jsstr) (kv : jsstr * jsstr) : jsstr :=
  json_quote kv.1 ++ 58 :: (if truthy gap then [32] else []) ++ kv.2.

Fixpoint stringify (gap indent : jsstr) (j : json) : jsstr :=
  match j with
  | JNull => u "null"
  | JBool b => if b then u "true" else u "false"
  | JNum x => if is_finite x then num_to_str x else u "null"
  | JStr s => json_quote s
  | JArr l => bracket gap indent 91 93 (map (stringify gap (indent ++ gap)) l)
  | JObj fs =>
      bracket gap indent 123 125
        (map (member gap) (obj_entries (map (fun kv => (kv.1, stringify gap (indent ++ gap) kv.2)) fs)))
  end.

(** [JSON.stringify(j)] and [JSON.stringify(j, null, 2)] *)
Definition JSON_stringify (j : json) : jsstr := stringify [] [] j.
Definition JSON_stringify2 (j : json) : jsstr := stringify [32; 32] [] j.

Example stringify_sample :
  JSON_stringify2 (JObj [(u "b", JNum (num_of_decimal 15 (-1))); (u "2", JArr []); (u "a", JArr [JNull; JBool true])]) =
  uj "{" ++ [10] ++ uj "  '2': []," ++ [10] ++ uj "  'b': 1.5," ++ [10] ++ uj "  'a': [" ++ [10] ++
  uj "    null," ++ [10] ++ uj "    true" ++ [10] ++ uj "  ]" ++ [10] ++ uj "}".
Proof. vm_compute. reflexivity. Qed.

(** ** What reads back *)

(** Properties in the order of [Object.entries]. *)
Fixpoint ordered (j : json) : json :=
  match j with
  | JArr l => JArr (map ordered l)
  | JObj fs => JObj (obj_entries (map (fun kv => (kv.1, ordered kv.2)) fs))
  | _ => j
  end.

Definition printable_number (x : number) : bool :=
  is_finite x && bool_decide (parse_number (num_to_str x) = Some (x, [])).

Fixpoint printable (j : json) : bool :=
  match j with
  | JNum x => printable_number x
  | JArr l => forallb printable l
  | JObj fs => forallb (fun kv => printable kv.2) fs
  | _ => true
  end.

(** Induction with a hypothesis for the elements of arrays and objects. *)
Lemma json_rect' (P : json -> Prop) :
  P JNull -> (forall b, P (JBool b)) -> (forall n, P (JNum n)) -> (forall s, P (JStr s)) ->
  (forall l, Forall P l -> P (JArr l)) -> (forall fs, Forall (fun kv => P kv.2) fs -> P (JObj fs)) ->
  forall j, P j.
Proof.
  intros H1 H2 H3 H4 H5 H6. fix IH 1. intros [|b|n|s|l|fs]; [exact H1|exact (H2 b)|exact (H3 n)|exact (H4 s)| |].
  - apply H5. induction l as [|x l IHl]; constructor; [apply IH|exact IHl].
  - apply H6. induction fs as [|[k v] fs IHl]; constructor; [apply IH|exact IHl].
Qed.

(** ** Lemmas: lexing with a rest *)

Definition blanks (w : jsstr) : Prop := forallb is_json_ws w = true.

Lemma skip_blanks w s : blanks w -> skip_ws (w ++ s) = skip_ws s.
Proof.
  unfold blanks. induction w as [|c w IH]; [done|]. cbn [forallb app skip_ws]. rewrite andb_true_iff.
  intros [-> Hw]. by apply IH.
Qed.

(** What may follow a value. *)
Definition ends (r : jsstr) : Prop := match r with c :: _ => c ∈ [10; 44; 93; 125] | [] => True end.

Lemma ends_head r c : ends (c :: r) -> is_digit c = false /\ c <> 46 /\ c <> 101 /\ c <> 69.
Proof. cbn. rewrite !elem_of_cons, elem_of_nil. by intros [->|[->|[->|[->|[]]]]]. Qed.

Lemma span_digits_app s d q r : ends r -> span_digits s = (d, q) -> span_digits (s ++ r) = (d, q ++ r).
Proof.
  intros Hr. revert d q. induction s as [|c s IH]; intros d q H; cbn [app].
  - injection H as <- <-. destruct r as [|c r]; [done|]. cbn [span_digits app]. by rewrite (proj1 (ends_head r c Hr)).
  - cbn [span_digits] in *. destruct (is_digit c); [|by injection H as <- <-]. destruct (span_digits s) as [d' q'].
    injection H as <- ->. by rewrite (IH d' q eq_refl).
Qed.

(** The literal patterns of the parser as tests. *)

Definition sign_split (s : jsstr) : bool * jsstr :=
  match s with c :: s' => if c =? 45 then (true, s') else if c =? 43 then (false, s') else (false, s) | [] => (false, s) end.

Lemma parse_exponent_eq s :
  parse_exponent s =
  match s with
  | c :: s1 =>
      if (c =? 101) || (c =? 69) then
        let '(neg, s2) := sign_split s1 in
        let '(d, r) := span_digits s2 in
        if truthy d then Some (if neg then (- Z.of_N (digits_val d))%Z else Z.of_N (digits_val d), r) else None
      else Some (0%Z, s)
  | [] => Some (0%Z, s)
  end.
Proof.
  unfold parse_exponent. destruct s as [|c s]; [done|]. destruct ((c =? 101) || (c =? 69)); [|done].
  assert (sign_split s = match s with 45 :: r => (true, r) | 43 :: r => (false, r) | _ => (false, s) end) as ->.
  { destruct s as [|[|d] s]; [done|done|]. do 6 (destruct d as [d|d|]; try done). }
  destruct (match s with 45 :: _ => _ | _ => _ end) as [neg s2]. by destruct (span_digits s2) as [[|x d] r].
Qed.

Lemma parse_exponent_app s e r : ends r -> parse_exponent s = Some (e, []) -> parse_exponent (s ++ r) = Some (e, r).
Proof.
  intros Hr. rewrite !parse_exponent_eq. destruct s as [|c s]; cbn [app].
  - intros [= <-]. destruct r as [|c r]; [done|]. destruct (ends_head r c Hr) as (_ & _ & H1 & H2).
    by rewrite (proj2 (N.eqb_neq c 101) H1), (proj2 (N.eqb_neq c 69) H2).
  - destruct ((c =? 101) || (c =? 69)); [|done]. destruct s as [|d s]; [done|]. cbn [app sign_split].
    destruct (d =? 45), (d =? 43); cbn iota.
    all: match goal with |- context [let '(_, _) := span_digits ?x in _] => destruct (span_digits x) as [ds q] eqn:E end.
    all: destruct (truthy ds) eqn:Ht; [|done].
    all: intros H; injection H as He Hq; subst e q; apply (span_digits_app _ _ _ r Hr) in E; cbn [app] in E; rewrite E, Ht; done.
Qed.

Definition fraction_split (s : jsstr) : bool * jsstr * jsstr :=
  match s with
  | c :: s' => if c =? 46 then let '(d, q) := span_digits s' in (true, d, q) else (false, [], s)
  | [] => (false, [], s)
  end.

Definition leading_zero (ip : jsstr) : bool := match ip with c :: _ :: _ => c =? 48 | _ => false end.

Lemma parse_unsigned_eq s :
  parse_unsigned s =
  let '(ip, r1) := span_digits s in
  if negb (truthy ip) || leading_zero ip then None
  else
    let '(dot, fp, r2) := fraction_split r1 in
    if dot && negb (truthy fp) then None
    else '(ex, r3) ← parse_exponent r2;
         Some (num_of_decimal (Z.of_N (digits_val (ip ++ fp))) (ex - Z.of_nat (length fp)), r3).
Proof.
  unfold parse_unsigned. destruct (span_digits s) as [ip r1].
  assert (match r1 with 46 :: r => span_digits r | _ => ([], r1) end = ((fraction_split r1).1.2, (fraction_split r1).2) /\
    forall fp, match r1 with 46 :: _ => negb (truthy fp) | _ => false end = (fraction_split r1).1.1 && negb (truthy fp)) as [-> H2].
  { unfold fraction_split. destruct r1 as [|[|c] r1]; [done|done|].
    do 6 (destruct c as [c|c|]; try done). cbn. by destruct (span_digits r1). }
  rewrite H2. destruct (fraction_split r1) as [[dot fp] r2]. cbn [fst snd].
  destruct ip as [|c ip]; [done|]. cbn [truthy negb orb leading_zero].
  assert (forall A (a b : A), match c :: ip with 48 :: _ :: _ => a | _ => b end =
            if match ip with [] => false | _ => c =? 48 end then a else b) as H.
  { intros A a b'. destruct ip, c as [|c]; try done; do 6 (destruct c as [c|c|]; try done). }
  etransitivity; [apply H|]. destruct ip; [|destruct (c =? 48); [done|]]; destruct (dot && _); try done;
    by destruct (parse_exponent r2) as [[]|].
Qed.

Lemma fraction_split_app s dot fp q r :
  ends r -> fraction_split s = (dot, fp, q) -> fraction_split (s ++ r) = (dot, fp, q ++ r).
Proof.
  intros Hr. destruct s as [|c s]; cbn [fraction_split app].
  - intros [= <- <- <-]. destruct r as [|c r]; [done|]. destruct (ends_head r c Hr) as (_ & H & _).
    cbn [fraction_split]. by rewrite (proj2 (N.eqb_neq c 46) H).
  - destruct (c =? 46); [|by intros [= <- <- <-]]. destruct (span_digits s) as [d q'] eqn:E. intros [= <- <- <-].
    by rewrite (span_digits_app _ _ _ r Hr E).
Qed.

Lemma parse_unsigned_app s x r : ends r -> parse_unsigned s = Some (x, []) -> parse_unsigned (s ++ r) = Some (x, r).
Proof.
  intros Hr. rewrite !parse_unsigned_eq. destruct (span_digits s) as [ip r1] eqn:E1.
  rewrite (span_digits_app _ _ _ r Hr E1). destruct (negb (truthy ip) || _); [done|].
  destruct (fraction_split r1) as [[dot fp] r2] eqn:E2. rewrite (fraction_split_app _ _ _ _ r Hr E2).
  destruct (dot && _); [done|]. destruct (parse_exponent r2) as [[ex r3]|] eqn:E3; [|done].
  intros H. injection H as <- ->. by rewrite (parse_exponent_app _ _ r Hr E3).
Qed.

Lemma parse_number_eq s :
  parse_number s =
  match s with
  | c :: s' => if c =? 45 then '(n, r) ← parse_unsigned s'; Some (num_opp n, r) else parse_unsigned s
  | [] => None
  end.
Proof.
  destruct s as [|[|c] s]; [done|done|].
  do 6 (destruct c as [c|c|]; try done); cbn; by destruct (parse_unsigned s) as [[]|].
Qed.

(** A numeral is read up to its end. *)
Lemma parse_number_app s x r : ends r -> parse_number s = Some (x, []) -> parse_number (s ++ r) = Some (x, r).
Proof.
  intros Hr. rewrite !parse_number_eq. destruct s as [|c s]; [done|]. cbn [app]. destruct (c =? 45).
  - destruct (parse_unsigned s) as [[n q]|] eqn:E; [|done]. intros H. injection H as <- ->.
    by rewrite (parse_unsigned_app _ _ r Hr E).
  - apply (parse_unsigned_app (c :: s) x r Hr).
Qed.

(** ** Lemmas: values with a rest *)

Lemma parse_value_blanks f w s : blanks w -> parse_value f (w ++ s) = parse_value f s.
Proof. intros Hw. destruct f; [done|]. cbn [parse_value]. by rewrite skip_blanks. Qed.

Lemma parse_number_head s x q :
  parse_number s = Some (x, q) ->
  exists c s', s = c :: s' /\ is_json_ws c = false /\ c ∉ [123; 91; 34; 116; 102; 110; 93].
Proof.
  rewrite parse_number_eq. destruct s as [|c s]; [done|]. intros H. exists c, s. split; [done|].
  assert (c = 45 \/ is_digit c = true) as Hc.
  { destruct (N.eqb_spec c 45); [by left|]. right. rewrite parse_unsigned_eq in H. cbn [span_digits] in H.
    by destruct (is_digit c). }
  rewrite is_digit_range in Hc. unfold is_json_ws. rewrite !orb_false_iff, !N.eqb_neq, !not_elem_of_cons.
  split_and!; try lia. apply not_elem_of_nil.
Qed.

Lemma skip_ws_elem s c r : skip_ws s = c :: r -> c ∈ s.
Proof. induction s as [|d s IH]; [done|]. cbn. destruct (is_json_ws d); [intros H; right; by apply IH|]. intros [= <- <-]. left. Qed.

Lemma number_head_ws s x q c r : parse_number s = Some (x, q) -> s = c :: r -> is_ws c = false.
Proof.
  intros H ->. rewrite parse_number_eq in H. destruct (N.eqb_spec c 45) as [->|]; [done|]. rewrite parse_unsigned_eq in H.
  cbn [span_digits] in H. destruct (is_digit c) eqn:E; [by apply is_digit_not_ws|done].
Qed.

(** A blank text is no JSON. *)
Lemma JSON_parse_not_blank s j : JSON_parse s = Some j -> truthy (trim s) = true.
Proof.
  intros H. destruct (trim s) eqn:Et; [exfalso|done]. destruct (trim_split s) as (w1 & w2 & Hs & Hw1 & Hw2).
  rewrite Et in Hs. cbn [app] in Hs.
  assert (forall c, c ∈ s -> is_ws c = true) as Hall.
  { intros c. rewrite Hs, elem_of_app, !list_elem_of_In. rewrite forallb_forall in Hw1, Hw2. intros [?|?]; eauto. }
  unfold JSON_parse in H. replace (2 * length s + 2)%nat with (S (2 * length s + 1)) in H by lia. cbn [parse_value] in H.
  destruct (skip_ws s) as [|c r] eqn:E; [done|]. pose proof (Hall c (skip_ws_elem _ _ _ E)) as Hc.
  repeat match type of H with context [c =? ?n] => destruct (N.eqb_spec c n) as [->|_]; [done|] end.
  destruct (parse_number (c :: r)) as [[x q]|] eqn:En; [|done]. by rewrite (number_head_ws _ _ _ c r En eq_refl) in Hc.
Qed.

Lemma parse_value_number f s x r :
  ends r -> parse_number s = Some (x, []) -> parse_value (S f) (s ++ r) = Some (JNum x, r).
Proof.
  intros Hr H. pose proof (parse_number_app _ _ _ Hr H) as Ha.
  destruct (parse_number_head _ _ _ H) as (c & s' & -> & Hw & Hc). rewrite !not_elem_of_cons in Hc.
  destruct Hc as (H1 & H2 & H3 & H4 & H5 & H6 & _). cbn [app parse_value skip_ws] in *. rewrite Hw.
  rewrite (proj2 (N.eqb_neq _ _) H1), (proj2 (N.eqb_neq _ _) H2), (proj2 (N.eqb_neq _ _) H3),
    (proj2 (N.eqb_neq _ _) H4), (proj2 (N.eqb_neq _ _) H5), (proj2 (N.eqb_neq _ _) H6). by rewrite Ha.
Qed.

(** A value does not start with a closing bracket. *)
Lemma parse_value_open f s v r : parse_value f s = Some v -> skip_ws s <> 93 :: r.
Proof. destruct f; [done|]. cbn [parse_value]. intros H E. by rewrite E in H. Qed.

Lemma bracket_eq gap indent op cl a l :
  let inner := if truthy gap then 10 :: indent ++ gap else [] in
  let close := if truthy gap then 10 :: indent else [] in
  bracket gap indent op cl (a :: l) = op :: inner ++ join (44 :: inner) (a :: l) ++ close ++ [cl].
Proof. unfold bracket. by destruct (truthy gap). Qed.

Lemma inner_blanks gap indent :
  blanks gap -> blanks indent ->
  blanks (if truthy gap then 10 :: indent ++ gap else []) /\ blanks (if truthy gap then 10 :: indent else []).
Proof.
  unfold blanks. intros Hg Hi. destruct (truthy gap); [|done]. cbn [forallb]. rewrite forallb_app. by rewrite Hg, Hi.
Qed.

Lemma entries_map {A B} (g : A -> B) (fs : list (jsstr * A)) :
  obj_entries (map (fun kv => (kv.1, g kv.2)) fs) = map (fun kv => (kv.1, g kv.2)) (obj_entries fs).
Proof.
  set (h := fun kv : jsstr * A => (kv.1, g kv.2)).
  assert (forall p q, (forall kv, p (h kv) = q kv) -> forall l, bfilter p (map h l) = map h (bfilter q l)) as Hf.
  { intros p q Hpq l. induction l as [|x l IH]; [done|]. cbn. rewrite Hpq. destruct (q x); cbn; by rewrite IH. }
  unfold obj_entries. rewrite map_app.
  rewrite (Hf is_index is_index), (Hf (fun kv => negb (is_index kv)) (fun kv => negb (is_index kv))) by done.
  f_equal. generalize (bfilter is_index fs). intros l. unfold js_sort. induction l as [|x l IH]; [done|].
  cbn [map foldr]. rewrite IH. generalize (foldr (sort_insert index_cmp) [] l). intros q.
  induction q as [|y q IHq]; [done|]. cbn [map sort_insert]. change (index_cmp (h x) (h y)) with (index_cmp x y).
  destruct (_ <=? _)%Z; cbn; by rewrite ?IHq.
Qed.

Lemma map_set_absent {A} (k : jsstr) (v : A) m : k ∉ m.*1 -> map_set k v m = m ++ [(k, v)].
Proof.
  induction m as [|[k' v'] m IH]; [done|]. cbn. rewrite not_elem_of_cons. intros [Hne Hk].
  rewrite decide_False by done. by rewrite IH.
Qed.

(** ** The round trip *)

(** The text of [j], at any indentation and before any rest, reads back. *)
Definition reads (gap : jsstr) (j : json) : Prop := forall indent r f,
  blanks indent -> ends r -> (2 * length (stringify gap indent j ++ r) + 1 <= f)%nat ->
  parse_value f (stringify gap indent j ++ r) = Some (ordered j, r).

Section roundtrip.
Context (gap : jsstr) (Hgap : blanks gap).

Lemma ends_close close cl r : cl = 93 \/ cl = 125 -> (close = [] \/ head close = Some 10) -> ends (close ++ cl :: r).
Proof.
  intros Hcl [->|H]; [|destruct close; [done|]; injection H as ->; by left].
  cbn. destruct Hcl as [->| ->]; by repeat constructor.
Qed.

Lemma skip_close close cl r : cl = 93 \/ cl = 125 -> blanks close -> skip_ws (close ++ cl :: r) = cl :: r.
Proof. intros Hcl Hc. rewrite skip_blanks by done. by destruct Hcl as [->| ->]. Qed.

Lemma elements_read indent w inner close r l : forall x acc f,
  blanks indent -> blanks w -> blanks inner -> blanks close -> (close = [] \/ head close = Some 10) ->
  Forall (reads gap) (x :: l) ->
  let s := w ++ join (44 :: inner) (map (stringify gap indent) (x :: l)) ++ close ++ 93 :: r in
  (2 * length s + 2 <= f)%nat -> parse_elements f acc s = Some (JArr (acc ++ map ordered (x :: l)), r).
Proof.
  revert w. induction l as [|y l IH]; intros w x acc f Hi Hw Hin Hcl Hcl' [Hx Hl]%Forall_cons s Hf; subst s;
    (destruct f as [|f]; [lia|]); cbn [parse_elements]; rewrite parse_value_blanks by done; rewrite length_app in Hf.
  - cbn [map join] in *. rewrite Hx; [|done|apply ends_close; [by left|done]|lia].
    by rewrite skip_close; [|by left|].
  - cbn [map] in *. rewrite join_cons in Hf |- *. rewrite <-!app_assoc in Hf |- *. cbn [app] in Hf |- *.
    rewrite Hx; [|done|by repeat constructor|lia]. rewrite !length_app in Hf. cbn [length] in Hf.
    cbn [skip_ws is_json_ws N.eqb orb Pos.eqb]. rewrite (IH inner y); [by rewrite <-app_assoc|done..|].
    cbn [map]. rewrite !length_app in *. lia.
Qed.

Definition colon_gap : jsstr := if truthy gap then [32] else [].

(** One property, up to the comma or bracket after it. *)
Lemma member_read indent w k v acc rest f :
  blanks indent -> blanks w -> reads gap v -> ends rest ->
  (2 * length (w ++ member gap (k, stringify gap indent v) ++ rest) + 2 <= S f)%nat ->
  parse_members (S f) acc (w ++ member gap (k, stringify gap indent v) ++ rest) =
  match skip_ws rest with
  | 44 :: r4 => parse_members f (map_set k (ordered v) acc) r4
  | 125 :: r4 => Some (JObj (map_set k (ordered v) acc), r4)
  | _ => None
  end.
Proof.
  intros Hi Hw Hv Hr Hf.
  assert (member gap (k, stringify gap indent v) ++ rest = 34 :: quote_body k ++ 34 :: 58 :: colon_gap ++ stringify gap indent v ++ rest)
    as E.
  { unfold member, json_quote, colon_gap. cbn [fst snd app]. rewrite <-!app_assoc. cbn [app]. by rewrite <-!app_assoc. }
  rewrite E in Hf |- *. cbn [parse_members]. rewrite skip_blanks by done.
  cbn [skip_ws is_json_ws N.eqb orb Pos.eqb]. rewrite parse_quote_body. cbn [skip_ws is_json_ws N.eqb orb Pos.eqb].
  rewrite parse_value_blanks by (unfold colon_gap; by destruct (truthy gap)). rewrite Hv; [done..|].
  rewrite length_app in Hf. cbn [length] in Hf. rewrite length_app in Hf. cbn [length] in Hf. rewrite length_app in Hf. lia.
Qed.

Lemma members_read indent inner close r l : forall w kv acc f,
  blanks indent -> blanks w -> blanks inner -> blanks close -> (close = [] \/ head close = Some 10) ->
  Forall (fun kv => reads gap kv.2) (kv :: l) -> NoDup (acc ++ kv :: l).*1 ->
  let s := w ++ join (44 :: inner) (map (member gap) (map (fun kv => (kv.1, stringify gap indent kv.2)) (kv :: l)))
           ++ close ++ 125 :: r in
  (2 * length s + 2 <= f)%nat ->
  parse_members f acc s = Some (JObj (acc ++ map (fun kv => (kv.1, ordered kv.2)) (kv :: l)), r).
Proof.
  induction l as [|kv' l IH]; intros w [k v] acc f Hi Hw Hin Hcl Hcl' [Hx Hl]%Forall_cons Hnd s Hf; subst s;
    (destruct f as [|f]; [lia|]).
  all: assert (k ∉ acc.*1) as Hk by (rewrite fmap_app, fmap_cons in Hnd; apply NoDup_app in Hnd as (_ & H & _);
    intros Hin'; apply (H k Hin'), elem_of_cons; by left).
  - cbn [map join fst snd] in *. rewrite member_read; [|done..|apply ends_close; [by right|done]|done].
    rewrite skip_close; [|by right|done]. by rewrite map_set_absent.
  - cbn [map fst snd] in *. rewrite join_cons in Hf |- *. rewrite <-!app_assoc in Hf |- *. cbn [app] in Hf |- *.
    rewrite member_read; [|done..|by repeat constructor|done]. cbn [skip_ws is_json_ws N.eqb orb Pos.eqb].
    rewrite map_set_absent by done. rewrite (IH inner kv'); [by rewrite <-app_assoc|done..| |].
    + rewrite <-app_assoc, fmap_app in *. exact Hnd.
    + cbn [map]. rewrite !length_app in Hf |- *. cbn [length] in Hf. rewrite !length_app in Hf.
      rewrite length_app. cbn [length] in Hf |- *. lia.
Qed.

Lemma gap_shape indent :
  blanks indent ->
  let inner := if truthy gap then 10 :: indent ++ gap else [] in
  let close := if truthy gap then 10 :: indent else [] in
  blanks (indent ++ gap) /\ blanks inner /\ blanks close /\ (close = [] \/ head close = Some 10).
Proof.
  intros Hi. destruct (inner_blanks gap indent Hgap Hi) as [Hin Hcl]. split_and!; [|done..|].
  - unfold blanks. rewrite forallb_app. by rewrite Hi, Hgap.
  - destruct (truthy gap); first [by left|by right].
Qed.

Lemma reads_arr l : Forall (reads gap) l -> reads gap (JArr l).
Proof.
  intros Hl indent r f Hi Hr Hf. cbn [stringify ordered] in *. destruct f as [|f]; [lia|].
  destruct l as [|x l]; [done|]. cbn [map] in Hf |- *. rewrite bracket_eq in Hf |- *.
  destruct (gap_shape indent Hi) as (Hig & Hin & Hcl & Hcl').
  set (inner := if truthy gap then _ else _) in *. set (close := if truthy gap then 10 :: indent else []) in *.
  cbn [app parse_value skip_ws is_json_ws N.eqb orb Pos.eqb] in Hf |- *. rewrite <-!app_assoc in Hf |- *. cbn [app] in Hf |- *.
  pose proof (elements_read (indent ++ gap) inner inner close r l x [] f Hig Hin Hin Hcl Hcl' Hl) as HE. cbn zeta in HE.
  cbn [map] in HE. cbn [length] in Hf. specialize (HE ltac:(lia)).
  destruct (skip_ws _) as [|c q] eqn:E; [exact HE|]. destruct (decide (c = 93)) as [->|Hne].
  - destruct f as [|f]; [lia|]. cbn [parse_elements] in HE. destruct (parse_value f _) as [y|] eqn:Ev; [|done].
    by apply (parse_value_open f _ y q) in Ev.
  - destruct c as [|c]; [exact HE|]. do 7 (destruct c as [c|c|]; try exact HE); done.
Qed.

Lemma reads_obj fs : NoDup fs.*1 -> Forall (fun kv => reads gap kv.2) fs -> reads gap (JObj fs).
Proof.
  intros Hnd Hfs indent r f Hi Hr Hf. cbn [stringify ordered] in *. rewrite (entries_map (stringify gap (indent ++ gap))) in Hf |- *.
  rewrite (entries_map ordered).
  assert (NoDup (obj_entries fs).*1) as Hnd' by exact (obj_entries_NoDup fs Hnd).
  assert (Forall (fun kv => reads gap kv.2) (obj_entries fs)) as Hfs' by by rewrite obj_entries_perm.
  destruct f as [|f]; [lia|]. destruct (obj_entries fs) as [|kv l]; [done|]. cbn [map] in Hf |- *. rewrite bracket_eq in Hf |- *.
  destruct (gap_shape indent Hi) as (Hig & Hin & Hcl & Hcl').
  set (inner := if truthy gap then _ else _) in *. set (close := if truthy gap then 10 :: indent else []) in *.
  cbn [app parse_value skip_ws is_json_ws N.eqb orb Pos.eqb] in Hf |- *. rewrite <-!app_assoc in Hf |- *. cbn [app] in Hf |- *.
  pose proof (members_read (indent ++ gap) inner close r l inner kv [] f Hig Hin Hin Hcl Hcl' Hfs' Hnd') as HE. cbn zeta in HE.
  cbn [map] in HE. cbn [length] in Hf. specialize (HE ltac:(lia)).
  rewrite skip_blanks by done. destruct l; exact HE.
Qed.

End roundtrip.

(** The text of a value reads back as the value with its properties in the
    order of [Object.entries]. *)
Lemma reads_printable gap j : blanks gap -> json_wf j -> printable j = true -> reads gap j.
Proof.
  intros Hg. induction j as [|b|x|s|l IH|fs IH] using json_rect'; intros Hwf Hp.
  - intros indent r [|f] Hi Hr Hf; [lia|done].
  - intros indent r [|f] Hi Hr Hf; [lia|]. by destruct b.
  - unfold printable, printable_number in Hp. apply andb_true_iff in Hp as [Hfin Hx%bool_decide_eq_true].
    intros indent r [|f] Hi Hr Hf; [lia|]. cbn [stringify ordered]. rewrite Hfin. by apply parse_value_number.
  - intros indent r [|f] Hi Hr Hf; [lia|]. cbn [stringify ordered]. unfold json_quote. rewrite <-app_assoc.
    cbn [app parse_value skip_ws is_json_ws N.eqb orb Pos.eqb]. rewrite <-app_assoc. cbn [app]. by rewrite parse_quote_body.
  - apply reads_arr; [done|]. cbn [printable json_wf] in Hp, Hwf. induction IH as [|x l Hx _ IHl]; [done|].
    cbn in Hp, Hwf. apply andb_true_iff in Hp as [Hp1 Hp2]. destruct Hwf as [Hw1 Hw2]. constructor; auto.
  - cbn [printable json_wf] in Hp, Hwf. destruct Hwf as [Hnd Hwf]. apply reads_obj; [done..|]. clear Hnd.
    induction IH as [|x l Hx _ IHl]; [done|].
    cbn in Hp, Hwf. apply andb_true_iff in Hp as [Hp1 Hp2]. destruct Hwf as [Hw1 Hw2]. constructor; auto.
Qed.

(** [JSON.parse(JSON.stringify(j, null, gap))] *)
Theorem parse_stringify gap j :
  blanks gap -> json_wf j -> printable j = true -> JSON_parse (stringify gap [] j) = Some (ordered j).
Proof.
  intros Hg Hwf Hp. set (t := stringify gap [] j). rewrite (JSON_parse_fuel t (2 * length t + 1)) by lia.
  pose proof (reads_printable gap j Hg Hwf Hp [] [] (2 * length t + 1)%nat) as H. rewrite app_nil_r in H.
  fold t in H. by rewrite H by done.
Qed.

(** ** The order of properties is stable *)

#[export] Instance index_sorts {A} : SortsBy (@index_cmp A) (fun x y => (index_cmp x y <= 0)%Z).
Proof. split; unfold index_cmp; [intros x y z|intros x y|intros x y]; lia. Qed.

Lemma entries_idemp {A} (fs : list (jsstr * A)) : obj_entries (obj_entries fs) = obj_entries fs.
Proof.
  set (p := @is_index A). set (q := fun kv => negb (p kv)).
  assert (forall kv, kv ∈ js_sort index_cmp (bfilter p fs) -> p kv = true) as Hp.
  { intros kv Hkv. rewrite js_sort_perm in Hkv. by apply elem_of_bfilter in Hkv as [_ ?]. }
  unfold obj_entries at 1. fold p. fold q. unfold obj_entries at 1 2. fold p. fold q. unfold obj_entries. fold p. fold q.
  rewrite !List.filter_app.
  rewrite (bfilter_all p (js_sort _ _)) by done.
  rewrite (bfilter_none p (bfilter q fs)), app_nil_r.
  2: { intros kv Hkv. apply elem_of_bfilter in Hkv as [_ Hq]. subst q. by apply negb_true_iff. }
  rewrite (bfilter_none q (js_sort _ _)). 2: { intros kv Hkv. subst q. cbn. by rewrite Hp. }
  rewrite (bfilter_idemp q), app_nil_l. f_equal.
  apply js_sort_id with (R := fun x y => (index_cmp x y <= 0)%Z); [done|]. apply js_sort_sorted, _.
Qed.

Lemma stringify_ordered gap j : forall indent, stringify gap indent (ordered j) = stringify gap indent j.
Proof.
  induction j as [|b|x|s|l IH|fs IH] using json_rect'; intros indent; try done.
  - cbn [ordered stringify]. f_equal. rewrite map_map. apply map_ext_Forall.
    eapply Forall_impl; [exact IH|]. intros x Hx. apply Hx.
  - cbn [ordered stringify]. rewrite !entries_map, !map_map, entries_idemp. cbn [fst snd]. f_equal.
    apply map_ext_Forall. rewrite obj_entries_perm.
    eapply Forall_impl; [exact IH|]. intros kv Hkv. cbn. by rewrite Hkv.
Qed.

(** Reading a property of a value that was printed and read. *)
Lemma ordered_get k fs : NoDup fs.*1 -> json_get k (ordered (JObj fs)) = ordered <$> map_get k fs.
Proof.
  intros Hnd. cbn [ordered json_get]. rewrite map_get_entries.
  - clear Hnd. induction fs as [|[k' v] fs IH]; [done|]. cbn. by case_decide.
  - replace ((map (fun kv => (kv.1, ordered kv.2)) fs).*1) with fs.*1; [done|]. clear. induction fs; cbn; by f_equal.
Qed.

(** The text of an object is trimmed. *)
Lemma stringify_obj_ends o : exists s, JSON_stringify2 (JObj o) = 123 :: s ++ [125].
Proof.
  unfold JSON_stringify2. cbn [stringify]. destruct (map (member _) _) as [|a l]; [by exists []|].
  exists ([10; 32; 32] ++ join (44 :: [10; 32; 32]) (a :: l) ++ [10]). rewrite <-!app_assoc. reflexivity.
Qed.

Lemma stringify_compact_ends o : exists s, JSON_stringify (JObj o) = 123 :: s ++ [125].
Proof. unfold JSON_stringify. cbn [stringify]. destruct (map (member _) _) as [|a l]; [by exists []|]. by exists (join [44] (a :: l)). Qed.

Lemma trim_brackets s : trim (123 :: s ++ [125]) = 123 :: s ++ [125].
Proof.
  apply trim_id. split; [by intros c [= <-]|]. intros c. change (123 :: s ++ [125]) with ((123 :: s) ++ [125]).
  rewrite last_snoc. by intros [= <-].
Qed.

(** ** Objects built by assignments *)

Lemma get_if {A} (b : bool) (k k' : jsstr) (v : A) m :
  map_get k' (if b then map_set k v m else m) = if b && bool_decide (k = k') then Some v else map_get k' m.
Proof. destruct b; [|done]. rewrite map_get_set. cbn [andb]. case_bool_decide; case_decide; congruence. Qed.

Lemma NoDup_if {A} (b : bool) (k : jsstr) (v : A) m : NoDup m.*1 -> NoDup (if b then map_set k v m else m).*1.
Proof. destruct b; [apply map_set_NoDup|done]. Qed.

Lemma Forall_if {A} (P : A -> Prop) (b : bool) (k : jsstr) (v : A) m :
  P v -> Forall (fun kv => P kv.2) m -> Forall (fun kv => P kv.2) (if b then map_set k v m else m).
Proof.
  intros Hv Hm. destruct b; [|done]. induction Hm as [|[k' v'] m H Hm IH]; cbn; [by repeat constructor|].
  case_decide; by constructor.
Qed.

(** Tests on keys that are literals. *)
Ltac key_tests :=
  repeat match goal with
  | |- context [bool_decide (u ?a = u ?b)] =>
      let r := eval vm_compute in (bool_decide (u a = u b)) in
      replace (bool_decide (u a = u b)) with r by (vm_compute; reflexivity)
  end; rewrite ?andb_true_r, ?andb_false_r.

(** Values that are printed and read back. *)
Definition good (j : json) : Prop := json_wf j /\ printable j = true.

Lemma good_obj fs : NoDup fs.*1 -> Forall (fun kv => good kv.2) fs -> good (JObj fs).
Proof.
  intros Hn Hf. split; [split; [done|]|]; induction Hf as [|kv fs [Hw Hp] Hf IH]; cbn in *; try done; apply NoDup_cons in Hn as [_ Hn].
  - split; [done|by apply IH].
  - rewrite Hp. by apply IH.
Qed.

Lemma good_obj_inv fs : good (JObj fs) -> NoDup fs.*1 /\ Forall (fun kv => good kv.2) fs.
Proof.
  intros [[Hn Hw] Hp]. split; [done|]. clear Hn. induction fs as [|kv fs IH]; [done|]. cbn in Hw, Hp.
  apply andb_true_iff in Hp as [Hp1 Hp2]. destruct Hw as [Hw1 Hw2]. constructor; [by split|by apply IH].
Qed.

Lemma good_obj_set k v fs : good v -> good (JObj fs) -> good (JObj (map_set k v fs)).
Proof.
  intros Hv [Hn Hf]%good_obj_inv. apply good_obj; [by apply map_set_NoDup|]. exact (Forall_if good true k v fs Hv Hf).
Qed.

Lemma good_obj_delete k fs : good (JObj fs) -> good (JObj (map_delete k fs)).
Proof.
  intros [Hn Hf]%good_obj_inv. unfold map_delete. apply good_obj.
  - by apply map_bfilter_NoDup.
  - rewrite Forall_forall in Hf |- *. intros kv [Hkv _]%elem_of_bfilter. by apply Hf.
Qed.

Lemma good_arr l : Forall good l -> good (JArr l).
Proof.
  intros Hf. split; induction Hf as [|j l [Hw Hp] Hf IH]; cbn in *; try done. by rewrite Hp.
Qed.

Example parse_stringify_sample :
  let j := JObj [(u "b", JNum (num_of_decimal 15 (-1))); (u "2", JArr [JStr (u "x\y")])] in
  JSON_parse (JSON_stringify2 j) = Some (JObj [(u "2", JArr [JStr (u "x\y")]); (u "b", JNum (num_of_decimal 15 (-1)))]) /\
  JSON_parse (JSON_stringify j) = JSON_parse (JSON_stringify2 j).
Proof. vm_compute. done. Qed.

End Print.
