(* ===== verification/PgTypes.v ===== *)
(** * Playground data  (web/default/src/features/playground/types.ts, constants.ts)

    The messages of the chat playground, the request it sends and the chunks
    it receives.  A field [x?: T] is an [option T]; a field that the code also
    sets to [null] is a [nullable T].  [set_x v m] is the spread update
    [{ ...m, x: v }]. *)

From S2P Require Import Prelude JsString JsNumber JsJson.

Open Scope Z_scope.

Module Pg.

(** ** Messages *)

Inductive MessageRole := role_user | role_assistant | role_system | role_tool.

Inductive MessageStatus := LOADING | STREAMING | COMPLETE | ERROR | TRUNCATED.

#[export] Instance role_eq_dec : EqDecision MessageRole.
Proof. solve_decision. Defined.

#[export] Instance status_eq_dec : EqDecision MessageStatus.
Proof. solve_decision. Defined.

Record FunctionCall := mkFn { fn_name : jsstr; fn_arguments : jsstr }.

(** An OpenAI-style function call; its [type] is always ['function']. *)
Record ToolCall := mkToolCall { tc_id : jsstr; tc_function : FunctionCall }.

Record Reasoning := mkReasoning { r_content : jsstr; r_duration : Z }.

Record MessageVersion := mkVersion {
  v_id : jsstr;
  v_content : jsstr;
  v_toolCalls : option (list ToolCall);
  v_reasoning : option Reasoning;
  v_refusal : option jsstr;
  v_finishReason : nullable jsstr;
}.

(** Token counts enter floating-point cost computations. *)
Record TokenUsage := mkUsage {
  prompt_tokens : number;
  completion_tokens : number;
  total_tokens : number;
  cached_tokens : option number;
}.

Record Source := mkSource { href : jsstr; title : jsstr }.

Record UrlCitationAnnotation := mkAnnotation {
  ann_type : jsstr;
  ann_url : jsstr;
  ann_title : option jsstr;
}.

Record Message := mkMessage {
  key : jsstr;
  from : MessageRole;
  versions : list MessageVersion;
  activeVersionIndex : option Z;
  model : option jsstr;
  imageUrls : option (list jsstr);
  sources : option (list Source);
  reasoning : option Reasoning;
  toolCalls : option (list ToolCall);
  refusal : option jsstr;
  finishReason : nullable jsstr;
  toolCallId : option jsstr;
  toolName : option jsstr;
  isReasoningStreaming : option bool;
  isReasoningComplete : option bool;
  isContentComplete : option bool;
  status : option MessageStatus;
  errorCode : nullable jsstr;
  usage : option TokenUsage;
  costUsd : option number;
  latencyMs : option Z;
}.

#[export] Instance fn_eq_dec : EqDecision FunctionCall.
Proof. solve_decision. Defined.

#[export] Instance toolcall_eq_dec : EqDecision ToolCall.
Proof. solve_decision. Defined.

(** ** Spread updates *)

Definition set_versions (x : list MessageVersion) (m : Message) : Message :=
  mkMessage (key m) (from m) x (activeVersionIndex m) (model m) (imageUrls m) (sources m)
    (reasoning m) (toolCalls m) (refusal m) (finishReason m) (toolCallId m) (toolName m)
    (isReasoningStreaming m) (isReasoningComplete m) (isContentComplete m) (status m)
    (errorCode m) (usage m) (costUsd m) (latencyMs m).

Definition set_activeVersionIndex (x : option Z) (m : Message) : Message :=
  mkMessage (key m) (from m) (versions m) x (model m) (imageUrls m) (sources m)
    (reasoning m) (toolCalls m) (refusal m) (finishReason m) (toolCallId m) (toolName m)
    (isReasoningStreaming m) (isReasoningComplete m) (isContentComplete m) (status m)
    (errorCode m) (usage m) (costUsd m) (latencyMs m).

Definition set_model (x : option jsstr) (m : Message) : Message :=
  mkMessage (key m) (from m) (versions m) (activeVersionIndex m) x (imageUrls m) (sources m)
    (reasoning m) (toolCalls m) (refusal m) (finishReason m) (toolCallId m) (toolName m)
    (isReasoningStreaming m) (isReasoningComplete m) (isContentComplete m) (status m)
    (errorCode m) (usage m) (costUsd m) (latencyMs m).

Definition set_imageUrls (x : option (list jsstr)) (m : Message) : Message :=
  mkMessage (key m) (from m) (versions m) (activeVersionIndex m) (model m) x (sources m)
    (reasoning m) (toolCalls m) (refusal m) (finishReason m) (toolCallId m) (toolName m)
    (isReasoningStreaming m) (isReasoningComplete m) (isContentComplete m) (status m)
    (errorCode m) (usage m) (costUsd m) (latencyMs m).

Definition set_sources (x : option (list Source)) (m : Message) : Message :=
  mkMessage (key m) (from m) (versions m) (activeVersionIndex m) (model m) (imageUrls m) x
    (reasoning m) (toolCalls m) (refusal m) (finishReason m) (toolCallId m) (toolName m)
    (isReasoningStreaming m) (isReasoningComplete m) (isContentComplete m) (status m)
    (errorCode m) (usage m) (costUsd m) (latencyMs m).

Definition set_reasoning (x : option Reasoning) (m : Message) : Message :=
  mkMessage (key m) (from m) (versions m) (activeVersionIndex m) (model m) (imageUrls m)
    (sources m) x (toolCalls m) (refusal m) (finishReason m) (toolCallId m) (toolName m)
    (isReasoningStreaming m) (isReasoningComplete m) (isContentComplete m) (status m)
    (errorCode m) (usage m) (costUsd m) (latencyMs m).

Definition set_toolCalls (x : option (list ToolCall)) (m : Message) : Message :=
  mkMessage (key m) (from m) (versions m) (activeVersionIndex m) (model m) (imageUrls m)
    (sources m) (reasoning m) x (refusal m) (finishReason m) (toolCallId m) (toolName m)
    (isReasoningStreaming m) (isReasoningComplete m) (isContentComplete m) (status m)
    (errorCode m) (usage m) (costUsd m) (latencyMs m).

Definition set_refusal (x : option jsstr) (m : Message) : Message :=
  mkMessage (key m) (from m) (versions m) (activeVersionIndex m) (model m) (imageUrls m)
    (sources m) (reasoning m) (toolCalls m) x (finishReason m) (toolCallId m) (toolName m)
    (isReasoningStreaming m) (isReasoningComplete m) (isContentComplete m) (status m)
    (errorCode m) (usage m) (costUsd m) (latencyMs m).

Definition set_finishReason (x : nullable jsstr) (m : Message) : Message :=
  mkMessage (key m) (from m) (versions m) (activeVersionIndex m) (model m) (imageUrls m)
    (sources m) (reasoning m) (toolCalls m) (refusal m) x (toolCallId m) (toolName m)
    (isReasoningStreaming m) (isReasoningComplete m) (isContentComplete m) (status m)
    (errorCode m) (usage m) (costUsd m) (latencyMs m).

Definition set_toolCallId (x : option jsstr) (m : Message) : Message :=
  mkMessage (key m) (from m) (versions m) (activeVersionIndex m) (model m) (imageUrls m)
    (sources m) (reasoning m) (toolCalls m) (refusal m) (finishReason m) x (toolName m)
    (isReasoningStreaming m) (isReasoningComplete m) (isContentComplete m) (status m)
    (errorCode m) (usage m) (costUsd m) (latencyMs m).

Definition set_toolName (x : option jsstr) (m : Message) : Message :=
  mkMessage (key m) (from m) (versions m) (activeVersionIndex m) (model m) (imageUrls m)
    (sources m) (reasoning m) (toolCalls m) (refusal m) (finishReason m) (toolCallId m) x
    (isReasoningStreaming m) (isReasoningComplete m) (isContentComplete m) (status m)
    (errorCode m) (usage m) (costUsd m) (latencyMs m).

Definition set_isReasoningStreaming (x : option bool) (m : Message) : Message :=
  mkMessage (key m) (from m) (versions m) (activeVersionIndex m) (model m) (imageUrls m)
    (sources m) (reasoning m) (toolCalls m) (refusal m) (finishReason m) (toolCallId m)
    (toolName m) x (isReasoningComplete m) (isContentComplete m) (status m) (errorCode m)
    (usage m) (costUsd m) (latencyMs m).

Definition set_isReasoningComplete (x : option bool) (m : Message) : Message :=
  mkMessage (key m) (from m) (versions m) (activeVersionIndex m) (model m) (imageUrls m)
    (sources m) (reasoning m) (toolCalls m) (refusal m) (finishReason m) (toolCallId m)
    (toolName m) (isReasoningStreaming m) x (isContentComplete m) (status m) (errorCode m)
    (usage m) (costUsd m) (latencyMs m).

Definition set_isContentComplete (x : option bool) (m : Message) : Message :=
  mkMessage (key m) (from m) (versions m) (activeVersionIndex m) (model m) (imageUrls m)
    (sources m) (reasoning m) (toolCalls m) (refusal m) (finishReason m) (toolCallId m)
    (toolName m) (isReasoningStreaming m) (isReasoningComplete m) x (status m) (errorCode m)
    (usage m) (costUsd m) (latencyMs m).

Definition set_status (x : option MessageStatus) (m : Message) : Message :=
  mkMessage (key m) (from m) (versions m) (activeVersionIndex m) (model m) (imageUrls m)
    (sources m) (reasoning m) (toolCalls m) (refusal m) (finishReason m) (toolCallId m)
    (toolName m) (isReasoningStreaming m) (isReasoningComplete m) (isContentComplete m) x
    (errorCode m) (usage m) (costUsd m) (latencyMs m).

Definition set_errorCode (x : nullable jsstr) (m : Message) : Message :=
  mkMessage (key m) (from m) (versions m) (activeVersionIndex m) (model m) (imageUrls m)
    (sources m) (reasoning m) (toolCalls m) (refusal m) (finishReason m) (toolCallId m)
    (toolName m) (isReasoningStreaming m) (isReasoningComplete m) (isContentComplete m)
    (status m) x (usage m) (costUsd m) (latencyMs m).

Definition set_usage (x : option TokenUsage) (m : Message) : Message :=
  mkMessage (key m) (from m) (versions m) (activeVersionIndex m) (model m) (imageUrls m)
    (sources m) (reasoning m) (toolCalls m) (refusal m) (finishReason m) (toolCallId m)
    (toolName m) (isReasoningStreaming m) (isReasoningComplete m) (isContentComplete m)
    (status m) (errorCode m) x (costUsd m) (latencyMs m).

Definition set_costUsd (x : option number) (m : Message) : Message :=
  mkMessage (key m) (from m) (versions m) (activeVersionIndex m) (model m) (imageUrls m)
    (sources m) (reasoning m) (toolCalls m) (refusal m) (finishReason m) (toolCallId m)
    (toolName m) (isReasoningStreaming m) (isReasoningComplete m) (isContentComplete m)
    (status m) (errorCode m) (usage m) x (latencyMs m).

Definition set_latencyMs (x : option Z) (m : Message) : Message :=
  mkMessage (key m) (from m) (versions m) (activeVersionIndex m) (model m) (imageUrls m)
    (sources m) (reasoning m) (toolCalls m) (refusal m) (finishReason m) (toolCallId m)
    (toolName m) (isReasoningStreaming m) (isReasoningComplete m) (isContentComplete m)
    (status m) (errorCode m) (usage m) (costUsd m) x.

Definition set_v_content (x : jsstr) (v : MessageVersion) : MessageVersion :=
  mkVersion (v_id v) x (v_toolCalls v) (v_reasoning v) (v_refusal v) (v_finishReason v).

(** ** Requests *)

Inductive ContentPart :=
| TextPart (text : jsstr)
| ImagePart (url : jsstr).

Inductive Content :=
| ContentString (s : jsstr)
| ContentParts (l : list ContentPart)
| ContentNull.

Record ChatCompletionMessage := mkChatMsg {
  cm_role : MessageRole;
  cm_content : Content;
  cm_tool_calls : option (list ToolCall);
  cm_tool_call_id : option jsstr;
  cm_name : option jsstr;
}.

Inductive ReasoningEffort := effort_off | effort_minimal | effort_low | effort_medium | effort_high.

#[export] Instance effort_eq_dec : EqDecision ReasoningEffort.
Proof. solve_decision. Defined.

Record PlaygroundToolDefinition := mkTool {
  tool_name : jsstr;
  tool_description : option jsstr;
  tool_parameters : option json;
}.

Inductive ToolChoice :=
| choice_none | choice_auto | choice_required
| choice_function (name : jsstr).

Inductive ResponseFormat :=
| format_text | format_json_object
| format_json_schema (name : jsstr) (strict : option bool) (schema : json).

Record ReasoningControl := mkControl {
  rc_max_tokens : option number;
  rc_effort : option ReasoningEffort;
}.

Record ChatCompletionRequest := mkRequest {
  rq_model : jsstr;
  rq_group : jsstr;
  rq_messages : list ChatCompletionMessage;
  rq_stream : bool;
  rq_include_usage : option bool;
  rq_temperature : option number;
  rq_top_p : option number;
  rq_max_tokens : option number;
  rq_frequency_penalty : option number;
  rq_presence_penalty : option number;
  rq_seed : option number;
  rq_reasoning_effort : option ReasoningEffort;
  rq_reasoning : option ReasoningControl;
  rq_web_search : bool;
  rq_tools : option (list PlaygroundToolDefinition);
  rq_tool_choice : option ToolChoice;
  rq_response_format : option ResponseFormat;
}.

(** ** Streamed chunks *)

Record ToolCallDelta := mkDelta {
  d_index : option Z;
  d_id : option jsstr;
  d_name : option jsstr;
  d_arguments : option jsstr;
}.

Record ChunkDelta := mkChunkDelta {
  cd_content : option jsstr;
  cd_reasoning_content : option jsstr;
  cd_refusal : option jsstr;
  cd_annotations : option (list UrlCitationAnnotation);
  cd_tool_calls : option (list ToolCallDelta);
}.

Record ChunkChoice := mkChoice {
  ch_delta : option ChunkDelta;
  ch_finish_reason : nullable jsstr;
}.

Record ChatCompletionChunk := mkChunk {
  ck_choices : option (list ChunkChoice);
  ck_usage : option TokenUsage;
}.

(** The message of a non-streaming response. *)
Record ResponseMessage := mkRespMsg {
  rm_content : nullable jsstr;
  rm_reasoning_content : option jsstr;
  rm_refusal : option jsstr;
  rm_annotations : option (list UrlCitationAnnotation);
  rm_tool_calls : option (list ToolCall);
}.

Record ResponseChoice := mkRespChoice {
  rch_message : option ResponseMessage;
  rch_finish_reason : jsstr;
}.

Record ChatCompletionResponse := mkResponse {
  rs_choices : option (list ResponseChoice);
  rs_usage : option TokenUsage;
}.

(** ** Configuration *)

Record PlaygroundConfig := mkConfig {
  systemPrompt : jsstr;
  c_model : jsstr;
  compareModels : list jsstr;
  c_group : jsstr;
  temperature : number;
  top_p : number;
  max_tokens : number;
  frequency_penalty : number;
  presence_penalty : number;
  seed : option number;
  stream : bool;
  reasoningEffort : ReasoningEffort;
  reasoningMaxTokens : number;
  webSearch : bool;
  tools : list PlaygroundToolDefinition;
  toolChoice : ToolChoice;
  responseFormat : ResponseFormat;
}.

Record ParameterEnabled := mkEnabled {
  en_temperature : bool;
  en_top_p : bool;
  en_max_tokens : bool;
  en_frequency_penalty : bool;
  en_presence_penalty : bool;
  en_seed : bool;
}.

Record GroupOption := mkGroupOption { go_label : jsstr; go_value : jsstr; go_ratio : number; go_desc : option jsstr }.

Record ModelOption := mkModelOption { mo_label : jsstr; mo_value : jsstr }.

(** ** Constants *)

Definition DEFAULT_GROUP : jsstr := u "default".

Definition DEFAULT_CONFIG : PlaygroundConfig :=
  mkConfig [] (u "gpt-4o") [] DEFAULT_GROUP (num_of_decimal 7 (-1)) (num_of_Z 1)
    (num_of_Z 4096) (num_of_Z 0) (num_of_Z 0) None true effort_off (num_of_Z 0) false []
    choice_auto format_text.

Definition DEFAULT_PARAMETER_ENABLED : ParameterEnabled :=
  mkEnabled true true false true true false.

Definition API_REQUEST_ERROR : jsstr := u "Request error occurred".
Definition PARSE_ERROR : jsstr := u "Error parsing response data".
Definition STREAM_START_ERROR : jsstr := u "Error establishing connection".
Definition CONNECTION_CLOSED : jsstr := u "Connection closed".
Definition INTERRUPTED : jsstr := u "Generation was interrupted".

End Pg.
