(* ===== verification/PgCodec.v ===== *)
(** * Playground messages as JSON
    (web/default/src/features/playground/types.ts)

    [JSON.stringify] of a message and what the text is read as.  A property
    that is [undefined] is not printed.  The properties are written in the
    order of the interface; the order is of no consequence, since reading looks
    them up by name.  [None] is a value that is no message: the code casts what
    it reads without checking it. *)

From S2P Require Import Prelude JsString JsNumber JsJson JsRegex JsExpr JsPrint PgTypes.

Import Print Pg.
Open Scope Z_scope.

Module Codec.

(** ** Writing *)

(** The properties that are there. *)
Definition obj_of (l : list (jsstr * option json)) : list (jsstr * json) :=
  omap (fun kv => (fun v => (kv.1, v)) <$> kv.2) l.

Definition jint (z : Z) : json := JNum (num_of_Z z).
Definition opt_str (s : option jsstr) : option json := JStr <$> s.
Definition opt_bool (b : option bool) : option json := JBool <$> b.

Definition null_str (s : nullable jsstr) : option json :=
  match s with Undef => None | Null => Some JNull | Val s => Some (JStr s) end.

Definition role_text (r : MessageRole) : jsstr :=
  match r with role_user => u "user" | role_assistant => u "assistant" | role_system => u "system" | role_tool => u "tool" end.

Definition status_text (s : MessageStatus) : jsstr :=
  match s with
  | LOADING => u "loading" | STREAMING => u "streaming" | COMPLETE => u "complete" | ERROR => u "error" | TRUNCATED => u "truncated"
  end.

Definition tool_fields (t : ToolCall) : list (jsstr * option json) :=
  [(u "id", Some (JStr (tc_id t))); (u "type", Some (JStr (u "function")));
   (u "function", Some (JObj [(u "name", JStr (fn_name (tc_function t))); (u "arguments", JStr (fn_arguments (tc_function t)))]))].
Definition tool_json (t : ToolCall) : json := JObj (obj_of (tool_fields t)).

Definition reasoning_json (r : Reasoning) : json := JObj [(u "content", JStr (r_content r)); (u "duration", jint (r_duration r))].

Definition tools_json (l : option (list ToolCall)) : option json := (fun l => JArr (map tool_json l)) <$> l.

Definition version_fields (v : MessageVersion) : list (jsstr * option json) :=
  [(u "id", Some (JStr (v_id v))); (u "content", Some (JStr (v_content v))); (u "toolCalls", tools_json (v_toolCalls v));
   (u "reasoning", reasoning_json <$> v_reasoning v); (u "refusal", opt_str (v_refusal v)); (u "finishReason", null_str (v_finishReason v))].
Definition version_json (v : MessageVersion) : json := JObj (obj_of (version_fields v)).

Definition usage_fields (x : TokenUsage) : list (jsstr * option json) :=
  [(u "prompt_tokens", Some (JNum (prompt_tokens x))); (u "completion_tokens", Some (JNum (completion_tokens x)));
   (u "total_tokens", Some (JNum (total_tokens x)));
   (u "prompt_tokens_details", (fun n => JObj [(u "cached_tokens", JNum n)]) <$> cached_tokens x)].
Definition usage_json (x : TokenUsage) : json := JObj (obj_of (usage_fields x)).

Definition source_json (s : Source) : json := JObj [(u "href", JStr (href s)); (u "title", JStr (title s))].

Definition message_fields (m : Message) : list (jsstr * option json) :=
  [(u "key", Some (JStr (key m))); (u "from", Some (JStr (role_text (from m)))); (u "versions", Some (JArr (map version_json (versions m))));
   (u "activeVersionIndex", jint <$> activeVersionIndex m); (u "model", opt_str (model m));
   (u "imageUrls", (fun l => JArr (map JStr l)) <$> imageUrls m); (u "sources", (fun l => JArr (map source_json l)) <$> sources m);
   (u "reasoning", reasoning_json <$> reasoning m); (u "toolCalls", tools_json (toolCalls m)); (u "refusal", opt_str (refusal m));
   (u "finishReason", null_str (finishReason m)); (u "toolCallId", opt_str (toolCallId m)); (u "toolName", opt_str (toolName m));
   (u "isReasoningStreaming", opt_bool (isReasoningStreaming m)); (u "isReasoningComplete", opt_bool (isReasoningComplete m));
   (u "isContentComplete", opt_bool (isContentComplete m)); (u "status", opt_str (status_text <$> status m));
   (u "errorCode", null_str (errorCode m)); (u "usage", usage_json <$> usage m); (u "costUsd", JNum <$> costUsd m);
   (u "latencyMs", jint <$> latencyMs m)].
Definition message_json (m : Message) : json := JObj (obj_of (message_fields m)).

Definition messages_json (l : list Message) : json := JArr (map message_json l).

(** ** Reading *)

Definition need {A} (f : json -> option A) (j : option json) : option A := j ≫= f.
Definition maybe {A} (f : json -> option A) (j : option json) : option (option A) :=
  match j with None => Some None | Some j => Some <$> f j end.

Definition as_str (j : json) : option jsstr := match j with JStr s => Some s | _ => None end.
Definition as_bool (j : json) : option bool := match j with JBool b => Some b | _ => None end.
Definition as_num (j : json) : option number := match j with JNum x => Some x | _ => None end.
Definition as_int (j : json) : option Z := as_num j ≫= num_int.
Definition as_list {A} (f : json -> option A) (j : json) : option (list A) := match j with JArr l => mapM f l | _ => None end.

Definition as_nullable (j : option json) : option (nullable jsstr) :=
  match j with None => Some Undef | Some JNull => Some Null | Some (JStr s) => Some (Val s) | _ => None end.

Definition as_role (j : json) : option MessageRole :=
  s ← as_str j; List.find (fun r => bool_decide (role_text r = s)) [role_user; role_assistant; role_system; role_tool].

Definition as_status (j : json) : option MessageStatus :=
  s ← as_str j; List.find (fun r => bool_decide (status_text r = s)) [LOADING; STREAMING; COMPLETE; ERROR; TRUNCATED].

Definition as_function (j : json) : option FunctionCall :=
  n ← need as_str (json_get (u "name") j); a ← need as_str (json_get (u "arguments") j); Some (mkFn n a).

Definition as_tool (j : json) : option ToolCall :=
  i ← need as_str (json_get (u "id") j); f ← need as_function (json_get (u "function") j); Some (mkToolCall i f).

Definition as_reasoning (j : json) : option Reasoning :=
  c ← need as_str (json_get (u "content") j); d ← need as_int (json_get (u "duration") j); Some (mkReasoning c d).

Definition as_version (j : json) : option MessageVersion :=
  i ← need as_str (json_get (u "id") j); c ← need as_str (json_get (u "content") j);
  t ← maybe (as_list as_tool) (json_get (u "toolCalls") j); r ← maybe as_reasoning (json_get (u "reasoning") j);
  f ← maybe as_str (json_get (u "refusal") j); e ← as_nullable (json_get (u "finishReason") j); Some (mkVersion i c t r f e).

Definition as_usage (j : json) : option TokenUsage :=
  p ← need as_num (json_get (u "prompt_tokens") j); c ← need as_num (json_get (u "completion_tokens") j);
  t ← need as_num (json_get (u "total_tokens") j);
  d ← match json_get (u "prompt_tokens_details") j with
      | None => Some None
      | Some d => maybe as_num (json_get (u "cached_tokens") d)
      end;
  Some (mkUsage p c t d).

Definition as_source (j : json) : option Source :=
  h ← need as_str (json_get (u "href") j); t ← need as_str (json_get (u "title") j); Some (mkSource h t).

Definition as_message (j : json) : option Message :=
  k ← need as_str (json_get (u "key") j); fr ← need as_role (json_get (u "from") j);
  vs ← need (as_list as_version) (json_get (u "versions") j); ai ← maybe as_int (json_get (u "activeVersionIndex") j);
  mo ← maybe as_str (json_get (u "model") j); im ← maybe (as_list as_str) (json_get (u "imageUrls") j);
  so ← maybe (as_list as_source) (json_get (u "sources") j); re ← maybe as_reasoning (json_get (u "reasoning") j);
  tc ← maybe (as_list as_tool) (json_get (u "toolCalls") j); rf ← maybe as_str (json_get (u "refusal") j);
  fi ← as_nullable (json_get (u "finishReason") j); ti ← maybe as_str (json_get (u "toolCallId") j);
  tn ← maybe as_str (json_get (u "toolName") j); rs ← maybe as_bool (json_get (u "isReasoningStreaming") j);
  rc ← maybe as_bool (json_get (u "isReasoningComplete") j); cc ← maybe as_bool (json_get (u "isContentComplete") j);
  st ← maybe as_status (json_get (u "status") j); ec ← as_nullable (json_get (u "errorCode") j);
  us ← maybe as_usage (json_get (u "usage") j); co ← maybe as_num (json_get (u "costUsd") j);
  la ← maybe as_int (json_get (u "latencyMs") j);
  Some (mkMessage k fr vs ai mo im so re tc rf fi ti tn rs rc cc st ec us co la).

Definition as_messages : json -> option (list Message) := as_list as_message.

(** ** Numbers that survive *)

Definition num_ok (x : number) : bool := printable_number x.
Definition int_ok (z : Z) : bool := num_ok (num_of_Z z) && bool_decide (num_int (num_of_Z z) = Some z).
Definition opt_ok {A} (f : A -> bool) (x : option A) : bool := match x with Some x => f x | None => true end.

Definition reasoning_ok (r : Reasoning) : bool := int_ok (r_duration r).
Definition version_ok (v : MessageVersion) : bool := opt_ok reasoning_ok (v_reasoning v).
Definition usage_ok (x : TokenUsage) : bool :=
  num_ok (prompt_tokens x) && num_ok (completion_tokens x) && num_ok (total_tokens x) && opt_ok num_ok (cached_tokens x).

Definition message_ok (m : Message) : bool :=
  forallb version_ok (versions m) && opt_ok int_ok (activeVersionIndex m) && opt_ok reasoning_ok (reasoning m) &&
  opt_ok usage_ok (usage m) && opt_ok num_ok (costUsd m) && opt_ok int_ok (latencyMs m).

(** ** Lemmas *)

Lemma obj_of_elem l k v : (k, v) ∈ obj_of l <-> (k, Some v) ∈ l.
Proof.
  unfold obj_of. rewrite list_elem_of_omap. split.
  - intros ([k' [v'|]] & Hin & [= <- <-]). done.
  - intros Hin. by exists (k, Some v).
Qed.

Lemma obj_of_keys l : sublist (obj_of l).*1 l.*1.
Proof. induction l as [|[k [v|]] l IH]; cbn; [done|by apply sublist_skip|by apply sublist_cons]. Qed.

Lemma obj_of_NoDup l : NoDup l.*1 -> NoDup (obj_of l).*1.
Proof. intros H. exact (sublist_NoDup _ _ H (obj_of_keys l)). Qed.

Lemma obj_of_get l k v : NoDup l.*1 -> (k, v) ∈ l -> map_get k (obj_of l) = v.
Proof.
  intros Hn Hin. destruct v as [v|].
  - apply map_get_elem; [by apply obj_of_NoDup|]. by apply obj_of_elem.
  - apply map_get_None. intros ([k' v] & -> & Hk)%list_elem_of_fmap. apply obj_of_elem in Hk. cbn in *.
    assert (Some v = None) as Hc; [|done].
    assert (forall (l : list (jsstr * option json)) a b, NoDup l.*1 -> (k', a) ∈ l -> (k', b) ∈ l -> a = b) as Huniq.
    { clear. intros l a b Hn Ha Hb. apply (map_get_elem _ _ _ Hn) in Ha. apply (map_get_elem _ _ _ Hn) in Hb. congruence. }
    exact (Huniq l _ _ Hn Hk Hin).
Qed.

(** What is read of a property that was written. *)
Lemma written_get l k v : NoDup l.*1 -> (k, v) ∈ l -> json_get k (ordered (JObj (obj_of l))) = ordered <$> v.
Proof. intros Hn Hin. rewrite ordered_get by by apply obj_of_NoDup. by rewrite (obj_of_get l k v). Qed.

(** Written and read back. *)
Definition back {A} (enc : A -> json) (dec : json -> option A) (x : A) : Prop := dec (ordered (enc x)) = Some x /\ good (enc x).

Lemma back_list {A} (enc : A -> json) dec l : Forall (back enc dec) l -> back (fun l => JArr (map enc l)) (as_list dec) l.
Proof.
  intros H. split.
  - cbn [ordered as_list]. rewrite map_map. induction H as [|x l [Hx _] _ IH]; [done|]. cbn [map mapM]. by rewrite Hx, IH.
  - apply good_arr, Forall_map. eapply Forall_impl; [exact H|]. by intros x [_ ?].
Qed.

Definition back_opt {A} (enc : A -> json) dec (x : option A) : Prop := match x with Some x => back enc dec x | None => True end.

Lemma maybe_back {A} (enc : A -> json) dec x : back_opt enc dec x -> maybe dec (ordered <$> (enc <$> x)) = Some x.
Proof. destruct x as [x|]; [|done]. intros [H _]. cbn. by rewrite H. Qed.

Lemma good_of_opt {A} (enc : A -> json) dec x : back_opt enc dec x -> match enc <$> x with Some j => good j | None => True end.
Proof. destruct x as [x|]; [|done]. by intros [_ ?]. Qed.

Definition good_field (kv : jsstr * option json) : Prop := match kv.2 with Some j => good j | None => True end.

Lemma good_obj_of l : NoDup l.*1 -> Forall good_field l -> good (JObj (obj_of l)).
Proof.
  intros Hn Hf. apply good_obj; [by apply obj_of_NoDup|]. apply Forall_forall. intros [k v] Hin%obj_of_elem.
  rewrite Forall_forall in Hf. exact (Hf _ Hin).
Qed.

Lemma back_str x : back JStr as_str x.
Proof. done. Qed.
Lemma back_bool x : back JBool as_bool x.
Proof. done. Qed.
Lemma back_num x : num_ok x = true -> back JNum as_num x.
Proof. done. Qed.

Lemma back_int z : int_ok z = true -> back jint as_int z.
Proof. unfold int_ok. intros [Hp Hi%bool_decide_eq_true]%andb_true_iff. split; [exact Hi|done]. Qed.

Lemma nullable_back x : as_nullable (ordered <$> null_str x) = Some x.
Proof. by destruct x. Qed.

Lemma good_null x : match null_str x with Some j => good j | None => True end.
Proof. by destruct x. Qed.

Lemma role_back r : as_role (JStr (role_text r)) = Some r.
Proof. by destruct r. Qed.
Lemma status_back st : back_opt (fun s => JStr (status_text s)) as_status st.
Proof. destruct st as [[]|]; done. Qed.

Lemma all_str_back l : back_opt (fun l => JArr (map JStr l)) (as_list as_str) l.
Proof. destruct l as [l|]; [|done]. apply back_list, Forall_forall. done. Qed.

Lemma opt_back {A} (enc : A -> json) dec (ok : A -> bool) :
  (forall x, ok x = true -> back enc dec x) -> forall x, opt_ok ok x = true -> back_opt enc dec x.
Proof. intros H [x|]; [apply H|done]. Qed.

Ltac keys_NoDup ks := refine (bool_decide_eq_true_1 (NoDup ks) _); vm_compute; reflexivity.
Ltac entry n := apply (list_elem_of_lookup_2 _ n); reflexivity.

Lemma back_pair k1 k2 (v1 v2 : json) :
  k1 <> k2 -> good v1 -> good v2 ->
  let j := JObj [(k1, v1); (k2, v2)] in
  good j /\ json_get k1 (ordered j) = Some (ordered v1) /\ json_get k2 (ordered j) = Some (ordered v2).
Proof.
  intros Hne H1 H2 j. assert (NoDup ([(k1, v1); (k2, v2)].*1)) as Hn.
  { cbn. repeat constructor; set_solver. }
  split; [apply good_obj; [exact Hn|by repeat (apply Forall_cons; split; [assumption|])]|].
  subst j. rewrite !ordered_get by done. cbn [map_get]. rewrite decide_True by done. rewrite (decide_False (P := k1 = k2)), decide_True by done. done.
Qed.

Lemma back_tool t : back tool_json as_tool t.
Proof.
  assert (NoDup (tool_fields t).*1) as Hn by keys_NoDup [u "id"; u "type"; u "function"].
  destruct (back_pair (u "name") (u "arguments") (JStr (fn_name (tc_function t))) (JStr (fn_arguments (tc_function t)))) as (Hg & H1 & H2);
    [refine (bool_decide_eq_false_1 _ _); vm_compute; reflexivity|done|done|].
  split.
  - unfold as_tool, tool_json. rewrite (written_get _ (u "id") _ Hn) by (entry 0%nat). erewrite (written_get _ (u "function") _ Hn) by (entry 2%nat).
    cbn [need mbind option_bind fmap option_fmap option_map]. unfold as_function. rewrite H1, H2. by destruct t as [i []].
  - apply good_obj_of; [done|]. by repeat (apply Forall_cons; split; [assumption || done|]).
Qed.

Lemma back_tools l : back_opt (fun l => JArr (map tool_json l)) (as_list as_tool) l.
Proof. destruct l as [l|]; [|done]. apply back_list, Forall_forall. intros t _. apply back_tool. Qed.

Lemma back_source x : back source_json as_source x.
Proof.
  destruct (back_pair (u "href") (u "title") (JStr (href x)) (JStr (title x))) as (Hg & H1 & H2);
    [refine (bool_decide_eq_false_1 _ _); vm_compute; reflexivity|done|done|].
  split; [|exact Hg]. unfold as_source, source_json. rewrite H1, H2. by destruct x.
Qed.

Lemma back_sources l : back_opt (fun l => JArr (map source_json l)) (as_list as_source) l.
Proof. destruct l as [l|]; [|done]. apply back_list, Forall_forall. intros t _. apply back_source. Qed.

Lemma back_reasoning r : reasoning_ok r = true -> back reasoning_json as_reasoning r.
Proof.
  intros [Hi Hg]%back_int.
  destruct (back_pair (u "content") (u "duration") (JStr (r_content r)) (jint (r_duration r))) as (Hg' & H1 & H2);
    [refine (bool_decide_eq_false_1 _ _); vm_compute; reflexivity|done|done|].
  split; [|exact Hg']. unfold as_reasoning, reasoning_json. rewrite H1, H2. cbn [need mbind option_bind as_str ordered]. cbn [ordered] in Hi.
  unfold need. cbn [mbind option_bind]. rewrite Hi. by destruct r.
Qed.

(** Goes through the fields of a record. *)
Ltac good_fields := repeat (apply Forall_cons; split; [first [done | by apply good_null | by eapply good_of_opt]|]); apply Forall_nil_2.

Lemma back_version v : version_ok v = true -> back version_json as_version v.
Proof.
  intros Hr%(opt_back _ _ _ back_reasoning).
  assert (NoDup (version_fields v).*1) as Hn by keys_NoDup [u "id"; u "content"; u "toolCalls"; u "reasoning"; u "refusal"; u "finishReason"].
  pose proof (back_tools (v_toolCalls v)) as Ht. assert (back_opt JStr as_str (v_refusal v)) as Hf by by destruct (v_refusal v).
  split.
  - unfold as_version, version_json. set (j := ordered _).
    assert (forall k x, (k, x) ∈ version_fields v -> json_get k j = ordered <$> x) as Hget by (intros k x; by apply written_get).
    clearbody j. erewrite (Hget (u "id")) by (entry 0%nat). erewrite (Hget (u "content")) by (entry 1%nat).
    erewrite (Hget (u "toolCalls")) by (entry 2%nat). erewrite (Hget (u "reasoning")) by (entry 3%nat).
    erewrite (Hget (u "refusal")) by (entry 4%nat). erewrite (Hget (u "finishReason")) by (entry 5%nat).
    unfold tools_json, opt_str. rewrite !maybe_back, nullable_back by done. by destruct v.
  - apply good_obj_of; [done|]. unfold version_fields, tools_json, opt_str. good_fields.
Qed.

Lemma back_usage x : usage_ok x = true -> back usage_json as_usage x.
Proof.
  unfold usage_ok. rewrite !andb_true_iff. intros [[[H1 H2] H3] H4].
  assert (NoDup (usage_fields x).*1) as Hn by keys_NoDup [u "prompt_tokens"; u "completion_tokens"; u "total_tokens"; u "prompt_tokens_details"].
  assert (forall n, good (JObj [(u "cached_tokens", JNum n)]) <-> num_ok n = true) as Hd.
  { intros n. split; [intros [_ Hp]; cbn in Hp; by rewrite andb_true_r in Hp|]. intros Hp. apply good_obj; [apply NoDup_singleton|by repeat constructor]. }
  split.
  - unfold as_usage, usage_json. set (j := ordered _).
    assert (forall k y, (k, y) ∈ usage_fields x -> json_get k j = ordered <$> y) as Hget by (intros k y; by apply written_get).
    clearbody j. erewrite (Hget (u "prompt_tokens")) by (entry 0%nat). erewrite (Hget (u "completion_tokens")) by (entry 1%nat).
    erewrite (Hget (u "total_tokens")) by (entry 2%nat). erewrite (Hget (u "prompt_tokens_details")) by (entry 3%nat).
    destruct x as [a b c [d|]]; done.
  - apply good_obj_of; [done|]. unfold usage_fields. repeat (apply Forall_cons; split; [done|]). apply Forall_cons. split; [|apply Forall_nil_2].
    unfold good_field. destruct (cached_tokens x) as [n|]; [|done]. by apply Hd.
Qed.

Definition message_keys : list jsstr :=
  [u "key"; u "from"; u "versions"; u "activeVersionIndex"; u "model"; u "imageUrls"; u "sources"; u "reasoning"; u "toolCalls"; u "refusal";
   u "finishReason"; u "toolCallId"; u "toolName"; u "isReasoningStreaming"; u "isReasoningComplete"; u "isContentComplete"; u "status";
   u "errorCode"; u "usage"; u "costUsd"; u "latencyMs"].

Lemma opt_str_back s : back_opt JStr as_str s.
Proof. by destruct s. Qed.
Lemma opt_bool_back b : back_opt JBool as_bool b.
Proof. by destruct b. Qed.

Lemma status_map st : opt_str (status_text <$> st) = (fun s => JStr (status_text s)) <$> st.
Proof. by destruct st. Qed.

Lemma back_versions l : forallb version_ok l = true -> back (fun l => JArr (map version_json l)) (as_list as_version) l.
Proof.
  intros H. apply back_list, Forall_forall. intros v Hv. apply back_version. rewrite forallb_forall in H. apply H. by apply list_elem_of_In.
Qed.

(** A message that was saved is read back. *)
Lemma back_message m : message_ok m = true -> back message_json as_message m.
Proof.
  unfold message_ok. rewrite !andb_true_iff. intros [[[[[[Hv Gv]%back_versions Ha%(opt_back _ _ _ back_int)] Hr%(opt_back _ _ _ back_reasoning)]
    Hu%(opt_back _ _ _ back_usage)] Hc%(opt_back _ _ _ back_num)] Hl%(opt_back _ _ _ back_int)].
  assert (NoDup (message_fields m).*1) as Hn by keys_NoDup message_keys.
  pose proof (back_tools (toolCalls m)) as Ht. pose proof (back_sources (sources m)) as Hs. pose proof (all_str_back (imageUrls m)) as Hi.
  pose proof (status_back (status m)) as Hst. split.
  - unfold as_message, message_json. set (j := ordered _).
    assert (forall k y, (k, y) ∈ message_fields m -> json_get k j = ordered <$> y) as Hget by (intros k y; by apply written_get).
    clearbody j. erewrite (Hget (u "key")) by (entry 0%nat). erewrite (Hget (u "from")) by (entry 1%nat).
    erewrite (Hget (u "versions")) by (entry 2%nat). erewrite (Hget (u "activeVersionIndex")) by (entry 3%nat).
    erewrite (Hget (u "model")) by (entry 4%nat). erewrite (Hget (u "imageUrls")) by (entry 5%nat).
    erewrite (Hget (u "sources")) by (entry 6%nat). erewrite (Hget (u "reasoning")) by (entry 7%nat).
    erewrite (Hget (u "toolCalls")) by (entry 8%nat). erewrite (Hget (u "refusal")) by (entry 9%nat).
    erewrite (Hget (u "finishReason")) by (entry 10%nat). erewrite (Hget (u "toolCallId")) by (entry 11%nat).
    erewrite (Hget (u "toolName")) by (entry 12%nat). erewrite (Hget (u "isReasoningStreaming")) by (entry 13%nat).
    erewrite (Hget (u "isReasoningComplete")) by (entry 14%nat). erewrite (Hget (u "isContentComplete")) by (entry 15%nat).
    erewrite (Hget (u "status")) by (entry 16%nat). erewrite (Hget (u "errorCode")) by (entry 17%nat).
    erewrite (Hget (u "usage")) by (entry 18%nat). erewrite (Hget (u "costUsd")) by (entry 19%nat).
    erewrite (Hget (u "latencyMs")) by (entry 20%nat).
    unfold tools_json, opt_bool. rewrite status_map. unfold opt_str.
    rewrite !maybe_back by (assumption || apply opt_str_back || apply opt_bool_back). rewrite !nullable_back.
    cbn [fmap option_fmap option_map need mbind option_bind as_str ordered]. rewrite role_back.
    change (JArr (map ordered (map version_json (versions m)))) with (ordered (JArr (map version_json (versions m)))).
    unfold need. cbn [mbind option_bind]. rewrite Hv. by destruct m.
  - apply good_obj_of; [done|]. unfold message_fields, tools_json, opt_bool. rewrite status_map. unfold opt_str.
    repeat (apply Forall_cons; split; [first [done | by apply good_null | eapply good_of_opt; first [eassumption | apply opt_str_back | apply opt_bool_back]]|]).
    apply Forall_nil_2.
Qed.

Lemma back_messages l : forallb message_ok l = true -> back messages_json as_messages l.
Proof.
  intros H. apply back_list, Forall_forall. intros m Hm. apply back_message. rewrite forallb_forall in H. apply H. by apply list_elem_of_In.
Qed.

End Codec.
