(* ===== verification/PgMessages.v ===== *)
(** * Playground messages  (web/default/src/features/playground/lib/message-utils.ts)

    Versions of a message, the [<think>] tags of its content, error and
    streaming updates, finalisation, and sanitising on load.  Translation and
    id generation come from third-party packages: they are the operations of
    the class [Platform]. *)

From S2P Require Import Prelude JsString JsNumber JsJson PgTypes.

Import Pg.
Open Scope nat_scope.

(** [i18next.t] and [nanoid]; the [n]-th call of [nanoid] returns
    [nanoid_at n]. *)
Class Platform := {
  i18n_t : jsstr -> jsstr;
  nanoid_at : nat -> jsstr;
}.

(** What the code relies on: generated ids are distinct. *)
Class PlatformLaws (P : Platform) : Prop := {
  nanoid_inj : forall i j, nanoid_at i = nanoid_at j -> i = j;
}.

(** Computations that draw ids: the state counts the ids drawn so far. *)
Definition fresh (A : Type) : Type := nat -> A * nat.

Definition fresh_ret {A} (a : A) : fresh A := fun n => (a, n).

Definition fresh_bind {A B} (c : fresh A) (k : A -> fresh B) : fresh B :=
  fun n => let '(a, n') := c n in k a n'.

Notation "x <-- c ;; k" := (fresh_bind c (fun x => k))
  (at level 100, c at next level, right associativity) : js_scope.

Fixpoint fresh_map {A B} (f : A -> fresh B) (l : list A) : fresh (list B) :=
  match l with
  | [] => fresh_ret []
  | x :: l' => y <-- f x ;; ys <-- fresh_map f l' ;; fresh_ret (y :: ys)
  end.

Module Messages.

Section messages.
Context {P : Platform}.

Definition nanoid : fresh jsstr := fun n => (nanoid_at n, S n).

(** ** Versions *)

(** called without [extras] everywhere in the program *)
Definition createMessageVersion (content : jsstr) : fresh MessageVersion :=
  i <-- nanoid ;; fresh_ret (mkVersion i content None None None Undef).

Definition in_range (i : Z) (n : nat) : bool := (0 <=? i)%Z && (i <? Z.of_nat n)%Z.

Definition getActiveVersionIndex (m : Message) : nat :=
  match versions m with
  | [] => 0
  | vs =>
      match activeVersionIndex m with
      | Some i => if in_range i (length vs) then Z.to_nat i else length vs - 1
      | None => length vs - 1
      end
  end.

Definition default_version : MessageVersion := mkVersion (u "default") [] None None None Undef.

Definition getCurrentVersion (m : Message) : MessageVersion :=
  versions m !! getActiveVersionIndex m ?? default_version.

Definition updateCurrentVersionContent (m : Message) (content : jsstr) : Message :=
  let idx := getActiveVersionIndex m in
  set_versions (imap (fun i v => if Nat.eqb i idx then set_v_content content v else v)
                     (versions m)) m.

(** ** Construction *)

Definition blank_message (k : jsstr) (from : MessageRole) (vs : list MessageVersion) : Message :=
  mkMessage k from vs None None None None None None None Undef None None None None None None Undef
    None None None.

Definition valid_images (urls : list jsstr) : list jsstr :=
  bfilter (fun url => truthy (trim url)) urls.

Definition createUserMessage (content : jsstr) (imageUrls : list jsstr) : fresh Message :=
  let validImages := valid_images imageUrls in
  k <-- nanoid ;;
  v <-- createMessageVersion content ;;
  fresh_ret (set_imageUrls (if truthy_list validImages then Some validImages else None)
               (blank_message k role_user [v])).

Definition createToolResultMessage (callId toolNm result : jsstr) : fresh Message :=
  k <-- nanoid ;;
  v <-- createMessageVersion result ;;
  fresh_ret (set_status (Some COMPLETE) (set_toolName (Some toolNm)
               (set_toolCallId (Some callId) (blank_message k role_tool [v])))).

Definition createLoadingAssistantMessage (mdl : option jsstr) : fresh Message :=
  k <-- nanoid ;;
  v <-- createMessageVersion [] ;;
  let m := blank_message k role_assistant [v] in
  let m := set_activeVersionIndex (Some 0%Z) m in
  let m := set_isReasoningComplete (Some false) m in
  let m := set_isContentComplete (Some false) m in
  let m := set_isReasoningStreaming (Some false) m in
  let m := set_status (Some LOADING) m in
  fresh_ret (set_model (if truthy_opt mdl then mdl else None) m).

Definition pushAssistantVersion (m : Message) : fresh Message :=
  v <-- createMessageVersion [] ;;
  let vs := versions m ++ [v] in
  let m := set_versions vs m in
  let m := set_activeVersionIndex (Some (Z.of_nat (length vs) - 1)%Z) m in
  let m := set_reasoning None (set_toolCalls None (set_refusal None (set_finishReason Undef m))) in
  let m := set_isReasoningComplete (Some false) m in
  let m := set_isContentComplete (Some false) m in
  let m := set_isReasoningStreaming (Some false) m in
  let m := set_status (Some LOADING) m in
  fresh_ret (set_errorCode Null (set_latencyMs None (set_costUsd None (set_usage None m)))).

(** ** Request content *)

Definition buildMessageContent (text : jsstr) (imageUrls : option (list jsstr)) : Content :=
  let validImages := valid_images (imageUrls ?? []) in
  if negb (truthy_list validImages) then ContentString text
  else ContentParts (TextPart text :: map (fun url => ImagePart (trim url)) validImages).

Definition getTextContent (c : Content) : jsstr :=
  match c with
  | ContentString s => s
  | ContentParts l =>
      match find_index (fun p => match p with TextPart _ => true | _ => false end) l with
      | Some i => match l !! i with Some (TextPart t) => t | _ => [] end
      | None => []
      end
  | ContentNull => []
  end.

(** [x?.length ? x : y] *)
Definition nonempty_or (x y : option (list ToolCall)) : option (list ToolCall) :=
  match x with Some (_ :: _) => x | _ => y end.

Definition formatMessageForAPI (m : Message) : ChatCompletionMessage :=
  let currentVersion := getCurrentVersion m in
  match from m with
  | role_tool =>
      mkChatMsg role_tool (ContentString (v_content currentVersion)) None
        (Some (toolCallId m ?? [])) (if truthy_opt (toolName m) then toolName m else None)
  | r =>
      let toolCalls := nonempty_or (v_toolCalls currentVersion) (toolCalls m) in
      let base := buildMessageContent (v_content currentVersion) (imageUrls m) in
      match r, toolCalls with
      | role_assistant, Some ((_ :: _) as tcs) =>
          mkChatMsg r (if truthy (trim (v_content currentVersion)) then base else ContentNull)
            (Some tcs) None None
      | _, _ => mkChatMsg r base None None None
      end
  end.

Definition is_pending (s : option MessageStatus) : bool :=
  match s with Some LOADING | Some STREAMING => true | _ => false end.

Definition isValidMessage (m : Message) : bool :=
  if negb (truthy_list (versions m)) then false
  else if is_pending (status m) then false
  else
    let current := getCurrentVersion m in
    match from m with
    | role_tool => truthy_opt (toolCallId m)
    | role_assistant =>
        match nonempty_or (v_toolCalls current) (toolCalls m) with
        | Some (_ :: _) => true
        | _ => negb (negb (truthy (trim (v_content current))) && negb (truthy_opt (refusal m)))
        end
    | _ => true
    end.

(** ** Thinking tags *)

Definition open_tag : jsstr := u "<think>".
Definition close_tag : jsstr := u "</think>".

(** The [while (true)] loop; [None] is running out of fuel. *)
Fixpoint think_loop (fuel : nat) (content : jsstr) (currentPos : nat)
    (visibleParts reasoningParts : list jsstr) : option (list jsstr * list jsstr * bool) :=
  match fuel with
  | 0 => None
  | S f =>
      match index_from open_tag content currentPos with
      | None =>
          Some (if currentPos <? length content
                then visibleParts ++ [drop currentPos content] else visibleParts,
                reasoningParts, false)
      | Some openPos =>
          let visibleParts :=
            if currentPos <? openPos
            then visibleParts ++ [substring content currentPos openPos] else visibleParts in
          match index_from close_tag content (openPos + 7) with
          | None => Some (visibleParts, reasoningParts ++ [drop (openPos + 7) content], true)
          | Some closePos =>
              think_loop f content (closePos + 8) visibleParts
                (reasoningParts ++ [substring content (openPos + 7) closePos])
          end
      end
  end.

Record ThinkParts := mkThink {
  visibleContent : jsstr;
  th_reasoning : jsstr;
  hasUnclosedTag : bool;
}.

(** Every iteration moves [currentPos] forward, so the length of the content
    bounds the number of iterations; [think_loop_total] proves it. *)
Definition parseThinkTags (content : jsstr) : ThinkParts :=
  if negb (str_includes content open_tag) then mkThink content [] false
  else match think_loop (S (length content)) content 0 [] [] with
       | Some (visibleParts, reasoningParts, hasUnclosed) =>
           mkThink (trim (join [] visibleParts)) (trim (join (u "

") reasoningParts)) hasUnclosed
       | None => mkThink content [] false
       end.

(** ** Updates *)

Definition updateLastAssistantMessage (messages : list Message) (updater : Message -> Message)
  : list Message :=
  match last messages with
  | None => messages
  | Some l =>
      if negb (bool_decide (from l = role_assistant)) then messages
      else <[ length messages - 1 := updater l ]> messages
  end.

Definition updateMessageByKey (messages : list Message) (k : jsstr)
    (updater : Message -> Message) : list Message :=
  match find_index (fun m => bool_decide (key m = k)) messages with
  | None => messages
  | Some index =>
      match messages !! index with
      | Some m => <[ index := updater m ]> messages
      | None => messages
      end
  end.

(** [errorCode || null] *)
Definition error_code (errorCode : option jsstr) : nullable jsstr :=
  match errorCode with
  | Some c => if truthy c then Val c else Null
  | None => Null
  end.

Definition fail_message (errorMessage : jsstr) (errorCode : option jsstr) (m : Message) : Message :=
  let updated := updateCurrentVersionContent m (i18n_t API_REQUEST_ERROR ++ u ": " ++ errorMessage) in
  set_errorCode (error_code errorCode)
    (set_isReasoningStreaming (Some false) (set_status (Some ERROR) updated)).

Definition updateAssistantMessageWithError (messages : list Message) (errorMessage : jsstr)
    (errorCode : option jsstr) : list Message :=
  updateLastAssistantMessage messages (fail_message errorMessage errorCode).

Definition setMessageErrorByKey (messages : list Message) (k errorMessage : jsstr)
    (errorCode : option jsstr) : list Message :=
  updateMessageByKey messages k (fail_message errorMessage errorCode).

Definition processStreamingContent (m : Message) (contentChunk : option jsstr) : Message :=
  let currentVersion := getCurrentVersion m in
  let fullContent := match contentChunk with
                     | Some c => if truthy c then v_content currentVersion ++ c
                                 else v_content currentVersion
                     | None => v_content currentVersion
                     end in
  let parsed := parseThinkTags fullContent in
  let finalReasoning :=
    if truthy (th_reasoning parsed) then Some (mkReasoning (th_reasoning parsed) 0)
    else reasoning m in
  set_isReasoningStreaming (Some (hasUnclosedTag parsed))
    (set_reasoning finalReasoning (updateCurrentVersionContent m fullContent)).

(** ** Finalisation *)

Record FinalizeOptions := mkFinal {
  opt_toolCalls : option (list ToolCall);
  opt_finishReason : nullable jsstr;
  opt_refusal : option jsstr;
  opt_truncated : bool;
}.

Definition no_options : FinalizeOptions := mkFinal None Undef None false.

Definition finalizeMessage (m : Message) (apiReasoningContent : option jsstr)
    (options : FinalizeOptions) : Message :=
  let currentVersion := getCurrentVersion m in
  let parsed := parseThinkTags (v_content currentVersion) in
  let finalReasoning :=
    or_str (apiReasoningContent ?? [])
      (or_str ((r_content <$> reasoning m) ?? []) (th_reasoning parsed)) in
  let toolCalls :=
    coalesce_opt (opt_toolCalls options) (coalesce_opt (toolCalls m) (v_toolCalls currentVersion)) in
  let toolCalls := nonempty_or toolCalls None in
  let reasoningObj :=
    if truthy finalReasoning
    then Some (mkReasoning finalReasoning ((r_duration <$> reasoning m) ?? 0%Z)) else None in
  let refusal' := coalesce_opt (opt_refusal options) (refusal m) in
  let finishReason' := nullish (opt_finishReason options) (finishReason m) in
  let idx := getActiveVersionIndex m in
  let vs := imap (fun i v =>
                    if Nat.eqb i idx
                    then mkVersion (v_id v) (visibleContent parsed) toolCalls reasoningObj
                           refusal' finishReason'
                    else v) (versions m) in
  let status' :=
    if opt_truncated options then TRUNCATED
    else if bool_decide (status m = Some ERROR) then ERROR else COMPLETE in
  set_status (Some status')
    (set_isReasoningStreaming (Some false)
      (set_finishReason finishReason'
        (set_refusal refusal'
          (set_toolCalls toolCalls
            (set_reasoning reasoningObj (set_versions vs m)))))).

Definition sanitize_message (m : Message) : Message :=
  if bool_decide (from m = role_assistant) && is_pending (status m) then
    let finalized := finalizeMessage m None (mkFinal None Undef None true) in
    let hasContent := truthy (trim (v_content (getCurrentVersion finalized))) in
    let hasReasoning := truthy (trim ((r_content <$> reasoning finalized) ?? [])) in
    let hasTools := match toolCalls finalized with Some (_ :: _) => true | _ => false end in
    if hasContent || hasReasoning || hasTools then
      set_isReasoningStreaming (Some false) (set_status (Some TRUNCATED) finalized)
    else
      set_isReasoningStreaming (Some false)
        (set_status (Some ERROR)
          (updateCurrentVersionContent finalized
             (i18n_t API_REQUEST_ERROR ++ u ": " ++ i18n_t INTERRUPTED)))
  else m.

Definition sanitizeMessagesOnLoad (messages : list Message) : list Message :=
  map sanitize_message messages.

Definition deriveConversationTitle (messages : list Message) : jsstr :=
  match find_index (fun m => bool_decide (from m = role_user)) messages with
  | None => u "New chat"
  | Some i =>
      match messages !! i with
      | None => u "New chat"
      | Some firstUser =>
          let text := trim (v_content (getCurrentVersion firstUser)) in
          if negb (truthy text) then u "New chat"
          else
            let oneLine := collapse_ws false text in
            if 48 <? length oneLine then take 48 oneLine ++ u "…" else oneLine
      end
  end.

(** ** Lemmas: thinking tags *)

(** A content cut at its tags: closed blocks (visible text, then reasoning),
    the visible text after them, and the reasoning of an unclosed tag. *)
Record ThinkDoc := mkDoc {
  blocks : list (jsstr * jsstr);
  doc_tail : jsstr;
  unclosed : option jsstr;
}.

Definition render_block (b : jsstr * jsstr) : jsstr := b.1 ++ open_tag ++ b.2 ++ close_tag.

Definition render_end (d : ThinkDoc) : jsstr :=
  doc_tail d ++ match unclosed d with Some r => open_tag ++ r | None => [] end.

Definition render_doc (d : ThinkDoc) : jsstr := concat (map render_block (blocks d)) ++ render_end d.

(** Visible text holds no opening tag, reasoning no closing tag. *)
Definition clean_doc (d : ThinkDoc) : Prop :=
  Forall (fun b => index_of open_tag b.1 = None /\ index_of close_tag b.2 = None) (blocks d) /\
  index_of open_tag (doc_tail d) = None /\
  match unclosed d with Some r => index_of close_tag r = None | None => True end.

Definition doc_visible (d : ThinkDoc) : list jsstr := (blocks d).*1 ++ [doc_tail d].
Definition doc_reasoning (d : ThinkDoc) : list jsstr :=
  (blocks d).*2 ++ match unclosed d with Some r => [r] | None => [] end.

Definition is_some {A} (o : option A) : bool := match o with Some _ => true | None => false end.

Definition doc_outcome (d : ThinkDoc) : ThinkParts :=
  match blocks d, unclosed d with
  | [], None => mkThink (doc_tail d) [] false
  | _, _ => mkThink (trim (concat (doc_visible d))) (trim (join (u "

") (doc_reasoning d))) (is_some (unclosed d))
  end.

Lemma index_open v t : index_of open_tag v = None -> index_of open_tag (v ++ open_tag ++ t) = Some (length v).
Proof. apply (index_of_app 60). vm_compute. set_solver. Qed.

Lemma index_close r t : index_of close_tag r = None -> index_of close_tag (r ++ close_tag ++ t) = Some (length r).
Proof. apply (index_of_app 60). vm_compute. set_solver. Qed.

Lemma index_from_app p pre s : index_from p (pre ++ s) (length pre) = Nat.add (length pre) <$> index_of p s.
Proof. unfold index_from. by rewrite drop_app_length. Qed.

Lemma substring_app pre a b :
  substring (pre ++ a ++ b) (length pre) (length pre + length a) = a.
Proof. unfold substring. rewrite drop_app_length, Nat.add_comm, Nat.add_sub. apply take_app_length. Qed.

(** the list pushed for a part: nothing when it is empty *)
Definition push_part (s : jsstr) : list jsstr := if truthy s then [s] else [].

Lemma push_visible (vs : list jsstr) pre a (b : jsstr) :
  (if length pre <? length pre + length a
   then vs ++ [substring (pre ++ a ++ b) (length pre) (length pre + length a)] else vs)
  = vs ++ push_part a.
Proof.
  rewrite substring_app. destruct a as [|x a]; cbn [push_part truthy length].
  - by rewrite Nat.add_0_r, Nat.ltb_irrefl, app_nil_r.
  - destruct (Nat.ltb_spec (length pre) (length pre + S (length a))); [done|lia].
Qed.

Lemma join_parts (l : list jsstr) : join [] (concat (map push_part l)) = concat l.
Proof.
  induction l as [|s l IH]; [done|]. cbn [map concat]. rewrite <-IH.
  destruct s as [|c s]; cbn [push_part truthy app]; [done|].
  destruct (concat (map push_part l)); cbn [join app]; [by rewrite app_nil_r|done].
Qed.

(** The loop at the end of a document: the last visible text, or an unclosed tag. *)
Lemma think_loop_end f pre vs rs d :
  clean_doc d -> 
  think_loop (S f) (pre ++ render_end d) (length pre) vs rs =
  Some (vs ++ push_part (doc_tail d),
        rs ++ match unclosed d with Some r => [r] | None => [] end, is_some (unclosed d)).
Proof.
  intros (_ & Ht & Hu). unfold render_end. cbn [think_loop]. rewrite index_from_app.
  destruct (unclosed d) as [r|].
  - rewrite index_open, fmap_Some_2 with (x := length (doc_tail d)) by done.
    rewrite push_visible. rewrite (app_assoc pre), app_assoc.
    replace (length pre + length (doc_tail d) + 7)
      with (length ((pre ++ doc_tail d) ++ open_tag)) by (rewrite !length_app; done).
    rewrite <-(app_nil_r r) at 1. rewrite index_from_app, app_nil_r, Hu. cbn [fmap option_fmap option_map].
    by rewrite drop_app_length.
  - rewrite app_nil_r, Ht. cbn [fmap option_fmap option_map]. rewrite drop_app_length, app_nil_r, length_app.
    destruct (doc_tail d) as [|x l]; cbn [push_part truthy length].
    + by rewrite Nat.add_0_r, Nat.ltb_irrefl, app_nil_r.
    + destruct (Nat.ltb_spec (length pre) (length pre + S (length l))); [done|lia].
Qed.

Lemma think_loop_doc bs : forall f pre vs rs t un,
  clean_doc (mkDoc bs t un) -> length bs <= f ->
  think_loop (S f) (pre ++ render_doc (mkDoc bs t un)) (length pre) vs rs =
  Some (vs ++ concat (map push_part (doc_visible (mkDoc bs t un))),
        rs ++ doc_reasoning (mkDoc bs t un), is_some un).
Proof.
  induction bs as [|[v r] bs IH]; intros f pre vs rs t un Hd Hf.
  - unfold doc_visible, doc_reasoning, render_doc. cbn [blocks unclosed doc_tail map fmap list_fmap concat app].
    rewrite think_loop_end by done. cbn [doc_tail unclosed]. by rewrite app_nil_r.
  - destruct f as [|f]; [cbn in Hf; lia|]. destruct Hd as (Hb & Ht & Hu).
    cbn [blocks] in Hb. apply Forall_cons in Hb as [[Hv Hr] Hb]. cbn [fst snd] in Hv, Hr.
    unfold render_doc. cbn [blocks map concat]. unfold render_block at 1. cbn [fst snd].
    remember (S f) as g. cbn [think_loop]. rewrite index_from_app, <-!app_assoc.
    rewrite (index_open v) by done. cbn [fmap option_fmap option_map].
    rewrite push_visible.
    set (rest := concat (map render_block bs) ++ render_end (mkDoc ((v, r) :: bs) t un)).
    replace (length pre + length v + 7) with (length (pre ++ v ++ open_tag))
      by (rewrite !length_app; change (length open_tag) with 7; lia).
    replace (pre ++ v ++ open_tag ++ r ++ close_tag ++ rest)
      with ((pre ++ v ++ open_tag) ++ r ++ close_tag ++ rest) by by rewrite <-!app_assoc.
    rewrite index_from_app, (index_close r) by done. cbn [fmap option_fmap option_map].
    rewrite substring_app.
    replace ((pre ++ v ++ open_tag) ++ r ++ close_tag ++ rest)
      with ((pre ++ render_block (v, r)) ++ render_doc (mkDoc bs t un))
      by (unfold render_block; cbn [fst snd]; by rewrite <-!app_assoc).
    replace (length (pre ++ v ++ open_tag) + length r + 8) with (length (pre ++ render_block (v, r)))
      by (unfold render_block; cbn [fst snd]; rewrite !length_app;
          change (length open_tag) with 7; change (length close_tag) with 8; lia).
    subst g. rewrite IH; [|done|cbn in Hf; lia].
    unfold doc_visible, doc_reasoning. cbn [blocks unclosed doc_tail fmap list_fmap fst snd map concat app].
    by rewrite <-!app_assoc.
Qed.

(** The loop reaches every content: cutting at the first tags. *)
Lemma content_doc n : forall s, length s <= n ->
  exists d, clean_doc d /\ s = render_doc d /\ length (blocks d) <= length s.
Proof.
  induction n as [n IH] using lt_wf_ind. intros s Hn.
  destruct (index_of open_tag s) as [i|] eqn:Ho.
  - destruct (index_of_first open_tag s i) as [Hs Hv]; [done..|].
    set (v := take i s) in *. set (s' := drop (i + length open_tag) s) in *.
    destruct (index_of close_tag s') as [j|] eqn:Hc.
    + destruct (index_of_first close_tag s' j) as [Hs' Hr]; [done..|].
      set (r := take j s') in *. set (s2 := drop (j + length close_tag) s') in *.
      assert (Hlen : length s = length v + 7 + length r + 8 + length s2).
      { rewrite Hs, !length_app, Hs', !length_app.
        change (length open_tag) with 7. change (length close_tag) with 8. lia. }
      destruct (IH (length s2) ltac:(lia) s2 (Nat.le_refl _)) as ([bs t un] & (Hb & Ht & Hu) & H2 & Hl).
      exists (mkDoc ((v, r) :: bs) t un). split; [|split].
      * split; [|done]. by apply Forall_cons.
      * rewrite Hs, Hs', H2. unfold render_doc, render_block, render_end.
        cbn [blocks map concat fst snd doc_tail unclosed]. by rewrite <-!app_assoc.
      * cbn [blocks length] in *. lia.
    + exists (mkDoc [] v (Some s')). split; [|split]; [done|exact Hs|cbn; lia].
  - exists (mkDoc [] s None). split; [|split]; [done| |cbn; lia].
    unfold render_doc, render_end. cbn. by rewrite app_nil_r.
Qed.

Lemma no_open_includes s : str_includes s open_tag = false <-> index_of open_tag s = None.
Proof. unfold str_includes. by destruct (index_of open_tag s). Qed.

Lemma blocks_length bs : length bs <= length (concat (map render_block bs)).
Proof.
  induction bs as [|[v r] bs IH]; [done|]. cbn [map concat length]. rewrite length_app.
  unfold render_block at 1. cbn [fst snd]. rewrite !length_app.
  change (length open_tag) with 7. lia.
Qed.

Lemma parse_doc d : clean_doc d -> parseThinkTags (render_doc d) = doc_outcome d.
Proof.
  intros Hd. destruct d as [bs t un]. unfold parseThinkTags.
  assert (Hloop := think_loop_doc bs (length (render_doc (mkDoc bs t un))) [] [] [] t un Hd).
  cbn [app length] in Hloop. rewrite Hloop; clear Hloop;
    [|unfold render_doc; rewrite length_app; pose proof (blocks_length bs); cbn [blocks]; lia].
  rewrite join_parts. destruct Hd as (Hb & Ht & Hu). cbn [blocks doc_tail unclosed] in *.
  destruct bs as [|[v r] bs]; [destruct un as [r|]|].
  - unfold render_doc, render_end. cbn [blocks map concat app doc_tail unclosed].
    unfold str_includes. by rewrite index_open.
  - unfold render_doc, render_end. cbn [blocks map concat app doc_tail unclosed].
    rewrite app_nil_r. unfold str_includes. by rewrite Ht.
  - unfold render_doc. cbn [blocks map concat]. unfold render_block at 1. cbn [fst snd].
    apply Forall_cons in Hb as [[Hv _] _]. cbn [fst] in Hv. unfold str_includes.
    by rewrite <-!app_assoc, index_open.
Qed.

(** ** Lemmas: versions *)

Lemma active_index_lt m : versions m <> [] -> getActiveVersionIndex m < length (versions m).
Proof.
  unfold getActiveVersionIndex, in_range. destruct (versions m) as [|v vs]; [done|]. intros _.
  cbn [length]. case_all; bool_to_prop; cbn [length] in *; lia.
Qed.

Lemma current_version_lookup m :
  versions m <> [] -> versions m !! getActiveVersionIndex m = Some (getCurrentVersion m).
Proof.
  intros Hm. unfold getCurrentVersion.
  destruct (lookup_lt_is_Some_2 _ _ (active_index_lt m Hm)) as [v Hv]. by rewrite Hv.
Qed.

Lemma active_index_eq m m' :
  activeVersionIndex m' = activeVersionIndex m -> length (versions m') = length (versions m) ->
  getActiveVersionIndex m' = getActiveVersionIndex m.
Proof.
  unfold getActiveVersionIndex. intros ->. destruct (versions m), (versions m'); cbn [length]; try done.
  by intros ->.
Qed.

(** [versions.map((v, i) => i === idx ? f(v) : v)] *)
Lemma imap_one_lookup (f : MessageVersion -> MessageVersion) idx vs i :
  imap (fun i v => if Nat.eqb i idx then f v else v) vs !! i =
  (if Nat.eqb i idx then f else fun v => v) <$> vs !! i.
Proof. rewrite list_lookup_imap. by destruct (vs !! i); cbn; destruct (Nat.eqb i idx). Qed.

Lemma update_current m c :
  versions m <> [] ->
  v_content (getCurrentVersion (updateCurrentVersionContent m c)) = c /\
  getActiveVersionIndex (updateCurrentVersionContent m c) = getActiveVersionIndex m /\
  length (versions (updateCurrentVersionContent m c)) = length (versions m) /\
  forall i, i <> getActiveVersionIndex m ->
    versions (updateCurrentVersionContent m c) !! i = versions m !! i.
Proof.
  intros Hm.
  assert (Hl : length (versions (updateCurrentVersionContent m c)) = length (versions m))
    by (cbn; apply length_imap).
  assert (Ha : getActiveVersionIndex (updateCurrentVersionContent m c) = getActiveVersionIndex m)
    by by apply active_index_eq.
  split; [|split; [done|split; [done|]]].
  - unfold getCurrentVersion. rewrite Ha. cbn [updateCurrentVersionContent versions set_versions].
    unfold updateCurrentVersionContent. cbn [versions set_versions].
    rewrite imap_one_lookup, Nat.eqb_refl, current_version_lookup by done. done.
  - intros i Hi. unfold updateCurrentVersionContent. cbn [versions set_versions].
    rewrite imap_one_lookup. destruct (Nat.eqb_spec i (getActiveVersionIndex m)); [done|].
    by destruct (versions m !! i).
Qed.

Lemma versions_nonempty_length (m m' : Message) :
  length (versions m') = length (versions m) -> versions m <> [] -> versions m' <> [].
Proof. by destruct (versions m), (versions m'). Qed.

(** ** Lemmas: streaming *)

Definition stream_chunks (m : Message) (chunks : list jsstr) : Message :=
  foldl (fun m c => processStreamingContent m (Some c)) m chunks.

Lemma process_current m c :
  versions m <> [] ->
  v_content (getCurrentVersion (processStreamingContent m (Some c))) = v_content (getCurrentVersion m) ++ c /\
  getActiveVersionIndex (processStreamingContent m (Some c)) = getActiveVersionIndex m /\
  length (versions (processStreamingContent m (Some c))) = length (versions m) /\
  forall i, i <> getActiveVersionIndex m ->
    versions (processStreamingContent m (Some c)) !! i = versions m !! i.
Proof.
  intros Hm. unfold processStreamingContent.
  set (full := if truthy c then _ else _).
  assert (Hf : full = v_content (getCurrentVersion m) ++ c).
  { subst full. destruct c; cbn [truthy]; [by rewrite app_nil_r|done]. }
  rewrite <-Hf. exact (update_current m full Hm).
Qed.

Lemma stream_current chunks : forall m,
  versions m <> [] ->
  v_content (getCurrentVersion (stream_chunks m chunks)) = v_content (getCurrentVersion m) ++ concat chunks /\
  getActiveVersionIndex (stream_chunks m chunks) = getActiveVersionIndex m /\
  length (versions (stream_chunks m chunks)) = length (versions m) /\
  forall i, i <> getActiveVersionIndex m ->
    versions (stream_chunks m chunks) !! i = versions m !! i.
Proof.
  induction chunks as [|c l IH]; intros m Hm; cbn [stream_chunks foldl concat].
  - rewrite app_nil_r. done.
  - destruct (process_current m c Hm) as (H1 & H2 & H3 & H4).
    destruct (IH (processStreamingContent m (Some c))) as (I1 & I2 & I3 & I4);
      [by eapply versions_nonempty_length|].
    unfold stream_chunks in *. rewrite I1, I2, I3, H1, H2, H3, <-app_assoc.
    split; [done|split; [done|split; [done|]]].
    intros i Hi. rewrite I4, H4 by congruence. done.
Qed.

Lemma finalize_imap m r o :
  exists tc re rf fr, versions (finalizeMessage m r o) =
    imap (fun i v => if Nat.eqb i (getActiveVersionIndex m)
                     then mkVersion (v_id v)
                            (visibleContent (parseThinkTags (v_content (getCurrentVersion m))))
                            tc re rf fr
                     else v) (versions m).
Proof. repeat eexists. Qed.

Lemma finalize_versions m r o :
  versions m <> [] ->
  v_content (getCurrentVersion (finalizeMessage m r o)) =
    visibleContent (parseThinkTags (v_content (getCurrentVersion m))) /\
  getActiveVersionIndex (finalizeMessage m r o) = getActiveVersionIndex m /\
  length (versions (finalizeMessage m r o)) = length (versions m) /\
  forall i, i <> getActiveVersionIndex m ->
    versions (finalizeMessage m r o) !! i = versions m !! i.
Proof.
  intros Hm.
  assert (Hl : length (versions (finalizeMessage m r o)) = length (versions m))
    by (apply length_imap).
  assert (Ha : getActiveVersionIndex (finalizeMessage m r o) = getActiveVersionIndex m)
    by by apply active_index_eq.
  split; [|split; [done|split; [done|]]].
  - unfold getCurrentVersion at 1. rewrite Ha.
    destruct (finalize_imap m r o) as (tc & re & rf & fr & ->).
    rewrite list_lookup_imap, current_version_lookup by done. cbn [fmap option_fmap option_map].
    rewrite Nat.eqb_refl. done.
  - intros i Hi. destruct (finalize_imap m r o) as (tc & re & rf & fr & ->). rewrite list_lookup_imap.
    destruct (Nat.eqb_spec i (getActiveVersionIndex m)); [done|]. by destruct (versions m !! i).
Qed.

(** ** Lemmas: updates by key *)

Lemma updateMessageByKey_alt messages k f :
  updateMessageByKey messages k f = messages /\ (forall m, m ∈ messages -> key m <> k) \/
  exists i m, messages !! i = Some m /\ key m = k /\
    (forall j m', j < i -> messages !! j = Some m' -> key m' <> k) /\
    updateMessageByKey messages k f = <[ i := f m ]> messages.
Proof.
  unfold updateMessageByKey. destruct (find_index _ messages) as [i|] eqn:Hi.
  - apply find_index_Some in Hi as (m & Hm & Hk & Hbefore). right. exists i, m.
    apply bool_decide_eq_true in Hk. rewrite Hm. split; [done|split; [done|split; [|done]]].
    intros j m' Hj Hm' Heq. specialize (Hbefore j m' Hj Hm').
    by apply bool_decide_eq_false in Hbefore.
  - left. split; [done|]. intros m Hm Hk. rewrite find_index_None in Hi.
    specialize (Hi m Hm). cbn in Hi. by apply bool_decide_eq_false in Hi.
Qed.

Lemma updateMessageByKey_length messages k f :
  length (updateMessageByKey messages k f) = length messages.
Proof.
  destruct (updateMessageByKey_alt messages k f) as [[-> _]|(i & m & _ & _ & _ & ->)]; [done|].
  apply length_insert.
Qed.

Lemma updateMessageByKey_keys messages k f :
  (forall m, key (f m) = key m) -> map key (updateMessageByKey messages k f) = map key messages.
Proof.
  intros Hf. destruct (updateMessageByKey_alt messages k f) as [[-> _]|(i & m & Hm & _ & _ & ->)]; [done|].
  change (key <$> <[i := f m]> messages = key <$> messages).
  rewrite list_fmap_insert, Hf. apply list_insert_id. by rewrite list_lookup_fmap, Hm.
Qed.

Lemma updateMessageByKey_other messages k f i m :
  messages !! i = Some m -> key m <> k -> updateMessageByKey messages k f !! i = Some m.
Proof.
  intros Hm Hk. destruct (updateMessageByKey_alt messages k f) as [[-> _]|(j & m' & Hm' & Hk' & _ & ->)]; [done|].
  rewrite list_lookup_insert_ne; [done|]. intros ->. congruence.
Qed.

Lemma updateMessageByKey_hit messages k f i m :
  NoDup (map key messages) -> messages !! i = Some m -> key m = k ->
  updateMessageByKey messages k f = <[ i := f m ]> messages.
Proof.
  intros Hnd Hm Hk. destruct (updateMessageByKey_alt messages k f) as [[_ Hno]|(j & m' & Hm' & Hk' & _ & ->)].
  - destruct (Hno m); [by eapply list_elem_of_lookup_2|done].
  - assert (i = j) as ->; [|congruence].
    apply (NoDup_lookup (key <$> messages) i j k); [exact Hnd| |]; rewrite list_lookup_fmap.
    + by rewrite Hm, <-Hk.
    + by rewrite Hm', <-Hk'.
Qed.

(** ** Lemmas: sanitising *)

Lemma sanitize_status m :
  from m = role_assistant -> is_pending (status m) = true ->
  status (sanitize_message m) = Some TRUNCATED \/ status (sanitize_message m) = Some ERROR.
Proof.
  intros Hf Hp. unfold sanitize_message. rewrite bool_decide_eq_true_2, Hp by done. cbn [andb].
  set (b := _ || _). destruct b; [left|right]; reflexivity.
Qed.

Lemma sanitize_message_id m :
  from m <> role_assistant \/ is_pending (status m) = false -> sanitize_message m = m.
Proof.
  intros H. unfold sanitize_message. destruct (bool_decide _) eqn:Hb; cbn [andb]; [|done].
  apply bool_decide_eq_true in Hb. destruct H as [H| ->]; done.
Qed.

Lemma sanitize_frame m :
  key (sanitize_message m) = key m /\ from (sanitize_message m) = from m /\
  length (versions (sanitize_message m)) = length (versions m).
Proof.
  unfold sanitize_message. destruct (_ && _); [|done]. set (b := _ || _).
  split; [|split]; destruct b; try reflexivity.
  - apply length_imap.
  - etrans; [apply length_imap|]. apply length_imap.
Qed.

Lemma sanitize_settles m :
  from (sanitize_message m) = role_assistant -> is_pending (status (sanitize_message m)) = false.
Proof.
  rewrite (proj1 (proj2 (sanitize_frame m))). intros Hf. destruct (is_pending (status m)) eqn:Hp.
  - by destruct (sanitize_status m Hf Hp) as [-> | ->].
  - by rewrite sanitize_message_id by auto.
Qed.

(** ** Theorems *)

(** C31. Every content reads as a sequence of closed
    thinking blocks, a visible tail and possibly an unclosed block, none of
    whose parts hides a tag; the loop ends within its fuel and the parser
    returns the concatenated visible text, the joined reasoning and whether a
    tag is left open. *)
Theorem parseThinkTags_spec content :
  (exists r, think_loop (S (length content)) content 0 [] [] = Some r) /\
  exists d, clean_doc d /\ render_doc d = content /\ parseThinkTags content = doc_outcome d.
Proof.
  destruct (content_doc (length content) content (Nat.le_refl _)) as ([bs t un] & Hd & Hs & Hl).
  split.
  - eexists. rewrite Hs at 2. apply (think_loop_doc bs (length content) [] [] [] t un Hd Hl).
  - exists (mkDoc bs t un). split; [done|split; [done|]]. rewrite Hs. by apply parse_doc.
Qed.

(** Text written with thinking tags is read back: a document whose
    visible parts hold no opening tag and whose reasoning parts hold no closing
    tag parses to its own visible text and reasoning. *)
Theorem parseThinkTags_render d :
  clean_doc d -> parseThinkTags (render_doc d) = doc_outcome d.
Proof. apply parse_doc. Qed.

(** However a reply is cut into chunks, the text shown at the end is
    the visible part of the whole reply, and no other version of the message
    is touched by streaming it. *)
Theorem streamed_content m chunks r o :
  versions m <> [] ->
  let m' := finalizeMessage (stream_chunks m chunks) r o in
  v_content (getCurrentVersion m') =
    visibleContent (parseThinkTags (v_content (getCurrentVersion m) ++ concat chunks)) /\
  length (versions m') = length (versions m) /\
  forall i, i <> getActiveVersionIndex m -> versions m' !! i = versions m !! i.
Proof.
  intros Hm. destruct (stream_current chunks m Hm) as (H1 & H2 & H3 & H4).
  destruct (finalize_versions (stream_chunks m chunks) r o) as (F1 & F2 & F3 & F4);
    [by eapply versions_nonempty_length|].
  cbn zeta. rewrite F1, H1, F3, H3. split; [done|split; [done|]].
  intros i Hi. rewrite F4, H4 by congruence. done.
Qed.

(** Updating the message with a key touches that message and no
    other: the list keeps its length, messages with another key stay where and
    as they are, and the addressed message is replaced by its update. *)
Theorem updateMessageByKey_spec messages k f :
  NoDup (map key messages) ->
  length (updateMessageByKey messages k f) = length messages /\
  forall i m, messages !! i = Some m ->
    updateMessageByKey messages k f !! i = Some (if bool_decide (key m = k) then f m else m).
Proof.
  intros Hnd. split; [apply updateMessageByKey_length|]. intros i m Hm.
  destruct (bool_decide (key m = k)) eqn:Hk.
  - apply bool_decide_eq_true in Hk. rewrite (updateMessageByKey_hit _ _ _ i m) by done.
    rewrite list_lookup_insert_eq; [done|]. by eapply lookup_lt_Some.
  - apply bool_decide_eq_false in Hk. by apply updateMessageByKey_other.
Qed.

(** C35. After loading, no assistant message is left loading or streaming:
    those that were end as truncated or as errors, every other message is
    unchanged, the keys keep their order, and loading twice changes nothing
    more. *)
Theorem sanitize_spec messages :
  map key (sanitizeMessagesOnLoad messages) = map key messages /\
  Forall (fun m => from m = role_assistant -> is_pending (status m) = false)
    (sanitizeMessagesOnLoad messages) /\
  sanitizeMessagesOnLoad (sanitizeMessagesOnLoad messages) = sanitizeMessagesOnLoad messages /\
  (forall i m, messages !! i = Some m ->
     exists m', sanitizeMessagesOnLoad messages !! i = Some m' /\
       if bool_decide (from m = role_assistant) && is_pending (status m)
       then status m' = Some TRUNCATED \/ status m' = Some ERROR else m' = m).
Proof.
  unfold sanitizeMessagesOnLoad. split; [|split; [|split]].
  - rewrite map_map. apply map_ext. intros m. apply sanitize_frame.
  - apply Forall_forall. intros m (m0 & -> & _)%list_elem_of_fmap. apply sanitize_settles.
  - rewrite map_map. apply map_ext. intros m. apply sanitize_message_id.
    destruct (from (sanitize_message m)) eqn:Hf; [by left|right; by apply sanitize_settles|by left..].
  - intros i m Hm. exists (sanitize_message m). split; [by rewrite list_lookup_fmap, Hm|].
    destruct (bool_decide (from m = role_assistant)) eqn:Hb; cbn [andb].
    + apply bool_decide_eq_true in Hb. destruct (is_pending (status m)) eqn:Hp.
      * by apply sanitize_status.
      * apply sanitize_message_id. by right.
    + apply bool_decide_eq_false in Hb. apply sanitize_message_id. by left.
Qed.

(** Regenerating keeps every earlier version of the reply: the new,
    empty version is appended and becomes the active one. *)
Theorem pushAssistantVersion_spec m n :
  let m' := (pushAssistantVersion m n).1 in
  versions m `prefix_of` versions m' /\
  length (versions m') = S (length (versions m)) /\
  getActiveVersionIndex m' = length (versions m) /\
  v_content (getCurrentVersion m') = [] /\ status m' = Some LOADING /\ key m' = key m.
Proof.
  cbn zeta.
  assert (Hv : versions (pushAssistantVersion m n).1 =
    versions m ++ [mkVersion (nanoid_at n) [] None None None Undef]) by reflexivity.
  assert (Ha : activeVersionIndex (pushAssistantVersion m n).1 =
    Some (Z.of_nat (length (versions (pushAssistantVersion m n).1)) - 1)%Z) by reflexivity.
  assert (Hl : length (versions (pushAssistantVersion m n).1) = S (length (versions m)))
    by (rewrite Hv, length_app; cbn; lia).
  assert (Hi : getActiveVersionIndex (pushAssistantVersion m n).1 = length (versions m)).
  { unfold getActiveVersionIndex. rewrite Ha, Hl.
    destruct (versions (pushAssistantVersion m n).1) eqn:He; [done|]. rewrite Hl.
    unfold in_range. case_all; bool_to_prop; lia. }
  split; [rewrite Hv; by eexists|]. split; [done|]. split; [done|]. split; [|done].
  unfold getCurrentVersion. rewrite Hi, Hv, list_lookup_middle by done. done.
Qed.

End messages.

(** ** Examples *)

(** A platform without translations, whose ids are numbered. *)
Definition plain_platform : Platform := {|
  i18n_t := fun s => s;
  nanoid_at := fun n => u "id-" ++ N_to_str (N.of_nat n);
|}.

#[export] Instance plain_platform_laws : PlatformLaws plain_platform.
Proof.
  constructor. intros i j H. apply (app_inv_head (u "id-")), (f_equal digits_val) in H.
  rewrite !N_to_str_val in H. lia.
Qed.

Definition sample_doc : ThinkDoc := mkDoc [(u "A", u "why")] (u "B") (Some (u "more")).

Lemma parseThinkTags_render_witness :
  parseThinkTags (u "A<think>why</think>B<think>more") = mkThink (u "AB") (u "why

more") true.
Proof.
  refine (eq_trans _ (eq_trans (parseThinkTags_render sample_doc _) _)).
  - vm_compute. reflexivity.
  - split; [|split]; [|reflexivity..]. constructor; [split; reflexivity|constructor].
  - vm_compute. reflexivity.
Defined.

Definition sample_reply : Message := (createLoadingAssistantMessage (P := plain_platform) None 0).1.

Lemma streamed_content_witness :
  v_content (getCurrentVersion (finalizeMessage
    (stream_chunks sample_reply [u "<thi"; u "nk>a</think>"; u "b"]) None no_options))
  = u "b".
Proof.
  refine (eq_trans (proj1 (streamed_content sample_reply
                             [u "<thi"; u "nk>a</think>"; u "b"] None no_options _)) _).
  - discriminate.
  - vm_compute. reflexivity.
Defined.

Lemma updateMessageByKey_spec_witness :
  updateMessageByKey [sample_reply] (u "id-0") (set_status (Some ERROR)) !! 0 =
  Some (set_status (Some ERROR) sample_reply).
Proof.
  refine (eq_trans (proj2 (updateMessageByKey_spec [sample_reply] (u "id-0")
                             (set_status (Some ERROR)) _) 0 sample_reply eq_refl) _).
  - apply NoDup_singleton.
  - vm_compute. reflexivity.
Defined.

(** The reasoning shown does depend on how the reply is cut: a
    closing tag cut in two leaves its first half behind as reasoning, because
    an empty reasoning never replaces an earlier one. *)
Theorem reasoning_depends_on_chunking :
  let one := [u "<think></think>Hello"] in
  let two := [u "<think></thi"; u "nk>Hello"] in
  let final := fun chunks => finalizeMessage
    (stream_chunks sample_reply chunks) None no_options in
  concat one = concat two /\ reasoning (final one) = None /\
  reasoning (final two) = Some (mkReasoning (u "</thi") 0).
Proof. vm_compute. done. Qed.

End Messages.
