(* ===== verification/PgStreamParser.v ===== *)
(** * Streamed replies  (web/default/src/features/playground/lib/stream-parser.ts)

    One server-sent event becomes a list of stream events; fragments of tool
    calls are merged per index.  [JSON.parse] returns untyped data that the
    code casts to [ChatCompletionChunk]: [decode_chunk] is the part of that
    type the parser reads, with [null] and an absent property identified (the
    code only tests them with [?.], [??], [!= null] or for truth).  A payload
    whose values do not have the declared types is the outcome [Untyped]; a
    payload [null], on which the first property access throws, is
    [ThrowsTypeError]. *)

From S2P Require Import Prelude JsString JsNumber JsJson PgTypes.

Import Pg.
Open Scope Z_scope.

Module Sse.

(** ** The cast of [JSON.parse] to [ChatCompletionChunk] *)

(** An optional field: absent or [null] is [None]; [None] outside is a value
    that is not of the type. *)
Definition opt_field {A} (dec : json -> option A) (k : jsstr) (j : json) : option (option A) :=
  match json_get k j with
  | None | Some JNull => Some None
  | Some v => Some <$> dec v
  end.

Definition dec_str (j : json) : option jsstr := as_string j.
Definition dec_num (j : json) : option number := match j with JNum n => Some n | _ => None end.

(** Indexes are integers that binary64 represents exactly. *)
Definition dec_index (j : json) : option Z :=
  match j with
  | JNum n => match num_int n with
              | Some z => if Z.abs z <=? 2 ^ 53 then Some z else None
              | None => None
              end
  | _ => None
  end.

Definition dec_obj (j : json) : option json := match j with JObj _ => Some j | _ => None end.

Definition dec_list {A} (dec : json -> option A) (j : json) : option (list A) :=
  match j with JArr l => mapM dec l | _ => None end.

Definition dec_usage (j : json) : option TokenUsage :=
  o ← dec_obj j;
  p ← json_get (u "prompt_tokens") o ≫= dec_num;
  c ← json_get (u "completion_tokens") o ≫= dec_num;
  t ← json_get (u "total_tokens") o ≫= dec_num;
  details ← opt_field dec_obj (u "prompt_tokens_details") o;
  cached ← match details with
           | None => Some None
           | Some d => opt_field dec_num (u "cached_tokens") d
           end;
  Some (mkUsage p c t cached).

(** Without a citation, or with one without a URL, an annotation is dropped by
    every consumer, exactly as one whose URL is empty. *)
Definition dec_annotation (j : json) : option UrlCitationAnnotation :=
  o ← dec_obj j;
  ty ← json_get (u "type") o ≫= dec_str;
  citation ← opt_field dec_obj (u "url_citation") o;
  match citation with
  | None => Some (mkAnnotation ty [] None)
  | Some c =>
      url ← opt_field dec_str (u "url") c;
      ti ← opt_field dec_str (u "title") c;
      Some (mkAnnotation ty (url ?? []) ti)
  end.

Definition dec_tool_delta (j : json) : option ToolCallDelta :=
  o ← dec_obj j;
  i ← opt_field dec_index (u "index") o;
  id ← opt_field dec_str (u "id") o;
  fn ← opt_field dec_obj (u "function") o;
  match fn with
  | None => Some (mkDelta i id None None)
  | Some f =>
      n ← opt_field dec_str (u "name") f;
      a ← opt_field dec_str (u "arguments") f;
      Some (mkDelta i id n a)
  end.

Definition dec_delta (j : json) : option ChunkDelta :=
  o ← dec_obj j;
  c ← opt_field dec_str (u "content") o;
  r ← opt_field dec_str (u "reasoning_content") o;
  f ← opt_field dec_str (u "refusal") o;
  a ← opt_field (dec_list dec_annotation) (u "annotations") o;
  t ← opt_field (dec_list dec_tool_delta) (u "tool_calls") o;
  Some (mkChunkDelta c r f a t).

Definition dec_choice (j : json) : option ChunkChoice :=
  o ← dec_obj j;
  d ← opt_field dec_delta (u "delta") o;
  f ← opt_field dec_str (u "finish_reason") o;
  Some (mkChoice d (match f with Some s => Val s | None => Undef end)).

(** Only the first choice is read; [null] there is no choice at all. *)
Definition dec_choices (j : json) : option (list ChunkChoice) :=
  match j with
  | JArr [] | JArr (JNull :: _) => Some []
  | JArr (c :: _) => c' ← dec_choice c; Some [c']
  | _ => None
  end.

Definition decode_chunk (j : json) : option ChatCompletionChunk :=
  us ← opt_field dec_usage (u "usage") j;
  ch ← opt_field dec_choices (u "choices") j;
  Some (mkChunk ch us).

(** ** Events *)

Record ToolCallEvent := mkToolEvent {
  te_index : Z;
  te_id : option jsstr;
  te_name : option jsstr;
  te_arguments : option jsstr;
}.

Inductive ParsedStreamEvent :=
| EvDone
| EvContent (text : jsstr)
| EvReasoning (text : jsstr)
| EvRefusal (text : jsstr)
| EvAnnotations (annotations : list UrlCitationAnnotation)
| EvUsage (usage : TokenUsage)
| EvFinish (finishReason : jsstr)
| EvToolCall (event : ToolCallEvent)
| EvParseError (raw : jsstr).

Definition tool_event (tc : ToolCallDelta) : ParsedStreamEvent :=
  EvToolCall (mkToolEvent (d_index tc ?? 0) (d_id tc) (d_name tc) (d_arguments tc)).

(** [if (x) events.push(ev(x))] on a string *)
Definition push_text (ev : jsstr -> ParsedStreamEvent) (x : option jsstr) : list ParsedStreamEvent :=
  match x with
  | Some s => if truthy s then [ev s] else []
  | None => []
  end.

Definition delta_events (delta : ChunkDelta) : list ParsedStreamEvent :=
  push_text EvReasoning (cd_reasoning_content delta) ++
  push_text EvContent (cd_content delta) ++
  push_text EvRefusal (cd_refusal delta) ++
  match cd_annotations delta with
  | Some ((_ :: _) as l) => [EvAnnotations l]
  | _ => []
  end ++
  match cd_tool_calls delta with
  | Some l => map tool_event l
  | None => []
  end.

Definition choice_events (choice : ChunkChoice) : list ParsedStreamEvent :=
  match ch_finish_reason choice with Val r => [EvFinish r] | _ => [] end ++
  match ch_delta choice with Some d => delta_events d | None => [] end.

Definition chunk_events (chunk : ChatCompletionChunk) : list ParsedStreamEvent :=
  match ck_usage chunk with Some us => [EvUsage us] | None => [] end ++
  match ck_choices chunk with Some (c :: _) => choice_events c | _ => [] end.

Inductive SseResult :=
| Events (l : list ParsedStreamEvent)
| ThrowsTypeError
| Untyped.

Definition parseSseData (data : jsstr) : SseResult :=
  if bool_decide (data = u "[DONE]") then Events [EvDone]
  else match JSON_parse data with
       | None => Events [EvParseError data]
       | Some JNull => ThrowsTypeError
       | Some j => match decode_chunk j with
                   | Some chunk => Events (chunk_events chunk)
                   | None => Untyped
                   end
       end.

(** ** Tool calls *)

(** A JavaScript [Map] from the index to the call assembled so far. *)
Definition ToolCallAccumulator := list (Z * ToolCall).

Definition or_opt (a : option jsstr) (b : jsstr) : jsstr := or_str (a ?? []) b.

Definition applyToolCallDelta (acc : ToolCallAccumulator) (event : ToolCallEvent)
  : ToolCallAccumulator :=
  match map_get (te_index event) acc with
  | None =>
      map_set (te_index event)
        (mkToolCall (or_opt (te_id event) (u "call_" ++ Z_to_str (te_index event)))
           (mkFn (or_opt (te_name event) []) (or_opt (te_arguments event) []))) acc
  | Some existing =>
      let id' := if truthy_opt (te_id event) then te_id event ?? [] else tc_id existing in
      let name' := if truthy_opt (te_name event)
                   then or_str (fn_name (tc_function existing)) [] ++ (te_name event ?? [])
                   else fn_name (tc_function existing) in
      let arguments' := if truthy_opt (te_arguments event)
                        then or_str (fn_arguments (tc_function existing)) [] ++ (te_arguments event ?? [])
                        else fn_arguments (tc_function existing) in
      map_set (te_index event) (mkToolCall id' (mkFn name' arguments')) acc
  end.

Definition index_order (a b : Z * ToolCall) : Z := a.1 - b.1.

Definition finalizeToolCalls (acc : ToolCallAccumulator) : list ToolCall :=
  map (fun '(_, tc) => mkToolCall (tc_id tc) (mkFn (fn_name (tc_function tc)) (fn_arguments (tc_function tc))))
    (js_sort index_order acc).

(** ** Specification of the assembled calls *)

Definition deltas_at (i : Z) (ds : list ToolCallEvent) : list ToolCallEvent :=
  bfilter (fun d => te_index d =? i) ds.

(** The last non-empty id, the concatenated names and arguments. *)
Definition assembled (i : Z) (ds : list ToolCallEvent) : ToolCall :=
  mkToolCall (foldl (fun acc d => or_opt (te_id d) acc) (u "call_" ++ Z_to_str i) (deltas_at i ds))
    (mkFn (concat (map (fun d => te_name d ?? []) (deltas_at i ds)))
          (concat (map (fun d => te_arguments d ?? []) (deltas_at i ds)))).

Definition assemble (ds : list ToolCallEvent) : ToolCallAccumulator :=
  foldl applyToolCallDelta [] ds.

(** ** Lemmas *)

Lemma deltas_at_snoc i ds d :
  deltas_at i (ds ++ [d]) = deltas_at i ds ++ (if te_index d =? i then [d] else []).
Proof. unfold deltas_at. rewrite List.filter_app. cbn. by destruct (te_index d =? i). Qed.

Lemma or_opt_if a b : (if truthy_opt a then a ?? [] else b) = or_opt a b.
Proof. by destruct a as [[|]|]. Qed.

Lemma append_if s a : (if truthy_opt a then or_str s [] ++ (a ?? []) else s) = s ++ (a ?? []).
Proof. destruct a as [[|c a]|], s; cbn; by rewrite ?app_nil_r. Qed.

Lemma or_opt_nil a : or_opt a [] = a ?? [].
Proof. by destruct a as [[|]|]. Qed.

Lemma assembled_snoc i ds d :
  te_index d = i ->
  assembled i (ds ++ [d]) =
  mkToolCall (or_opt (te_id d) (tc_id (assembled i ds)))
    (mkFn (fn_name (tc_function (assembled i ds)) ++ (te_name d ?? []))
          (fn_arguments (tc_function (assembled i ds)) ++ (te_arguments d ?? []))).
Proof.
  intros <-. unfold assembled. rewrite deltas_at_snoc, Z.eqb_refl.
  cbn [tc_id tc_function fn_name fn_arguments].
  rewrite foldl_app, !map_app, !concat_app. cbn [foldl map concat]. by rewrite !app_nil_r.
Qed.

Lemma assembled_skip i ds d : te_index d <> i -> assembled i (ds ++ [d]) = assembled i ds.
Proof.
  intros H. unfold assembled. rewrite deltas_at_snoc.
  destruct (Z.eqb_spec (te_index d) i); [done|]. by rewrite app_nil_r.
Qed.

Lemma assemble_get i ds :
  map_get i (assemble ds) = match deltas_at i ds with [] => None | _ => Some (assembled i ds) end.
Proof.
  induction ds as [|d ds IH] using rev_ind; [done|].
  unfold assemble in *. rewrite foldl_app. cbn [foldl]. rewrite deltas_at_snoc.
  unfold applyToolCallDelta at 1. destruct (Z.eqb_spec (te_index d) i) as [<-|Hne].
  - rewrite IH, assembled_snoc by done.
    destruct (deltas_at (te_index d) ds) eqn:Hd; cbn zeta; rewrite map_get_set_eq; cbn [app].
    + f_equal. unfold assembled. rewrite Hd. cbn [foldl map concat tc_id tc_function fn_name fn_arguments app].
      by rewrite !or_opt_nil.
    + by rewrite or_opt_if, !append_if.
  - rewrite app_nil_r, assembled_skip by done.
    destruct (map_get (te_index d) _); rewrite map_get_set_ne by done; exact IH.
Qed.

Lemma assemble_NoDup ds : NoDup (assemble ds).*1.
Proof.
  unfold assemble. induction ds as [|d ds IH] using rev_ind; [apply NoDup_nil_2|].
  rewrite foldl_app. cbn [foldl]. unfold applyToolCallDelta.
  destruct (map_get _ _); by apply map_set_NoDup.
Qed.

#[export] Instance index_order_sorts : SortsBy index_order (fun a b => a.1 <= b.1).
Proof. split; unfold index_order; [intros x y z; lia|intros x y; lia..]. Qed.

Lemma deltas_at_elem i ds : deltas_at i ds <> [] <-> i ∈ map te_index ds.
Proof.
  unfold deltas_at. induction ds as [|d ds IH]; cbn [List.filter map].
  - split; [done|set_solver].
  - destruct (Z.eqb_spec (te_index d) i) as [->|Hne].
    + split; [intros _; by left|done].
    + rewrite IH. split; [by right|]. intros [?|?]%elem_of_cons; [by subst|done].
Qed.

Lemma assemble_elem i tc ds :
  (i, tc) ∈ assemble ds <-> i ∈ map te_index ds /\ tc = assembled i ds.
Proof.
  rewrite map_get_elem by apply assemble_NoDup. rewrite assemble_get, <-deltas_at_elem.
  destruct (deltas_at i ds); split; try done; [by intros [? _]|by intros [= <-]|by intros [_ ->]].
Qed.

Lemma sorted_strict (l : list (Z * ToolCall)) :
  StronglySorted (fun a b => a.1 <= b.1) l -> NoDup l.*1 -> StronglySorted Z.lt l.*1.
Proof.
  induction 1 as [|[i tc] l Hl IH Hx]; cbn; [constructor|]. rewrite NoDup_cons. intros [Hn Hd].
  constructor; [by apply IH|]. apply List.Forall_forall. intros j Hj%list_elem_of_In.
  apply list_elem_of_fmap in Hj as ([j' tc'] & -> & Hj). cbn.
  pose proof (proj1 (Forall_forall _ _) Hx _ Hj) as Hle. cbn in Hle.
  assert (i <> j'); [|lia]. intros ->. apply Hn. apply list_elem_of_fmap. by exists (j', tc').
Qed.

Lemma toolcall_eta tc :
  mkToolCall (tc_id tc) (mkFn (fn_name (tc_function tc)) (fn_arguments (tc_function tc))) = tc.
Proof. by destruct tc as [? []]. Qed.

Lemma sorted_lt_unique (l k : list Z) :
  StronglySorted Z.lt l -> StronglySorted Z.lt k -> (forall i, i ∈ l <-> i ∈ k) -> l = k.
Proof.
  intros Hl. revert k. induction Hl as [|x l Hl IH Hx]; intros k Hk Heq.
  - destruct k as [|y k]; [done|]. specialize (Heq y). set_solver.
  - destruct Hk as [|y k Hk Hy]; [specialize (Heq x); set_solver|].
    assert (Hlt : forall i, i ∈ l -> x < i) by (apply Forall_forall; exact Hx).
    assert (Hlt' : forall i, i ∈ k -> y < i) by (apply Forall_forall; exact Hy).
    assert (x = y) as ->.
    { pose proof (proj1 (Heq x) ltac:(by left)) as [->|H1]%elem_of_cons; [done|].
      pose proof (proj2 (Heq y) ltac:(by left)) as [->|H2]%elem_of_cons; [done|].
      specialize (Hlt _ H2). specialize (Hlt' _ H1). lia. }
    f_equal. apply IH; [done|]. intros i. specialize (Heq i). rewrite !elem_of_cons in Heq.
    split; intros Hi.
    + destruct (proj1 Heq (or_intror Hi)) as [->|]; [|done]. specialize (Hlt _ Hi). lia.
    + destruct (proj2 Heq (or_intror Hi)) as [->|]; [|done]. specialize (Hlt' _ Hi). lia.
Qed.

Lemma finalize_assemble ds : exists idxs,
  StronglySorted Z.lt idxs /\ (forall i, i ∈ idxs <-> i ∈ map te_index ds) /\
  finalizeToolCalls (assemble ds) = map (fun i => assembled i ds) idxs.
Proof.
  set (l := js_sort index_order (assemble ds)).
  assert (Hp : l ≡ₚ assemble ds) by apply js_sort_perm.
  exists l.*1. split; [|split].
  - apply sorted_strict; [apply js_sort_sorted, _|].
    rewrite (fmap_Permutation fst _ _ Hp). apply assemble_NoDup.
  - intros i. rewrite list_elem_of_fmap. split.
    + intros ([j tc] & -> & Hin). rewrite Hp, assemble_elem in Hin. apply Hin.
    + intros Hi. exists (i, assembled i ds). split; [done|]. by rewrite Hp, assemble_elem.
  - unfold finalizeToolCalls. fold l. rewrite (map_map fst (fun i => assembled i ds)). apply map_ext_in.
    intros [i tc] Hin%list_elem_of_In. rewrite Hp, assemble_elem in Hin. rewrite toolcall_eta. apply Hin.
Qed.

Definition is_parse_error (e : ParsedStreamEvent) : bool :=
  match e with EvParseError _ => true | _ => false end.

Lemma delta_events_no_error d : Forall (fun e => is_parse_error e = false) (delta_events d).
Proof.
  unfold delta_events, push_text. repeat apply Forall_app_2.
  1-4: repeat case_match; repeat constructor.
  destruct (cd_tool_calls d); [|constructor]. apply Forall_map, Forall_forall. done.
Qed.

Lemma chunk_events_no_error chunk : Forall (fun e => is_parse_error e = false) (chunk_events chunk).
Proof.
  unfold chunk_events, choice_events. apply Forall_app_2; [case_match; repeat constructor|].
  destruct (ck_choices chunk) as [[|c l]|]; [constructor| |constructor].
  apply Forall_app_2; [case_match; repeat constructor|].
  destruct (ch_delta c); [apply delta_events_no_error|constructor].
Qed.

(** ** Theorems *)

(** C32. Tool calls are reassembled from their fragments: one call per
    index that occurs, in increasing order of index, with the last non-empty
    id (or a generated one) and the concatenation, in arrival order, of the
    name and argument fragments of that index. *)
Theorem finalizeToolCalls_spec ds :
  exists idxs, StronglySorted Z.lt idxs /\ (forall i, i ∈ idxs <-> i ∈ map te_index ds) /\
    finalizeToolCalls (assemble ds) = map (fun i => assembled i ds) idxs.
Proof. apply finalize_assemble. Qed.

(** Interleaving does not matter: two streams that deliver the same
    fragments in the same order for each index assemble the same calls. *)
Theorem tool_calls_interleaving ds ds' :
  (forall i, deltas_at i ds = deltas_at i ds') ->
  finalizeToolCalls (assemble ds) = finalizeToolCalls (assemble ds').
Proof.
  intros Heq. destruct (finalize_assemble ds) as (l & Hl & Hle & ->).
  destruct (finalize_assemble ds') as (k & Hk & Hke & ->).
  assert (l = k) as ->.
  { apply sorted_lt_unique; [done..|]. intros i. rewrite Hle, Hke, <-!deltas_at_elem. by rewrite Heq. }
  apply map_ext. intros i. unfold assembled. by rewrite Heq.
Qed.

Definition fragment (i : Z) (name arguments : jsstr) : ToolCallEvent :=
  mkToolEvent i None (Some name) (Some arguments).

Definition fragments_interleaved : list ToolCallEvent :=
  [fragment 1 (u "g") (u "{"); fragment 0 (u "f") (u "[1"); fragment 1 [] (u "}"); fragment 0 [] (u "]")].

Definition fragments_in_order : list ToolCallEvent :=
  [fragment 0 (u "f") (u "[1"); fragment 0 [] (u "]"); fragment 1 (u "g") (u "{"); fragment 1 [] (u "}")].

Lemma tool_calls_interleaving_witness :
  finalizeToolCalls (assemble fragments_interleaved) =
  [mkToolCall (u "call_0") (mkFn (u "f") (u "[1]")); mkToolCall (u "call_1") (mkFn (u "g") (u "{}"))].
Proof.
  refine (eq_trans (tool_calls_interleaving fragments_interleaved fragments_in_order _) _).
  - intros i. unfold deltas_at. cbn -[Z.eqb].
    destruct (Z.eqb_spec 0 i), (Z.eqb_spec 1 i); subst; reflexivity || lia.
  - vm_compute. reflexivity.
Defined.

(** A payload is reported as a parse error exactly when it is neither
    the end marker nor JSON, and the error carries the payload. *)
Theorem parse_error_iff data raw :
  parseSseData data = Events [EvParseError raw] <->
  data <> u "[DONE]" /\ JSON_parse data = None /\ raw = data.
Proof.
  unfold parseSseData. destruct (bool_decide (data = u "[DONE]")) eqn:Hd.
  - apply bool_decide_eq_true in Hd. split; [discriminate|]. intros [? _]. contradiction.
  - apply bool_decide_eq_false in Hd. destruct (JSON_parse data) as [j|].
    + split; [|intros (_ & ? & _); discriminate]. intros H. exfalso.
      assert (exists c, chunk_events c = [EvParseError raw]) as [c Hc].
      { destruct j; try discriminate H;
          (destruct (decode_chunk _) as [c|]; [|discriminate H]; exists c; congruence). }
      pose proof (chunk_events_no_error c) as Hf. rewrite Hc in Hf. inversion Hf. discriminate.
    + split; [intros [= <-]; done|intros (_ & _ & ->); done].
Qed.

(** Against its documentation, the parser can return no event at
    all, and it throws on the payload [null]. *)
Theorem parse_sse_edge_cases :
  parseSseData (u "{}") = Events [] /\ parseSseData (u "null") = ThrowsTypeError.
Proof. vm_compute. done. Qed.

(** A chunk with content, reasoning and a finish reason. *)
Example parse_chunk :
  parseSseData (uj "{'choices':[{'index':0,'delta':{'content':'hello','reasoning_content':'think'},'finish_reason':'stop'}]}")
  = Events [EvFinish (u "stop"); EvReasoning (u "think"); EvContent (u "hello")].
Proof. vm_compute. reflexivity. Qed.

End Sse.
