(* ===== verification/PgPayload.v ===== *)
(** * Requests  (web/default/src/features/playground/lib/payload-builder.ts)

    The set of models a prompt is sent to, the part of the conversation each
    of them sees, and the request body. *)

From S2P Require Import Prelude JsString JsNumber JsJson PgTypes PgMessages.

Import Pg Messages.
Open Scope nat_scope.

Module Payload.

Definition getActiveModels (config : PlaygroundConfig) : list jsstr :=
  js_set (bfilter truthy (map trim (c_model config :: compareModels config))).

Definition selects (targetModel : jsstr) (m : Message) : bool :=
  if negb (bool_decide (from m = role_assistant)) then true
  else bool_decide (model m = None) || bool_decide (model m = Some targetModel).

Definition selectModelHistory (messages : list Message) (targetModel : jsstr) : list Message :=
  bfilter (selects targetModel) messages.

Record BuildPayloadOptions := mkBuild {
  bo_model : jsstr;
  scopeHistoryToModel : option bool;
}.

Definition scoped_messages (messages : list Message) (options : option BuildPayloadOptions)
  : list Message :=
  match options with
  | Some o =>
      if (scopeHistoryToModel o ?? false) && truthy (bo_model o)
      then selectModelHistory messages (bo_model o) else messages
  | None => messages
  end.

(** [if (enabled) payload[key] = value], for a defined [value] *)
Definition when {A} (b : bool) (v : option A) : option A := if b then v else None.

Definition named_tools (ts : list PlaygroundToolDefinition) : list PlaygroundToolDefinition :=
  bfilter (fun t => truthy (trim (tool_name t))) ts.

Definition buildChatCompletionPayload (messages : list Message) (config : PlaygroundConfig)
    (parameterEnabled : ParameterEnabled) (options : option BuildPayloadOptions)
  : ChatCompletionRequest :=
  let targetModel := (bo_model <$> options) ?? c_model config in
  let scoped := scoped_messages messages options in
  let processedMessages := map formatMessageForAPI (bfilter isValidMessage scoped) in
  let systemPrompt := trim (systemPrompt config) in
  let apiMessages :=
    if truthy systemPrompt
    then mkChatMsg role_system (ContentString systemPrompt) None None None :: processedMessages
    else processedMessages in
  let use_budget := num_truthy (reasoningMaxTokens config) &&
                    num_gt (reasoningMaxTokens config) (num_of_Z 0) in
  let reasons := negb (bool_decide (reasoningEffort config = effort_off)) in
  let tls := named_tools (tools config) in
  {| rq_model := targetModel;
     rq_group := c_group config;
     rq_messages := apiMessages;
     rq_stream := stream config;
     rq_include_usage := when (stream config) (Some true);
     rq_temperature := when (en_temperature parameterEnabled) (Some (temperature config));
     rq_top_p := when (en_top_p parameterEnabled) (Some (top_p config));
     rq_max_tokens := when (en_max_tokens parameterEnabled) (Some (max_tokens config));
     rq_frequency_penalty := when (en_frequency_penalty parameterEnabled) (Some (frequency_penalty config));
     rq_presence_penalty := when (en_presence_penalty parameterEnabled) (Some (presence_penalty config));
     rq_seed := when (en_seed parameterEnabled) (seed config);
     rq_reasoning_effort := when (reasons && negb use_budget) (Some (reasoningEffort config));
     rq_reasoning :=
       when reasons
         (Some (if use_budget then mkControl (Some (reasoningMaxTokens config)) None
                else mkControl None (Some (reasoningEffort config))));
     rq_web_search := webSearch config;
     rq_tools := if truthy_list tls then Some tls else None;
     rq_tool_choice := if truthy_list tls then Some (toolChoice config) else None;
     rq_response_format :=
       match responseFormat config with format_text => None | f => Some f end |}.

(** ** Lemmas *)

Lemma active_models_elem config s :
  s ∈ getActiveModels config <->
  s <> [] /\ exists m, m ∈ c_model config :: compareModels config /\ s = trim m.
Proof.
  unfold getActiveModels. rewrite elem_of_js_set, elem_of_bfilter, list_elem_of_fmap.
  destruct s; cbn; naive_solver.
Qed.

Lemma scoped_sublist messages options : scoped_messages messages options `sublist_of` messages.
Proof.
  unfold scoped_messages, selectModelHistory. case_all; try done. apply bfilter_sublist.
Qed.

Lemma format_role m : cm_role (formatMessageForAPI m) = from m.
Proof. unfold formatMessageForAPI. destruct (from m); try done. by repeat case_match. Qed.

Lemma valid_not_pending m : isValidMessage m = true -> is_pending (status m) = false.
Proof. unfold isValidMessage. by destruct (negb _), (is_pending _). Qed.

Lemma valid_reply m :
  isValidMessage m = true -> from m = role_assistant ->
  trim (v_content (getCurrentVersion m)) <> [] \/ truthy_opt (refusal m) = true \/
  exists c l, nonempty_or (v_toolCalls (getCurrentVersion m)) (toolCalls m) = Some (c :: l).
Proof.
  unfold isValidMessage. intros Hv Hf. rewrite Hf in Hv. destruct (negb (truthy_list _)); [done|]. destruct (is_pending _); [done|].
  destruct (nonempty_or _ _) as [[|c l]|]; [|by do 2 right; eauto|];
    (destruct (truthy_opt (refusal m)); [by right; left|]); left; by destruct (trim _).
Qed.

Lemma valid_tool_id m :
  isValidMessage m = true -> from m = role_tool ->
  exists id, cm_tool_call_id (formatMessageForAPI m) = Some id /\ id <> [].
Proof.
  unfold isValidMessage, formatMessageForAPI. intros Hv Hf. rewrite Hf in Hv |- *.
  destruct (negb _); [done|]. destruct (is_pending _); [done|].
  destruct (toolCallId m) as [id|]; [|done]. exists id. split; [done|]. by destruct id.
Qed.

(** ** Theorems *)

(** C33. A request carries, after the trimmed system prompt if there is
    one, messages of the conversation in their order.  None of them is still
    being generated; a reply is among them only with a text that is not blank, a
    refusal or tool calls; a scoped request shows a model no reply of another
    model; every tool result names the call it answers.  Every settled user
    message is sent, an empty one too, although the comment on [isValidMessage]
    says that empty content is excluded. *)
Theorem payload_messages_spec messages config en options :
  exists kept, kept `sublist_of` messages /\
    rq_messages (buildChatCompletionPayload messages config en options) =
      (if truthy (trim (systemPrompt config))
       then [mkChatMsg role_system (ContentString (trim (systemPrompt config))) None None None]
       else []) ++ map formatMessageForAPI kept /\
    (forall m, m ∈ kept -> is_pending (status m) = false /\
       (from m = role_tool -> exists id, cm_tool_call_id (formatMessageForAPI m) = Some id /\ id <> []) /\
       (from m = role_assistant -> trim (v_content (getCurrentVersion m)) <> [] \/ truthy_opt (refusal m) = true \/
          exists c l, nonempty_or (v_toolCalls (getCurrentVersion m)) (toolCalls m) = Some (c :: l)) /\
       forall tgt, options = Some (mkBuild tgt (Some true)) -> tgt <> [] ->
         from m = role_assistant -> model m = None \/ model m = Some tgt) /\
    (forall m, m ∈ messages -> from m = role_user -> versions m <> [] ->
       is_pending (status m) = false -> m ∈ kept).
Proof.
  exists (bfilter isValidMessage (scoped_messages messages options)). split; [|split; [|split]].
  - etrans; [apply bfilter_sublist|apply scoped_sublist].
  - cbn [rq_messages buildChatCompletionPayload].
    by destruct (truthy (trim (systemPrompt config))).
  - intros m [Hin Hv]%elem_of_bfilter. split; [by apply valid_not_pending|].
    split; [by apply valid_tool_id|]. split; [by apply valid_reply|]. intros tgt -> Hne Hf. cbn in Hin.
    destruct tgt as [|c tgt]; [done|]. cbn in Hin.
    apply elem_of_bfilter in Hin as [_ Hs]. unfold selects in Hs. rewrite Hf in Hs. cbn in Hs.
    apply orb_true_iff in Hs as [Hs|Hs]; apply bool_decide_eq_true in Hs; auto.
  - intros m Hin Hf Hvs Hp. apply elem_of_bfilter. split.
    + unfold scoped_messages, selectModelHistory. case_all; try done.
      apply elem_of_bfilter. split; [done|]. unfold selects. by rewrite Hf.
    + unfold isValidMessage. rewrite Hf, Hp. by destruct (versions m).
Qed.

(** A prompt goes to distinct, trimmed, non-empty model names: each
    configured model once, the primary one first. *)
Theorem getActiveModels_spec config :
  NoDup (getActiveModels config) /\
  (forall s, s ∈ getActiveModels config <->
     s <> [] /\ exists m, m ∈ c_model config :: compareModels config /\ s = trim m) /\
  (trim (c_model config) <> [] -> head (getActiveModels config) = Some (trim (c_model config))).
Proof.
  split; [apply js_set_NoDup|split; [apply active_models_elem|]]. intros Hne.
  unfold getActiveModels. cbn [map]. set (rest := map trim (compareModels config)).
  destruct (trim (c_model config)) as [|c t] eqn:Ht; [done|]. cbn [bfilter List.filter truthy].
  generalize (List.filter truthy rest) as l. intros l. unfold js_set. cbn [foldl].
  change (set_add [] (c :: t)) with [c :: t].
  assert (Hf : forall acc, head acc = Some (c :: t) -> head (foldl set_add acc l) = Some (c :: t)).
  { induction l as [|x l IH]; intros acc Ha; [done|]. cbn [foldl]. apply IH.
    unfold set_add. case_match; [done|]. by destruct acc. }
  by apply Hf.
Qed.

(** Against its comment, the set of active models can be empty: when
    the primary model is blank and no other model is chosen. *)
Theorem active_models_can_be_empty :
  exists config, getActiveModels config = [].
Proof.
  exists (mkConfig [] (u " ") [] DEFAULT_GROUP (num_of_Z 0) (num_of_Z 0) (num_of_Z 0) (num_of_Z 0)
    (num_of_Z 0) None true effort_off (num_of_Z 0) false [] choice_auto format_text).
  vm_compute. reflexivity.
Qed.

(** Optional parameters are sent only when enabled, and reasoning is
    controlled either by a positive token budget or by an effort level, never
    by both. *)
Theorem payload_parameters_spec messages config en options :
  let p := buildChatCompletionPayload messages config en options in
  (rq_temperature p = if en_temperature en then Some (temperature config) else None) /\
  (rq_top_p p = if en_top_p en then Some (top_p config) else None) /\
  (rq_max_tokens p = if en_max_tokens en then Some (max_tokens config) else None) /\
  (rq_seed p = if en_seed en then seed config else None) /\
  (reasoningEffort config = effort_off -> rq_reasoning p = None /\ rq_reasoning_effort p = None) /\
  (forall rc b, rq_reasoning p = Some rc -> rc_max_tokens rc = Some b ->
     num_gt b (num_of_Z 0) = true /\ rc_effort rc = None /\ rq_reasoning_effort p = None) /\
  (rq_tool_choice p = None <-> rq_tools p = None).
Proof.
  cbn zeta. unfold buildChatCompletionPayload, when.
  cbn [rq_temperature rq_top_p rq_max_tokens rq_seed rq_reasoning rq_reasoning_effort rq_tools rq_tool_choice].
  split; [done|]. split; [done|]. split; [done|]. split; [done|]. split.
  { intros ->. done. }
  split.
  - destruct (bool_decide _); cbn [negb andb]; [done|].
    destruct (num_truthy (reasoningMaxTokens config) && _) eqn:Hg; cbn [negb];
      intros rc b [= <-]; cbn [rc_max_tokens rc_effort]; [|discriminate].
    intros [= <-]. apply andb_true_iff in Hg as [_ Hg]. done.
  - by destruct (truthy_list _).
Qed.

End Payload.
