(* ===== verification/PgStorage.v ===== *)
(** * Playground storage, state and export
    (web/default/src/features/playground/lib/storage.ts, lib/export.ts and
    hooks/use-playground-state.ts)

    The browser keeps the configuration, the enabled parameters and the
    messages of the playground as JSON texts.  A configuration is the object it
    is in the code; [setItem] may be refused (a full or a disabled storage), and
    the code then keeps the old text.  Messages are read through [PgCodec]. *)

From S2P Require Import Prelude JsString JsNumber JsJson JsRegex JsExpr JsPrint PgTypes PgCodec PgMessages PgPayload.

Import Print Pg Codec Messages Payload.
Open Scope Z_scope.

Module Storage.

Abbreviation obj := (list (jsstr * json)).

(** ** localStorage *)

Definition storage : Type := list (jsstr * jsstr).

Definition getItem (k : jsstr) (st : storage) : option jsstr := map_get k st.
Definition removeItem (k : jsstr) (st : storage) : storage := map_delete k st.

Definition KEY_CONFIG : jsstr := u "playground_config_v2".
Definition KEY_MESSAGES : jsstr := u "playground_messages_v2".
Definition KEY_PARAMETER_ENABLED : jsstr := u "playground_parameter_enabled_v2".
Definition KEY_ACTIVE_CONVERSATION_ID : jsstr := u "playground_active_conversation_id".
Definition KEY_LEGACY_CONFIG : jsstr := u "playground_config".
Definition KEY_LEGACY_MESSAGES : jsstr := u "playground_messages".
Definition KEY_LEGACY_PARAMETER_ENABLED : jsstr := u "playground_parameter_enabled".

(** [getItem(a) || getItem(b)], when it is truthy *)
Definition saved_text (a b : jsstr) (st : storage) : option jsstr :=
  let or_none s := match s with Some t => if truthy t then Some t else None | None => None end in
  match or_none (getItem a st) with Some t => Some t | None => or_none (getItem b st) end.

(** ** Defaults as objects *)

Definition DEFAULT_CONFIG_obj : obj :=
  [(u "systemPrompt", JStr []); (u "model", JStr (u "gpt-4o")); (u "compareModels", JArr []); (u "group", JStr DEFAULT_GROUP);
   (u "temperature", JNum (num_of_decimal 7 (-1))); (u "top_p", JNum (num_of_Z 1)); (u "max_tokens", JNum (num_of_Z 4096));
   (u "frequency_penalty", JNum (num_of_Z 0)); (u "presence_penalty", JNum (num_of_Z 0)); (u "seed", JNull); (u "stream", JBool true);
   (u "reasoningEffort", JStr (u "off")); (u "reasoningMaxTokens", JNum (num_of_Z 0)); (u "webSearch", JBool false); (u "tools", JArr []);
   (u "toolChoice", JStr (u "auto")); (u "responseFormat", JObj [(u "type", JStr (u "text"))])].

Definition DEFAULT_PARAMETER_ENABLED_obj : obj :=
  [(u "temperature", JBool true); (u "top_p", JBool true); (u "max_tokens", JBool false); (u "frequency_penalty", JBool true);
   (u "presence_penalty", JBool true); (u "seed", JBool false)].

(** ** Loading and saving *)

(** The fields that are replaced when they are [null]. *)
Definition required_fields : obj :=
  [(u "tools", JArr []); (u "toolChoice", JStr (u "auto")); (u "responseFormat", JObj [(u "type", JStr (u "text"))]); (u "compareModels", JArr [])].

(** Reading [parsed.tools] throws for [null], and the empty object is returned. *)
Definition loadConfig (st : storage) : obj :=
  match saved_text KEY_CONFIG KEY_LEGACY_CONFIG st with
  | None => []
  | Some s =>
      match JSON_parse s with
      | None | Some JNull => []
      | Some parsed =>
          foldl (fun o kv => map_set kv.1 (nullish_json (json_get kv.1 parsed) kv.2) o) (spread_into DEFAULT_CONFIG_obj parsed) required_fields
      end
  end.

Definition loadParameterEnabled (st : storage) : obj :=
  match saved_text KEY_PARAMETER_ENABLED KEY_LEGACY_PARAMETER_ENABLED st with
  | None => []
  | Some s => match JSON_parse s with None => [] | Some parsed => spread_into DEFAULT_PARAMETER_ENABLED_obj parsed end
  end.

Section storage.
Context {P : Platform}.
(** [setItem] throws: the storage is full or may not be written. *)
Context (refuses : storage -> jsstr -> jsstr -> bool).

Definition setItem (k v : jsstr) (st : storage) : storage := if refuses st k v then st else map_set k v st.

Definition saveConfig (config : obj) (st : storage) : storage := setItem KEY_CONFIG (JSON_stringify (JObj config)) st.
Definition saveParameterEnabled (enabled : obj) (st : storage) : storage :=
  setItem KEY_PARAMETER_ENABLED (JSON_stringify (JObj enabled)) st.
Definition saveMessages (messages : list Message) (st : storage) : storage :=
  setItem KEY_MESSAGES (JSON_stringify (messages_json messages)) st.

(** What [loadMessages] returns; the code does not check what it reads, and a
    list with other values than messages is out of the model. *)
Inductive loaded := Nothing | Loaded (messages : list Message) | NotMessages.

Definition loadMessages (st : storage) : loaded * storage :=
  match saved_text KEY_MESSAGES KEY_LEGACY_MESSAGES st with
  | None => (Nothing, st)
  | Some s =>
      match JSON_parse s with
      | Some (JArr l) =>
          match as_messages (JArr l) with
          | Some messages => let sanitized := sanitizeMessagesOnLoad messages in (Loaded sanitized, saveMessages sanitized st)
          | None => (NotMessages, st)
          end
      | _ => (Nothing, st)
      end
  end.

Definition loadActiveConversationId (st : storage) : option number :=
  match getItem KEY_ACTIVE_CONVERSATION_ID st with
  | Some raw => if truthy raw then (let n := parse_int10 raw in if is_finite n then Some n else None) else None
  | None => None
  end.

Definition saveActiveConversationId (id : option Z) (st : storage) : storage :=
  match id with
  | None => removeItem KEY_ACTIVE_CONVERSATION_ID st
  | Some i => setItem KEY_ACTIVE_CONVERSATION_ID (Z_to_str i) st
  end.

Definition clearPlaygroundData (st : storage) : storage :=
  foldl (fun st k => removeItem k st) st
    [KEY_CONFIG; KEY_PARAMETER_ENABLED; KEY_MESSAGES; KEY_ACTIVE_CONVERSATION_ID; KEY_LEGACY_CONFIG; KEY_LEGACY_PARAMETER_ENABLED;
     KEY_LEGACY_MESSAGES].

(** ** The state of the page *)

Record PlaygroundState := mkState { config : obj; parameterEnabled : obj; messages : list Message; disk : storage }.

Definition initial_config (st : storage) : obj := spread_into DEFAULT_CONFIG_obj (JObj (loadConfig st)).
Definition initial_enabled (st : storage) : obj := spread_into DEFAULT_PARAMETER_ENABLED_obj (JObj (loadParameterEnabled st)).

(** [None] for a list that is out of the model. *)
Definition usePlaygroundState (st : storage) : option PlaygroundState :=
  match loadMessages st with
  | (NotMessages, _) => None
  | (Nothing, st') => Some (mkState (initial_config st) (initial_enabled st) [] st')
  | (Loaded l, st') => Some (mkState (initial_config st) (initial_enabled st) l st')
  end.

Definition updateConfig (k : jsstr) (v : json) (s : PlaygroundState) : PlaygroundState :=
  let updated := map_set k v (config s) in
  mkState updated (parameterEnabled s) (messages s) (saveConfig updated (disk s)).

Definition updateParameterEnabled (k : jsstr) (b : bool) (s : PlaygroundState) : PlaygroundState :=
  let updated := map_set k (JBool b) (parameterEnabled s) in
  mkState (config s) updated (messages s) (saveParameterEnabled updated (disk s)).

Definition updateMessages (updater : list Message -> list Message) (s : PlaygroundState) : PlaygroundState :=
  let newMessages := updater (messages s) in
  mkState (config s) (parameterEnabled s) newMessages (saveMessages newMessages (disk s)).

Definition clearMessages : PlaygroundState -> PlaygroundState := updateMessages (fun _ => []).

Definition resetConfig (s : PlaygroundState) : PlaygroundState :=
  mkState DEFAULT_CONFIG_obj DEFAULT_PARAMETER_ENABLED_obj (messages s)
    (saveParameterEnabled DEFAULT_PARAMETER_ENABLED_obj (saveConfig DEFAULT_CONFIG_obj (disk s))).

Definition applyPreset (nextConfig : obj) (nextEnabled : option obj) (s : PlaygroundState) : PlaygroundState :=
  let merged := spread_into DEFAULT_CONFIG_obj (JObj nextConfig) in
  let s := mkState merged (parameterEnabled s) (messages s) (saveConfig merged (disk s)) in
  match nextEnabled with
  | None => s
  | Some e =>
      let mergedEnabled := spread_into DEFAULT_PARAMETER_ENABLED_obj (JObj e) in
      mkState (config s) mergedEnabled (messages s) (saveParameterEnabled mergedEnabled (disk s))
  end.

Inductive change :=
  | SetConfig (k : jsstr) (v : json) | SetEnabled (k : jsstr) (b : bool) | SetMessages (f : list Message -> list Message)
  | Clear | ResetConfig | Preset (c : obj) (e : option obj).

Definition apply (a : change) : PlaygroundState -> PlaygroundState :=
  match a with
  | SetConfig k v => updateConfig k v
  | SetEnabled k b => updateParameterEnabled k b
  | SetMessages f => updateMessages f
  | Clear => clearMessages
  | ResetConfig => resetConfig
  | Preset c e => applyPreset c e
  end.

(** ** What is kept *)

(** The same properties with the same values, in any order. *)
Definition same_obj (o o' : obj) : Prop := forall k, ordered <$> map_get k o = ordered <$> map_get k o'.

#[export] Instance same_obj_equiv : Equivalence same_obj.
Proof. split; [done|by intros o o' H k|intros a b c H1 H2 k; by rewrite H1]. Qed.

(** Every default is there, and the values survive printing. *)
Definition complete (defaults o : obj) : Prop := good (JObj o) /\ forall k, k ∈ defaults.*1 -> is_Some (map_get k o).

Definition not_null (j : json) : Prop := j <> JNull.
Definition required_set (o : obj) : Prop := forall kv, kv ∈ required_fields -> exists v, map_get kv.1 o = Some v /\ not_null v.

Definition state_ok (s : PlaygroundState) : Prop :=
  good (JObj (config s)) /\ good (JObj (parameterEnabled s)) /\ forallb message_ok (messages s) = true.

(** The values a change brings in are ones a JSON text can hold, and the
    fields that loading replaces are not set to [null]. *)
Definition change_ok (a : change) (s : PlaygroundState) : Prop :=
  match a with
  | SetConfig k v => good v /\ (k ∈ required_fields.*1 -> not_null v)
  | SetMessages f => forallb message_ok (f (messages s)) = true
  | Preset c e =>
      good (JObj c) /\ (forall k, k ∈ required_fields.*1 -> map_get k c <> Some JNull) /\
      match e with Some e => good (JObj e) | None => True end
  | SetEnabled _ _ | Clear | ResetConfig => True
  end.

(** The states a page goes through. *)
Inductive reaches (s0 : PlaygroundState) : PlaygroundState -> Prop :=
  | reaches_start : reaches s0 s0
  | reaches_step s a : reaches s0 s -> change_ok a s -> reaches s0 (apply a s).

(** ** Lemmas: spreading *)

Lemma foldl_set_get (f : jsstr * json -> json) l : forall (o : obj) k, NoDup l.*1 ->
  map_get k (foldl (fun o kv => map_set kv.1 (f kv) o) o l) = match map_get k l with Some v => Some (f (k, v)) | None => map_get k o end.
Proof.
  induction l as [|[k' v] l IH]; intros o k Hn; [done|]. cbn [foldl fst snd]. apply NoDup_cons in Hn as [Hk Hn].
  rewrite IH by done. cbn [map_get]. rewrite map_get_set. destruct (decide (k' = k)) as [->|Hne]; repeat case_decide; try done.
  by assert (map_get k l = None) as -> by (by apply map_get_None).
Qed.

Lemma foldl_set_NoDup (l : obj) (f : jsstr * json -> json) : forall o : obj, NoDup o.*1 ->
  NoDup (foldl (fun o kv => map_set kv.1 (f kv) o) o l).*1.
Proof. induction l as [|kv l IH]; intros o Ho; [done|]. cbn [foldl]. by apply IH, map_set_NoDup. Qed.

Lemma spread_get (o fs : obj) k : NoDup fs.*1 ->
  map_get k (spread_into o (JObj fs)) = match map_get k fs with Some v => Some v | None => map_get k o end.
Proof.
  intros Hn. unfold spread_into. cbn [spread]. rewrite (foldl_set_get snd); [by rewrite map_get_entries|].
  by rewrite obj_entries_perm.
Qed.

Lemma spread_NoDup (o : obj) j : NoDup o.*1 -> NoDup (spread_into o j).*1.
Proof. intros Ho. exact (foldl_set_NoDup _ snd o Ho). Qed.

Lemma foldl_set_Forall (Q : json -> Prop) l : forall o : obj, Forall (fun kv => Q kv.2) l -> Forall (fun kv => Q kv.2) o ->
  Forall (fun kv => Q kv.2) (foldl (fun o kv => map_set kv.1 kv.2 o) o l).
Proof.
  induction l as [|[k v] l IH]; intros o Hl Ho; [done|]. apply Forall_cons in Hl as [Hv Hl]. cbn [foldl]. apply IH; [done|].
  exact (Forall_if Q true k v o Hv Ho).
Qed.

Lemma spread_defaults (d o : obj) k : NoDup o.*1 -> k ∈ d.*1 -> is_Some (map_get k (spread_into d (JObj o))).
Proof.
  intros Hn Hk. rewrite spread_get by done. destruct (map_get k o); [by eexists|].
  destruct (map_get k d) eqn:E; [by eexists|]. by apply map_get_None in E.
Qed.

Lemma spread_complete (d o : obj) : good (JObj d) -> good (JObj o) -> complete d (spread_into d (JObj o)).
Proof.
  intros [Hnd Hfd]%good_obj_inv [Hno Hfo]%good_obj_inv. split.
  - apply good_obj; [by apply spread_NoDup|]. apply foldl_set_Forall; [|done]. cbn [spread]. by rewrite obj_entries_perm.
  - intros k Hk. by apply spread_defaults.
Qed.

Lemma set_complete d k v o : good v -> complete d o -> complete d (map_set k v o).
Proof.
  intros Hv [Hg Hd]. split; [by apply good_obj_set|]. intros k' Hk. rewrite map_get_set. case_decide; [by eexists|by apply Hd].
Qed.

(** ** Lemmas: reading what was saved *)

Lemma read_back c : good (JObj c) ->
  exists fs, JSON_parse (JSON_stringify (JObj c)) = Some (JObj fs) /\ NoDup fs.*1 /\ forall k, map_get k fs = ordered <$> map_get k c.
Proof.
  intros Hg. pose proof (good_obj_inv _ Hg) as [Hn _]. destruct Hg as [Hw Hp]. eexists. split; [exact (parse_stringify [] (JObj c) eq_refl Hw Hp)|]. split.
  - rewrite obj_entries_perm. replace ((map (fun kv => (kv.1, ordered kv.2)) c).*1) with c.*1; [done|].
    clear. induction c; cbn; by f_equal.
  - intros k. exact (ordered_get k c Hn).
Qed.

Lemma ordered_null v : ordered v = JNull -> v = JNull.
Proof. by destruct v. Qed.

Lemma default_config_good : good (JObj DEFAULT_CONFIG_obj).
Proof.
  apply good_obj; [refine (bool_decide_eq_true_1 _ _); vm_compute; reflexivity|].
  repeat (apply Forall_cons; split; [first [by split | split; [cbn; repeat constructor; set_solver|vm_compute; reflexivity]]|]). done.
Qed.

Lemma default_enabled_good : good (JObj DEFAULT_PARAMETER_ENABLED_obj).
Proof.
  apply good_obj; [refine (bool_decide_eq_true_1 _ _); vm_compute; reflexivity|].
  repeat (apply Forall_cons; split; [done|]). done.
Qed.

Lemma required_NoDup : NoDup required_fields.*1.
Proof. refine (bool_decide_eq_true_1 _ _); vm_compute; reflexivity. Qed.

Lemma stringify_truthy o : truthy (JSON_stringify (JObj o)) = true.
Proof. by destruct (stringify_compact_ends o) as [s ->]. Qed.

Lemma saved_text_first a b t st : getItem a st = Some t -> truthy t = true -> saved_text a b st = Some t.
Proof. intros H Ht. unfold saved_text. by rewrite H, Ht. Qed.

(** A default that is missing is filled in, nothing else changes. *)
Lemma fill_complete d c fs k :
  complete d c -> NoDup fs.*1 -> (forall k, map_get k fs = ordered <$> map_get k c) -> map_get k (spread_into d (JObj fs)) = ordered <$> map_get k c.
Proof.
  intros [_ Hd] Hn Hfs. rewrite spread_get by done. rewrite Hfs. destruct (map_get k c) eqn:E; [done|]. cbn.
  apply map_get_None. intros Hk%Hd. rewrite E in Hk. by destruct Hk.
Qed.

Lemma loadConfig_saved c st :
  getItem KEY_CONFIG st = Some (JSON_stringify (JObj c)) -> complete DEFAULT_CONFIG_obj c -> required_set c ->
  NoDup (loadConfig st).*1 /\ forall k, map_get k (loadConfig st) = ordered <$> map_get k c.
Proof.
  intros Hst Hc Hr. unfold loadConfig. rewrite (saved_text_first _ _ _ _ Hst) by apply stringify_truthy.
  destruct (read_back c) as (fs & -> & Hn & Hfs); [apply Hc|]. split.
  - apply foldl_set_NoDup, spread_NoDup. by apply good_obj_inv, default_config_good.
  - intros k. rewrite (foldl_set_get (fun kv => nullish_json (json_get kv.1 (JObj fs)) kv.2)) by apply required_NoDup.
    destruct (map_get k required_fields) as [d|] eqn:Hk; [|by apply fill_complete].
    apply map_get_elem in Hk; [|apply required_NoDup]. apply Hr in Hk as (v & Hv & Hnn). cbn [fst snd json_get] in *. rewrite Hfs, Hv.
    cbn. destruct (ordered v) eqn:E; try done. by apply ordered_null in E.
Qed.

Lemma ordered_twice j : ordered (ordered j) = ordered j.
Proof.
  induction j as [|b|x|s|l IH|fs IH] using json_rect'; try done.
  - cbn [ordered]. f_equal. rewrite map_map. apply map_ext_Forall. exact IH.
  - cbn [ordered]. f_equal. rewrite !entries_map, map_map, entries_idemp. cbn [fst snd].
    apply map_ext_Forall. rewrite obj_entries_perm. eapply Forall_impl; [exact IH|]. intros kv Hkv. cbn. by rewrite Hkv.
Qed.

Lemma same_ordered (o c : obj) : (forall k, map_get k o = ordered <$> map_get k c) -> same_obj o c.
Proof. intros H k. rewrite H. destruct (map_get k c); [|done]. cbn. by rewrite ordered_twice. Qed.

Lemma initial_config_saved c st :
  getItem KEY_CONFIG st = Some (JSON_stringify (JObj c)) -> complete DEFAULT_CONFIG_obj c -> required_set c -> same_obj (initial_config st) c.
Proof. intros Hst Hc Hr. destruct (loadConfig_saved c st Hst Hc Hr) as [Hn Hg]. apply same_ordered. intros k. by apply fill_complete. Qed.

Lemma initial_enabled_saved e st :
  getItem KEY_PARAMETER_ENABLED st = Some (JSON_stringify (JObj e)) -> complete DEFAULT_PARAMETER_ENABLED_obj e -> same_obj (initial_enabled st) e.
Proof.
  intros Hst He. apply same_ordered. intros k. unfold initial_enabled, loadParameterEnabled.
  rewrite (saved_text_first _ _ _ _ Hst) by apply stringify_truthy. destruct (read_back e) as (fs & -> & Hn & Hfs); [apply He|].
  apply fill_complete; [done| |].
  - apply spread_NoDup. by apply good_obj_inv, default_enabled_good.
  - intros k'. by apply fill_complete.
Qed.

(** ** Lemmas: messages *)

Lemma stringify_arr_truthy l : truthy (JSON_stringify (JArr l)) = true.
Proof. unfold JSON_stringify. cbn [stringify]. by destruct (map _ l). Qed.

Lemma loadMessages_saved l st :
  getItem KEY_MESSAGES st = Some (JSON_stringify (messages_json l)) -> forallb message_ok l = true ->
  loadMessages st = (Loaded (sanitizeMessagesOnLoad l), saveMessages (sanitizeMessagesOnLoad l) st).
Proof.
  intros Hst [Hb [Hw Hp]]%back_messages. unfold loadMessages. rewrite (saved_text_first _ _ _ _ Hst) by apply stringify_arr_truthy.
  assert (JSON_parse (JSON_stringify (messages_json l)) = Some (ordered (messages_json l))) as ->
    by exact (parse_stringify [] (messages_json l) eq_refl Hw Hp).
  unfold messages_json in *. cbn [ordered] in *. by rewrite Hb.
Qed.

(** The messages a page starts with. *)
Definition reloaded_messages (st : storage) : option (list Message) :=
  match (loadMessages st).1 with Nothing => Some [] | Loaded l => Some l | NotMessages => None end.

Lemma usePlaygroundState_alt st :
  usePlaygroundState st =
  (fun l => mkState (initial_config st) (initial_enabled st) l (loadMessages st).2) <$> reloaded_messages st.
Proof. unfold usePlaygroundState, reloaded_messages. by destruct (loadMessages st) as [[]]. Qed.

(** ** Lemmas: the entries are separate *)

Ltac other_key := refine (bool_decide_eq_false_1 _ _); vm_compute; reflexivity.

Lemma saved_text_other a b k v st : k <> a -> k <> b -> saved_text a b (map_set k v st) = saved_text a b st.
Proof. intros Ha Hb. unfold saved_text, getItem. by rewrite !map_get_set_ne. Qed.

Lemma initial_config_other k v st : k = KEY_MESSAGES \/ k = KEY_PARAMETER_ENABLED -> initial_config (map_set k v st) = initial_config st.
Proof. unfold initial_config, loadConfig. intros [-> | ->]; rewrite saved_text_other by other_key; done. Qed.

Lemma initial_enabled_other k v st : k = KEY_MESSAGES \/ k = KEY_CONFIG -> initial_enabled (map_set k v st) = initial_enabled st.
Proof. unfold initial_enabled, loadParameterEnabled. intros [-> | ->]; rewrite saved_text_other by other_key; done. Qed.

Lemma reloaded_other k v st : k = KEY_CONFIG \/ k = KEY_PARAMETER_ENABLED -> reloaded_messages (map_set k v st) = reloaded_messages st.
Proof.
  unfold reloaded_messages, loadMessages. intros [-> | ->]; rewrite saved_text_other by other_key;
    destruct (saved_text _ _ st); try done; destruct (JSON_parse _) as [[]|]; try done; by destruct (as_messages _).
Qed.

(** ** Lemmas: what loading gives *)

Lemma loadConfig_NoDup st : NoDup (loadConfig st).*1.
Proof.
  unfold loadConfig. destruct (saved_text _ _ st); [|constructor]. destruct (JSON_parse _) as [j|]; [|constructor].
  destruct j; [constructor|..]; apply foldl_set_NoDup, spread_NoDup; by apply good_obj_inv, default_config_good.
Qed.

Lemma loadEnabled_NoDup st : NoDup (loadParameterEnabled st).*1.
Proof.
  unfold loadParameterEnabled. destruct (saved_text _ _ st); [|constructor]. destruct (JSON_parse _) as [j|]; [|constructor].
  apply spread_NoDup. by apply good_obj_inv, default_enabled_good.
Qed.

Lemma nullish_not_null j d : not_null d -> not_null (nullish_json j d).
Proof. intros Hd. by destruct j as [[]|]. Qed.

Lemma required_not_null kv : kv ∈ required_fields -> not_null kv.2.
Proof.
  assert (Forall (fun kv => not_null kv.2) required_fields) as H by by repeat constructor.
  rewrite Forall_forall in H. apply H.
Qed.

Lemma default_required : required_set DEFAULT_CONFIG_obj.
Proof.
  assert (Forall (fun kv => map_get kv.1 DEFAULT_CONFIG_obj = Some kv.2) required_fields) as H.
  { repeat (apply Forall_cons; split; [vm_compute; reflexivity|]). done. }
  rewrite Forall_forall in H. intros kv Hkv. exists kv.2. split; [by apply H|by apply required_not_null].
Qed.

(** A field that was loaded is not [null]. *)
Lemma loadConfig_required st kv :
  kv ∈ required_fields -> match map_get kv.1 (loadConfig st) with Some v => not_null v | None => loadConfig st = [] end.
Proof.
  intros Hkv. unfold loadConfig. destruct (saved_text _ _ st); [|done]. destruct (JSON_parse _) as [j|]; [|done].
  assert (forall o : obj, match map_get kv.1 (foldl (fun o kv => map_set kv.1 (nullish_json (json_get kv.1 j) kv.2) o) o required_fields) with
    | Some v => not_null v | None => foldl (fun o kv => map_set kv.1 (nullish_json (json_get kv.1 j) kv.2) o) o required_fields = [] end) as H.
  { intros o. rewrite (foldl_set_get (fun kv => nullish_json (json_get kv.1 j) kv.2)) by apply required_NoDup.
    assert (map_get kv.1 required_fields = Some kv.2) as ->.
    { apply map_get_elem; [apply required_NoDup|]. by destruct kv. }
    apply (nullish_not_null _ kv.2). by apply required_not_null. }
  destruct j; [done|..]; apply H.
Qed.

Lemma initial_required st : required_set (initial_config st).
Proof.
  intros kv Hkv. destruct (default_required kv Hkv) as (v & Hv & Hnn). unfold initial_config. rewrite spread_get by apply loadConfig_NoDup.
  pose proof (loadConfig_required st kv Hkv) as H. destruct (map_get kv.1 (loadConfig st)) as [w|]; [by exists w|by exists v].
Qed.

Lemma set_required k v o : (k ∈ required_fields.*1 -> not_null v) -> required_set o -> required_set (map_set k v o).
Proof.
  intros Hv Ho kv Hkv. rewrite map_get_set. case_decide as E; [|by apply Ho]. exists v. split; [done|]. apply Hv. rewrite E.
  by apply list_elem_of_fmap_2.
Qed.

Lemma preset_required o : good (JObj o) -> (forall k, k ∈ required_fields.*1 -> map_get k o <> Some JNull) ->
  required_set (spread_into DEFAULT_CONFIG_obj (JObj o)).
Proof.
  intros [Hn _]%good_obj_inv Ho kv Hkv. rewrite spread_get by done. destruct (map_get kv.1 o) as [v|] eqn:E; [|by apply default_required].
  exists v. split; [done|]. intros ->. by apply (Ho kv.1); [apply list_elem_of_fmap_2|].
Qed.

Lemma default_complete (d : obj) : good (JObj d) -> complete d d.
Proof. intros H. split; [done|]. intros k Hk. destruct (map_get k d) eqn:E; [by eexists|]. by apply map_get_None in E. Qed.

Lemma initial_complete st : good (JObj (initial_config st)) -> complete DEFAULT_CONFIG_obj (initial_config st).
Proof. intros H. split; [done|]. intros k. apply spread_defaults, loadConfig_NoDup. Qed.

Lemma initial_enabled_complete st : good (JObj (initial_enabled st)) -> complete DEFAULT_PARAMETER_ENABLED_obj (initial_enabled st).
Proof. intros H. split; [done|]. intros k. apply spread_defaults, loadEnabled_NoDup. Qed.

(** ** Refused writes *)

(** What holds of every state. *)
Definition intact (s : PlaygroundState) : Prop :=
  complete DEFAULT_CONFIG_obj (config s) /\ required_set (config s) /\ complete DEFAULT_PARAMETER_ENABLED_obj (parameterEnabled s) /\
  forallb message_ok (messages s) = true.

Lemma intact_start st s : usePlaygroundState st = Some s -> state_ok s -> intact s.
Proof.
  rewrite usePlaygroundState_alt. destruct (reloaded_messages st) as [l|]; [|done]. intros [= <-] (Hc & He & Hm).
  split; [by apply initial_complete|]. split; [apply initial_required|]. split; [by apply initial_enabled_complete|done].
Qed.

Lemma intact_change a s : change_ok a s -> intact s -> intact (apply a s).
Proof.
  intros Ha (Hc & Hr & He & Hm). destruct a as [k v|k b|f| | |c e]; cbn [apply change_ok] in *.
  - destruct Ha as [Hv Hk]. split; [by apply set_complete|]. split; [by apply set_required|done].
  - do 3 (split; [try done; by apply set_complete|]). done.
  - done.
  - done.
  - split; [by apply default_complete, default_config_good|]. split; [apply default_required|].
    split; [by apply default_complete, default_enabled_good|done].
  - destruct Ha as (Hgc & Hn & Hge).
    assert (complete DEFAULT_CONFIG_obj (spread_into DEFAULT_CONFIG_obj (JObj c)) /\ required_set (spread_into DEFAULT_CONFIG_obj (JObj c)))
      as [H1 H2] by (split; [by apply spread_complete; [apply default_config_good|]|by apply preset_required]).
    destruct e as [e|]; [|done]. split; [done|]. split; [done|]. split; [|done].
    by apply spread_complete; [apply default_enabled_good|].
Qed.

(** Each entry of the storage is that of a state that [R] holds of. *)
Definition backed (R : PlaygroundState -> Prop) (st : storage) : Prop :=
  (exists s, R s /\ same_obj (initial_config st) (config s)) /\
  (exists s, R s /\ same_obj (initial_enabled st) (parameterEnabled s)) /\
  (exists s, R s /\ reloaded_messages st = Some (sanitizeMessagesOnLoad (messages s))).

Lemma backed_config R s st : R s -> intact s -> backed R st -> backed R (saveConfig (config s) st).
Proof.
  intros Hs (Hc & Hr & _) Hb. unfold saveConfig, setItem. destruct (refuses _ _ _); [done|]. destruct Hb as (_ & H2 & H3). split; [|split].
  - exists s. split; [done|]. apply initial_config_saved; [by apply map_get_set_eq|done..].
  - by rewrite initial_enabled_other by (by right).
  - by rewrite reloaded_other by (by left).
Qed.

Lemma backed_enabled R s st : R s -> intact s -> backed R st -> backed R (saveParameterEnabled (parameterEnabled s) st).
Proof.
  intros Hs (_ & _ & He & _) Hb. unfold saveParameterEnabled, setItem. destruct (refuses _ _ _); [done|].
  destruct Hb as (H1 & _ & H3). split; [|split].
  - by rewrite initial_config_other by (by right).
  - exists s. split; [done|]. apply initial_enabled_saved; [by apply map_get_set_eq|done].
  - by rewrite reloaded_other by (by right).
Qed.

Lemma backed_messages R s st : R s -> intact s -> backed R st -> backed R (saveMessages (messages s) st).
Proof.
  intros Hs (_ & _ & _ & Hm) Hb. unfold saveMessages, setItem. destruct (refuses _ _ _); [done|].
  destruct Hb as (H1 & H2 & _). split; [|split].
  - by rewrite initial_config_other by (by left).
  - by rewrite initial_enabled_other by (by left).
  - exists s. split; [done|]. unfold reloaded_messages. by rewrite (loadMessages_saved (messages s)) by (done || apply map_get_set_eq).
Qed.

Lemma backed_change R a s : R (apply a s) -> intact (apply a s) -> backed R (disk s) -> backed R (disk (apply a s)).
Proof.
  intros HR Hi Hb. destruct a as [k v|k b|f| | |c [e|]]; cbn [apply] in *.
  - by apply (backed_config R (updateConfig k v s)).
  - by apply (backed_enabled R (updateParameterEnabled k b s)).
  - by apply (backed_messages R (updateMessages f s)).
  - by apply (backed_messages R (clearMessages s)).
  - apply (backed_enabled R (resetConfig s)); [done..|]. by apply (backed_config R (resetConfig s)).
  - apply (backed_enabled R (applyPreset c (Some e) s)); [done..|]. by apply (backed_config R (applyPreset c (Some e) s)).
  - by apply (backed_config R (applyPreset c None s)).
Qed.

Lemma sanitized_twice l : sanitizeMessagesOnLoad (sanitizeMessagesOnLoad l) = sanitizeMessagesOnLoad l.
Proof.
  unfold sanitizeMessagesOnLoad. rewrite map_map. apply map_ext. intros m. apply sanitize_message_id.
  destruct (from (sanitize_message m)) eqn:Hf; [by left|right; by apply sanitize_settles|by left..].
Qed.

Lemma reloaded_sanitized st l : reloaded_messages st = Some l -> sanitizeMessagesOnLoad l = l.
Proof.
  unfold reloaded_messages, loadMessages. destruct (saved_text _ _ st); [|by intros [= <-]].
  destruct (JSON_parse _) as [[]|]; try (by intros [= <-]). destruct (as_messages _); [|done]. intros [= <-]. apply sanitized_twice.
Qed.

(** Loading writes the messages back as they are shown. *)
Lemma loadMessages_disk st :
  (loadMessages st).2 = match (loadMessages st).1 with Loaded l => saveMessages l st | _ => st end.
Proof.
  unfold loadMessages. destruct (saved_text _ _ st); [|done]. destruct (JSON_parse _) as [[]|]; try done. by destruct (as_messages _).
Qed.

Lemma backed_start st s : usePlaygroundState st = Some s -> state_ok s -> backed (eq s) (disk s).
Proof.
  intros Hu Hok. pose proof (intact_start st s Hu Hok) as Hi. revert Hu. rewrite usePlaygroundState_alt.
  destruct (reloaded_messages st) as [l|] eqn:Hl; [|done]. intros [= <-].
  set (s := mkState _ _ _ _) in *.
  assert (backed (eq s) st) as Hb.
  { split; [|split]; exists s; split; try done. rewrite Hl. cbn [messages s]. by rewrite (reloaded_sanitized st). }
  cbn [disk s]. rewrite loadMessages_disk. unfold reloaded_messages in Hl. destruct (loadMessages st).1 as [|l'|]; [done| |done].
  injection Hl as ->. by apply (backed_messages (eq s) s).
Qed.

Lemma backed_mono (R R' : PlaygroundState -> Prop) st : (forall s, R s -> R' s) -> backed R st -> backed R' st.
Proof. intros H (H1 & H2 & H3). repeat split; naive_solver. Qed.

Lemma reaches_backed st s0 s : usePlaygroundState st = Some s0 -> state_ok s0 -> reaches s0 s -> intact s /\ backed (reaches s0) (disk s).
Proof.
  intros Hu Hok Hr. induction Hr as [|s a Hs [Hi Hb] Ha].
  - split; [by eapply intact_start|]. eapply backed_mono; [|by eapply backed_start]. intros s <-. constructor.
  - assert (intact (apply a s)) as Hi' by by apply intact_change. split; [done|]. apply backed_change; [by constructor|done..].
Qed.

(** ** The storage mirrors the state *)

Record mirrors (s : PlaygroundState) : Prop := {
  mr_config : same_obj (initial_config (disk s)) (config s);
  mr_complete : complete DEFAULT_CONFIG_obj (config s);
  mr_required : required_set (config s);
  mr_enabled : same_obj (initial_enabled (disk s)) (parameterEnabled s);
  mr_enabled_complete : complete DEFAULT_PARAMETER_ENABLED_obj (parameterEnabled s);
  mr_messages : reloaded_messages (disk s) = Some (sanitizeMessagesOnLoad (messages s));
}.

Hypothesis accepts : forall st k v, refuses st k v = false.

Lemma setItem_set k v st : setItem k v st = map_set k v st.
Proof. unfold setItem. by rewrite accepts. Qed.

Lemma mirrors_config c s : complete DEFAULT_CONFIG_obj c -> required_set c -> mirrors s ->
  mirrors (mkState c (parameterEnabled s) (messages s) (saveConfig c (disk s))).
Proof.
  intros Hc Hr [_ _ _ He Hec Hm]. unfold saveConfig. rewrite setItem_set. split; cbn [config parameterEnabled messages disk]; try done.
  - apply initial_config_saved; [by apply map_get_set_eq|done..].
  - rewrite initial_enabled_other by (by right). exact He.
  - rewrite reloaded_other by (by left). exact Hm.
Qed.

Lemma mirrors_enabled e s : complete DEFAULT_PARAMETER_ENABLED_obj e -> mirrors s ->
  mirrors (mkState (config s) e (messages s) (saveParameterEnabled e (disk s))).
Proof.
  intros He [Hc Hcc Hr _ _ Hm]. unfold saveParameterEnabled. rewrite setItem_set. split; cbn [config parameterEnabled messages disk]; try done.
  - rewrite initial_config_other by (by right). exact Hc.
  - apply initial_enabled_saved; [by apply map_get_set_eq|done].
  - rewrite reloaded_other by (by right). exact Hm.
Qed.

Lemma mirrors_messages l s : forallb message_ok l = true -> mirrors s ->
  mirrors (mkState (config s) (parameterEnabled s) l (saveMessages l (disk s))).
Proof.
  intros Hl [Hc Hcc Hr He Hec _]. unfold saveMessages. rewrite setItem_set. split; cbn [config parameterEnabled messages disk]; try done.
  - rewrite initial_config_other by (by left). exact Hc.
  - rewrite initial_enabled_other by (by left). exact He.
  - unfold reloaded_messages. by rewrite (loadMessages_saved l) by (done || apply map_get_set_eq).
Qed.

Lemma mirrors_change a s : change_ok a s -> mirrors s -> mirrors (apply a s).
Proof.
  intros Ha Hs. pose proof Hs as [_ Hcc Hr _ Hec _]. destruct a as [k v|k b|f| | |c e]; cbn [apply change_ok] in *.
  - destruct Ha as [Hv Hk]. apply mirrors_config; [by apply set_complete|by apply set_required|done].
  - apply mirrors_enabled; [by apply set_complete|done].
  - by apply mirrors_messages.
  - by apply mirrors_messages.
  - apply (mirrors_enabled DEFAULT_PARAMETER_ENABLED_obj
      (mkState DEFAULT_CONFIG_obj (parameterEnabled s) (messages s) (saveConfig DEFAULT_CONFIG_obj (disk s))));
      [by apply default_complete, default_enabled_good|].
    apply mirrors_config; [by apply default_complete, default_config_good|apply default_required|done].
  - destruct Ha as (Hc & Hn & He). set (merged := spread_into DEFAULT_CONFIG_obj (JObj c)).
    set (s1 := mkState merged (parameterEnabled s) (messages s) (saveConfig merged (disk s))).
    assert (mirrors s1) as Hm.
    { apply mirrors_config; [by apply spread_complete; [apply default_config_good|]|by apply preset_required|done]. }
    destruct e as [e|]; [|done]. apply (mirrors_enabled _ s1); [|done]. by apply spread_complete; [apply default_enabled_good|].
Qed.

Lemma mirrors_start st s : usePlaygroundState st = Some s -> state_ok s -> mirrors s.
Proof.
  intros Hu (Hc & He & Hm). unfold usePlaygroundState in Hu. pose proof (loadMessages_disk st) as Hd.
  destruct (loadMessages st) as [[|l|] st'] eqn:El; cbn [fst snd] in Hd; unfold saveMessages in Hd; rewrite ?setItem_set in Hd;
    simplify_eq; cbn [config parameterEnabled messages] in *.
  - split; cbn [config parameterEnabled messages disk]; try done; [by apply initial_complete|apply initial_required| |].
    + by apply initial_enabled_complete.
    + unfold reloaded_messages. by rewrite El.
  - split; cbn [config parameterEnabled messages disk];
      [by rewrite initial_config_other by (by left)|by apply initial_complete|apply initial_required| | |].
    + by rewrite initial_enabled_other by (by left).
    + by apply initial_enabled_complete.
    + unfold reloaded_messages. by rewrite (loadMessages_saved l) by (done || apply map_get_set_eq).
Qed.

Lemma reaches_mirrors st s0 s : usePlaygroundState st = Some s0 -> state_ok s0 -> reaches s0 s -> mirrors s.
Proof. intros Hu Hok Hr. induction Hr as [|s a _ IH Ha]; [by eapply mirrors_start|by apply mirrors_change]. Qed.

(** ** Theorems *)

(** C15. As long as the browser refuses no write ([accepts]; a full storage
    does, see [refused_writes_safe]), after any sequence of changes, opening the
    page again gives the configuration and the enabled parameters as they were
    (defaults, presets and single edits alike, whatever was in the storage
    before), and the messages with the replies that were cut off marked as
    such.  The values are ones that a JSON text can hold, and no change sets a
    required field of the configuration to [null] ([state_ok], [change_ok]). *)
Theorem storage_mirrors_state st s0 s :
  usePlaygroundState st = Some s0 -> state_ok s0 -> reaches s0 s ->
  exists s', usePlaygroundState (disk s) = Some s' /\
    same_obj (config s') (config s) /\ same_obj (parameterEnabled s') (parameterEnabled s) /\
    messages s' = sanitizeMessagesOnLoad (messages s).
Proof.
  intros Hu Hok Hr. destruct (reaches_mirrors st s0 s Hu Hok Hr) as [Hc _ _ He _ Hm]. rewrite usePlaygroundState_alt, Hm. by eexists.
Qed.

End storage.

Section refusing.
Context {P : Platform} (refuses : storage -> jsstr -> jsstr -> bool).

(** C19. Whatever writes the browser refuses, the storage holds no mixture:
    the configuration, the enabled parameters and the messages that are read
    the next time are each those of a state the page was in. *)
Theorem refused_writes_safe st s0 s :
  usePlaygroundState refuses st = Some s0 -> state_ok s0 -> reaches refuses s0 s ->
  exists s' sc se sm, usePlaygroundState refuses (disk s) = Some s' /\
    reaches refuses s0 sc /\ same_obj (config s') (config sc) /\
    reaches refuses s0 se /\ same_obj (parameterEnabled s') (parameterEnabled se) /\
    reaches refuses s0 sm /\ messages s' = sanitizeMessagesOnLoad (messages sm).
Proof.
  intros Hu Hok Hr. destruct (reaches_backed refuses st s0 s Hu Hok Hr) as (_ & (sc & Rc & Hc) & (se & Re & He) & (sm & Rm & Hm)).
  rewrite usePlaygroundState_alt, Hm. eexists _, sc, se, sm. by repeat split.
Qed.

End refusing.

Lemma removed_get ks k : forall st, map_get k (foldl (fun st k => removeItem k st) st ks) = if bool_decide (k ∈ ks) then None else map_get k st.
Proof.
  induction ks as [|k' ks IH]; intros st; cbn [foldl]; [by rewrite bool_decide_false by apply not_elem_of_nil|].
  rewrite IH. unfold removeItem. rewrite map_get_delete. repeat case_bool_decide; repeat case_decide; set_solver.
Qed.

(** Clearing removes the entries of the playground, the old ones included, and
    no other. *)
Theorem clear_spec st k :
  getItem k (clearPlaygroundData st) =
  if bool_decide (k ∈ [KEY_CONFIG; KEY_PARAMETER_ENABLED; KEY_MESSAGES; KEY_ACTIVE_CONVERSATION_ID; KEY_LEGACY_CONFIG;
    KEY_LEGACY_PARAMETER_ENABLED; KEY_LEGACY_MESSAGES]) then None else getItem k st.
Proof. apply removed_get. Qed.

Lemma span_all_digits d : forallb is_digit d = true -> span_digits d = (d, []).
Proof. induction d as [|c d IH]; [done|]. cbn. intros [Hc Hd]%andb_true_iff. by rewrite Hc, IH. Qed.

Lemma digit_cases c : is_digit c = true ->
  (c = 48 \/ c = 49 \/ c = 50 \/ c = 51 \/ c = 52 \/ c = 53 \/ c = 54 \/ c = 55 \/ c = 56 \/ c = 57)%N.
Proof. unfold is_digit. rewrite andb_true_iff, !N.leb_le. lia. Qed.

(** The number of the conversation is read back. *)
Theorem conversation_id_roundtrip refuses i st :
  refuses st KEY_ACTIVE_CONVERSATION_ID (Z_to_str i) = false -> 0 <= i -> is_finite (num_of_Z i) = true ->
  loadActiveConversationId (saveActiveConversationId refuses (Some i) st) = Some (num_of_Z i).
Proof.
  intros Ha Hi Hf. unfold loadActiveConversationId, saveActiveConversationId, setItem, getItem. rewrite Ha, map_get_set_eq.
  assert (Z_to_str i = N_to_str (Z.to_N i)) as -> by by destruct i.
  pose proof (N_to_str_digits (Z.to_N i)) as [Ht Hd]%andb_true_iff. rewrite Ht. unfold parse_int10.
  pose proof (span_all_digits _ Hd) as Hs. pose proof (N_to_str_val (Z.to_N i)) as Hv.
  destruct (N_to_str (Z.to_N i)) as [|c d]; [done|].
  cbn [forallb] in Hd. apply andb_true_iff in Hd as [Hc _]. rewrite trim_start_id.
  - assert ((match c :: d with 45%N :: r => (true, r) | 43%N :: r => (false, r) | _ => (false, c :: d) end) = (false, c :: d)) as ->.
    { destruct (digit_cases c Hc) as [->|[->|[->|[->|[->|[->|[->|[->|[->| ->]]]]]]]]]; reflexivity. }
    rewrite Hs. cbn [fst truthy]. rewrite Hv. by rewrite Z2N.id, Hf by done.
  - cbn. intros x [= <-]. destruct (digit_cases c Hc) as [->|[->|[->|[->|[->|[->|[->|[->|[->| ->]]]]]]]]]; reflexivity.
Qed.

(** ** Witnesses *)

#[local] Existing Instance plain_platform.

Definition accept_all : storage -> jsstr -> jsstr -> bool := fun _ _ _ => false.
Definition sample_message : Message := (createUserMessage (u "hello") [] 0%nat).1.
Definition sample_start : PlaygroundState := mkState DEFAULT_CONFIG_obj DEFAULT_PARAMETER_ENABLED_obj [] [].
Definition sample_end (refuses : storage -> jsstr -> jsstr -> bool) : PlaygroundState :=
  foldl (fun s a => apply refuses a s) sample_start
    [SetConfig (u "model") (JStr (u "m1")); SetEnabled (u "seed") true; SetMessages (fun l => l ++ [sample_message])].

Lemma sample_reached refuses : reaches refuses sample_start (sample_end refuses).
Proof.
  unfold sample_end. cbn [foldl]. repeat apply reaches_step; [constructor| | |].
  - split; [done|]. intros H. exfalso. revert H. refine (bool_decide_eq_false_1 _ _). vm_compute. reflexivity.
  - done.
  - vm_compute. reflexivity.
Defined.

Lemma storage_mirrors_state_witness :
  exists s', usePlaygroundState accept_all (disk (sample_end accept_all)) = Some s' /\ same_obj (config s') (config (sample_end accept_all)) /\
    messages s' = [sample_message] /\ map_get (u "model") (config (sample_end accept_all)) = Some (JStr (u "m1")).
Proof.
  destruct (storage_mirrors_state accept_all (fun _ _ _ => eq_refl) [] sample_start (sample_end accept_all)) as (s' & H1 & H2 & _ & H3).
  - vm_compute. reflexivity.
  - split; [apply default_config_good|]. split; [apply default_enabled_good|done].
  - apply sample_reached.
  - exists s'. split; [exact H1|]. split; [exact H2|]. split; [rewrite H3; vm_compute; reflexivity|vm_compute; reflexivity].
Defined.

(** The configuration cannot be written. *)
Definition refuse_config : storage -> jsstr -> jsstr -> bool := fun _ k _ => bool_decide (k = KEY_CONFIG).

Lemma refused_writes_safe_witness :
  exists s' sm, usePlaygroundState refuse_config (disk (sample_end refuse_config)) = Some s' /\
    reaches refuse_config sample_start sm /\ messages s' = sanitizeMessagesOnLoad (messages sm) /\
    map_get (u "model") (config s') = Some (JStr (u "gpt-4o")) /\ messages s' = [sample_message].
Proof.
  destruct (refused_writes_safe refuse_config [] sample_start (sample_end refuse_config)) as (s' & sc & se & sm & H1 & _ & _ & _ & _ & H2 & H3).
  - vm_compute. reflexivity.
  - split; [apply default_config_good|]. split; [apply default_enabled_good|done].
  - apply sample_reached.
  - exists s', sm. split; [exact H1|]. split; [exact H2|]. split; [exact H3|].
    assert (Some s' = Some s') as Hs by reflexivity. rewrite <-H1 in Hs at 1. clear H1 H2 H3. vm_compute in Hs. injection Hs as <-.
    split; vm_compute; reflexivity.
Defined.

End Storage.
