(* ===== verification/PgExport.v ===== *)
(** * Exporting a conversation  (web/default/src/features/playground/lib/export.ts)

    Markdown and JSON exports, and the request as a [curl] command.  The text of
    the request body is that of [JSON.stringify] on the payload; [sh_words]
    splits a command the way a POSIX shell does, for words of plain characters,
    backslashes and single quotes.  The time stamp and the page's origin are
    arguments. *)

From S2P Require Import Prelude JsString JsNumber JsJson JsRegex JsExpr JsPrint PgTypes PgCodec PgMessages PgPayload.

Import Print Pg Codec Messages Payload.
Open Scope Z_scope.

Module Exports.

(** ** The payload as JSON *)

Definition effort_text (e : ReasoningEffort) : jsstr :=
  match e with
  | effort_off => u "off" | effort_minimal => u "minimal" | effort_low => u "low" | effort_medium => u "medium" | effort_high => u "high"
  end.

Definition part_json (p : ContentPart) : json :=
  match p with
  | TextPart t => JObj [(u "type", JStr (u "text")); (u "text", JStr t)]
  | ImagePart url => JObj [(u "type", JStr (u "image_url")); (u "image_url", JObj [(u "url", JStr url)])]
  end.

Definition content_json (c : Content) : json :=
  match c with ContentString s => JStr s | ContentParts l => JArr (map part_json l) | ContentNull => JNull end.

Definition chat_json (m : ChatCompletionMessage) : json :=
  JObj (obj_of [(u "role", Some (JStr (role_text (cm_role m)))); (u "content", Some (content_json (cm_content m)));
    (u "tool_calls", tools_json (cm_tool_calls m)); (u "tool_call_id", opt_str (cm_tool_call_id m)); (u "name", opt_str (cm_name m))]).

Definition definition_json (t : PlaygroundToolDefinition) : json :=
  JObj [(u "type", JStr (u "function"));
        (u "function", JObj (obj_of [(u "name", Some (JStr (tool_name t))); (u "description", opt_str (tool_description t));
           (u "parameters", tool_parameters t)]))].

Definition choice_json (c : ToolChoice) : json :=
  match c with
  | choice_none => JStr (u "none") | choice_auto => JStr (u "auto") | choice_required => JStr (u "required")
  | choice_function n => JObj [(u "type", JStr (u "function")); (u "function", JObj [(u "name", JStr n)])]
  end.

Definition format_json (f : ResponseFormat) : json :=
  match f with
  | format_text => JObj [(u "type", JStr (u "text"))]
  | format_json_object => JObj [(u "type", JStr (u "json_object"))]
  | format_json_schema n strict schema =>
      JObj [(u "type", JStr (u "json_schema"));
            (u "json_schema", JObj (obj_of [(u "name", Some (JStr n)); (u "strict", opt_bool strict); (u "schema", Some schema)]))]
  end.

Definition control_json (r : ReasoningControl) : json :=
  JObj (obj_of [(u "max_tokens", JNum <$> rc_max_tokens r); (u "effort", (fun e => JStr (effort_text e)) <$> rc_effort r)]).

Definition request_json (p : ChatCompletionRequest) : json :=
  JObj (obj_of
    [(u "model", Some (JStr (rq_model p))); (u "group", Some (JStr (rq_group p))); (u "messages", Some (JArr (map chat_json (rq_messages p))));
     (u "stream", Some (JBool (rq_stream p))); (u "stream_options", (fun b => JObj [(u "include_usage", JBool b)]) <$> rq_include_usage p);
     (u "temperature", JNum <$> rq_temperature p); (u "top_p", JNum <$> rq_top_p p); (u "max_tokens", JNum <$> rq_max_tokens p);
     (u "frequency_penalty", JNum <$> rq_frequency_penalty p); (u "presence_penalty", JNum <$> rq_presence_penalty p);
     (u "seed", JNum <$> rq_seed p); (u "reasoning_effort", (fun e => JStr (effort_text e)) <$> rq_reasoning_effort p);
     (u "reasoning", control_json <$> rq_reasoning p); (u "web_search_options", if rq_web_search p then Some (JObj []) else None);
     (u "tools", (fun l => JArr (map definition_json l)) <$> rq_tools p); (u "tool_choice", choice_json <$> rq_tool_choice p);
     (u "response_format", format_json <$> rq_response_format p)]).

(** ** Exports *)

(** [a || b] on texts *)
Definition or_text (a b : jsstr) : jsstr := if truthy a then a else b.

Definition role_heading (m : Message) : jsstr :=
  match from m with
  | role_user => u "User"
  | role_tool => u "Tool (" ++ or_text (default [] (toolCallId m)) (u "result") ++ u ")"
  | _ => if truthy (default [] (model m)) then u "Assistant (" ++ default [] (model m) ++ u ")" else u "Assistant"
  end.

Definition tool_lines (tc : ToolCall) : list jsstr :=
  [u "- **" ++ fn_name (tc_function tc) ++ u "** (`" ++ tc_id tc ++ u "`)"; u "```json"; or_text (fn_arguments (tc_function tc)) (u "{}");
   u "```"; []].

Definition message_lines (m : Message) : list jsstr :=
  let content := v_content (getCurrentVersion m) in
  [u "## " ++ role_heading m; []; or_text content (u "_(empty)_"); []] ++
  match toolCalls m with
  | Some (tc :: l) => [u "### Tool calls"; []] ++ concat (map tool_lines (tc :: l))
  | _ => []
  end ++
  match reasoning m with
  | Some r => if truthy (r_content r) then [u "### Reasoning"; []; r_content r; []] else []
  | None => []
  end.

Definition exportConversationMarkdown (messages : list Message) (title : jsstr) : jsstr :=
  join [10%N] ([u "# " ++ title; []] ++ concat (map message_lines messages)).

Definition exportConversationJson (exportedAt : jsstr) (messages : list Message) (config : option json) : jsstr :=
  JSON_stringify2 (JObj [(u "exportedAt", JStr exportedAt); (u "config", default JNull config); (u "messages", messages_json messages)]).

(** [.replace(/\/$/, '')] *)
Definition drop_slash (s : jsstr) : jsstr := match last s with Some 47%N => removelast s | _ => s end.

(** [.replace(/'/g, ...)]: the quote is closed, an escaped quote added, and
    the quote opened again *)
Definition escape_quotes (s : jsstr) : jsstr := concat (map (fun c => if (c =? 39)%N then [39; 92; 39; 39]%N else [c]) s).

Record CurlOptions := mkCurl { baseUrl : option jsstr; curl_model : option jsstr }.

Definition curl_payload (messages : list Message) (config : PlaygroundConfig) (enabled : ParameterEnabled) (opts : option CurlOptions)
  : ChatCompletionRequest :=
  buildChatCompletionPayload messages config enabled
    (Some (mkBuild (default (c_model config) (opts ≫= curl_model)) (Some true))).

Definition curl_base (origin : jsstr) (opts : option CurlOptions) : jsstr :=
  drop_slash (or_text (default [] (opts ≫= baseUrl)) origin).

Definition buildCopyAsCurl (origin : jsstr) (messages : list Message) (config : PlaygroundConfig) (enabled : ParameterEnabled)
    (opts : option CurlOptions) : jsstr :=
  let body := JSON_stringify (request_json (curl_payload messages config enabled opts)) in
  join [10%N]
    [u "curl " ++ curl_base origin opts ++ u "/v1/chat/completions \";
     u "  -H 'Content-Type: application/json' \";
     u "  -H 'Authorization: Bearer sk-YOUR_KEY' \";
     u "  -d '" ++ escape_quotes body ++ u "'"].

(** ** The words a shell reads *)

(** Letters, digits and the characters that mean nothing to a shell. *)
Definition sh_plain (c : N) : bool :=
  is_digit c || ((65 <=? c) && (c <=? 90))%N || ((97 <=? c) && (c <=? 122))%N || existsb (N.eqb c) (u "-_./:,+@%=").

(** [None] for a command that is not finished or that uses more of the
    shell; [cur] is the word being read. *)
Fixpoint sh_words (quoted : bool) (cur : option jsstr) (s : jsstr) : option (list jsstr) :=
  match s with
  | [] => if quoted then None else Some (match cur with Some w => [w] | None => [] end)
  | c :: r =>
      if quoted then
        if (c =? 39)%N then sh_words false cur r else sh_words true (Some (default [] cur ++ [c])) r
      else if (c =? 39)%N then sh_words true (Some (default [] cur)) r
      else if (c =? 92)%N then
        match r with
        | [] => None
        | d :: r' => if (d =? 10)%N then sh_words false cur r' else sh_words false (Some (default [] cur ++ [d])) r'
        end
      else if (c =? 32)%N then
        match cur with Some w => cons w <$> sh_words false None r | None => sh_words false None r end
      else if sh_plain c then sh_words false (Some (default [] cur ++ [c])) r
      else None
  end.

(** ** Lemmas *)

Lemma sh_quoted s : forall w r, sh_words true (Some w) (escape_quotes s ++ 39%N :: r) = sh_words false (Some (w ++ s)) r.
Proof.
  induction s as [|c s IH]; intros w r; [by cbn; rewrite app_nil_r|]. unfold escape_quotes in *. cbn [map concat].
  rewrite <-app_assoc. destruct (N.eqb_spec c 39) as [->|Hc].
  - cbn. rewrite IH. by rewrite <-app_assoc.
  - cbn. apply N.eqb_neq in Hc. rewrite Hc, IH. by rewrite <-app_assoc.
Qed.

Lemma plain_not c : sh_plain c = true -> (c =? 39)%N = false /\ (c =? 92)%N = false /\ (c =? 32)%N = false.
Proof. intros H. repeat split; apply N.eqb_neq; intros ->; by vm_compute in H. Qed.

Lemma sh_unquoted p : forall w r, forallb sh_plain p = true -> sh_words false (Some w) (p ++ r) = sh_words false (Some (w ++ p)) r.
Proof.
  induction p as [|c p IH]; intros w r Hp; [by cbn; rewrite app_nil_r|]. cbn [forallb] in Hp. apply andb_true_iff in Hp as [Hc Hp].
  destruct (plain_not c Hc) as (H1 & H2 & H3). cbn [app sh_words]. rewrite H1, H2, H3, Hc. cbn [default]. rewrite IH by done.
  by rewrite <-app_assoc.
Qed.

Lemma sh_word p r : p <> [] -> forallb sh_plain p = true -> sh_words false None (p ++ 32%N :: r) = cons p <$> sh_words false None r.
Proof.
  destruct p as [|c p]; [done|]. intros _ Hp. cbn [forallb] in Hp. apply andb_true_iff in Hp as [Hc Hp].
  destruct (plain_not c Hc) as (H1 & H2 & H3). cbn [app sh_words]. rewrite H1, H2, H3, Hc. cbn [default app].
  by rewrite sh_unquoted.
Qed.

(** The literal part between the address and the body. *)
Definition curl_middle : jsstr :=
  u "\" ++ [10%N] ++ u "  -H 'Content-Type: application/json' \" ++ [10%N] ++ u "  -H 'Authorization: Bearer sk-YOUR_KEY' \" ++ [10%N] ++ u "  -d '".

Lemma sh_middle t :
  sh_words false None (curl_middle ++ t) =
  cons (u "-H") <$> (cons (u "Content-Type: application/json") <$> (cons (u "-H") <$> (cons (u "Authorization: Bearer sk-YOUR_KEY") <$>
    (cons (u "-d") <$> sh_words true (Some []) t)))).
Proof. vm_compute. reflexivity. Qed.

Lemma sh_first t : sh_words false None (u "curl " ++ t) = cons (u "curl") <$> sh_words false None t.
Proof. vm_compute. reflexivity. Qed.

Lemma curl_text origin messages config enabled opts :
  buildCopyAsCurl origin messages config enabled opts =
  u "curl " ++ (curl_base origin opts ++ u "/v1/chat/completions") ++ 32%N :: curl_middle ++
    escape_quotes (JSON_stringify (request_json (curl_payload messages config enabled opts))) ++ [39%N].
Proof.
  unfold buildCopyAsCurl. set (body := JSON_stringify _). set (base := curl_base _ _). clearbody body base.
  unfold curl_middle. cbn [join]. rewrite <-!app_assoc.
  change (u "/v1/chat/completions \") with (u "/v1/chat/completions" ++ [32%N] ++ u "\"). rewrite <-!app_assoc. done.
Qed.

(** ** Theorems *)

(** C36. A shell that reads the copied command gives [curl] the address, the
    headers and, as one word, exactly the JSON text of the request: no quote
    in a prompt can end the word.  The base address has no character that is
    special to the shell. *)
Theorem curl_words origin messages config enabled opts :
  forallb sh_plain (curl_base origin opts) = true ->
  sh_words false None (buildCopyAsCurl origin messages config enabled opts) =
  Some [u "curl"; curl_base origin opts ++ u "/v1/chat/completions"; u "-H"; u "Content-Type: application/json"; u "-H";
        u "Authorization: Bearer sk-YOUR_KEY"; u "-d"; JSON_stringify (request_json (curl_payload messages config enabled opts))].
Proof.
  intros Hb. rewrite curl_text, sh_first, sh_word, sh_middle, sh_quoted; [done| |].
  - by destruct (curl_base origin opts).
  - rewrite forallb_app, Hb. vm_compute. reflexivity.
Qed.

(** An exported conversation holds the messages: reading the file gives them
    back, with the configuration. *)
Theorem export_json_roundtrip exportedAt messages config :
  forallb message_ok messages = true -> match config with Some c => good c | None => True end ->
  exists j, JSON_parse (exportConversationJson exportedAt messages config) = Some j /\
    json_get (u "messages") j ≫= as_messages = Some messages /\
    json_get (u "config") j = Some (ordered (default JNull config)) /\ json_get (u "exportedAt") j = Some (JStr exportedAt).
Proof.
  intros [Hb Hg]%back_messages Hc. set (fs := [(u "exportedAt", JStr exportedAt); (u "config", default JNull config);
    (u "messages", messages_json messages)]).
  assert (NoDup fs.*1) as Hn by (refine (bool_decide_eq_true_1 (NoDup [u "exportedAt"; u "config"; u "messages"]) _); vm_compute; reflexivity).
  assert (good (JObj fs)) as [Hw Hp].
  { apply good_obj; [done|]. repeat (apply Forall_cons; split; [first [done | by destruct config]|]). done. }
  exists (ordered (JObj fs)). split; [by apply parse_stringify|]. rewrite !ordered_get by done.
  rewrite (proj1 (map_get_elem (u "messages") (messages_json messages) fs Hn)) by (entry 2%nat).
  rewrite (proj1 (map_get_elem (u "config") (default JNull config) fs Hn)) by (entry 1%nat).
  rewrite (proj1 (map_get_elem (u "exportedAt") (JStr exportedAt) fs Hn)) by (entry 0%nat).
  split; [exact Hb|done].
Qed.

(** ** Witnesses *)

#[local] Existing Instance plain_platform.

Definition quoting_config : PlaygroundConfig :=
  mkConfig (u "it's 'quoted'") (u "m") [] DEFAULT_GROUP (num_of_Z 0) (num_of_Z 0) (num_of_Z 0) (num_of_Z 0)
    (num_of_Z 0) None true effort_off (num_of_Z 0) false [] choice_auto format_text.

Definition all_off : ParameterEnabled := mkEnabled false false false false false false.

Lemma curl_words_witness :
  sh_words false None (buildCopyAsCurl (u "https://a.example/") [] quoting_config all_off None) =
  Some [u "curl"; u "https://a.example/v1/chat/completions"; u "-H"; u "Content-Type: application/json"; u "-H";
        u "Authorization: Bearer sk-YOUR_KEY"; u "-d"; JSON_stringify (request_json (curl_payload [] quoting_config all_off None))].
Proof.
  refine (eq_trans (curl_words (u "https://a.example/") [] quoting_config all_off None _) _); vm_compute; reflexivity.
Defined.

End Exports.
