(* ===== verification/Currency.v ===== *)
(** * Amounts on the screen
    (web/default/src/lib/currency.ts, lib/format.ts,
    stores/system-config-store.ts)

    The administrator chooses how amounts are shown: in US dollars, in yuan, in
    a currency of their own or in tokens.  [getConfig] reads the choice from
    the store and repairs it, the [format] functions convert and print.

    [Intl.NumberFormat] depends on the user's locale and [Math.pow] is only
    specified up to approximation: both are the class [Intl].  The number of
    fraction digits is an integer between 0 and 100 at every call. *)

From S2P Require Import Prelude JsString JsNumber JsJson JsRegex.

Open Scope N_scope.

Module Currency.

(** ** The store *)

Inductive CurrencyDisplayType := USD | CNY | TOKENS | CUSTOM.

#[export] Instance CurrencyDisplayType_eq_dec : EqDecision CurrencyDisplayType.
Proof. solve_decision. Defined.

Definition type_name (t : CurrencyDisplayType) : jsstr :=
  match t with USD => u "USD" | CNY => u "CNY" | TOKENS => u "TOKENS" | CUSTOM => u "CUSTOM" end.

Record CurrencyConfig := mkCurrency {
  displayInCurrency : bool;
  quotaDisplayType : CurrencyDisplayType;
  quotaPerUnit : number;
  usdExchangeRate : number;
  customCurrencySymbol : jsstr;
  customCurrencyExchangeRate : number;
}.

Definition DEFAULT_CURRENCY_CONFIG : CurrencyConfig :=
  mkCurrency true USD (num_of_Z 500000) (num_of_Z 1) [164] (num_of_Z 1).

(** What the persisted store may hold: a currency object whose properties can
    be missing. *)
Record StoredCurrency := mkStored {
  st_displayInCurrency : option bool;
  st_quotaDisplayType : option CurrencyDisplayType;
  st_quotaPerUnit : option number;
  st_usdExchangeRate : option number;
  st_customCurrencySymbol : option jsstr;
  st_customCurrencyExchangeRate : option number;
}.

Definition stored_of (c : CurrencyConfig) : StoredCurrency :=
  mkStored (Some (displayInCurrency c)) (Some (quotaDisplayType c)) (Some (quotaPerUnit c))
    (Some (usdExchangeRate c)) (Some (customCurrencySymbol c)) (Some (customCurrencyExchangeRate c)).

(** [{ ...a, ...b }] *)
Definition spread_currency (a b : StoredCurrency) : StoredCurrency :=
  mkStored (coalesce_opt (st_displayInCurrency b) (st_displayInCurrency a))
    (coalesce_opt (st_quotaDisplayType b) (st_quotaDisplayType a))
    (coalesce_opt (st_quotaPerUnit b) (st_quotaPerUnit a))
    (coalesce_opt (st_usdExchangeRate b) (st_usdExchangeRate a))
    (coalesce_opt (st_customCurrencySymbol b) (st_customCurrencySymbol a))
    (coalesce_opt (st_customCurrencyExchangeRate b) (st_customCurrencyExchangeRate a)).

(** The currency part of [setConfig]. *)
Definition setConfig_currency (state : StoredCurrency) (new : option StoredCurrency) : StoredCurrency :=
  spread_currency state (new ?? mkStored None None None None None None).

Definition DISPLAY_TYPE_VALUES : list CurrencyDisplayType := [USD; CNY; TOKENS; CUSTOM].

Definition isCurrencyDisplayType (value : json) : bool :=
  match value with
  | JStr s => includes (map type_name DISPLAY_TYPE_VALUES) s
  | _ => false
  end.

Definition parseCurrencyDisplayType (value : json) (fallback : CurrencyDisplayType) : CurrencyDisplayType :=
  match value with
  | JStr s => List.find (fun t => bool_decide (type_name t = s)) DISPLAY_TYPE_VALUES ?? fallback
  | _ => fallback
  end.

(** [x && x > 0 ? x : d] *)
Definition positive_or (x : option number) (d : number) : number :=
  match x with
  | Some v => if num_truthy v && num_gt v (num_of_Z 0) then v else d
  | None => d
  end.

Definition getConfig (stored : option StoredCurrency) : CurrencyConfig :=
  let currency := stored ?? stored_of DEFAULT_CURRENCY_CONFIG in
  mkCurrency (st_displayInCurrency currency ?? displayInCurrency DEFAULT_CURRENCY_CONFIG)
    (st_quotaDisplayType currency ?? quotaDisplayType DEFAULT_CURRENCY_CONFIG)
    (positive_or (st_quotaPerUnit currency) (quotaPerUnit DEFAULT_CURRENCY_CONFIG))
    (positive_or (st_usdExchangeRate currency) (usdExchangeRate DEFAULT_CURRENCY_CONFIG))
    (or_str (match st_customCurrencySymbol currency with Some s => trim s | None => [] end)
       (customCurrencySymbol DEFAULT_CURRENCY_CONFIG))
    (positive_or (st_customCurrencyExchangeRate currency) (customCurrencyExchangeRate DEFAULT_CURRENCY_CONFIG)).

(** ** Display *)

Inductive DisplayMeta :=
| MCurrency (symbol currencyCode : jsstr) (exchangeRate : number)
| MCustom (symbol : jsstr) (exchangeRate : number)
| MTokens (quotaPerUnit : number).

Definition USD_META : DisplayMeta := MCurrency (u "$") (u "USD") (num_of_Z 1).

Definition getDisplayMeta (config : CurrencyConfig) : DisplayMeta :=
  match quotaDisplayType config with
  | CNY => MCurrency [165] (u "CNY") (usdExchangeRate config)
  | CUSTOM => MCustom (customCurrencySymbol config) (customCurrencyExchangeRate config)
  | TOKENS => MTokens (quotaPerUnit config)
  | USD => USD_META
  end.

Definition getBillingDisplayMeta (config : CurrencyConfig) : DisplayMeta :=
  match getDisplayMeta config with
  | MTokens _ => USD_META
  | meta => meta
  end.

Record CurrencyFormatOptions := mkFormat {
  o_digitsLarge : option Z;
  o_digitsSmall : option Z;
  o_abbreviate : option bool;
  o_minimumNonZero : option number;
}.

(** [Required<CurrencyFormatOptions>] *)
Record FormatOptions := mkOptions {
  digitsLarge : Z;
  digitsSmall : Z;
  abbreviate : bool;
  minimumNonZero : number;
}.

Definition DEFAULT_FORMAT_OPTIONS : FormatOptions := mkOptions 2 4 true (num_of_Z 0).

Definition mergeOptions (options : option CurrencyFormatOptions) : FormatOptions :=
  match options with
  | None => DEFAULT_FORMAT_OPTIONS
  | Some o =>
      mkOptions (o_digitsLarge o ?? digitsLarge DEFAULT_FORMAT_OPTIONS)
        (o_digitsSmall o ?? digitsSmall DEFAULT_FORMAT_OPTIONS)
        (o_abbreviate o ?? abbreviate DEFAULT_FORMAT_OPTIONS)
        (o_minimumNonZero o ?? minimumNonZero DEFAULT_FORMAT_OPTIONS)
  end.

(** The options of [Intl.NumberFormat] that the code sets. *)
Record IntlOptions := mkIntl {
  i_style : option jsstr;
  i_currency : option jsstr;
  i_currencyDisplay : option jsstr;
  i_notation : option jsstr;
  i_minimumFractionDigits : option Z;
  i_maximumFractionDigits : Z;
}.

(** [new Intl.NumberFormat(undefined, options).format(x)] and [Math.pow(10, n)] *)
Class Intl := {
  intl_format : IntlOptions -> number -> jsstr;
  pow10 : Z -> number;
}.

(** A power of ten is positive. *)
Class IntlLaws `{Intl} := {
  pow10_pos n : (-100 <= n <= 100)%Z -> num_gt (pow10 n) (num_of_Z 0) = true;
}.

Definition dot : jsstr := u ".".

(** [/(\.[0-9]*?)0+$/] and [/\.$/] *)
Definition zeros_re : re := rseq [RGroup 1 (RSeq (RStr dot) (RLazy (RCls is_digit))); RPlus (RChr 48); REnd].
Definition dot_end_re : re := RSeq (RStr dot) REnd.

Definition removeTrailingZeros (str : jsstr) : jsstr :=
  if negb (bool_decide (46 ∈ str)) then str
  else replace_first dot_end_re (fun _ => []) (replace_first zeros_re (fun m => group 1 m ?? []) str).

Definition formatNumberWithSuffix (value : number) (digitsLarge digitsSmall : Z) (abbreviate : bool) : jsstr :=
  let abs := num_abs value in
  if abbreviate && num_ge abs (num_of_Z 1000) then
    removeTrailingZeros (to_fixed 1 (value / num_of_Z 1000)%num) ++ u "k"
  else
    let digits := if num_ge abs (num_of_Z 1) then digitsLarge else digitsSmall in
    removeTrailingZeros (to_fixed digits value).

Section format.
Context `{Intl}.

Definition adjustForMinimum (value : number) (digits : Z) (minimumNonZero : number) : number :=
  if num_eq value (num_of_Z 0) then value
  else
    let threshold := if num_gt minimumNonZero (num_of_Z 0) then minimumNonZero else pow10 (- digits) in
    let abs := num_abs value in
    if num_gt abs (num_of_Z 0) && num_lt abs threshold then
      if num_gt value (num_of_Z 0) then threshold else num_opp threshold
    else value.

Definition formatCurrencyValue (value : number) (options : FormatOptions) (meta : DisplayMeta) : jsstr :=
  let digits := if num_ge (num_abs value) (num_of_Z 1) then digitsLarge options else digitsSmall options in
  let adjustedValue := adjustForMinimum value digits (minimumNonZero options) in
  match meta with
  | MTokens _ =>
      formatNumberWithSuffix value (digitsLarge options) (digitsSmall options) (abbreviate options)
  | MCurrency _ code _ =>
      intl_format (mkIntl (Some (u "currency")) (Some code) (Some (u "narrowSymbol")) None (Some 0%Z) digits) adjustedValue
  | MCustom symbol _ =>
      symbol ++ u " " ++ intl_format (mkIntl None None None None (Some 0%Z) digits) adjustedValue
  end.

(** The store's currency is the first argument. *)
Definition getCurrencyDisplay (stored : option StoredCurrency) : CurrencyConfig * DisplayMeta :=
  let config := getConfig stored in (config, getDisplayMeta config).

Definition formatCurrencyFromUSD (stored : option StoredCurrency) (amountUSD : option number)
    (options : option CurrencyFormatOptions) : jsstr :=
  match amountUSD with
  | Some amount =>
      if is_nan amount then u "-"
      else
        let '(config, meta) := getCurrencyDisplay stored in
        let merged := mergeOptions options in
        match meta with
        | MTokens _ =>
            formatNumberWithSuffix (amount * quotaPerUnit config)%num 0 (digitsSmall merged) (abbreviate merged)
        | MCurrency _ _ rate | MCustom _ rate => formatCurrencyValue (amount * rate)%num merged meta
        end
  | None => u "-"
  end.

Definition formatBillingCurrencyFromUSD (stored : option StoredCurrency) (amountUSD : option number)
    (options : option CurrencyFormatOptions) : jsstr :=
  match amountUSD with
  | Some amount =>
      if is_nan amount then u "-"
      else
        let meta := getBillingDisplayMeta (getCurrencyDisplay stored).1 in
        let value := match meta with
                     | MCurrency _ _ rate | MCustom _ rate => (amount * rate)%num
                     | MTokens _ => amount
                     end in
        formatCurrencyValue value (mergeOptions options) meta
  | None => u "-"
  end.

Definition formatQuotaWithCurrency (stored : option StoredCurrency) (quota : option number)
    (options : option CurrencyFormatOptions) : jsstr :=
  match quota with
  | Some q =>
      if is_nan q then u "-"
      else formatCurrencyFromUSD stored (Some (q / quotaPerUnit (getCurrencyDisplay stored).1)%num) options
  | None => u "-"
  end.

Definition formatLocalCurrencyAmount (stored : option StoredCurrency) (amount : option number)
    (options : option CurrencyFormatOptions) : jsstr :=
  match amount with
  | Some a =>
      if is_nan a then u "-"
      else formatCurrencyValue a (mergeOptions options) (getBillingDisplayMeta (getCurrencyDisplay stored).1)
  | None => u "-"
  end.

Definition getCurrencyLabel (stored : option StoredCurrency) : jsstr :=
  let '(config, meta) := getCurrencyDisplay stored in
  match meta with
  | MTokens _ => u "Tokens"
  | _ =>
      match quotaDisplayType config with
      | CNY => u "CNY"
      | CUSTOM => match meta with MCustom symbol _ => symbol | _ => u "Custom" end
      | _ => u "USD"
      end
  end.

Definition isCurrencyDisplayEnabled (stored : option StoredCurrency) : bool :=
  match (getCurrencyDisplay stored).2 with MTokens _ => false | _ => true end.

End format.

(** ** The configuration is usable *)

Definition positive (x : number) : bool := num_gt x (num_of_Z 0).

Lemma positive_or_positive x d : positive d = true -> positive (positive_or x d) = true.
Proof.
  intros Hd. destruct x as [v|]; [|done]. unfold positive_or.
  destruct (num_truthy v && num_gt v (num_of_Z 0)) eqn:E; [by apply andb_true_iff in E as [_ E]|done].
Qed.

Definition meta_rate (m : DisplayMeta) : number :=
  match m with MCurrency _ _ r | MCustom _ r => r | MTokens q => q end.

(** C39. Whatever the store holds, the configuration used for display has
    positive rates, a positive number of tokens per dollar and a symbol that is
    not blank; so has the way amounts are shown. *)
Theorem getConfig_usable stored :
  let c := getConfig stored in
  positive (quotaPerUnit c) = true /\ positive (usdExchangeRate c) = true /\
  positive (customCurrencyExchangeRate c) = true /\ trim (customCurrencySymbol c) <> [] /\
  positive (meta_rate (getDisplayMeta c)) = true /\ positive (meta_rate (getBillingDisplayMeta c)) = true.
Proof.
  cbn zeta. set (c := getConfig stored).
  assert (positive (quotaPerUnit c) = true) as H1 by by apply positive_or_positive.
  assert (positive (usdExchangeRate c) = true) as H2 by by apply positive_or_positive.
  assert (positive (customCurrencyExchangeRate c) = true) as H3 by by apply positive_or_positive.
  split_and!; [done..| | |].
  - unfold c, getConfig. cbn [customCurrencySymbol]. unfold or_str.
    destruct (st_customCurrencySymbol _) as [s|]; [|done]. destruct (trim s) eqn:E; [done|].
    cbn [truthy]. rewrite <-E, trim_idemp, E. done.
  - unfold getDisplayMeta. by destruct (quotaDisplayType c).
  - unfold getBillingDisplayMeta, getDisplayMeta. by destruct (quotaDisplayType c).
Qed.

(** A display type read from the server is one of the four; any other value
    gives the fallback. *)
Lemma parse_display_type v d :
  parseCurrencyDisplayType v d = d \/ JStr (type_name (parseCurrencyDisplayType v d)) = v.
Proof.
  destruct v; cbn [parseCurrencyDisplayType]; try by left.
  destruct (List.find _ _) as [t|] eqn:E; [|by left]. right.
  apply List.find_some in E as [_ E%bool_decide_eq_true]. by rewrite <-E.
Qed.

(** ** Billing amounts *)

Section formats.
Context `{Intl}.

(** The store with another display type. *)
Definition with_type (t : CurrencyDisplayType) (stored : option StoredCurrency) : option StoredCurrency :=
  Some (spread_currency (stored ?? stored_of DEFAULT_CURRENCY_CONFIG) (mkStored None (Some t) None None None None)).

Lemma getConfig_with_type t stored :
  getConfig (with_type t stored) =
  let c := getConfig stored in
  mkCurrency (displayInCurrency c) t (quotaPerUnit c) (usdExchangeRate c) (customCurrencySymbol c)
    (customCurrencyExchangeRate c).
Proof.
  unfold with_type, getConfig. cbn [coalesce default]. destruct (stored ?? _) as [a b c d e f].
  unfold spread_currency. cbn. by destruct a, b, c, d, e, f.
Qed.

(** Billing amounts are never shown as tokens: under the token display they
    are the dollar amounts, and under every other display the amounts that
    balances are shown with. *)
Theorem billing_amounts stored amount options :
  formatBillingCurrencyFromUSD stored amount options =
  match quotaDisplayType (getConfig stored) with
  | TOKENS => formatCurrencyFromUSD (with_type USD stored) amount options
  | _ => formatCurrencyFromUSD stored amount options
  end.
Proof.
  unfold formatBillingCurrencyFromUSD, formatCurrencyFromUSD, getCurrencyDisplay, getBillingDisplayMeta, getDisplayMeta.
  rewrite getConfig_with_type. cbn [fst quotaDisplayType].
  destruct amount as [a|]; [|by destruct (quotaDisplayType _)].
  destruct (is_nan a); [by destruct (quotaDisplayType _)|].
  by destruct (quotaDisplayType (getConfig stored)) eqn:E; rewrite ?E.
Qed.

(** ** Small amounts *)

Definition threshold (digits : Z) (minimum : number) : number :=
  if num_gt minimum (num_of_Z 0) then minimum else pow10 (- digits).

Lemma threshold_positive `{!IntlLaws} digits minimum :
  (0 <= digits <= 100)%Z -> positive (threshold digits minimum) = true.
Proof.
  intros Hd. unfold threshold. destruct (num_gt minimum _) eqn:E; [done|]. apply pow10_pos. lia.
Qed.

(** A non-zero amount is never shown below the smallest amount the digits
    can show: it keeps its sign, its magnitude is at least the threshold, and
    an amount that is large enough, or zero, is not changed. *)
Theorem adjustForMinimum_spec `{!IntlLaws} value digits minimum :
  (0 <= digits <= 100)%Z -> is_nan value = false ->
  let r := adjustForMinimum value digits minimum in
  num_gt r (num_of_Z 0) = num_gt value (num_of_Z 0) /\ num_lt r (num_of_Z 0) = num_lt value (num_of_Z 0) /\
  (num_eq value (num_of_Z 0) = false -> num_lt (num_abs r) (threshold digits minimum) = false) /\
  (num_eq value (num_of_Z 0) = true \/ num_lt (num_abs value) (threshold digits minimum) = false -> r = value).
Proof.
  intros Hd Hn r. pose proof (threshold_positive digits minimum Hd) as Ht. unfold r, adjustForMinimum.
  change (if num_gt minimum (num_of_Z 0) then minimum else pow10 (- digits)) with (threshold digits minimum).
  set (t := threshold digits minimum) in *. clearbody t. cbn zeta.
  destruct (num_eq value (num_of_Z 0)) eqn:E0; [done|].
  destruct (num_lt (num_abs value) t) eqn:Hlt; rewrite ?andb_false_r, ?andb_true_r; [|done].
  assert (num_gt (num_abs value) (num_of_Z 0) = true) as ->
    by (clear -E0 Hn; by destruct value as [[]|[]| |[] ? ?]).
  assert (num_abs t = t /\ num_abs (num_opp t) = t) as [Ha Hb] by (clear -Ht; by destruct t as [[]|[]| |[] ? ?]).
  destruct (num_gt value (num_of_Z 0)) eqn:Hg; rewrite ?Ha, ?Hb; split_and!;
    try (intros _; apply num_lt_irrefl); try (intros [?|?]; done);
    clear -Ht Hg E0 Hn; destruct t as [[]|[]| |[] ? ?], value as [[]|[]| |[] ? ?]; done.
Qed.

End formats.

(** An instance for examples: the numeral without grouping or symbol. *)
#[local] Instance sample_intl : Intl := {|
  intl_format o x := to_fixed (i_maximumFractionDigits o) x;
  pow10 n := num_of_decimal 1 n;
|}.

#[local] Instance sample_intl_laws : IntlLaws.
Proof.
  split. intros n Hn. cbn [pow10 sample_intl].
  assert (forallb (fun n => num_gt (num_of_decimal 1 n) (num_of_Z 0)) (seqZ (-100) 201) = true) as H by (vm_compute; reflexivity).
  rewrite forallb_forall in H. apply H, list_elem_of_In, elem_of_seqZ. lia.
Qed.

Lemma adjustForMinimum_spec_witness :
  (0 <= 4 <= 100)%Z /\ is_nan (num_of_decimal (-3) (-6)) = false /\
  num_lt (num_abs (adjustForMinimum (num_of_decimal (-3) (-6)) 4 (num_of_Z 0))) (threshold 4 (num_of_Z 0)) = false.
Proof.
  split; [lia|]. split; [reflexivity|].
  destruct (adjustForMinimum_spec (num_of_decimal (-3) (-6)) 4 (num_of_Z 0)) as (_ & _ & Hmin & _); [lia|reflexivity|].
  apply Hmin. vm_compute. reflexivity.
Defined.

(** ** Trailing zeros *)

Definition is_zero_char (c : N) : bool := c =? 48.

Lemma zeros_to_end k b t cs :
  rmatch (RPlus (RChr 48)) (rmatch REnd k) (mkSt b t cs) =
  if truthy t && forallb is_zero_char t then k (mkSt (rev t ++ b) [] cs) else None.
Proof.
  destruct t as [|c t]; [done|]. unfold RChr. rewrite rmatch_plus_cls. cbn [truthy forallb andb].
  change (is_zero_char c) with (c =? 48). destruct (c =? 48); [|done]. cbn [andb rev]. rewrite <-app_assoc. cbn [app].
  generalize (c :: b). clear b c. induction t as [|c t IH]; intros b; cbn [greedy forallb]; [done|].
  change (is_zero_char c) with (c =? 48). destruct (c =? 48); [|done]. rewrite IH. cbn [andb rev]. rewrite <-app_assoc. cbn [app].
  destruct (forallb is_zero_char t); [|done]. by destruct (k _).
Qed.

Lemma no_dot_no_match r s b : 
  (forall c, head s = Some c -> c <> 46) -> rmatch (RStr dot) r (mkSt b s []) = None.
Proof.
  intros Hs. rewrite rmatch_str. cbn [after]. destruct s as [|c s]; [done|].
  specialize (Hs c eq_refl). change dot with [46]. cbn [starts_with].
  by rewrite (proj2 (N.eqb_neq 46 c)).
Qed.

Lemma search_to_dot r a t :
  (forall b c s, c <> 46 -> rmatch r Some (mkSt b (c :: s) []) = None) -> 46 ∉ a ->
  forall b, search r b (a ++ t) = search r (rev a ++ b) t.
Proof.
  intros Hr. induction a as [|c a IH]; intros Ha b; [done|]. cbn [app rev]. rewrite search_skip.
  - rewrite IH by set_solver. by rewrite <-app_assoc.
  - intros b'. apply Hr. intros ->. apply Ha. left.
Qed.

Lemma zeros_skip b c s : c <> 46 -> rmatch zeros_re Some (mkSt b (c :: s) []) = None.
Proof. intros Hc. apply (no_dot_no_match _ (c :: s)). by intros x [= <-]. Qed.

Lemma dot_skip b c s : c <> 46 -> rmatch dot_end_re Some (mkSt b (c :: s) []) = None.
Proof. intros Hc. apply (no_dot_no_match _ (c :: s)). by intros x [= <-]. Qed.

Lemma search_no_dot r s :
  (forall b c s, c <> 46 -> rmatch r Some (mkSt b (c :: s) []) = None) ->
  (forall b, rmatch r Some (mkSt b [] []) = None) -> 46 ∉ s -> forall b, search r b s = None.
Proof.
  intros Hr H0 Hs b. rewrite <-(app_nil_r s), search_to_dot by done. cbn [search]. unfold start_state. by rewrite H0.
Qed.

Lemma digits_no_dot b : forallb is_digit b = true -> 46 ∉ b.
Proof. rewrite forallb_forall. intros H Hin%list_elem_of_In. by specialize (H _ Hin). Qed.

(** The fraction [b] followed by [n] zeros, read from its dot. *)
Section fraction.
Context (b : jsstr) (Hb : forallb is_digit b = true) (Hl : last b <> Some 48).

Lemma zeros_at_dot l n :
  (forall b1 b2 bb cs, b = b1 ++ b2 -> b2 <> [] ->
     rmatch (RPlus (RChr 48)) (rmatch REnd Some) (mkSt bb (b2 ++ repeat 48 n) cs) = None) /\
  ((0 < n)%nat -> exists m, rmatch zeros_re Some (mkSt l (dot ++ b ++ repeat 48 n) []) = Some m /\
                            after m = [] /\ group 1 m = Some (dot ++ b)).
Proof.
  assert (forall b1 b2 bb cs, b = b1 ++ b2 -> b2 <> [] ->
     rmatch (RPlus (RChr 48)) (rmatch REnd Some) (mkSt bb (b2 ++ repeat 48 n) cs) = None) as Hn.
  { intros b1 b2 bb cs E Hne. rewrite zeros_to_end.
    destruct (truthy _ && forallb is_zero_char (b2 ++ repeat 48 n)) eqn:E'; [|done]. exfalso.
    apply andb_true_iff in E' as [_ E']. rewrite forallb_app, andb_true_iff in E'. destruct E' as [E' _].
    rewrite E, last_app in Hl. destruct (last b2) as [c|] eqn:Hc; [|by apply last_None in Hc].
    rewrite forallb_forall in E'. apply last_Some_elem_of, list_elem_of_In in Hc. apply E' in Hc.
    unfold is_zero_char in Hc. apply N.eqb_eq in Hc as ->. done. }
  split; [done|]. intros Hpos. set (st := mkSt l (dot ++ b ++ repeat 48 n) []).
  set (K := fun st' => rmatch (RPlus (RChr 48)) (rmatch REnd Some) (capture 1 st st')).
  change (rmatch zeros_re Some st) with (rmatch (RStr dot) (rmatch (RLazy (RCls is_digit)) K) st).
  unfold st. rewrite rmatch_str_app, rmatch_lazy_cls. eexists. split.
  - apply lazily_first; [done| |intros a1 a2 E Hne; by eapply Hn].
    unfold K, capture, set_caps. cbn [before after caps]. rewrite zeros_to_end.
    assert (forallb is_zero_char (repeat 48 n) = true) as ->.
    { apply forallb_forall. intros c Hc%repeat_spec. by subst. }
    assert (truthy (repeat 48 n) = true) as -> by (by destruct n; [lia|]). reflexivity.
  - split; [done|]. unfold group. cbn [caps map_set map_get]. rewrite decide_True by done. f_equal.
    unfold consumed, st. cbn [after]. rewrite app_assoc, length_app, Nat.add_sub. apply take_app_length.
Qed.

Lemma no_zeros_at_dot l : rmatch zeros_re Some (mkSt l (dot ++ b) []) = None.
Proof.
  destruct (zeros_at_dot l 0) as [Hn _]. set (st := mkSt l (dot ++ b) []).
  set (K := fun st' => rmatch (RPlus (RChr 48)) (rmatch REnd Some) (capture 1 st st')).
  change (rmatch zeros_re Some st) with (rmatch (RStr dot) (rmatch (RLazy (RCls is_digit)) K) st).
  unfold st. rewrite rmatch_str_app, rmatch_lazy_cls.
  assert (forall b1 b2 bb, b = b1 ++ b2 -> lazily is_digit K bb b2 [] = None) as H; [|by apply (H [] b)].
  intros b1 b2. revert b1. induction b2 as [|c b2 IH]; intros b1 bb E; cbn [lazily].
  - done.
  - assert (K (mkSt bb (c :: b2) []) = None) as ->.
    { unfold K, capture, set_caps. cbn [before after caps]. cbn [repeat] in Hn. specialize (Hn b1 (c :: b2)).
      rewrite app_nil_r in Hn. by apply Hn. }
    destruct (is_digit c); [|done]. apply (IH (b1 ++ [c])). by rewrite <-app_assoc.
Qed.

(** The first replacement removes the zeros. *)
Lemma remove_zeros a n :
  46 ∉ a -> replace_first zeros_re (fun m => group 1 m ?? []) (a ++ dot ++ b ++ repeat 48 n) = a ++ dot ++ b.
Proof.
  intros Ha. unfold replace_first. rewrite search_to_dot by (exact zeros_skip || done). destruct n as [|n].
  - cbn [repeat]. rewrite (app_nil_r b).
    assert (search zeros_re (rev a ++ []) (46 :: b) = None) as E; [|by rewrite (E : search _ _ (dot ++ b) = _)].
    rewrite search_skip by apply no_zeros_at_dot.
    apply search_no_dot; [exact zeros_skip|done|by apply digits_no_dot].
  - destruct (zeros_at_dot (rev a ++ []) (S n)) as [_ (m & Hm & Ha' & Hg)]; [lia|].
    assert (search zeros_re (rev a ++ []) (dot ++ b ++ repeat 48 (S n)) =
            Some (start_state (rev a ++ []) (dot ++ b ++ repeat 48 (S n)), m)) as ->.
    { change (dot ++ b ++ repeat 48 (S n)) with (46 :: b ++ repeat 48 (S n)) in *. cbn [search]. unfold start_state. by rewrite Hm. }
    cbn [start_state after]. rewrite Hg, Ha', app_nil_r. change (Some ?x ?? ?y) with x. f_equal.
    rewrite length_app, Nat.add_sub. apply take_app_length.
Qed.

(** The second one removes a dot at the end. *)
Lemma remove_dot a :
  46 ∉ a -> replace_first dot_end_re (fun _ => []) (a ++ dot ++ b) = a ++ (if truthy b then dot ++ b else []).
Proof.
  intros Ha. unfold replace_first. rewrite search_to_dot by (exact dot_skip || done). destruct b as [|c b'] eqn:E.
  - change (search dot_end_re (rev a ++ []) (dot ++ [])) with
      (Some (start_state (rev a ++ []) (dot ++ []), mkSt (46 :: rev a ++ []) [] [])).
    cbn [start_state after truthy]. rewrite length_app, Nat.add_sub, take_app_length. done.
  - rewrite <-E in *. assert (search dot_end_re (rev a ++ []) (46 :: b) = None) as E'.
    { rewrite search_skip by (intros l; by rewrite E). apply search_no_dot; [exact dot_skip|done|by apply digits_no_dot]. }
    rewrite (E' : search _ _ (dot ++ b) = _). by rewrite E.
Qed.

End fraction.

(** Trailing zeros: a numeral with a fraction loses the zeros at its end,
    and its dot when nothing is left behind it; the digits before the dot and a
    numeral without a dot stay as they are. *)
Theorem removeTrailingZeros_spec a b n :
  46 ∉ a -> forallb is_digit b = true -> last b <> Some 48 ->
  removeTrailingZeros (a ++ dot ++ b ++ repeat 48 n) = a ++ (if truthy b then dot ++ b else []) /\
  removeTrailingZeros a = a.
Proof.
  intros Ha Hb Hl. unfold removeTrailingZeros. rewrite (bool_decide_eq_false_2 (46 ∈ a)) by done. split; [|done].
  rewrite bool_decide_eq_true_2 by (change dot with [46]; set_solver). cbn [negb].
  rewrite (remove_zeros b Hb Hl) by done. by apply (remove_dot b Hb).
Qed.

Lemma removeTrailingZeros_spec_witness :
  removeTrailingZeros (u "-12" ++ dot ++ u "305" ++ repeat 48 3) = u "-12.305".
Proof.
  destruct (removeTrailingZeros_spec (u "-12") (u "305") 3) as [E _].
  - intros H%list_elem_of_In. vm_compute in H. intuition discriminate.
  - reflexivity.
  - discriminate.
  - exact E.
Defined.

(** Below the thousand an amount keeps its sign even when it rounds to zero. *)
Example negative_zero_shown : formatNumberWithSuffix (num_of_decimal (-1) (-9)) 2 4 true = u "-0".
Proof. vm_compute. reflexivity. Qed.

(** In the token display ten dollars at 500000 tokens per dollar are shown
    as 5000k, and in a currency of one's own a blank separates the symbol: the
    documented outputs are 5,000,000 and the symbol next to the amount. *)
Theorem documented_outputs_differ :
  formatCurrencyFromUSD (with_type TOKENS None) (Some (num_of_Z 10)) None = u "5000k" /\
  formatCurrencyFromUSD (Some (mkStored None (Some CUSTOM) None None (Some [8364]) (Some (num_of_decimal 9 (-1)))))
    (Some (num_of_Z 10)) (Some (mkFormat (Some 0%Z) None None None)) = [8364] ++ u " 9".
Proof. split; vm_compute; reflexivity. Qed.

End Currency.
