(* ===== verification/Format.v ===== *)
(** * Numbers, quotas and colours in text
    (web/default/src/lib/format.ts)

    Locale-dependent formats go through the class [Intl] of [Currency]; the
    calendar library is the class [Dayjs].  The hash behind a tag's colour is
    computed on 32-bit integers, as the bit operators of the language do. *)

From S2P Require Import Prelude JsString JsNumber JsJson JsRegex Currency.

Import Currency.
Open Scope Z_scope.

Module Format.

(** [dayjs(ms).format(pattern)] *)
Class Dayjs := { dayjs_format : number -> jsstr -> jsstr }.

(** ** Numbers *)

Section numbers.
Context `{Intl}.

Definition formatNumber (value : option number) : jsstr :=
  match value with
  | Some v => if is_nan v then u "-" else intl_format (mkIntl None None None None None 2) v
  | None => u "-"
  end.

Definition formatCompactNumber (value : option number) : jsstr :=
  match value with
  | Some v => if is_nan v then u "-" else intl_format (mkIntl None None None (Some (u "compact")) None 1) v
  | None => u "-"
  end.

Definition formatPercent (value : option number) : jsstr :=
  match value with
  | Some v =>
      if is_nan v then u "-"
      else intl_format (mkIntl (Some (u "percent")) None None None None 2) (v / num_of_Z 100)%num
  | None => u "-"
  end.

Definition formatCurrencyUSD (stored : option StoredCurrency) (value : option number) : jsstr :=
  formatCurrencyFromUSD stored value None.

(** ** Quotas *)

Definition formatQuota (stored : option StoredCurrency) (quota : number) : jsstr :=
  formatQuotaWithCurrency stored (Some quota) (Some (mkFormat (Some 2) (Some 4) (Some true) None)).

Definition formatLogQuota (stored : option StoredCurrency) (quota : number) : jsstr :=
  formatQuotaWithCurrency stored (Some quota) (Some (mkFormat (Some 4) (Some 6) (Some false) None)).

End numbers.

Definition parseQuotaFromDollars (stored : option StoredCurrency) (amount : number) : number :=
  if negb (is_finite amount) then num_of_Z 0
  else
    let '(config, meta) := getCurrencyDisplay stored in
    match meta with
    | MTokens _ => num_round amount
    | MCurrency _ _ exchangeRate | MCustom _ exchangeRate =>
        let usdAmount := if num_gt exchangeRate (num_of_Z 0) then (amount / exchangeRate)%num else amount in
        num_round (usdAmount * quotaPerUnit config)%num
    end.

Definition quotaUnitsToDollars (stored : option StoredCurrency) (units : number) : number :=
  let '(config, meta) := getCurrencyDisplay stored in
  match meta with
  | MTokens _ => units
  | MCurrency _ _ exchangeRate | MCustom _ exchangeRate => (units / quotaPerUnit config * exchangeRate)%num
  end.

(** ** Times *)

Inductive TimeUnit := seconds | milliseconds.

Section times.
Context `{Dayjs}.

Definition formatTimestampToDate (timestamp : option number) (unit : TimeUnit) : jsstr :=
  match timestamp with
  | Some t =>
      if negb (num_truthy t) || num_eq t (num_of_Z (-1)) || num_eq t (num_of_Z 0) then u "-"
      else
        let ms := match unit with seconds => (t * num_of_Z 1000)%num | milliseconds => t end in
        dayjs_format ms (u "YYYY-MM-DD HH:mm:ss")
  | None => u "-"
  end.

Definition formatTimestamp (timestamp : number) : jsstr :=
  if num_eq timestamp (num_of_Z (-1)) then u "Never" else formatTimestampToDate (Some timestamp) seconds.

Definition formatTimestampForInput (timestamp : number) : jsstr :=
  if num_eq timestamp (num_of_Z (-1)) then []
  else dayjs_format (timestamp * num_of_Z 1000)%num (u "YYYY-MM-DDTHH:mm").

End times.

Definition formatTokens (tokens : number) : jsstr :=
  if num_eq tokens (num_of_Z 0) then u "-"
  else if num_lt tokens (num_of_Z 1000) then num_to_str tokens
  else if num_lt tokens (num_of_Z 1000000) then to_fixed 1 (tokens / num_of_Z 1000)%num ++ u "K"
  else to_fixed 2 (tokens / num_of_Z 1000000)%num ++ u "M".

Definition formatUseTime (secs : number) : jsstr :=
  if num_lt secs (num_of_Z 60) then to_fixed 1 secs ++ u "s"
  else
    let minutes := num_floor (secs / num_of_Z 60)%num in
    let remainingSeconds := num_rem secs (num_of_Z 60) in
    num_to_str minutes ++ u "m " ++ to_fixed 0 remainingSeconds ++ u "s".

(** ** Colours *)

(** The conversion to a 32-bit integer that the bit operators make. *)
Definition to_int32 (z : Z) : Z := (z + 2 ^ 31) mod 2 ^ 32 - 2 ^ 31.

(** [a << n], [a >> n] and [a & b] *)
Definition int_shl (a n : Z) : Z := to_int32 (Z.shiftl (to_int32 a) n).
Definition int_sar (a n : Z) : Z := Z.shiftr (to_int32 a) n.
Definition int_and (a b : Z) : Z := to_int32 (Z.land (to_int32 a) (to_int32 b)).

Definition hash_step (hash : Z) (code : N) : Z :=
  let hash := Z.of_N code + (int_shl hash 5 - hash) in int_and hash hash.

Definition string_hash (str : jsstr) : Z := foldl hash_step 0 str.

(** [a % b] has the sign of [a]. *)
Definition color_hue (hash : Z) : Z := Z.abs (Z.rem hash 360).
Definition color_saturation (hash : Z) : Z := 65 + Z.rem (Z.abs hash) 10.
Definition color_lightness (hash : Z) : Z := 55 + Z.rem (Z.abs (int_sar hash 8)) 10.

Definition int_text (z : Z) : jsstr := (if z <? 0 then u "-" else []) ++ N_to_str (Z.abs_N z).

Definition stringToColor (str : jsstr) : jsstr :=
  if negb (truthy str) then u "gray"
  else
    let hash := string_hash str in
    u "hsl(" ++ int_text (color_hue hash) ++ u ", " ++ int_text (color_saturation hash) ++ u "%, " ++
    int_text (color_lightness hash) ++ u "%)".

(** ** Theorems *)

Lemma to_int32_range z : - 2 ^ 31 <= to_int32 z < 2 ^ 31.
Proof. unfold to_int32. pose proof (Z.mod_pos_bound (z + 2 ^ 31) (2 ^ 32) ltac:(lia)). lia. Qed.

Lemma to_int32_id z : - 2 ^ 31 <= z < 2 ^ 31 -> to_int32 z = z.
Proof. intros H. unfold to_int32. rewrite Z.mod_small; lia. Qed.

Lemma to_int32_mod z : (to_int32 z) mod 2 ^ 32 = z mod 2 ^ 32.
Proof.
  unfold to_int32. rewrite Zminus_mod_idemp_l.
  f_equal. lia.
Qed.

Lemma int_and_self z : int_and z z = to_int32 z.
Proof. unfold int_and. rewrite Z.land_diag. apply to_int32_id, to_int32_range. Qed.

(** The hash without the limit of 32 bits. *)
Definition exact_hash (str : jsstr) : Z := foldl (fun h c => Z.of_N c + 31 * h) 0 str.

Lemma hash_step_mod h h' c : h mod 2 ^ 32 = h' mod 2 ^ 32 -> hash_step h c mod 2 ^ 32 = (Z.of_N c + 31 * h') mod 2 ^ 32.
Proof.
  intros E. unfold hash_step. cbn zeta. rewrite int_and_self, to_int32_mod.
  rewrite <-Zplus_mod_idemp_r. rewrite (Zminus_mod (int_shl h 5)). unfold int_shl. rewrite to_int32_mod, Z.shiftl_mul_pow2 by lia.
  rewrite <-Zmult_mod_idemp_l, to_int32_mod, Zmult_mod_idemp_l, <-Zminus_mod.
  replace (h * 2 ^ 5 - h) with (31 * h) by lia.
  rewrite <-Zmult_mod_idemp_r, E, Zmult_mod_idemp_r, Zplus_mod_idemp_r. done.
Qed.

Lemma foldl_hash str : forall h h', h mod 2 ^ 32 = h' mod 2 ^ 32 -> - 2 ^ 31 <= h < 2 ^ 31 ->
  foldl hash_step h str mod 2 ^ 32 = foldl (fun h c => Z.of_N c + 31 * h) h' str mod 2 ^ 32 /\
  - 2 ^ 31 <= foldl hash_step h str < 2 ^ 31.
Proof.
  induction str as [|c str IH]; intros h h' E Hr; [done|]. cbn [foldl]. apply IH.
  - by apply hash_step_mod.
  - unfold hash_step. cbn zeta. rewrite int_and_self. apply to_int32_range.
Qed.

(** The hash behind a colour is the polynomial hash with factor 31 reduced
    to a signed 32-bit integer: intermediate overflow does not change it. *)
Theorem string_hash_spec str : string_hash str = to_int32 (exact_hash str) /\ - 2 ^ 31 <= string_hash str < 2 ^ 31.
Proof.
  destruct (foldl_hash str 0 0 eq_refl ltac:(lia)) as [E R]. split; [|exact R].
  fold (string_hash str) in E, R. fold (exact_hash str) in E.
  rewrite <-(to_int32_id (string_hash str)) by exact R. unfold to_int32. f_equal.
  rewrite <-Zplus_mod_idemp_l, E, Zplus_mod_idemp_l. done.
Qed.

(** A colour is always valid: the hue is below 360 degrees, and saturation
    and lightness stay in 65..74 and 55..64 percent, for every text. *)
Theorem color_bounds str :
  let h := string_hash str in
  0 <= color_hue h < 360 /\ 65 <= color_saturation h <= 74 /\ 55 <= color_lightness h <= 64.
Proof.
  cbn zeta. unfold color_hue, color_saturation, color_lightness.
  pose proof (Z.rem_bound_abs (string_hash str) 360 ltac:(lia)).
  pose proof (Z.rem_bound_pos (Z.abs (string_hash str)) 10 ltac:(lia) ltac:(lia)).
  pose proof (Z.rem_bound_pos (Z.abs (int_sar (string_hash str) 8)) 10 ltac:(lia) ltac:(lia)). lia.
Qed.

(** Just below a change of unit the rounded text overflows its unit: 119.6
    seconds are shown as one minute and 60 seconds, and 999999 tokens as
    1000.0K. *)
Theorem rounding_overflows_unit :
  formatUseTime (num_of_decimal 1196 (-1)) = u "1m 60s" /\ formatTokens (num_of_Z 999999) = u "1000.0K".
Proof. split; vm_compute; reflexivity. Qed.

End Format.
