(* ===== verification/PricingModels.v ===== *)
(** * The model catalogue  (web/default/src/features/pricing: types.ts,
    constants.ts, lib/model-type.ts, lib/model-helpers.ts, lib/filters.ts)

    Model types derived from endpoints, standard prices, the facets of the
    catalogue page with their counts, and its filter and sort.

    Case mapping and collation come from the platform's locale data: they are
    the operations of the class [Locale]. *)

From S2P Require Import Prelude JsString JsNumber JsJson.

Open Scope Z_scope.

(** [String.prototype.toLowerCase] and [localeCompare] *)
Class Locale := {
  toLowerCase : jsstr -> jsstr;
  localeCompare : jsstr -> jsstr -> Z;
}.

Module Pricing.

(** ** Types and constants *)

Record PricingVendor := mkVendor {
  vn_id : Z;
  vn_name : jsstr;
  vn_icon : option jsstr;
  vn_description : option jsstr;
  vn_description_key : option jsstr;
}.

Record PricingModel := mkModel {
  pm_id : Z;
  model_name : jsstr;
  description : option jsstr;
  description_key : option jsstr;
  pm_icon : option jsstr;
  vendor_id : option Z;
  vendor_name : option jsstr;
  vendor_icon : option jsstr;
  vendor_description : option jsstr;
  vendor_description_key : option jsstr;
  quota_type : Z;
  model_ratio : number;
  completion_ratio : number;
  model_price : option number;
  cache_ratio : option number;
  create_cache_ratio : option number;
  image_ratio : option number;
  audio_ratio : option number;
  audio_completion_ratio : option number;
  enable_groups : list jsstr;
  tags : option jsstr;
  supported_endpoint_types : option (list jsstr);
  pm_key : option jsstr;
  group_ratio : option (list (jsstr * number));
  billing_mode : option jsstr;
  billing_expr : option jsstr;
  pricing_version : option jsstr;
}.

Record EnrichedPricingModel := mkEnriched {
  base : PricingModel;
  promptPriceUsdPerM : number;
  completionPriceUsdPerM : number;
}.

Inductive TokenUnit := unit_M | unit_K.

Inductive PriceType :=
| price_input | price_output | price_cache | price_create_cache
| price_image | price_audio_input | price_audio_output.

#[global] Instance price_type_eq_dec : EqDecision PriceType.
Proof. solve_decision. Defined.

Definition SORT_NAME : jsstr := u "name".
Definition SORT_PRICE_LOW : jsstr := u "price-low".
Definition SORT_PRICE_HIGH : jsstr := u "price-high".
Definition FILTER_ALL : jsstr := u "all".
Definition QUOTA_TYPES_ALL : jsstr := u "all".
Definition QUOTA_TYPES_TOKEN : jsstr := u "token".
Definition QUOTA_TYPES_REQUEST : jsstr := u "request".

Definition ENDPOINT_TYPES : list (jsstr * jsstr) :=
  [(u "ALL", u "all");
   (u "OPENAI", u "openai");
   (u "OPENAI_RESPONSE", u "openai-response");
   (u "ANTHROPIC", u "anthropic");
   (u "GEMINI", u "gemini");
   (u "GEMINI_EMBEDDING", u "gemini-embedding");
   (u "JINA_RERANK", u "jina-rerank");
   (u "IMAGE_GENERATION", u "image-generation");
   (u "EMBEDDINGS", u "embeddings");
   (u "OPENAI_VIDEO", u "openai-video");
   (u "AUDIO", u "audio");
   (u "AUDIO_TTS", u "audio-tts");
   (u "AUDIO_STT", u "audio-stt");
   (u "AUDIO_SPEECH_TO_SPEECH", u "audio-speech-to-speech");
   (u "AUDIO_SFX", u "audio-sfx");
   (u "AUDIO_MUSIC", u "audio-music");
   (u "AUDIO_ISOLATION", u "audio-isolation");
   (u "AUDIO_ALIGNMENT", u "audio-alignment");
   (u "MODEL_3D", u "model-3d");
   (u "MODEL_3D_TEXT", u "model-3d-text");
   (u "MODEL_3D_IMAGE", u "model-3d-image");
   (u "MODEL_3D_MULTI_IMAGE", u "model-3d-multi-image");
   (u "MODEL_3D_POST_PROCESS", u "model-3d-post-process");
   (u "MODEL_3D_ANIMATION", u "model-3d-animation");
   (u "MODEL_3D_REMESH", u "model-3d-remesh");
   (u "MODEL_3D_CONVERT", u "model-3d-convert");
   (u "MODEL_3D_RESIZE", u "model-3d-resize");
   (u "MODEL_3D_RETEXTURE", u "model-3d-retexture");
   (u "MODEL_3D_RIGGING", u "model-3d-rigging");
   (u "MODEL_3D_CHARACTER_ANIMATION", u "model-3d-character-animation")].

(** [ENDPOINT_TYPES.k] *)
Definition endpoint (k : jsstr) : jsstr := map_get k ENDPOINT_TYPES ?? [].

Definition ENDPOINT_ALL : jsstr := endpoint (u "ALL").
Definition GEMINI_EMBEDDING : jsstr := endpoint (u "GEMINI_EMBEDDING").
Definition JINA_RERANK : jsstr := endpoint (u "JINA_RERANK").
Definition IMAGE_GENERATION : jsstr := endpoint (u "IMAGE_GENERATION").
Definition EMBEDDINGS : jsstr := endpoint (u "EMBEDDINGS").
Definition OPENAI_VIDEO : jsstr := endpoint (u "OPENAI_VIDEO").

Definition QUOTA_TOKEN : Z := 0.
Definition QUOTA_REQUEST : Z := 1.
Definition EXCLUDED_GROUPS : list jsstr := [[]; u "auto"].

Definition TOKEN_UNIT_DIVISORS (t : TokenUnit) : number :=
  match t with unit_M => num_of_Z 1 | unit_K => num_of_Z 1000 end.

(** ** Model types (lib/model-type.ts) *)

Inductive ModelTypeValue :=
| IMAGE | EMBEDDING | RERANK | VIDEO | AUDIO | MODEL_3D | CHAT.

#[global] Instance model_type_eq_dec : EqDecision ModelTypeValue.
Proof. solve_decision. Defined.

Definition model_type_label (t : ModelTypeValue) : jsstr :=
  match t with
  | IMAGE => u "Image" | EMBEDDING => u "Embedding" | RERANK => u "Rerank"
  | VIDEO => u "Video" | AUDIO => u "Audio" | MODEL_3D => u "3D" | CHAT => u "Chat"
  end.

Definition CHAT_ENDPOINT_TYPES : list jsstr :=
  map endpoint [u "OPENAI"; u "OPENAI_RESPONSE"; u "ANTHROPIC"; u "GEMINI"].

Definition AUDIO_ENDPOINT_TYPES : list jsstr :=
  map endpoint [u "AUDIO"; u "AUDIO_TTS"; u "AUDIO_STT"; u "AUDIO_SPEECH_TO_SPEECH"; u "AUDIO_SFX";
     u "AUDIO_MUSIC"; u "AUDIO_ISOLATION"; u "AUDIO_ALIGNMENT"].

Definition MODEL_3D_ENDPOINT_TYPES : list jsstr :=
  map endpoint [u "MODEL_3D"; u "MODEL_3D_TEXT"; u "MODEL_3D_IMAGE"; u "MODEL_3D_MULTI_IMAGE"; u
     "MODEL_3D_POST_PROCESS"; u "MODEL_3D_ANIMATION"; u "MODEL_3D_REMESH"; u "MODEL_3D_CONVERT"; u
     "MODEL_3D_RESIZE"; u "MODEL_3D_RETEXTURE"; u "MODEL_3D_RIGGING"; u
     "MODEL_3D_CHARACTER_ANIMATION"].

Definition MODEL_TYPE_DISPLAY_ORDER : list ModelTypeValue :=
  [IMAGE; EMBEDDING; RERANK; VIDEO; AUDIO; MODEL_3D; CHAT].

(** [typeof x === 'number' && x > 0] *)
Definition positive (x : option number) : bool :=
  match x with Some n => num_gt n (num_of_Z 0) | None => false end.

Definition hasPositiveAudioRatio (m : PricingModel) : bool :=
  positive (audio_ratio m) || positive (audio_completion_ratio m).

Definition some_in (set : list jsstr) (l : list jsstr) : bool := existsb (fun e => includes set e) l.

(** [if (b) matched.add(t)] *)
Definition add_if (b : bool) (t : ModelTypeValue) (matched : list ModelTypeValue) : list ModelTypeValue :=
  if b then set_add matched t else matched.

Definition deriveModelTypes (m : PricingModel) : list ModelTypeValue :=
  let endpoints := supported_endpoint_types m ?? [] in
  let endpointSet := js_set endpoints in
  let matched := add_if (includes endpointSet IMAGE_GENERATION) IMAGE [] in
  let matched := add_if (includes endpointSet EMBEDDINGS || includes endpointSet GEMINI_EMBEDDING)
                   EMBEDDING matched in
  let matched := add_if (includes endpointSet JINA_RERANK) RERANK matched in
  let matched := add_if (includes endpointSet OPENAI_VIDEO) VIDEO matched in
  let matched := add_if (some_in AUDIO_ENDPOINT_TYPES endpoints || hasPositiveAudioRatio m)
                   AUDIO matched in
  let matched := add_if (some_in MODEL_3D_ENDPOINT_TYPES endpoints) MODEL_3D matched in
  let matched := add_if (some_in CHAT_ENDPOINT_TYPES endpoints) CHAT matched in
  bfilter (fun t => includes matched t) MODEL_TYPE_DISPLAY_ORDER.

(** ** Facet counts *)

Record FacetOption := mkFacet { value : jsstr; label : jsstr; count : Z }.

(** [counts.set(x, (counts.get(x) ?? 0) + 1)] *)
Definition count_one {A} `{!EqDecision A} (counts : list (A * Z)) (x : A) : list (A * Z) :=
  map_set x ((map_get x counts ?? 0) + 1) counts.

Definition count_all {A} `{!EqDecision A} (l : list A) : list (A * Z) := foldl count_one [] l.

Section facets.
Context {L : Locale}.

(** [b.count - a.count || a.label.localeCompare(b.label)] *)
Definition by_count (a b : FacetOption) : Z :=
  if count b - count a =? 0 then localeCompare (label a) (label b) else count b - count a.

Definition count_facets (l : list jsstr) : list FacetOption :=
  js_sort by_count (map (fun '(v, c) => mkFacet v v c) (count_all l)).

Definition vendor_names (vendors : list PricingVendor) : list (Z * jsstr) :=
  foldl (fun m v => map_set (vn_id v) (vn_name v) m) [] vendors.

(** the names counted for one model: none without a known vendor *)
Definition vendor_of (nameById : list (Z * jsstr)) (m : PricingModel) : list jsstr :=
  match vendor_id m with
  | None => []
  | Some id => match map_get id nameById with
               | Some name => if truthy name then [name] else []
               | None => []
               end
  end.

Definition extractVendors (models : list PricingModel) (vendors : list PricingVendor) : list FacetOption :=
  count_facets (concat (map (vendor_of (vendor_names vendors)) models)).

Definition extractModelTypeFacets (models : list PricingModel) : list FacetOption :=
  let counts := count_all (concat (map deriveModelTypes models)) in
  map (fun t => mkFacet (model_type_label t) (model_type_label t) (map_get t counts ?? 0))
    (bfilter (fun t => match map_get t counts with Some _ => true | None => false end)
       MODEL_TYPE_DISPLAY_ORDER).

(** ** Tags *)

(** [/[,;|\s]+/] *)
Definition is_tag_sep (c : N) : bool := (c =? 44)%N || (c =? 59)%N || (c =? 124)%N || is_ws c.

(** [s.split(/[,;|\s]+/)]: a run of separators is one cut *)
Fixpoint split_runs (cur : jsstr) (in_sep : bool) (s : jsstr) : list jsstr :=
  match s with
  | [] => [cur]
  | c :: s' =>
      if is_tag_sep c then if in_sep then split_runs cur true s' else cur :: split_runs [] true s'
      else split_runs (cur ++ [c]) false s'
  end.

Definition parseTags (tagsString : option jsstr) : list jsstr :=
  match tagsString with
  | Some s => if truthy s then bfilter truthy (map trim (split_runs [] false s)) else []
  | None => []
  end.

Definition extractAllTags (models : list PricingModel) : list jsstr :=
  js_sort localeCompare (js_set (concat (map (fun m => map toLowerCase (parseTags (tags m))) models))).

Definition filterByTag (models : list PricingModel) (tag : jsstr) : list PricingModel :=
  if bool_decide (tag = FILTER_ALL) then models
  else
    let tagLower := toLowerCase tag in
    bfilter (fun m => if truthy_opt (tags m)
                      then includes (map toLowerCase (parseTags (tags m))) tagLower else false) models.

Definition extractEndpointTypes (models : list EnrichedPricingModel) : list FacetOption :=
  count_facets (concat (map (fun m => supported_endpoint_types (base m) ?? []) models)).

Definition extractGroups (models : list EnrichedPricingModel) : list FacetOption :=
  count_facets (concat (map (fun m =>
    bfilter (fun g => negb (negb (truthy g) || bool_decide (g = u "auto"))) (enable_groups (base m))) models)).

Definition extractTagFacets (models : list EnrichedPricingModel) : list FacetOption :=
  count_facets (concat (map (fun m => map toLowerCase (parseTags (tags (base m)))) models)).

Definition extractProviders (models : list EnrichedPricingModel) (vendors : list PricingVendor)
  : list FacetOption := extractVendors (map base models) vendors.

(** ** Simple filters *)

Definition has (lowerQuery : jsstr) (s : option jsstr) : bool :=
  match s with Some t => str_includes (toLowerCase t) lowerQuery | None => false end.

Definition filterBySearch (models : list PricingModel) (query : jsstr) : list PricingModel :=
  if negb (truthy query) then models
  else
    let lowerQuery := toLowerCase query in
    bfilter (fun m => has lowerQuery (Some (model_name m)) || has lowerQuery (description m) ||
                      has lowerQuery (tags m) || has lowerQuery (vendor_name m)) models.

Definition filterByVendor (models : list PricingModel) (vendor : jsstr) : list PricingModel :=
  if bool_decide (vendor = FILTER_ALL) then models
  else bfilter (fun m => bool_decide (vendor_name m = Some vendor)) models.

Definition filterByGroup (models : list PricingModel) (group : jsstr) : list PricingModel :=
  if bool_decide (group = FILTER_ALL) then models
  else bfilter (fun m => includes (enable_groups m) group) models.

Definition filterByQuotaType (models : list PricingModel) (quotaType : jsstr) : list PricingModel :=
  if bool_decide (quotaType = QUOTA_TYPES_ALL) then models
  else
    let targetType := if bool_decide (quotaType = QUOTA_TYPES_TOKEN) then QUOTA_TOKEN else QUOTA_REQUEST in
    bfilter (fun m => quota_type m =? targetType) models.

Definition filterByEndpointType (models : list PricingModel) (endpointType : jsstr) : list PricingModel :=
  if bool_decide (endpointType = ENDPOINT_ALL) then models
  else bfilter (fun m => includes (supported_endpoint_types m ?? []) endpointType) models.

(** ** Sorting *)

(** [x || 0] on an optional number *)
Definition or_zero (x : option number) : number :=
  match x with Some n => if num_truthy n then n else num_of_Z 0 | None => num_of_Z 0 end.

Definition getModelSortPrice (m : EnrichedPricingModel) : number :=
  let usd := promptPriceUsdPerM m in
  if is_finite usd then usd
  else if quota_type (base m) =? QUOTA_REQUEST then or_zero (model_price (base m))
  else or_zero (Some (model_ratio (base m))).

Definition priceSortTier (m : EnrichedPricingModel) : Z :=
  if quota_type (base m) =? QUOTA_REQUEST then 1 else 0.

(** The sign with which [sort] reads a comparator's number. *)
Definition num_sign (x : number) : Z :=
  match x with
  | S754_infinity s | S754_finite s _ _ => if s then -1 else 1
  | _ => 0
  end.

Definition byName (a b : EnrichedPricingModel) : Z :=
  localeCompare (model_name (base a)) (model_name (base b)).

Definition byPriceLow (a b : EnrichedPricingModel) : Z :=
  let tier := priceSortTier a - priceSortTier b in
  if negb (tier =? 0) then tier
  else let d := (getModelSortPrice a - getModelSortPrice b)%num in
       if num_truthy d then num_sign d else byName a b.

Definition byPriceHigh (a b : EnrichedPricingModel) : Z :=
  let tier := priceSortTier a - priceSortTier b in
  if negb (tier =? 0) then tier
  else let d := (getModelSortPrice b - getModelSortPrice a)%num in
       if num_truthy d then num_sign d else byName a b.

Definition sortModels (models : list EnrichedPricingModel) (sortBy : jsstr) : list EnrichedPricingModel :=
  if bool_decide (sortBy = SORT_NAME) then js_sort byName models
  else if bool_decide (sortBy = SORT_PRICE_LOW) then js_sort byPriceLow models
  else if bool_decide (sortBy = SORT_PRICE_HIGH) then js_sort byPriceHigh models
  else js_sort byName models.

(** ** Faceted filtering *)

Definition matchesAny (selected values : list jsstr) : bool :=
  if negb (truthy_list selected) then true
  else existsb (fun s => includes (js_set values) s) selected.

Record ModelFilters := mkFilters {
  search : jsstr;
  providers : list jsstr;
  modelTypes : list ModelTypeValue;
  groups : list jsstr;
  categories : list jsstr;
  endpointTypes : list jsstr;
  quotaTypes : list jsstr;
  promptPriceRange : number * number;
  sortBy : jsstr;
}.

Definition inPromptPriceRange (m : EnrichedPricingModel) (range : number * number) : bool :=
  let '(min, max) := range in
  let price := promptPriceUsdPerM m in
  let zero := num_of_Z 0 in
  if negb (is_finite price) then negb (num_ge max zero && num_gt min zero)
  else if num_gt min zero && num_lt price min then false
  else if num_ge max zero && num_gt price max then false
  else true.

Definition haystack (m : PricingModel) : jsstr :=
  model_name m ++ u " " ++ (description m ?? []) ++ u " " ++ (tags m ?? []) ++ u " " ++ (vendor_name m ?? []).

Definition keeps (filters : ModelFilters) (m : EnrichedPricingModel) : bool :=
  let q := toLowerCase (trim (search filters)) in
  let b := base m in
  if truthy q && negb (str_includes (toLowerCase (haystack b)) q) then false
  else if negb (matchesAny (providers filters)
                  (if truthy_opt (vendor_name b) then [vendor_name b ?? []] else [])) then false
  else if negb (matchesAny (map model_type_label (modelTypes filters))
                  (map model_type_label (deriveModelTypes b))) then false
  else if negb (matchesAny (groups filters) (enable_groups b)) then false
  else if negb (matchesAny (categories filters) (map toLowerCase (parseTags (tags b)))) then false
  else if negb (matchesAny (endpointTypes filters) (supported_endpoint_types b ?? [])) then false
  else if negb (matchesAny (quotaTypes filters)
                  (if quota_type b =? QUOTA_TOKEN then [QUOTA_TYPES_TOKEN] else [QUOTA_TYPES_REQUEST])) then false
  else if negb (inPromptPriceRange m (promptPriceRange filters)) then false
  else true.

Definition filterAndSortModels (models : list EnrichedPricingModel) (filters : ModelFilters)
  : list EnrichedPricingModel :=
  sortModels (bfilter (keeps filters) models) (sortBy filters).

End facets.

(** ** Standard prices (lib/model-helpers.ts) *)

(** [Object.keys] of a record with the given keys in insertion order *)
Definition key_order (ks : list jsstr) : list jsstr := obj_keys (map (fun k => (k, JNull)) ks).

Definition getAvailableGroups (m : PricingModel) (usableGroup : list jsstr) : list jsstr :=
  bfilter (fun g => includes (enable_groups m) g)
    (bfilter (fun g => negb (includes EXCLUDED_GROUPS g)) (key_order usableGroup)).

Definition isTokenBasedModel (m : PricingModel) : bool := quota_type m =? QUOTA_TOKEN.

Definition min_step (ratios : list (jsstr * number)) (min : number) (g : jsstr) : number :=
  match map_get g ratios with
  | Some r => if num_lt r min then r else min
  | None => min
  end.

Definition minGroupRatio (m : PricingModel) : number :=
  let ratios := group_ratio m ?? [] in
  let min := foldl (min_step ratios) Infinity (enable_groups m) in
  if is_finite min then min else num_of_Z 1.

Definition getInputPriceUsdPerM (m : PricingModel) : number :=
  if negb (quota_type m =? QUOTA_TOKEN) then NaN
  else (model_ratio m * num_of_Z 2 * minGroupRatio m)%num.

Definition getOutputPriceUsdPerM (m : PricingModel) : number :=
  if negb (quota_type m =? QUOTA_TOKEN) then NaN
  else (model_ratio m * num_of_Z 2 * completion_ratio m * minGroupRatio m)%num.

Definition isFreeModel (m : PricingModel) : bool :=
  let p := getInputPriceUsdPerM m in
  is_finite p && num_le p (num_of_Z 0).

(** ** Lemmas: counting *)

Section counting.
Context {A : Type} `{!EqDecision A}.

Definition occurrences (x : A) (l : list A) : Z := Z.of_nat (length (bfilter (fun y => bool_decide (y = x)) l)).

Lemma occurrences_app x l k : occurrences x (l ++ k) = occurrences x l + occurrences x k.
Proof. unfold occurrences. rewrite List.filter_app, length_app. lia. Qed.

Lemma occurrences_one x y : occurrences x [y] = if bool_decide (y = x) then 1 else 0.
Proof. unfold occurrences. cbn. by case_bool_decide. Qed.

Lemma occurrences_zero x l : occurrences x l = 0 <-> x ∉ l.
Proof.
  unfold occurrences. induction l as [|y l IH]; cbn; [set_solver|].
  case_bool_decide as Hy; cbn [length].
  - subst y. split; [lia|]. intros []. by left.
  - rewrite IH, not_elem_of_cons. naive_solver.
Qed.

Lemma count_all_get x (l : list A) :
  map_get x (count_all l) = if bool_decide (x ∈ l) then Some (occurrences x l) else None.
Proof.
  induction l as [|y l IH] using rev_ind; [done|].
  unfold count_all in *. rewrite foldl_app. cbn [foldl]. unfold count_one at 1.
  rewrite occurrences_app, occurrences_one.
  destruct (decide (y = x)) as [->|Hne].
  - rewrite map_get_set_eq, IH, (bool_decide_eq_true_2 (x = x)), (bool_decide_eq_true_2 (x ∈ l ++ [x]))
      by set_solver.
    case_bool_decide as Hx; cbn; [done|]. by rewrite (proj2 (occurrences_zero x l) Hx).
  - rewrite map_get_set_ne, IH, (bool_decide_eq_false_2 (y = x)), Z.add_0_r by done.
    apply (f_equal (fun b : bool => if b then _ else _)), bool_decide_ext. set_solver.
Qed.

Lemma count_all_NoDup (l : list A) : NoDup (count_all l).*1.
Proof.
  unfold count_all. induction l as [|y l IH] using rev_ind; [apply NoDup_nil_2|].
  rewrite foldl_app. cbn [foldl]. by apply map_set_NoDup.
Qed.

Lemma count_all_elem x c (l : list A) : (x, c) ∈ count_all l <-> x ∈ l /\ c = occurrences x l.
Proof.
  rewrite map_get_elem by apply count_all_NoDup. rewrite count_all_get.
  case_bool_decide; naive_solver.
Qed.

End counting.

Section theorems.
Context {L : Locale}.

#[local] Instance by_count_sorts : SortsBy by_count (fun a b => count b <= count a).
Proof.
  split; [intros x y z; lia|..]; intros x y; unfold by_count;
    destruct (Z.eqb_spec (count y - count x) 0); lia.
Qed.

Lemma count_facets_perm l :
  count_facets l ≡ₚ map (fun '(v, c) => mkFacet v v c) (count_all l).
Proof. apply js_sort_perm. Qed.

Lemma count_facets_elem l f :
  f ∈ count_facets l <-> value f ∈ l /\ label f = value f /\ count f = occurrences (value f) l.
Proof.
  rewrite count_facets_perm, list_elem_of_fmap. split.
  - intros ([v c] & -> & [Hv ->]%count_all_elem). done.
  - destruct f as [v lb c]. cbn. intros (Hv & -> & ->). exists (v, occurrences v l).
    split; [done|]. by apply count_all_elem.
Qed.

Lemma count_facets_NoDup l : NoDup (map value (count_facets l)).
Proof.
  change (NoDup (value <$> count_facets l)). rewrite count_facets_perm, <-list_fmap_compose.
  replace (value ∘ (fun '(v, c) => mkFacet v v c) <$> count_all l) with (count_all l).*1;
    [apply count_all_NoDup|]. apply list_fmap_ext. by intros i [v c].
Qed.

Lemma includes_js_set (l : list jsstr) x : includes (js_set l) x = true <-> x ∈ l.
Proof. by rewrite includes_true, elem_of_js_set. Qed.

Lemma some_in_true set l : some_in set l = true <-> exists e, e ∈ l /\ e ∈ set.
Proof.
  unfold some_in. rewrite existsb_exists. split; intros (e & H1 & H2); exists e.
  - rewrite includes_true in H2. by rewrite list_elem_of_In.
  - rewrite includes_true. by rewrite <-list_elem_of_In.
Qed.

Lemma elem_of_add_if b t matched x : x ∈ add_if b t matched <-> x ∈ matched \/ (b = true /\ x = t).
Proof.
  unfold add_if, set_add. destruct b; [|naive_solver]. case_match; set_solver.
Qed.

Lemma elem_of_add_if_eq b t matched : t ∈ add_if b t matched <-> b = true \/ t ∈ matched.
Proof. rewrite elem_of_add_if. naive_solver. Qed.

Lemma elem_of_add_if_ne b t matched x : x <> t -> x ∈ add_if b t matched <-> x ∈ matched.
Proof. rewrite elem_of_add_if. naive_solver. Qed.

Lemma display_order_all t : t ∈ MODEL_TYPE_DISPLAY_ORDER.
Proof. destruct t; unfold MODEL_TYPE_DISPLAY_ORDER; set_solver. Qed.

Lemma matchesAny_true selected values :
  matchesAny selected values = true <-> selected = [] \/ exists s, s ∈ selected /\ s ∈ values.
Proof.
  unfold matchesAny. destruct selected as [|x l]; cbn [truthy_list negb]; [naive_solver|].
  rewrite existsb_exists. split.
  - intros (s & H1 & H2). rewrite includes_js_set in H2. right. exists s.
    by rewrite list_elem_of_In.
  - intros [|(s & H1 & H2)]; [done|]. exists s. rewrite includes_js_set. by rewrite <-list_elem_of_In.
Qed.

Definition endpoints_of (m : PricingModel) : list jsstr := supported_endpoint_types m ?? [].

(** The evidence for each type, rule by rule of the comment in the source. *)
Definition type_evidence (m : PricingModel) (t : ModelTypeValue) : Prop :=
  match t with
  | IMAGE => IMAGE_GENERATION ∈ endpoints_of m
  | EMBEDDING => EMBEDDINGS ∈ endpoints_of m \/ GEMINI_EMBEDDING ∈ endpoints_of m
  | RERANK => JINA_RERANK ∈ endpoints_of m
  | VIDEO => OPENAI_VIDEO ∈ endpoints_of m
  | AUDIO => (exists e, e ∈ endpoints_of m /\ e ∈ AUDIO_ENDPOINT_TYPES) \/ hasPositiveAudioRatio m = true
  | MODEL_3D => exists e, e ∈ endpoints_of m /\ e ∈ MODEL_3D_ENDPOINT_TYPES
  | CHAT => exists e, e ∈ endpoints_of m /\ e ∈ CHAT_ENDPOINT_TYPES
  end.

Lemma derive_elem m t : t ∈ deriveModelTypes m <-> type_evidence m t.
Proof.
  unfold deriveModelTypes. cbn zeta. rewrite elem_of_bfilter, includes_true.
  fold (endpoints_of m). pose proof (display_order_all t) as Ht.
  pose proof (not_elem_of_nil t) as Hn.
  destruct t; cbn [type_evidence];
    repeat (rewrite elem_of_add_if_eq || rewrite elem_of_add_if_ne by discriminate);
    rewrite ?orb_true_iff, ?includes_js_set, ?some_in_true; tauto.
Qed.

Lemma derive_NoDup m : NoDup (deriveModelTypes m).
Proof.
  unfold deriveModelTypes. apply bfilter_NoDup. apply (bool_decide_unpack _). vm_compute. exact I.
Qed.

Lemma occurrences_NoDup {A} `{!EqDecision A} (x : A) l :
  NoDup l -> occurrences x l = if bool_decide (x ∈ l) then 1 else 0.
Proof.
  induction 1 as [|y l Hy Hl IH]; [done|].
  change (y :: l) with ([y] ++ l). rewrite occurrences_app, IH, occurrences_one.
  repeat case_bool_decide; subst; try lia; set_solver.
Qed.

Lemma type_count models t :
  occurrences t (concat (map deriveModelTypes models)) =
  Z.of_nat (length (bfilter (fun m => bool_decide (t ∈ deriveModelTypes m)) models)).
Proof.
  induction models as [|m l IH]; [done|]. cbn [map concat List.filter].
  rewrite occurrences_app, IH, occurrences_NoDup by apply derive_NoDup.
  case_bool_decide; cbn [length]; lia.
Qed.

Lemma sortModels_perm models by_ : sortModels models by_ ≡ₚ models.
Proof. unfold sortModels. case_all; apply js_sort_perm. Qed.

#[local] Instance byPriceLow_tier : SortsBy byPriceLow (fun a b => priceSortTier a <= priceSortTier b).
Proof.
  split; [intros x y z; lia|..]; intros x y; unfold byPriceLow;
    destruct (Z.eqb_spec (priceSortTier x - priceSortTier y) 0); cbn [negb]; lia.
Qed.

#[local] Instance byPriceHigh_tier : SortsBy byPriceHigh (fun a b => priceSortTier a <= priceSortTier b).
Proof.
  split; [intros x y z; lia|..]; intros x y; unfold byPriceHigh;
    destruct (Z.eqb_spec (priceSortTier x - priceSortTier y) 0); cbn [negb]; lia.
Qed.

Lemma keeps_true filters m :
  keeps filters m = true <->
  (toLowerCase (trim (search filters)) = [] \/
   str_includes (toLowerCase (haystack (base m))) (toLowerCase (trim (search filters))) = true) /\
  matchesAny (providers filters) (if truthy_opt (vendor_name (base m)) then [vendor_name (base m) ?? []] else []) = true /\
  matchesAny (map model_type_label (modelTypes filters)) (map model_type_label (deriveModelTypes (base m))) = true /\
  matchesAny (groups filters) (enable_groups (base m)) = true /\
  matchesAny (categories filters) (map toLowerCase (parseTags (tags (base m)))) = true /\
  matchesAny (endpointTypes filters) (supported_endpoint_types (base m) ?? []) = true /\
  matchesAny (quotaTypes filters)
    (if quota_type (base m) =? QUOTA_TOKEN then [QUOTA_TYPES_TOKEN] else [QUOTA_TYPES_REQUEST]) = true /\
  inPromptPriceRange m (promptPriceRange filters) = true.
Proof.
  unfold keeps. set (q := toLowerCase (trim (search filters))).
  assert (Hq : truthy q && negb (str_includes (toLowerCase (haystack (base m))) q) = false <->
               q = [] \/ str_includes (toLowerCase (haystack (base m))) q = true).
  { destruct q; cbn [truthy andb]; [naive_solver|]. rewrite negb_false_iff. naive_solver. }
  rewrite <-Hq. destruct (truthy q && _); [naive_solver|].
  repeat (match goal with |- context [if negb ?b then _ else _] => destruct b; cbn [negb]; [|naive_solver] end).
  naive_solver.
Qed.

Lemma label_inj t t' : model_type_label t = model_type_label t' -> t = t'.
Proof. destruct t, t'; intros H; (reflexivity || (vm_compute in H; discriminate H)). Qed.

Lemma provider_match (sel : list jsstr) (v : option jsstr) :
  (exists s, s ∈ sel /\ s ∈ (if truthy_opt v then [v ?? []] else [])) <->
  exists s, s ∈ sel /\ s <> [] /\ v = Some s.
Proof. destruct v as [[|c v]|]; cbn; set_solver. Qed.

Lemma type_match (sel : list ModelTypeValue) m :
  (map model_type_label sel = [] \/
   exists s, s ∈ map model_type_label sel /\ s ∈ map model_type_label (deriveModelTypes m)) <->
  (sel = [] \/ exists t, t ∈ sel /\ type_evidence m t).
Proof.
  destruct sel as [|t0 ts]; [naive_solver|]. split; intros [|H]; try done; right.
  - destruct H as (s & (t & -> & H1)%list_elem_of_fmap & (t' & Heq & H2)%list_elem_of_fmap).
    apply label_inj in Heq as ->. exists t'. by rewrite <-derive_elem.
  - destruct H as (t & H1 & H2). exists (model_type_label t). rewrite <-derive_elem in H2.
    split; by apply list_elem_of_fmap_2.
Qed.

Lemma singleton_match (sel : list jsstr) (b : bool) x y :
  (exists s, s ∈ sel /\ s ∈ (if b then [x] else [y])) <-> (if b then x else y) ∈ sel.
Proof. destruct b; set_solver. Qed.

(** ** Theorems *)

(** A model has exactly the types its endpoints and audio prices give
    evidence for, each once and in display order. *)
Theorem deriveModelTypes_spec m :
  (forall t, t ∈ deriveModelTypes m <-> type_evidence m t) /\
  deriveModelTypes m `sublist_of` MODEL_TYPE_DISPLAY_ORDER.
Proof. split; [apply derive_elem|apply bfilter_sublist]. Qed.

(** The type facets list each type some model has, in display order,
    with the number of models that have it. *)
Theorem extractModelTypeFacets_spec models :
  extractModelTypeFacets models =
  map (fun t => mkFacet (model_type_label t) (model_type_label t)
                  (Z.of_nat (length (bfilter (fun m => bool_decide (t ∈ deriveModelTypes m)) models))))
    (bfilter (fun t => existsb (fun m => bool_decide (t ∈ deriveModelTypes m)) models)
       MODEL_TYPE_DISPLAY_ORDER).
Proof.
  unfold extractModelTypeFacets. cbn zeta.
  assert (Hin : forall t, t ∈ concat (map deriveModelTypes models) <->
                existsb (fun m => bool_decide (t ∈ deriveModelTypes m)) models = true).
  { intros t. rewrite list_elem_of_In, in_concat, existsb_exists. split.
    - intros (l & (m & <- & Hm)%in_map_iff & Ht). exists m. split; [done|].
      apply bool_decide_eq_true. by apply list_elem_of_In.
    - intros (m & Hm & Ht%bool_decide_eq_true). exists (deriveModelTypes m).
      split; [by apply in_map|by apply list_elem_of_In]. }
  replace (bfilter (fun t => existsb _ models) MODEL_TYPE_DISPLAY_ORDER)
    with (bfilter (fun t => match map_get t (count_all (concat (map deriveModelTypes models))) with
                            | Some _ => true | None => false end) MODEL_TYPE_DISPLAY_ORDER).
  - apply map_ext_in. intros t _. rewrite count_all_get, <-type_count.
    case_bool_decide as Ht; [done|]. cbn. by rewrite (proj2 (occurrences_zero _ _) Ht).
  - apply filter_ext. intros t. rewrite count_all_get. specialize (Hin t).
    case_bool_decide as Ht; destruct (existsb _ models); naive_solver.
Qed.

(** The facets of vendors, endpoints, groups and tags count exactly:
    each value once, with its number of occurrences, by decreasing count. *)
Theorem count_facets_spec l :
  StronglySorted (fun a b => count b <= count a) (count_facets l) /\
  NoDup (map value (count_facets l)) /\
  (forall v, v ∈ l <-> exists f, f ∈ count_facets l /\ value f = v) /\
  (forall f, f ∈ count_facets l -> label f = value f /\ count f = occurrences (value f) l).
Proof.
  split; [apply js_sort_sorted, _|]. split; [apply count_facets_NoDup|]. split.
  - intros v. split.
    + intros Hv. exists (mkFacet v v (occurrences v l)). split; [|done]. by apply count_facets_elem.
    + intros (f & [Hf _]%count_facets_elem & <-). done.
  - intros f (_ & H)%count_facets_elem. done.
Qed.

(** C37. The catalogue shows exactly the models that match the search and
    every facet (any of its selected values, or none selected) and lie in the
    price range, each as often as it is listed; sorted by price, token-priced
    models come before per-request ones. *)
Theorem filterAndSortModels_spec models filters :
  filterAndSortModels models filters ≡ₚ bfilter (keeps filters) models /\
  (forall m, m ∈ filterAndSortModels models filters <->
     m ∈ models /\
     (toLowerCase (trim (search filters)) = [] \/
      str_includes (toLowerCase (haystack (base m))) (toLowerCase (trim (search filters))) = true) /\
     (providers filters = [] \/ exists v, v ∈ providers filters /\ v <> [] /\ vendor_name (base m) = Some v) /\
     (modelTypes filters = [] \/ exists t, t ∈ modelTypes filters /\ type_evidence (base m) t) /\
     (groups filters = [] \/ exists g, g ∈ groups filters /\ g ∈ enable_groups (base m)) /\
     (categories filters = [] \/
        exists c, c ∈ categories filters /\ c ∈ map toLowerCase (parseTags (tags (base m)))) /\
     (endpointTypes filters = [] \/ exists e, e ∈ endpointTypes filters /\ e ∈ endpoints_of (base m)) /\
     (quotaTypes filters = [] \/
        (if quota_type (base m) =? QUOTA_TOKEN then QUOTA_TYPES_TOKEN else QUOTA_TYPES_REQUEST)
          ∈ quotaTypes filters) /\
     inPromptPriceRange m (promptPriceRange filters) = true) /\
  (sortBy filters = SORT_PRICE_LOW \/ sortBy filters = SORT_PRICE_HIGH ->
     StronglySorted (fun a b => priceSortTier a <= priceSortTier b) (filterAndSortModels models filters)).
Proof.
  unfold filterAndSortModels. split; [apply sortModels_perm|]. split.
  - intros m. rewrite sortModels_perm, elem_of_bfilter, keeps_true, !matchesAny_true.
    fold (endpoints_of (base m)).
    rewrite provider_match, type_match, singleton_match. tauto.
  - intros [-> | ->]; unfold sortModels.
    + rewrite (bool_decide_eq_false_2 (SORT_PRICE_LOW = SORT_NAME)) by (vm_compute; discriminate).
      rewrite bool_decide_eq_true_2 by done. apply js_sort_sorted, _.
    + rewrite (bool_decide_eq_false_2 (SORT_PRICE_HIGH = SORT_NAME)) by (vm_compute; discriminate).
      rewrite (bool_decide_eq_false_2 (SORT_PRICE_HIGH = SORT_PRICE_LOW)) by (vm_compute; discriminate).
      rewrite bool_decide_eq_true_2 by done. apply js_sort_sorted, _.
Qed.

End theorems.

End Pricing.
