(* ===== verification/PricingPrice.v ===== *)
(** * Prices  (web/default/src/features/pricing/lib/price.ts, and
    [getDynamicDisplayGroupRatio] of lib/dynamic-price.ts)

    The displayed prices: the lowest group ratio, the price of each kind of
    token, the recharge rate and the rendering in the display currency.  The
    functions ending in [_amount] compute the amounts that [formatPrice],
    [formatGroupPrice], [formatFixedPrice] and [formatRequestPrice] render
    ([None] where they return ['-']). *)

From S2P Require Import Prelude JsString JsNumber JsJson JsRegex Currency PricingModels.

Import Currency Pricing.
Open Scope Z_scope.

Module Price.

(** [ratio !== undefined && ratio < minRatio] *)
Definition ratio_step (groupRatio : list (jsstr * number)) (minRatio : number) (group : jsstr) : number :=
  match map_get group groupRatio with
  | Some ratio => if num_lt ratio minRatio then ratio else minRatio
  | None => minRatio
  end.

Definition getMinGroupRatio (enableGroups : list jsstr) (groupRatio : list (jsstr * number)) : number :=
  if negb (truthy_list enableGroups) then num_of_Z 1
  else
    let minRatio := foldl (ratio_step groupRatio) Infinity enableGroups in
    if num_eq minRatio Infinity then num_of_Z 1 else minRatio.

Definition getDynamicDisplayGroupRatio (m : PricingModel) : number :=
  let groups := enable_groups m in
  let ratios := group_ratio m ?? [] in
  if negb (truthy_list groups) then num_of_Z 1
  else
    let minRatio := foldl (ratio_step ratios) Infinity groups in
    if num_eq minRatio Infinity then num_of_Z 1 else minRatio.

Definition hasRatio (v : option number) : bool :=
  match v with Some n => is_finite n | None => false end.

(** [hasRatio(v) ? base * Number(v) : NaN] *)
Definition times_ratio (base : number) (v : option number) : number :=
  if hasRatio v then (base * (v ?? NaN))%num else NaN.

Definition calculateTokenPrice (m : PricingModel) (type : PriceType) (ratio : number) : number :=
  let base := (model_ratio m * num_of_Z 2 * ratio)%num in
  match type with
  | price_input => base
  | price_output => (base * completion_ratio m)%num
  | price_cache => times_ratio base (cache_ratio m)
  | price_create_cache => times_ratio base (create_cache_ratio m)
  | price_image => times_ratio base (image_ratio m)
  | price_audio_input => times_ratio base (audio_ratio m)
  | price_audio_output =>
      if hasRatio (audio_ratio m) && hasRatio (audio_completion_ratio m)
      then (base * (audio_ratio m ?? NaN) * (audio_completion_ratio m ?? NaN))%num
      else NaN
  end.

Definition applyRechargeRate (price : number) (showWithRecharge : bool) (priceRate usdExchangeRate : number)
  : number :=
  if negb showWithRecharge then price else (price * priceRate / usdExchangeRate)%num.

Definition formatPrice_amount (m : PricingModel) (type : PriceType) (tokenUnit : TokenUnit)
    (showWithRecharge : bool) (priceRate usdExchangeRate : number) : option number :=
  if quota_type m =? QUOTA_REQUEST then None
  else
    let minRatio := getMinGroupRatio (enable_groups m) (group_ratio m ?? []) in
    let priceInUSD := calculateTokenPrice m type minRatio in
    let priceInUSD := applyRechargeRate priceInUSD showWithRecharge priceRate usdExchangeRate in
    Some (priceInUSD / TOKEN_UNIT_DIVISORS tokenUnit)%num.

Definition formatGroupPrice_amount (m : PricingModel) (group : jsstr) (type : PriceType)
    (tokenUnit : TokenUnit) (showWithRecharge : bool) (priceRate usdExchangeRate : number)
    (groupRatio : list (jsstr * number)) : option number :=
  if quota_type m =? QUOTA_REQUEST then None
  else
    let ratio := map_get group groupRatio ?? num_of_Z 1 in
    let priceInUSD := calculateTokenPrice m type ratio in
    let priceInUSD := applyRechargeRate priceInUSD showWithRecharge priceRate usdExchangeRate in
    Some (priceInUSD / TOKEN_UNIT_DIVISORS tokenUnit)%num.

Definition formatFixedPrice_amount (m : PricingModel) (group : jsstr) (showWithRecharge : bool)
    (priceRate usdExchangeRate : number) (groupRatio : list (jsstr * number)) : option number :=
  if negb (quota_type m =? QUOTA_REQUEST) then None
  else
    let ratio := map_get group groupRatio ?? num_of_Z 1 in
    Some (applyRechargeRate (or_zero (model_price m) * ratio)%num showWithRecharge priceRate usdExchangeRate).

Definition formatRequestPrice_amount (m : PricingModel) (showWithRecharge : bool)
    (priceRate usdExchangeRate : number) : option number :=
  if negb (quota_type m =? QUOTA_REQUEST) then None
  else
    let minRatio := getMinGroupRatio (enable_groups m) (group_ratio m ?? []) in
    Some (applyRechargeRate (or_zero (model_price m) * minRatio)%num showWithRecharge priceRate usdExchangeRate).

(** ** Rendering *)

Section render.
Context `{Intl} (stored : option StoredCurrency).

Definition render (amount : option number) (options : CurrencyFormatOptions) : jsstr :=
  match amount with
  | Some a => formatCurrencyFromUSD stored (Some a) (Some options)
  | None => u "-"
  end.

Definition TOKEN_PRICE_FORMAT : CurrencyFormatOptions := mkFormat (Some 4) (Some 6) (Some false) None.
Definition FIXED_PRICE_FORMAT : CurrencyFormatOptions := mkFormat (Some 4) (Some 4) (Some false) None.

Definition formatPrice (m : PricingModel) (type : PriceType) (tokenUnit : TokenUnit)
    (showWithRecharge : bool) (priceRate usdExchangeRate : number) : jsstr :=
  render (formatPrice_amount m type tokenUnit showWithRecharge priceRate usdExchangeRate) TOKEN_PRICE_FORMAT.

Definition formatGroupPrice (m : PricingModel) (group : jsstr) (type : PriceType) (tokenUnit : TokenUnit)
    (showWithRecharge : bool) (priceRate usdExchangeRate : number) (groupRatio : list (jsstr * number)) : jsstr :=
  render (formatGroupPrice_amount m group type tokenUnit showWithRecharge priceRate usdExchangeRate groupRatio)
    TOKEN_PRICE_FORMAT.

Definition formatFixedPrice (m : PricingModel) (group : jsstr) (showWithRecharge : bool)
    (priceRate usdExchangeRate : number) (groupRatio : list (jsstr * number)) : jsstr :=
  render (formatFixedPrice_amount m group showWithRecharge priceRate usdExchangeRate groupRatio) FIXED_PRICE_FORMAT.

Definition formatRequestPrice (m : PricingModel) (showWithRecharge : bool) (priceRate usdExchangeRate : number) : jsstr :=
  render (formatRequestPrice_amount m showWithRecharge priceRate usdExchangeRate) FIXED_PRICE_FORMAT.

End render.

(** A prefix without digits or minus signs, a number with optional grouping and
    fraction, an optional [k]; and zeros at the end with the dot before them. *)
Definition price_re : re :=
  rseq [RStart; RGroup 1 (RStar (RCls (fun c => negb (is_digit c) && negb (c =? 45)%N)));
        RGroup 2 (rseq [RPlus (RCls (fun c => is_digit c || (c =? 45)%N || (c =? 44)%N)); ROpt (RStr (u "."));
                        RStar (RCls is_digit)]);
        RGroup 3 (ROpt (RStr (u "k"))); REnd].

Definition tail_zeros_re : re := rseq [ROpt (RStr (u ".")); RPlus (RChr 48); REnd].

Definition stripTrailingZeros (formatted : jsstr) : jsstr :=
  match re_match price_re formatted with
  | None => formatted
  | Some m =>
      let cleanNumber := replace_all (RStr (u ",")) [] (group 2 m ?? []) in
      let parsed := parse_float cleanNumber in
      if is_nan parsed then formatted
      else
        let result := num_to_str parsed in
        let result := if bool_decide (101%N ∈ result)
                      then replace_first tail_zeros_re (fun _ => []) (to_fixed 20 parsed) else result in
        (group 1 m ?? []) ++ result ++ (group 3 m ?? [])
  end.

Example strip_samples :
  stripTrailingZeros (u "$1,234.5000k") = u "$1234.5k" /\ stripTrailingZeros (u "$0.00000012") = u "$0.00000012" /\
  stripTrailingZeros (u "-$5") = u "-$5" /\ stripTrailingZeros (u "free") = u "free".
Proof. vm_compute. done. Qed.

(** ** Lemmas: the lowest ratio *)

Definition lowest (ratios : list (jsstr * number)) (min : number) (gs : list jsstr) : number :=
  foldl (ratio_step ratios) min gs.

Lemma lowest_below ratios gs : forall min r,
  num_lt r min = false -> num_lt r (lowest ratios min gs) = false.
Proof.
  unfold lowest. induction gs as [|g gs IH]; intros min r H; [done|]. cbn [foldl]. apply IH.
  unfold ratio_step. destruct (map_get g ratios) as [q|]; [|done].
  destruct (num_lt q min) eqn:Hq; [|done]. apply not_true_is_false. intros Hr.
  rewrite (num_lt_trans r q min) in H; done.
Qed.

Lemma lowest_least ratios gs : forall min g r,
  g ∈ gs -> map_get g ratios = Some r -> num_lt r (lowest ratios min gs) = false.
Proof.
  induction gs as [|g0 gs IH]; intros min g r Hg Hr; [by apply not_elem_of_nil in Hg|].
  apply elem_of_cons in Hg as [->|Hg]; [|by eapply IH].
  unfold lowest. cbn [foldl]. apply (lowest_below ratios gs). unfold ratio_step. rewrite Hr.
  destruct (num_lt r min) eqn:Hlt; [apply num_lt_irrefl|done].
Qed.

Lemma lowest_attained ratios gs : forall min,
  lowest ratios min gs = min \/
  exists g, g ∈ gs /\ map_get g ratios = Some (lowest ratios min gs).
Proof.
  unfold lowest. induction gs as [|g gs IH]; intros min; [by left|]. cbn [foldl].
  destruct (IH (ratio_step ratios min g)) as [H|(g' & Hg' & H)]; [|right; exists g'; split; [by right|done]].
  rewrite H. unfold ratio_step. destruct (map_get g ratios) as [r|] eqn:Hr; [|by left].
  destruct (num_lt r min); [|by left]. right. exists g. split; [by left|done].
Qed.

Lemma infinity_eq x : num_eq x Infinity = true <-> x = Infinity.
Proof. destruct x as [[]|[]| |[] m e]; cbn; naive_solver. Qed.

Lemma min_ratio_cases (gs : list jsstr) ratios :
  getMinGroupRatio gs ratios =
  (let l := lowest ratios Infinity gs in if num_eq l Infinity then num_of_Z 1 else l).
Proof. unfold getMinGroupRatio. by destruct gs. Qed.

(** ** Theorems *)

(** The standard price is taken at the lowest ratio: the ratio used
    belongs to an enabled group and no enabled group has a lower one; without
    any ratio below infinity it is 1. *)
Theorem getMinGroupRatio_spec gs ratios :
  let r := getMinGroupRatio gs ratios in
  (exists g, g ∈ gs /\ map_get g ratios = Some r /\
     forall g' r', g' ∈ gs -> map_get g' ratios = Some r' -> num_lt r' r = false) \/
  (r = num_of_Z 1 /\
     forall g' r', g' ∈ gs -> map_get g' ratios = Some r' -> num_lt r' Infinity = false).
Proof.
  cbn zeta. rewrite min_ratio_cases. cbn zeta.
  destruct (num_eq (lowest ratios Infinity gs) Infinity) eqn:He.
  - right. split; [done|]. intros g' r' Hg Hr. apply infinity_eq in He.
    rewrite <-He. by apply (lowest_least ratios gs Infinity g').
  - left. destruct (lowest_attained ratios gs Infinity) as [H|(g & Hg & H)].
    + by rewrite H in He.
    + exists g. split; [done|]. split; [done|]. intros g' r'. apply lowest_least.
Qed.

(** The catalogue's sort price, the displayed input price and the
    dynamic-price multiplier agree: the three copies of the lowest-ratio
    computation give the same number when the configured ratios are finite. *)
Theorem standard_price_agrees m :
  Forall (fun kv => is_finite kv.2 = true) (group_ratio m ?? []) ->
  minGroupRatio m = getMinGroupRatio (enable_groups m) (group_ratio m ?? []) /\
  getDynamicDisplayGroupRatio m = getMinGroupRatio (enable_groups m) (group_ratio m ?? []) /\
  (quota_type m = QUOTA_TOKEN ->
     getInputPriceUsdPerM m =
     calculateTokenPrice m price_input (getMinGroupRatio (enable_groups m) (group_ratio m ?? []))).
Proof.
  intros Hfin. set (ratios := group_ratio m ?? []) in *.
  assert (Hmin : minGroupRatio m = getMinGroupRatio (enable_groups m) ratios).
  { rewrite min_ratio_cases. unfold minGroupRatio. fold ratios. cbn zeta.
    change (foldl (min_step ratios) Infinity (enable_groups m)) with (lowest ratios Infinity (enable_groups m)).
    destruct (lowest_attained ratios (enable_groups m) Infinity) as [H|(g & Hg & H)]; [by rewrite H|].
    assert (Hf : is_finite (lowest ratios Infinity (enable_groups m)) = true).
    { clear Hg. revert H Hfin. generalize (lowest ratios Infinity (enable_groups m)) as x. intros x.
      induction ratios as [|[k v] l IH]; cbn [map_get]; [done|]. intros H Hall.
      apply Forall_cons in Hall as [Hv Hall]. case_decide; [by injection H as <-|by apply IH]. }
    rewrite Hf. destruct (num_eq _ Infinity) eqn:He; [|done]. apply infinity_eq in He. by rewrite He in Hf. }
  split; [done|]. split; [reflexivity|]. intros Hq. unfold getInputPriceUsdPerM. rewrite Hq, Hmin. done.
Qed.

Definition sample_model : PricingModel :=
  mkModel 1 (u "gpt-4o") None None None None None None None None 0 (num_of_decimal 125 (-2)) (num_of_Z 4)
    None None None None None None [u "default"; u "vip"] None None None
    (Some [(u "default", num_of_Z 1); (u "vip", num_of_decimal 8 (-1))]) None None None.

Lemma standard_price_agrees_witness :
  minGroupRatio sample_model = getMinGroupRatio [u "default"; u "vip"] (group_ratio sample_model ?? []) /\
  minGroupRatio sample_model = num_of_decimal 8 (-1).
Proof.
  split; [|vm_compute; reflexivity].
  apply (standard_price_agrees sample_model). repeat constructor.
Defined.

(** Prices are never negative when the configured ratios are not; a
    kind of token without a ratio has no price. *)
Theorem token_price_nonneg m type gs :
  nonneg (model_ratio m) = true -> nonneg (completion_ratio m) = true ->
  Forall (fun r => match r with Some n => nonneg n = true | None => True end)
    [cache_ratio m; create_cache_ratio m; image_ratio m; audio_ratio m; audio_completion_ratio m] ->
  Forall (fun kv => nonneg kv.2 = true) gs ->
  num_lt (calculateTokenPrice m type (getMinGroupRatio (enable_groups m) gs)) (num_of_Z 0) = false.
Proof.
  intros Hm Hc Hall Hgs. rewrite <-nonneg_not_lt.
  assert (Hr : nonneg (getMinGroupRatio (enable_groups m) gs) = true).
  { rewrite min_ratio_cases. cbn zeta. destruct (num_eq _ Infinity); [done|].
    destruct (lowest_attained gs (enable_groups m) Infinity) as [->|(g & _ & H)]; [done|].
    revert H. generalize (lowest gs Infinity (enable_groups m)) as x. intros x.
    induction Hgs as [|[k v] l Hv _ IH]; cbn [map_get]; [done|]. case_decide; [by intros [= <-]|done]. }
  set (ratio := getMinGroupRatio (enable_groups m) gs) in *. clearbody ratio.
  rewrite !Forall_cons in Hall. destruct Hall as (H1 & H2 & H3 & H4 & H5 & _).
  assert (Hb : nonneg (model_ratio m * num_of_Z 2 * ratio)%num = true) by by repeat apply num_mul_nonneg.
  assert (Ht : forall v, match v with Some n => nonneg n = true | None => True end ->
    nonneg (times_ratio (model_ratio m * num_of_Z 2 * ratio)%num v) = true).
  { intros [v|] Hv; unfold times_ratio, hasRatio; [|done]. destruct (is_finite v); [|done].
    by apply num_mul_nonneg. }
  unfold calculateTokenPrice. cbn zeta. destruct type; try by apply Ht.
  - done.
  - by apply num_mul_nonneg.
  - destruct (audio_ratio m) as [a|], (audio_completion_ratio m) as [b|]; cbn [hasRatio andb coalesce default];
      try destruct (is_finite a); try destruct (is_finite b); cbn [andb]; try done.
    by repeat apply num_mul_nonneg.
Qed.

Lemma token_price_nonneg_witness :
  num_lt (calculateTokenPrice sample_model price_output
    (getMinGroupRatio (enable_groups sample_model) (group_ratio sample_model ?? []))) (num_of_Z 0) = false.
Proof. apply token_price_nonneg; try reflexivity; repeat constructor. Defined.

(** The card price of a model takes a comma for a grouping sign: an amount
    of one's own currency that the browser's locale prints with a decimal comma
    is shown ten times, a hundred times or a thousand times too high. *)
Theorem decimal_comma_misread :
  stripTrailingZeros ([8364%N] ++ u " 0,5") = [8364%N] ++ u " 5" /\
  stripTrailingZeros ([8364%N] ++ u " 1,25") = [8364%N] ++ u " 125".
Proof. split; vm_compute; reflexivity. Qed.

End Price.
