(* ===== verification/BillingExpr.v ===== *)
(** * Billing expressions
    (web/default/src/features/pricing/lib/billing-expr.ts)

    A model with dynamic prices carries an expression: tiers such as
    [len <= 200000 ? tier("a", p * 3 + c * 15) : tier("b", p * 6 + c * 22.5)],
    possibly multiplied by request rules such as
    [(param("x") != nil ? 1.5 : 1)].  This file models the parser that the
    price display uses, the request-rule parser and printer of the editor, and
    the functions that join and separate the two parts.  The patterns are the
    source's regular expressions, run by the matcher of [JsRegex].

    A condition that contains a string literal is decoded by [JSON.parse],
    which may throw; the functions that can throw return a [result]. *)

From S2P Require Import Prelude JsString JsNumber JsJson JsRegex PricingModels.

Open Scope N_scope.

Module Billing.

(** ** Results of code that may throw *)

Inductive result (A : Type) : Type :=
| Ret (a : A)
| Throw.
Arguments Ret {A} a.
Arguments Throw {A}.

Definition res_bind {A B} (m : result A) (f : A -> result B) : result B :=
  match m with Ret a => f a | Throw => Throw end.

(** [for (const x of l) { const r = f(x); if (!r) return null; out.push(r) }] *)
Fixpoint collect {A B} (f : A -> result (option B)) (l : list A) : result (option (list B)) :=
  match l with
  | [] => Ret (Some [])
  | x :: l' =>
      match f x with
      | Throw => Throw
      | Ret None => Ret None
      | Ret (Some y) => res_bind (collect f l') (fun o => Ret (cons y <$> o))
      end
  end.

(** ** Variables *)

Inductive Side := side_input | side_output | side_condition.

Record BillingVar := mkVar {
  bv_key : jsstr;
  bv_field : option jsstr;
  bv_tierField : option jsstr;
  bv_label : jsstr;
  bv_shortLabel : jsstr;
  bv_side : Side;
  bv_isBase : bool;
  bv_isConditionOnly : bool;
  bv_group : option jsstr;
}.

Definition price_var key field tierField label short side base group : BillingVar :=
  mkVar key (Some field) (Some tierField) label short side base false group.

Definition BILLING_VARS : list BillingVar := [
  price_var (u "p") (u "inputPrice") (u "input_unit_cost") (u "Input price") (u "Input") side_input true None;
  price_var (u "c") (u "outputPrice") (u "output_unit_cost") (u "Completion price") (u "Output") side_output true None;
  mkVar (u "len") None None (u "Input length") (u "Length") side_condition false true None;
  price_var (u "cr") (u "cacheReadPrice") (u "cache_read_unit_cost") (u "Cache read price") (u "Cache Read")
    side_input false (Some (u "cache"));
  price_var (u "cc") (u "cacheCreatePrice") (u "cache_create_unit_cost") (u "Cache create price") (u "Cache Write")
    side_input false (Some (u "cache"));
  price_var (u "cc1h") (u "cacheCreate1hPrice") (u "cache_create_1h_unit_cost") (u "Cache create (1h) price")
    (u "Cache Write (1h)") side_input false (Some (u "cache"));
  price_var (u "img") (u "imagePrice") (u "image_unit_cost") (u "Image input price") (u "Image In")
    side_input false (Some (u "media"));
  price_var (u "img_o") (u "imageOutputPrice") (u "image_output_unit_cost") (u "Image output price") (u "Image Out")
    side_output false (Some (u "media"));
  price_var (u "ai") (u "audioInputPrice") (u "audio_input_unit_cost") (u "Audio input price") (u "Audio In")
    side_input false (Some (u "media"));
  price_var (u "doc") (u "documentInputPrice") (u "document_input_unit_cost") (u "Document input price")
    (u "Document In") side_input false (Some (u "media"));
  price_var (u "vid") (u "videoInputPrice") (u "video_input_unit_cost") (u "Video input price") (u "Video In")
    side_input false (Some (u "media"));
  price_var (u "ao") (u "audioOutputPrice") (u "audio_output_unit_cost") (u "Audio output price") (u "Audio Out")
    side_output false (Some (u "media"))
].

Definition BILLING_PRICING_VARS : list BillingVar := bfilter (fun v => negb (bv_isConditionOnly v)) BILLING_VARS.

Definition BILLING_CONDITION_VARS : list jsstr :=
  map bv_key (bfilter (fun v => bv_isBase v || bv_isConditionOnly v) BILLING_VARS).

Definition BILLING_VAR_KEY_TO_FIELD : list (jsstr * jsstr) :=
  map (fun v => (bv_key v, bv_field v ?? [])) BILLING_PRICING_VARS.

Definition BILLING_EXTRA_VARS : list BillingVar :=
  bfilter (fun v => negb (bv_isBase v) && negb (bv_isConditionOnly v)) BILLING_VARS.

(** The pairs of [field] and [exprVar]. *)
Definition BILLING_CACHE_VAR_MAP : list (jsstr * jsstr) :=
  map (fun v => (bv_tierField v ?? [], bv_key v)) BILLING_EXTRA_VARS.

(** ** Patterns *)

(** [[\d.eE+-]+] *)
Definition num_re : re := RPlus (RCls is_num_char).

(** [[\d.eE+]+] *)
Definition is_limit_char (c : N) : bool :=
  is_digit c || (c =? 46) || (c =? 101) || (c =? 69) || (c =? 43).

Definition limit_re : re := RPlus (RCls is_limit_char).

(** A quoted text without quotation marks, captured without them. *)
Definition quoted_re (n : nat) : re := rseq [RStr (uj "'"); RGroup n (RPlus (RCls not_quote)); RStr (uj "'")].

(** A price variable (group 1) times a number (group 2). *)
Definition BILLING_VAR_REGEX : re :=
  rseq [RWordB; RGroup 1 (ralt (map (fun v => RStr (bv_key v)) BILLING_PRICING_VARS)); rws; RStr (u "*");
        rws; RGroup 2 num_re].

Definition VERSION_REGEX : re :=
  rseq [RStart; RStr (u "v"); RGroup 1 (RPlus (RCls is_digit)); RStr (u ":");
        RGroup 2 (RStar (RCls (fun _ => true))); REnd].

(** [(?:p|c|len)] and [(?:<|<=|>|>=)] *)
Definition cond_var_re : re := ralt [RStr (u "p"); RStr (u "c"); RStr (u "len")].
Definition cond_op_re : re := ralt [RStr (u "<"); RStr (u "<="); RStr (u ">"); RStr (u ">=")].

Definition cond_item_re : re := rseq [cond_var_re; rws; cond_op_re; rws; limit_re].

Definition and_re : re := rseq [rws; RStr (u "&&"); rws].

(** [condGroup], group 1 *)
Definition condGroup : re := RGroup 1 (RSeq cond_item_re (RStar (RSeq and_re cond_item_re))).

(** The optional conditions with their question mark, the call of [tier] with
    its label as group 2, the pattern of the body, and the closing parenthesis. *)
Definition tier_re (body : re) : re :=
  rseq [ROpt (rseq [condGroup; rws; RStr (u "?"); rws]); RStr (uj "tier('");
        RGroup 2 (RStar (RCls not_quote)); RStr (uj "',"); rws; body; RStr (u ")")].

Definition tierRe : re := tier_re (RGroup 3 (RPlus (RCls (fun c => negb (c =? 41))))).

(** One condition and nothing else: variable, operator and limit. *)
Definition cond_parse_re : re :=
  rseq [RStart; RGroup 1 cond_var_re; rws; RGroup 2 cond_op_re; rws; RGroup 3 limit_re; REnd].

Definition digit_re : re := RCls is_digit.

(** Sign, digits with an optional point or a point and digits, exponent. *)
Definition NUMERIC_LITERAL_REGEX : re :=
  rseq [RStart; ROpt (RStr (u "-"));
        RAlt (rseq [RPlus digit_re; ROpt (RStr (u ".")); RStar digit_re]) (rseq [RStr (u "."); RPlus digit_re]);
        ROpt (rseq [RCls (fun c => (c =? 101) || (c =? 69)); ROpt (RCls (fun c => (c =? 43) || (c =? 45)));
                    RPlus digit_re]);
        REnd].

Definition is_numeric_literal (s : jsstr) : bool := re_test NUMERIC_LITERAL_REGEX s.

(** ** Tiers *)

Record TierCondition := mkTC { tc_var : jsstr; tc_op : jsstr; tc_value : number }.

(** A tier with its prices by field. *)
Record ParsedTier := mkPT {
  pt_label : jsstr;
  pt_conditions : list TierCondition;
  pt_prices : list (jsstr * number);
}.

Definition cap (n : nat) (m : mstate) : jsstr := group n m ?? [].

Definition stripExprVersion (exprStr : jsstr) : number * jsstr :=
  if negb (truthy exprStr) then (num_of_Z 1, [])
  else match re_match VERSION_REGEX exprStr with
       | Some m => (str_to_num (cap 1 m), cap 2 m)
       | None => (num_of_Z 1, exprStr)
       end.

(** [a || 0] on numbers *)
Definition or_zero (x : number) : number := if num_truthy x then x else num_of_Z 0.

Definition add_coeff (coeffs : list (jsstr * number)) (m : mstate) : list (jsstr * number) :=
  match map_get (cap 1 m) coeffs with
  | Some _ => coeffs
  | None => map_set (cap 1 m) (str_to_num (cap 2 m)) coeffs
  end.

Definition parseTierBody (bodyStr : jsstr) : list (jsstr * number) :=
  let coeffs := foldl add_coeff [] (exec_all BILLING_VAR_REGEX bodyStr) in
  foldl (fun tier '(varName, field) => map_set field (or_zero (map_get varName coeffs ?? num_of_Z 0)) tier) []
    BILLING_VAR_KEY_TO_FIELD.

(** The conditions of a matched condition string. *)
Definition parse_conditions (condStr : jsstr) : list TierCondition :=
  if negb (truthy condStr) then []
  else omap (fun cp => (fun cm => mkTC (cap 1 cm) (cap 2 cm) (str_to_num (cap 3 cm)))
                         <$> re_match cond_parse_re (trim cp)) (re_split and_re condStr).

Definition tier_of_match (m : mstate) : ParsedTier :=
  mkPT (cap 2 m) (parse_conditions (cap 1 m)) (parseTierBody (cap 3 m)).

Definition parseTiersFromExpr (exprStr : jsstr) : list ParsedTier :=
  if negb (truthy exprStr) then []
  else map tier_of_match (exec_all tierRe (stripExprVersion exprStr).2).

Definition fullwidth_eq : N -> bool := fun c => (c =? 61) || (c =? 65309).

(** [/<[=＝]?|≤|＜[=＝]?/g] and [/>[=＝]?|≥|＞[=＝]?/g] *)
Definition relation_re (ascii sign wide : N) : re :=
  ralt [RSeq (RChr ascii) (ROpt (RCls fullwidth_eq)); RChr sign; RSeq (RChr wide) (ROpt (RCls fullwidth_eq))].

Definition normalizeTierLabel `{!Locale} (label : option jsstr) : jsstr :=
  if negb (truthy_opt label) then []
  else
    let s := replace_all (relation_re 60 8804 65308) (u "<") (label ?? []) in
    let s := replace_all (relation_re 62 8805 65310) (u ">") s in
    toLowerCase (replace_all (RPlus (RCls is_ws)) [] s).

(** ** Splitting at the top level *)

(** The scan of [splitTopLevelMultiply] and [splitTopLevelAnd]: [part] is
    [expr.slice(start, index)], [skip] the units of a separator still to pass. *)
Fixpoint split_top (sep : jsstr) (depth : Z) (skip : nat) (part s : jsstr) : list jsstr :=
  match s with
  | [] => [trim part]
  | c :: s' =>
      match skip with
      | S n => split_top sep depth n part s'
      | 0%nat =>
          let depth := if c =? 40 then (depth + 1)%Z else depth in
          let depth := if c =? 41 then (depth - 1)%Z else depth in
          if (depth =? 0)%Z && starts_with sep s then
            trim part :: split_top sep depth (length sep - 1) [] s'
          else split_top sep depth 0 (part ++ [c]) s'
      end
  end.

Definition splitTopLevelMultiply (expr : jsstr) : list jsstr :=
  bfilter truthy (split_top (u " * ") 0 0 [] expr).

Definition splitTopLevelAnd (expr : jsstr) : list jsstr :=
  bfilter truthy (split_top (u " && ") 0 0 [] expr).

(** ** Request conditions *)

Inductive Source := Param | Header.

Definition source_name (s : Source) : jsstr := match s with Param => u "param" | Header => u "header" end.

Definition MATCH_EQ := u "eq".
Definition MATCH_CONTAINS := u "contains".
Definition MATCH_GT := u "gt".
Definition MATCH_GTE := u "gte".
Definition MATCH_LT := u "lt".
Definition MATCH_LTE := u "lte".
Definition MATCH_EXISTS := u "exists".
Definition MATCH_RANGE := u "range".

Definition TIME_FUNCS : list jsstr := [u "hour"; u "minute"; u "weekday"; u "month"; u "day"].

Inductive RequestCondition :=
| TimeCondition (timeFunc timezone mode value rangeStart rangeEnd : jsstr)
| ParamHeaderCondition (source : Source) (path mode value : jsstr).

Record RequestRuleGroup := mkGroup {
  conditions : list RequestCondition;
  multiplier : jsstr;
}.

(** The value or [null]; [JNull] is [null] too. *)
Definition parseExprLiteral (raw : jsstr) : option json :=
  let text := trim raw in
  if bool_decide (text = u "true") || bool_decide (text = u "false") then Some (JStr text)
  else if is_numeric_literal text then Some (JStr text)
  else JSON_parse text.

(** [(hour|minute|weekday|month|day)], group 1 *)
Definition time_fn_re : re := RGroup 1 (ralt (map RStr TIME_FUNCS)).

(** Two comparisons of the same call, joined by a disjunction. *)
Definition range_re : re :=
  rseq [time_fn_re; RStr (u "("); quoted_re 2; RStr (u ") >= "); RGroup 3 num_re; RStr (u " || ");
        RBack 1; RStr (uj "('"); RBack 2; RStr (uj "') < "); RGroup 4 num_re].

Definition time_range_re : re := rseq [RStart; range_re; REnd].
Definition time_range_paren_re : re := rseq [RStart; RStr (u "("); range_re; RStr (u ")"); REnd].

Definition time_op_re : re :=
  rseq [RStart; time_fn_re; RStr (u "("); quoted_re 2; RStr (u ") ");
        RGroup 3 (ralt [RStr (u "=="); RStr (u ">="); RStr (u "<")]); RStr (u " "); RGroup 4 num_re; REnd].

Definition time_range_of (m : mstate) : RequestCondition :=
  TimeCondition (cap 1 m) (cap 2 m) MATCH_RANGE [] (cap 3 m) (cap 4 m).

(** [opMap[op] || MATCH_EQ] *)
Definition time_mode (op : jsstr) : jsstr :=
  map_get op [(u "==", MATCH_EQ); (u ">=", MATCH_GTE); (u "<", MATCH_LT)] ?? MATCH_EQ.

Definition tryParseTimeCondition (expr : jsstr) : option RequestCondition :=
  match re_match time_range_re expr with
  | Some m => Some (time_range_of m)
  | None =>
      match re_match time_range_paren_re expr with
      | Some m => Some (time_range_of m)
      | None =>
          (fun m => TimeCondition (cap 1 m) (cap 2 m) (time_mode (cap 3 m)) (cap 4 m) [] [])
            <$> re_match time_op_re expr
      end
  end.

Definition header_exists_re : re :=
  rseq [RStart; RStr (u "header("); quoted_re 1; RStr (uj ") != ''"); REnd].

Definition param_exists_re : re :=
  rseq [RStart; RStr (u "param("); quoted_re 1; RStr (u ") != nil"); REnd].

(** A quoted literal in which a backslash protects the next unit. *)
Definition string_literal_re : re :=
  rseq [RStr (uj "'"); RStar (RAlt (RCls (fun c => negb (c =? 34) && negb (c =? 92))) (RSeq (RChr 92) RDot));
        RStr (uj "'")].

Definition header_contains_re : re :=
  rseq [RStart; RStr (u "has(header("); quoted_re 1; RStr (u "), "); RGroup 2 string_literal_re; RStr (u ")"); REnd].

Definition param_contains_re : re :=
  rseq [RStart; RStr (u "param("); quoted_re 1; RStr (u ") != nil && has(param("); quoted_re 2; RStr (u "), ");
        RGroup 3 string_literal_re; RStr (u ")"); REnd].

Definition param_compare_re : re :=
  rseq [RStart; RStr (u "param("); quoted_re 1; RStr (u ") != nil && param("); quoted_re 2; RStr (u ") ");
        RGroup 3 (ralt [RStr (u ">"); RStr (u ">="); RStr (u "<"); RStr (u "<=")]); RStr (u " "); RGroup 4 num_re;
        REnd].

Definition equals_re : re :=
  rseq [RStart; RGroup 1 (ralt [RStr (u "param"); RStr (u "header")]); RStr (u "("); quoted_re 2; RStr (u ") == ");
        RGroup 3 (RPlus RDot); REnd].

Definition compare_mode (op : jsstr) : jsstr :=
  map_get op [(u ">", MATCH_GT); (u ">=", MATCH_GTE); (u "<", MATCH_LT); (u "<=", MATCH_LTE)] ?? [].

(** [JSON.parse] of a string literal, which throws on a malformed one. *)
Definition contains_value (s : Source) (path literal : jsstr) : result (option RequestCondition) :=
  match JSON_parse literal with
  | Some v => Ret (Some (ParamHeaderCondition s path MATCH_CONTAINS (json_to_str v)))
  | None => Throw
  end.

Definition parse_equals (expr : jsstr) : option RequestCondition :=
  match re_match equals_re expr with
  | Some m =>
      match parseExprLiteral (cap 3 m) with
      | None | Some JNull => None
      | Some v =>
          Some (ParamHeaderCondition (if bool_decide (cap 1 m = u "header") then Header else Param) (cap 2 m)
                  MATCH_EQ (json_to_str v))
      end
  | None => None
  end.

Definition same_path (m : mstate) : bool := bool_decide (cap 1 m = cap 2 m).

Definition parse_compare (expr : jsstr) : option RequestCondition :=
  match re_match param_compare_re expr with
  | Some m => if same_path m then Some (ParamHeaderCondition Param (cap 1 m) (compare_mode (cap 3 m)) (cap 4 m))
              else parse_equals expr
  | None => parse_equals expr
  end.

Definition parse_param_contains (expr : jsstr) : result (option RequestCondition) :=
  match re_match param_contains_re expr with
  | Some m => if same_path m then contains_value Param (cap 1 m) (cap 3 m) else Ret (parse_compare expr)
  | None => Ret (parse_compare expr)
  end.

Definition tryParseRequestCondition (expr : jsstr) : result (option RequestCondition) :=
  match tryParseTimeCondition expr with
  | Some tc => Ret (Some tc)
  | None =>
      match re_match header_exists_re expr with
      | Some m => Ret (Some (ParamHeaderCondition Header (cap 1 m) MATCH_EXISTS []))
      | None =>
          match re_match param_exists_re expr with
          | Some m => Ret (Some (ParamHeaderCondition Param (cap 1 m) MATCH_EXISTS []))
          | None =>
              match re_match header_contains_re expr with
              | Some m => contains_value Header (cap 1 m) (cap 2 m)
              | None => parse_param_contains expr
              end
          end
      end
  end.

(** A condition (group 1), the multiplier (group 2) and the alternative 1. *)
Definition rule_factor_re : re :=
  rseq [RStart; RStr (u "("); RGroup 1 (RPlus (RCls (fun _ => true))); RStr (u " ? "); RGroup 2 num_re;
        RStr (u " : 1)"); REnd].

Definition tryParseRuleGroupFactor (part : jsstr) : result (option RequestRuleGroup) :=
  match re_match rule_factor_re part with
  | None => Ret None
  | Some m =>
      res_bind (collect (fun ap => tryParseRequestCondition (trim ap)) (splitTopLevelAnd (cap 1 m)))
        (fun o => Ret (match o with
                       | Some ((_ :: _) as conds) => Some (mkGroup conds (cap 2 m))
                       | _ => None
                       end))
  end.

Definition tryParseRequestRuleExpr (expr : jsstr) : result (option (list RequestRuleGroup)) :=
  let trimmed := trim expr in
  if negb (truthy trimmed) then Ret (Some [])
  else collect tryParseRuleGroupFactor (splitTopLevelMultiply trimmed).

(** ** Joining and separating tiers and rules *)

Definition paren_depth (depth : Z) (c : N) : Z :=
  let depth := if c =? 40 then (depth + 1)%Z else depth in
  if c =? 41 then (depth - 1)%Z else depth.

Fixpoint outer_loop (depth : Z) (s : jsstr) : bool :=
  match s with
  | [] => (depth =? 0)%Z
  | c :: s' =>
      let depth := paren_depth depth c in
      if (depth =? 0)%Z && truthy s' then false else outer_loop depth s'
  end.

Definition ends_with (s p : jsstr) : bool := starts_with (rev p) (rev s).

Definition hasFullOuterParens (expr : jsstr) : bool :=
  if negb (starts_with (u "(") expr) || negb (ends_with expr (u ")")) then false
  else outer_loop 0 expr.

(** [expr.slice(1, -1)] *)
Definition inner (s : jsstr) : jsstr := removelast (drop 1 s).

Fixpoint unwrap_loop (fuel : nat) (current : jsstr) : jsstr :=
  match fuel with
  | 0%nat => current
  | S f => if hasFullOuterParens current then unwrap_loop f (trim (inner current)) else current
  end.

Definition unwrapOuterParens (expr : jsstr) : jsstr := unwrap_loop (length expr) (trim expr).

Definition is_rule_part (part : jsstr) : result bool :=
  res_bind (tryParseRequestRuleExpr part) (fun parsed => Ret (truthy_list (parsed ?? []))).

(** The two lists the loop over the parts fills: rules and base parts. *)
Fixpoint sort_parts (parts : list jsstr) : result (list jsstr * list jsstr) :=
  match parts with
  | [] => Ret ([], [])
  | part :: rest =>
      res_bind (is_rule_part part) (fun is_rule =>
      res_bind (sort_parts rest) (fun '(rules, base) =>
      Ret (if is_rule : bool then (part :: rules, base) else (rules, part :: base))))
  end.

(** The billing expression and the request-rule expression. *)
Definition splitBillingExprAndRequestRules (expr : jsstr) : result (jsstr * jsstr) :=
  let trimmed := trim expr in
  if negb (truthy trimmed) then Ret ([], [])
  else
    let parts := splitTopLevelMultiply trimmed in
    if (length parts <=? 1)%nat then Ret (trimmed, [])
    else
      res_bind (sort_parts parts) (fun '(ruleParts, baseParts) =>
      Ret (match ruleParts, baseParts with
           | _ :: _, [base] => (unwrapOuterParens base, join (u " * ") ruleParts)
           | _, _ => (trimmed, [])
           end)).

Definition combineBillingExpr (baseExpr requestRuleExpr : jsstr) : jsstr :=
  let base := trim baseExpr in
  let rules := trim requestRuleExpr in
  if negb (truthy base) then []
  else if negb (truthy rules) then base
  else u "(" ++ base ++ u ") * " ++ rules.

(** ** Editor: constructors and options *)

Definition createEmptyCondition : RequestCondition := ParamHeaderCondition Param [] MATCH_EQ [].

Definition createEmptyTimeCondition : RequestCondition :=
  TimeCondition (u "hour") (u "Asia/Shanghai") MATCH_GTE [] [] [].

Definition createEmptyRuleGroup : RequestRuleGroup := mkGroup [createEmptyCondition] [].

Definition createEmptyTimeRuleGroup : RequestRuleGroup := mkGroup [createEmptyTimeCondition] [].

Definition SOURCE_TIME := u "time".
Definition SOURCE_HEADER := u "header".

(** The pairs of [value] and [labelKey]. *)
Definition getRequestRuleMatchOptions (source : jsstr) : list (jsstr * jsstr) :=
  if bool_decide (source = SOURCE_TIME) then
    [(MATCH_EQ, u "Equals"); (MATCH_GTE, u "Greater than or equal"); (MATCH_LT, u "Less than");
     (MATCH_RANGE, u "Overnight range")]
  else
    let base := [(MATCH_EQ, u "Equals"); (MATCH_CONTAINS, u "Contains"); (MATCH_EXISTS, u "Exists")] in
    if bool_decide (source = SOURCE_HEADER) then base
    else base ++ [(MATCH_GT, u "Greater than"); (MATCH_GTE, u "Greater than or equal"); (MATCH_LT, u "Less than");
                  (MATCH_LTE, u "Less than or equal")].

(** [Partial<RequestCondition>]: the fields of both shapes. *)
Record PartialCondition := mkPartial {
  pc_source : option jsstr;
  pc_timeFunc : option jsstr;
  pc_timezone : option jsstr;
  pc_path : option jsstr;
  pc_mode : option jsstr;
  pc_value : option jsstr;
  pc_rangeStart : option jsstr;
  pc_rangeEnd : option jsstr;
}.

Definition to_partial (c : RequestCondition) : PartialCondition :=
  match c with
  | TimeCondition f tz m v rs re =>
      mkPartial (Some SOURCE_TIME) (Some f) (Some tz) None (Some m) (Some v) (Some rs) (Some re)
  | ParamHeaderCondition s p m v => mkPartial (Some (source_name s)) None None (Some p) (Some m) (Some v) None None
  end.

Definition isTimeFunc (value : option jsstr) : bool :=
  match value with Some v => includes TIME_FUNCS v | None => false end.

Definition has_mode (options : list (jsstr * jsstr)) (mode : option jsstr) : bool :=
  existsb (fun item => bool_decide (Some item.1 = mode)) options.

Definition or_opt_str (a : option jsstr) (b : jsstr) : jsstr := if truthy_opt a then a ?? [] else b.

Definition empty_partial : PartialCondition := mkPartial None None None None None None None None.

Definition normalizeCondition (cond : option PartialCondition) : RequestCondition :=
  let c := cond ?? empty_partial in
  if bool_decide (pc_source c = Some SOURCE_TIME) then
    let timeFunc := if isTimeFunc (pc_timeFunc c) then pc_timeFunc c ?? [] else u "hour" in
    let mode := if has_mode (getRequestRuleMatchOptions SOURCE_TIME) (pc_mode c) then pc_mode c ?? [] else MATCH_GTE in
    TimeCondition timeFunc (or_opt_str (pc_timezone c) (u "Asia/Shanghai")) mode (pc_value c ?? [])
      (pc_rangeStart c ?? []) (pc_rangeEnd c ?? [])
  else
    let source := if bool_decide (pc_source c = Some SOURCE_HEADER) then Header else Param in
    let mode := if has_mode (getRequestRuleMatchOptions (source_name source)) (pc_mode c)
                then pc_mode c ?? [] else MATCH_EQ in
    ParamHeaderCondition source (or_opt_str (pc_path c) []) mode (pc_value c ?? []).

(** ** Editor: printing *)

Definition buildExprLiteral (mode value : jsstr) : jsstr :=
  let text := trim value in
  if bool_decide (mode = MATCH_CONTAINS) then json_quote text
  else if bool_decide (text = u "true") || bool_decide (text = u "false") then text
  else if is_numeric_literal text then text
  else json_quote text.

(** [opMap[mode] || '=='] *)
Definition time_op (mode : jsstr) : jsstr :=
  map_get mode [(MATCH_EQ, u "=="); (MATCH_GTE, u ">="); (MATCH_LT, u "<")] ?? u "==".

Definition time_call (timeFunc timezone : jsstr) : jsstr := timeFunc ++ u "(" ++ json_quote timezone ++ u ")".

(** After [normalizeCondition]. *)
Definition time_condition_expr (timeFunc timezone mode value rangeStart rangeEnd : jsstr) : jsstr :=
  let fn := time_call timeFunc timezone in
  if bool_decide (mode = MATCH_RANGE) then
    let s := trim rangeStart in
    let e := trim rangeEnd in
    if negb (is_numeric_literal s) || negb (is_numeric_literal e) then []
    else fn ++ u " >= " ++ s ++ u " || " ++ fn ++ u " < " ++ e
  else
    let v := trim value in
    if negb (is_numeric_literal v) then []
    else fn ++ u " " ++ time_op mode ++ u " " ++ v.

Definition compare_op (mode : jsstr) : option jsstr :=
  map_get mode [(MATCH_GT, u ">"); (MATCH_GTE, u ">="); (MATCH_LT, u "<"); (MATCH_LTE, u "<=")].

Definition source_call (s : Source) (path : jsstr) : jsstr := source_name s ++ u "(" ++ json_quote path ++ u ")".

Definition param_header_expr (s : Source) (path mode value : jsstr) : jsstr :=
  let path := trim path in
  if negb (truthy path) then []
  else
    let sourceExpr := source_call s path in
    if bool_decide (mode = MATCH_EXISTS) then
      match s with Header => sourceExpr ++ uj " != ''" | Param => sourceExpr ++ u " != nil" end
    else if bool_decide (mode = MATCH_CONTAINS) then
      let call := u "has(" ++ sourceExpr ++ u ", " ++ buildExprLiteral mode value ++ u ")" in
      match s with Header => call | Param => sourceExpr ++ u " != nil && " ++ call end
    else
      match compare_op mode with
      | Some op =>
          let numText := trim value in
          if negb (is_numeric_literal numText) then []
          else sourceExpr ++ u " != nil && " ++ sourceExpr ++ u " " ++ op ++ u " " ++ numText
      | None => sourceExpr ++ u " == " ++ buildExprLiteral mode value
      end.

Definition buildRequestConditionExpr (cond : RequestCondition) : jsstr :=
  match normalizeCondition (Some (to_partial cond)) with
  | TimeCondition f tz m v rs re => time_condition_expr f tz m v rs re
  | ParamHeaderCondition s p m v => param_header_expr s p m v
  end.

Definition wrap_or (e : jsstr) : jsstr := if str_includes e (u " || ") then u "(" ++ e ++ u ")" else e.

Definition combine_conditions (condExprs : list jsstr) : jsstr :=
  match condExprs with
  | [e] => e
  | _ => join (u " && ") (map wrap_or condExprs)
  end.

Definition buildRuleGroupFactor (group : RequestRuleGroup) : jsstr :=
  let mult := trim (multiplier group) in
  if negb (is_numeric_literal mult) then []
  else
    let condExprs := bfilter truthy (map buildRequestConditionExpr (conditions group)) in
    match condExprs with
    | [] => []
    | _ => u "(" ++ combine_conditions condExprs ++ u " ? " ++ mult ++ u " : 1)"
    end.

Definition buildRequestRuleExpr (groups : list RequestRuleGroup) : jsstr :=
  join (u " * ") (bfilter truthy (map buildRuleGroupFactor groups)).

(** ** Examples *)

Definition sample_expr : jsstr :=
  uj "v2:len <= 200000 && p > 1 ? tier('a', p * 3 + c * 15 + cr * 0.3) : tier('b', p*6 + c*22.5)".

Example parse_sample :
  map (fun t => (pt_label t, map (fun c => (tc_var c, tc_op c, tc_value c)) (pt_conditions t),
                 take 3 (map snd (pt_prices t)))) (parseTiersFromExpr sample_expr)
  = [(u "a", [(u "len", u "<=", num_of_Z 200000); (u "p", u ">", num_of_Z 1)],
      [num_of_Z 3; num_of_Z 15; num_of_decimal 3 (-1)]);
     (u "b", [], [num_of_Z 6; num_of_decimal 225 (-1); num_of_Z 0])].
Proof. vm_compute. reflexivity. Qed.

Definition sample_groups : list RequestRuleGroup := [
  mkGroup [ParamHeaderCondition Header (u "x-beta") MATCH_EXISTS [];
           TimeCondition (u "hour") (u "UTC") MATCH_RANGE [] (u "21") (u "6")] (u "1.5");
  mkGroup [ParamHeaderCondition Param (u "service_tier") MATCH_EQ (u "fast")] (u "2");
  mkGroup [ParamHeaderCondition Header (u "ua") MATCH_CONTAINS (u "bot")] (u "-0.5e1")].

Example build_sample :
  buildRequestRuleExpr sample_groups =
  uj "(header('x-beta') != '' && (hour('UTC') >= 21 || hour('UTC') < 6) ? 1.5 : 1) * (param('service_tier') == 'fast' ? 2 : 1) * (has(header('ua'), 'bot') ? -0.5e1 : 1)".
Proof. vm_compute. reflexivity. Qed.

Example parse_build_sample :
  tryParseRequestRuleExpr (buildRequestRuleExpr sample_groups) = Ret (Some sample_groups).
Proof. vm_compute. reflexivity. Qed.

End Billing.
