(* ===== verification/BillingRules.v ===== *)
(** * Request rules: what the editor writes, it reads

    Theorems about the printer and the parsers of [BillingExpr]: request rules
    survive a round trip through their text, and an expression that joins
    tiers and rules is taken apart again.  The rules for which this fails are
    characterised as well. *)

From S2P Require Import Prelude JsString JsNumber JsJson JsRegex PricingModels BillingExpr.

Import Billing.
Open Scope N_scope.

Module Rules.

(** ** Texts that need no quoting *)

(** Units that mean nothing to the scanners and to [JSON.stringify]: no
    quotation mark, backslash, parenthesis, ampersand, bar, control unit, line
    end or surrogate. *)
Definition safe_char (c : N) : bool :=
  negb (c =? 34) && negb (c =? 92) && negb (c =? 40) && negb (c =? 41) && negb (c =? 38) && negb (c =? 124)
  && negb (c <? 32) && negb (is_high c) && negb (is_low c) && negb (is_line_end c).

Lemma safe_quote_unit c : safe_char c = true -> quote_unit c = [c].
Proof.
  unfold safe_char, quote_unit. rewrite !andb_true_iff, !negb_true_iff.
  intros (((((((((H34 & H92) & _) & _) & _) & _) & H32) & Hh) & Hl) & _). apply N.ltb_ge in H32.
  rewrite H34, H92, Hh, Hl, (proj2 (N.ltb_ge c 32)) by done. cbn.
  repeat match goal with |- context [c =? ?k] => rewrite (proj2 (N.eqb_neq c k)) by lia end. done.
Qed.

Lemma safe_quote_body s : forallb safe_char s = true -> quote_body s = s.
Proof.
  cut (forall n s, (length s <= n)%nat -> forallb safe_char s = true -> quote_body s = s); [eauto|]. clear s.
  induction n as [|n IH]; intros [|c s] Hn; cbn in Hn; try done; [lia|]. cbn [forallb].
  intros [Hc Hs]%andb_true_iff. cbn [quote_body]. rewrite (safe_quote_unit c Hc).
  destruct s as [|d s]; [done|].
  assert (is_high c = false) as ->.
  { unfold safe_char in Hc. rewrite !andb_true_iff, !negb_true_iff in Hc. tauto. }
  cbn [andb app]. f_equal. apply IH; [cbn in *; lia|done].
Qed.

Lemma safe_quote s : forallb safe_char s = true -> json_quote s = [34] ++ s ++ [34].
Proof. intros H. unfold json_quote. by rewrite safe_quote_body. Qed.

Lemma safe_not_quote s : forallb safe_char s = true -> forallb not_quote s = true.
Proof.
  rewrite !forallb_forall. intros H c Hc. specialize (H c Hc). unfold safe_char, not_quote in *.
  rewrite !andb_true_iff in H. tauto.
Qed.

(** ** Numbers *)

(** A numeric literal is made of the units of a number and is not empty. *)
Lemma numeric_literal_chars s : is_numeric_literal s = true -> forallb is_num_char s = true /\ s <> [].
Proof.
  unfold is_numeric_literal, NUMERIC_LITERAL_REGEX. rewrite re_test_match.
  change (rseq (RStart :: ?l)) with (RSeq RStart (rseq l)). rewrite re_match_anchored.
  destruct (rmatch _ _ _) eqn:Hm; [|done]. intros _. apply rmatch_sound in Hm as (st' & Hm & _).
  assert (after st' = []) as Hend.
  { clear -Hm. unfold rseq in Hm. cbn [foldr] in Hm.
    repeat match goal with H : matches (RSeq _ _) _ _ |- _ => inversion H; subst; clear H end.
    match goal with H : matches REps _ _ |- _ => inversion H; subst; clear H end.
    match goal with H : matches REnd _ _ |- _ => inversion H; subst; clear H end. done. }
  split.
  - apply (matches_only is_num_char) in Hm as (a & Ha & Hall & _).
    + cbn in Ha. rewrite Hend, app_nil_r in Ha. by subst.
    + cbn. unfold is_num_char. repeat split; intros c; rewrite ?orb_true_iff, ?N.eqb_eq; intros; tauto.
  - intros ->. revert Hm. cbn. intros Hm. apply (rmatch_complete _ Some) in Hm; [|done]. by vm_compute in Hm.
Qed.

(** ** Matching calls *)

(** The text of a call up to the closing quotation mark. *)
Definition call (f a : jsstr) : jsstr := f ++ [34] ++ a ++ [34].

Lemma call_app f g a t : call (f ++ g) a ++ t = f ++ call g a ++ t.
Proof. unfold call. by rewrite <-!app_assoc. Qed.

Lemma rmatch_quoted n k b a t cs :
  a <> [] -> forallb not_quote a = true ->
  rmatch (quoted_re n) k (mkSt b ([34] ++ a ++ [34] ++ t) cs) =
  k (mkSt ([34] ++ rev a ++ [34] ++ b) t (map_set n a cs)).
Proof.
  intros Ha Hq. unfold quoted_re. change (uj "'") with [34].
  change (rmatch (RStr [34]) (rmatch (RGroup n (RPlus (RCls not_quote))) (rmatch (rseq [RStr [34]]) k))
            (mkSt b ([34] ++ a ++ [34] ++ t) cs) = k (mkSt ([34] ++ rev a ++ [34] ++ b) t (map_set n a cs))).
  rewrite rmatch_str_app. cbn [rmatch].
  rewrite rmatch_plus_rejects; [|..].
  - unfold capture. rewrite consumed_mk. cbn [caps set_caps before after].
    apply (rmatch_str_app [34]).
  - intros b' c t' cs' Hc. unfold not_quote in Hc. apply negb_true_iff in Hc. cbn. by rewrite Hc.
  - done.
  - done.
  - by intros c [= <-].
Qed.

(** A literal, a quoted argument, and the rest of the pattern. *)
Lemma rmatch_call f n l k b a t cs :
  a <> [] -> forallb not_quote a = true ->
  rmatch (rseq (RStr f :: quoted_re n :: l)) k (mkSt b (call f a ++ t) cs) =
  rmatch (rseq l) k (mkSt ([34] ++ rev a ++ [34] ++ rev f ++ b) t (map_set n a cs)).
Proof.
  intros Ha Hq. unfold call. rewrite <-!app_assoc.
  change (rmatch (RStr f) (rmatch (quoted_re n) (rmatch (rseq l) k)) (mkSt b (f ++ [34] ++ a ++ [34] ++ t) cs) =
          rmatch (rseq l) k (mkSt ([34] ++ rev a ++ [34] ++ rev f ++ b) t (map_set n a cs))).
  by rewrite rmatch_str_app, rmatch_quoted.
Qed.

Lemma rmatch_lit p l k b t cs :
  rmatch (rseq (RStr p :: l)) k (mkSt b (p ++ t) cs) = rmatch (rseq l) k (mkSt (rev p ++ b) t cs).
Proof. apply (rmatch_str_app p (rmatch (rseq l) k)). Qed.

Lemma rmatch_lit_end p l k b cs :
  rmatch (rseq (RStr p :: l)) k (mkSt b p cs) = rmatch (rseq l) k (mkSt (rev p ++ b) [] cs).
Proof. rewrite <-(app_nil_r p) at 2. apply rmatch_lit. Qed.

(** A run of a class that ends where the pattern needs something else. *)
Lemma rmatch_run p n l k b v t cs :
  v <> [] -> forallb p v = true -> (forall c, head t = Some c -> p c = false) ->
  rejects p (rmatch (rseq l) k) ->
  rmatch (rseq (RGroup n (RPlus (RCls p)) :: l)) k (mkSt b (v ++ t) cs) =
  rmatch (rseq l) k (mkSt (rev v ++ b) t (map_set n v cs)).
Proof.
  intros Hv Hn Ht Hk.
  change (rmatch (RPlus (RCls p)) (fun st' => rmatch (rseq l) k (capture n (mkSt b (v ++ t) cs) st'))
            (mkSt b (v ++ t) cs) = rmatch (rseq l) k (mkSt (rev v ++ b) t (map_set n v cs))).
  rewrite rmatch_plus_rejects; [|..]; [|intros b' c t' cs' Hc; by apply Hk|done..].
  unfold capture. by rewrite consumed_mk.
Qed.

Lemma rmatch_run_end p n k b v cs :
  v <> [] -> forallb p v = true ->
  rmatch (rseq [RGroup n (RPlus (RCls p)); REnd]) k (mkSt b v cs) = k (mkSt (rev v ++ b) [] (map_set n v cs)).
Proof. intros Hv Hn. rewrite <-(app_nil_r v) at 1. by rewrite rmatch_run. Qed.

(** One of several literals of which no two start the text. *)
Lemma rmatch_choice n ls l k b a t cs :
  a ∈ ls -> (forall x, x ∈ ls -> starts_with x (a ++ t) = true -> x = a) ->
  rmatch (rseq (RGroup n (ralt (map RStr ls)) :: l)) k (mkSt b (a ++ t) cs) =
  rmatch (rseq l) k (mkSt (rev a ++ b) t (map_set n a cs)).
Proof.
  intros Ha Hu.
  change (rmatch (ralt (map RStr ls)) (fun st' => rmatch (rseq l) k (capture n (mkSt b (a ++ t) cs) st'))
            (mkSt b (a ++ t) cs) = rmatch (rseq l) k (mkSt (rev a ++ b) t (map_set n a cs))).
  rewrite rmatch_ralt_str by done. unfold capture. by rewrite consumed_mk.
Qed.

Lemma rmatch_flat l1 l2 k st : rmatch (rseq (rseq l1 :: l2)) k st = rmatch (rseq (l1 ++ l2)) k st.
Proof.
  revert st. change (rseq (rseq l1 :: l2)) with (RSeq (rseq l1) (rseq l2)). cbn [rmatch].
  induction l1 as [|r l1 IH]; intros st; [done|]. cbn [rseq foldr app rmatch].
  change (foldr RSeq REps ?l) with (rseq l). revert st.
  assert (forall k1 k2, (forall st, k1 st = k2 st) -> forall st, rmatch r k1 st = rmatch r k2 st) as Hext
    by apply rmatch_ext.
  by apply Hext.
Qed.

Lemma rmatch_back n l k b t0 t cs :
  map_get n cs = Some t0 ->
  rmatch (rseq (RBack n :: l)) k (mkSt b (t0 ++ t) cs) = rmatch (rseq l) k (mkSt (rev t0 ++ b) t cs).
Proof. intros Hg. cbn [rseq foldr rmatch caps after]. by rewrite Hg, starts_with_app, adv_mk. Qed.

(** The body of a string literal without backslashes. *)
Definition plain_unit (c : N) : bool := negb (c =? 34) && negb (c =? 92).

Lemma star_plain k a t cs : forall b,
  rejects plain_unit k -> forallb plain_unit a = true ->
  rmatch (RStar (RAlt (RCls plain_unit) (RSeq (RChr 92) RDot))) k (mkSt b (a ++ 34 :: t) cs) =
  k (mkSt (rev a ++ b) (34 :: t) cs).
Proof.
  intros b Hk. set (body := RAlt _ _).
  cut (forall fuel b, (length (a ++ 34%N :: t) < fuel)%nat -> forallb plain_unit a = true ->
         star_loop (rmatch body) [] k fuel (mkSt b (a ++ 34 :: t) cs) = k (mkSt (rev a ++ b) (34 :: t) cs));
    [intros H Ha; apply H; [cbn; lia|done]|].
  induction a as [|c a IH]; intros [|f] b' Hf Ha; cbn in Hf; try lia; cbn [star_loop]; rewrite clear_groups_nil.
  - done.
  - cbn [forallb] in Ha. apply andb_true_iff in Ha as [Hc Ha].
    change ((c :: a) ++ 34 :: t) with (c :: (a ++ 34 :: t)). unfold body at 1. cbn [rmatch after]. rewrite Hc.
    rewrite (proj2 (Nat.ltb_lt _ _)) by (cbn; lia). cbn [before caps]. rewrite IH; [|lia|done].
    change (rev (c :: a) ++ b') with ((rev a ++ [c]) ++ b'). rewrite <-app_assoc. cbn [app].
    destruct (k _) eqn:Hkk; [done|]. rewrite (Hk b' c _ cs Hc).
    unfold plain_unit in Hc. apply andb_true_iff in Hc as [_ Hc%negb_true_iff]. cbn [RChr rmatch after]. by rewrite Hc.
Qed.

Lemma rmatch_string_literal n l k b a t cs :
  forallb plain_unit a = true ->
  rmatch (rseq (RGroup n string_literal_re :: l)) k (mkSt b ([34] ++ a ++ [34] ++ t) cs) =
  rmatch (rseq l) k (mkSt ([34] ++ rev a ++ [34] ++ b) t (map_set n ([34] ++ a ++ [34]) cs)).
Proof.
  intros Ha. set (kk := fun st' => rmatch (rseq l) k (capture n (mkSt b ([34] ++ a ++ [34] ++ t) cs) st')).
  change (rmatch (RStr [34]) (rmatch (RStar (RAlt (RCls plain_unit) (RSeq (RChr 92) RDot)))
            (rmatch (rseq [RStr [34]]) kk)) (mkSt b ([34] ++ a ++ [34] ++ t) cs) =
          rmatch (rseq l) k (mkSt ([34] ++ rev a ++ [34] ++ b) t (map_set n ([34] ++ a ++ [34]) cs))).
  rewrite rmatch_str_app. change ([34] ++ t) with (34 :: t). rewrite star_plain; [|..|done].
  - change (34 :: t) with ([34] ++ t). rewrite rmatch_lit. unfold kk, capture. cbn [rseq foldr rmatch].
    change ([34] ++ a ++ [34] ++ t) with (([34] ++ a ++ [34] ++ t)). rewrite !app_assoc, consumed_mk. done.
  - intros b' c t' cs' Hc. unfold plain_unit in Hc. apply andb_true_iff in Hc as [Hc%negb_true_iff _].
    cbn. by rewrite Hc.
Qed.

(** ** Conditions on headers and parameters *)

(** Run an anchored pattern from the start of the text. *)
Ltac anchored re :=
  unfold re; change (rseq (RStart :: ?l)) with (RSeq RStart (rseq l)); rewrite re_match_anchored; unfold start_state.


Section conditions.
Context (path : jsstr) (Hpath : path <> []) (Hquote : forallb not_quote path = true).

Lemma no_time s :
  starts_with (u "header(") s = true \/ starts_with (u "param(") s = true \/ starts_with (u "has(") s = true ->
  tryParseTimeCondition s = None.
Proof.
  unfold tryParseTimeCondition, time_range_re, time_range_paren_re, time_op_re.
  change (rseq (RStart :: ?l)) with (RSeq RStart (rseq l)). rewrite !re_match_anchored.
  intros [(t & ->)%starts_with_spec|[(t & ->)%starts_with_spec|(t & ->)%starts_with_spec]]; reflexivity.
Qed.

Lemma parse_header_exists :
  tryParseRequestCondition (call (u "header(") path ++ uj ") != ''") =
  Ret (Some (ParamHeaderCondition Header path MATCH_EXISTS [])).
Proof.
  unfold tryParseRequestCondition. rewrite no_time by (by left).
  anchored header_exists_re. rewrite rmatch_call by done. by rewrite rmatch_lit_end.
Qed.

Lemma parse_param_exists :
  tryParseRequestCondition (call (u "param(") path ++ u ") != nil") =
  Ret (Some (ParamHeaderCondition Param path MATCH_EXISTS [])).
Proof.
  unfold tryParseRequestCondition. rewrite no_time by (right; by left).
  anchored header_exists_re. replace (rmatch _ _ _) with (@None mstate) by reflexivity.
  anchored param_exists_re. rewrite rmatch_call by done. by rewrite rmatch_lit_end.
Qed.

Lemma parse_header_contains v :
  forallb plain_unit v = true -> JSON_parse ([34] ++ v ++ [34]) = Some (JStr v) ->
  tryParseRequestCondition (call (u "has(header(") path ++ u "), " ++ [34] ++ v ++ [34] ++ u ")") =
  Ret (Some (ParamHeaderCondition Header path MATCH_CONTAINS v)).
Proof.
  intros Hv Hj. unfold tryParseRequestCondition. rewrite no_time by (right; by right).
  anchored header_exists_re. replace (rmatch _ _ _) with (@None mstate) by reflexivity.
  anchored param_exists_re. replace (rmatch _ _ _) with (@None mstate) by reflexivity.
  anchored header_contains_re. rewrite rmatch_call by done.
  rewrite rmatch_lit, rmatch_string_literal, rmatch_lit_end by done. cbn [rseq foldr rmatch after].
  unfold contains_value. change (JSON_parse (cap 2 _)) with (JSON_parse ([34] ++ v ++ [34])). by rewrite Hj.
Qed.

Lemma no_contains s t :
  starts_with (u " == ") t = true ->
  re_match header_contains_re (call (source_name s ++ u "(") path ++ [41] ++ t) = None /\
  re_match param_contains_re (call (source_name s ++ u "(") path ++ [41] ++ t) = None /\
  re_match param_compare_re (call (source_name s ++ u "(") path ++ [41] ++ t) = None /\
  re_match header_exists_re (call (source_name s ++ u "(") path ++ [41] ++ t) = None /\
  re_match param_exists_re (call (source_name s ++ u "(") path ++ [41] ++ t) = None.
Proof.
  intros (t' & ->)%starts_with_spec.
  split_and!; [anchored header_contains_re|anchored param_contains_re|anchored param_compare_re
              |anchored header_exists_re|anchored param_exists_re]; destruct s; try reflexivity;
    (rewrite rmatch_call by done; reflexivity).
Qed.

Lemma parse_equals_literal s lit v :
  lit <> [] -> forallb (fun c => negb (is_line_end c)) lit = true ->
  parseExprLiteral lit = Some (JStr v) ->
  tryParseRequestCondition (call (source_name s ++ u "(") path ++ [41] ++ u " == " ++ lit) =
  Ret (Some (ParamHeaderCondition s path MATCH_EQ v)).
Proof.
  intros Hne Hline Hlit. unfold tryParseRequestCondition.
  rewrite no_time by (destruct s; [right; by left|by left]).
  destruct (no_contains s (u " == " ++ lit)) as (H1 & H2 & H3 & H4 & H5); [apply starts_with_app|].
  rewrite H4, H5, H1. unfold parse_param_contains, parse_compare, parse_equals. rewrite H2, H3.
  anchored equals_re. rewrite call_app, (rmatch_choice 1 [u "param"; u "header"]).
  - rewrite rmatch_call by done. change ([41] ++ u " == " ++ lit) with (u ") == " ++ lit). rewrite rmatch_lit.
    rewrite (rmatch_run_end (fun c => negb (is_line_end c))) by done.
    change (cap 3 _) with lit. rewrite Hlit. by destruct s.
  - destruct s; set_solver.
  - intros x Hx. destruct s; (apply elem_of_cons in Hx as [->|Hx%list_elem_of_singleton]; [|subst x]); done.
Qed.

(** ** Conditions on the time *)

Lemma time_fn_unique f t x :
  f ∈ TIME_FUNCS -> x ∈ TIME_FUNCS -> starts_with x (f ++ 40 :: t) = true -> x = f.
Proof.
  unfold TIME_FUNCS. rewrite !elem_of_cons, !elem_of_nil.
  intros [->|[->|[->|[->|[->|[]]]]]] [->|[->|[->|[->|[->|[]]]]]]; first [done|vm_compute; done].
Qed.

(** The call of a time function on a zone, the zone being [path]. *)
Lemma rmatch_time_call f l k b t cs :
  f ∈ TIME_FUNCS ->
  rmatch (rseq (time_fn_re :: RStr (u "(") :: quoted_re 2 :: l)) k (mkSt b (f ++ call (u "(") path ++ t) cs) =
  rmatch (rseq l) k (mkSt ([34] ++ rev path ++ [34] ++ rev (u "(") ++ rev f ++ b) t
                       (map_set 2%nat path (map_set 1%nat f cs))).
Proof.
  intros Hf. unfold time_fn_re. rewrite rmatch_choice; [|done|].
  - by rewrite rmatch_call.
  - intros x Hx. by apply time_fn_unique.
Qed.

Definition range_text (f s e : jsstr) : jsstr :=
  f ++ call (u "(") path ++ u ") >= " ++ s ++ u " || " ++ f ++ call (u "(") path ++ u ") < " ++ e.

Lemma rmatch_range f s e l k b t :
  f ∈ TIME_FUNCS -> s <> [] -> e <> [] -> forallb is_num_char s = true -> forallb is_num_char e = true ->
  (forall c, head t = Some c -> is_num_char c = false) -> rejects is_num_char (rmatch (rseq l) k) ->
  exists b', rmatch (rseq (range_re :: l)) k (mkSt b (range_text f s e ++ t) []) =
             rmatch (rseq l) k (mkSt b' t [(1%nat, f); (2%nat, path); (3%nat, s); (4%nat, e)]).
Proof.
  intros Hf Hs He Hsn Hen Ht Hk. eexists. unfold range_re, range_text. rewrite rmatch_flat. cbn [app].
  rewrite <-!app_assoc, rmatch_time_call by done. rewrite rmatch_lit.
  unfold num_re. rewrite rmatch_run; [|done|done|by intros c [= <-]|].
  2:{ by apply (rejects_str is_num_char 32 (u "|| ")). }
  rewrite rmatch_lit, rmatch_back by done.
  change (call (u "(") path) with (uj "('" ++ path ++ [34]). rewrite <-!app_assoc, rmatch_lit, rmatch_back by done.
  change ([34] ++ u ") < " ++ e ++ t) with (uj "') < " ++ e ++ t). rewrite rmatch_lit.
  by rewrite rmatch_run.
Qed.

Lemma parse_time_range f s e :
  f ∈ TIME_FUNCS -> is_numeric_literal s = true -> is_numeric_literal e = true ->
  tryParseRequestCondition (range_text f s e) = Ret (Some (TimeCondition f path MATCH_RANGE [] s e)) /\
  tryParseRequestCondition (u "(" ++ range_text f s e ++ u ")") =
    Ret (Some (TimeCondition f path MATCH_RANGE [] s e)).
Proof.
  intros Hf [Hs Hsn]%numeric_literal_chars [He Hen]%numeric_literal_chars.
  unfold tryParseRequestCondition, tryParseTimeCondition. split; anchored time_range_re.
  - destruct (rmatch_range f s e [REnd] Some [] []) as [b' Hm]; [done..|].
    rewrite app_nil_r in Hm. by rewrite Hm.
  - replace (rmatch _ _ _) with (@None mstate) by reflexivity. anchored time_range_paren_re. rewrite rmatch_lit.
    destruct (rmatch_range f s e [RStr (u ")"); REnd] Some (rev (u "(") ++ []) (u ")")) as [b' Hm];
      [done..|by intros c [= <-]|by apply (rejects_str is_num_char 41 [])|].
    by rewrite Hm.
Qed.

Lemma parse_time_op f op v :
  f ∈ TIME_FUNCS -> op ∈ [u "=="; u ">="; u "<"] -> is_numeric_literal v = true ->
  tryParseRequestCondition (f ++ call (u "(") path ++ u ") " ++ op ++ u " " ++ v) =
  Ret (Some (TimeCondition f path (time_mode op) v [] [])).
Proof.
  intros Hf Hop [Hv Hvn]%numeric_literal_chars. unfold tryParseRequestCondition, tryParseTimeCondition.
  assert (re_match time_range_re (f ++ call (u "(") path ++ u ") " ++ op ++ u " " ++ v) = None) as ->.
  { anchored time_range_re. unfold range_re. rewrite rmatch_flat. cbn [app]. rewrite rmatch_time_call by done.
    rewrite !elem_of_cons, elem_of_nil in Hop. destruct Hop as [->|[->|[->|[]]]]; try reflexivity.
    change (u ") " ++ u ">=" ++ u " " ++ v) with (u ") >= " ++ v). rewrite rmatch_lit.
    rewrite <-(app_nil_r v). unfold num_re. by rewrite rmatch_run; [|done..|apply (rejects_str is_num_char 32 (u "|| "))]. }
  assert (re_match time_range_paren_re (f ++ call (u "(") path ++ u ") " ++ op ++ u " " ++ v) = None) as ->.
  { anchored time_range_paren_re. unfold TIME_FUNCS in Hf. rewrite !elem_of_cons, elem_of_nil in Hf.
    by destruct Hf as [->|[->|[->|[->|[->|[]]]]]]. }
  anchored time_op_re. rewrite rmatch_time_call, rmatch_lit by done.
  rewrite (rmatch_choice 3 [u "=="; u ">="; u "<"]); [|done|].
  - rewrite rmatch_lit. unfold num_re. by rewrite rmatch_run_end.
  - intros x. rewrite !elem_of_cons, elem_of_nil in Hop |- *.
    intros [->|[->|[->|[]]]]; destruct Hop as [->|[->|[->|[]]]]; done.
Qed.

End conditions.

(** ** Parentheses *)

(** The depth at the end, unless it falls below zero on the way. *)
Fixpoint depth_run (d : Z) (s : jsstr) : option Z :=
  match s with
  | [] => Some d
  | c :: s' => let d' := paren_depth d c in if (d' <? 0)%Z then None else depth_run d' s'
  end.

Definition nested (s : jsstr) : Prop := depth_run 0 s = Some 0%Z.

Definition no_paren (c : N) : bool := negb (c =? 40) && negb (c =? 41).

Lemma depth_run_app d a b : depth_run d (a ++ b) = depth_run d a ≫= fun d' => depth_run d' b.
Proof.
  revert d. induction a as [|c a IH]; intros d; cbn; [done|]. destruct (paren_depth d c <? 0)%Z; [done|]. apply IH.
Qed.

Lemma paren_depth_free d c : no_paren c = true -> paren_depth d c = d.
Proof.
  unfold no_paren, paren_depth. rewrite andb_true_iff, !negb_true_iff. by intros [-> ->].
Qed.

Lemma depth_run_free d s : (0 <= d)%Z -> forallb no_paren s = true -> depth_run d s = Some d.
Proof.
  intros Hd. induction s as [|c s IH]; cbn; [done|]. intros [Hc Hs]%andb_true_iff.
  rewrite (paren_depth_free d c Hc). rewrite (proj2 (Z.ltb_ge _ _)) by done. auto.
Qed.

Lemma paren_depth_shift d k c : paren_depth (d + k) c = (paren_depth d c + k)%Z.
Proof. unfold paren_depth. repeat case_match; lia. Qed.

Lemma fold_depth_shift k s : forall d, foldl paren_depth (d + k)%Z s = (foldl paren_depth d s + k)%Z.
Proof. induction s as [|c s IH]; intros d; cbn; [done|]. by rewrite paren_depth_shift, IH. Qed.

Lemma depth_run_prefix a b d d' : depth_run d (a ++ b) = Some d' -> (0 <= d -> 0 <= foldl paren_depth d a)%Z.
Proof.
  revert d. induction a as [|c a IH]; intros d; cbn; [done|].
  destruct (Z.ltb_spec (paren_depth d c) 0); [done|]. intros Hr _. by apply IH.
Qed.

Lemma depth_run_fold d s d' : depth_run d s = Some d' -> foldl paren_depth d s = d'.
Proof.
  revert d. induction s as [|c s IH]; intros d; cbn; [by intros [= ->]|]. destruct (_ <? 0)%Z; [done|]. apply IH.
Qed.

Lemma depth_run_lift k s d d' : depth_run d s = Some d' -> (0 <= k)%Z -> depth_run (d + k) s = Some (d' + k)%Z.
Proof.
  intros H Hk. revert d H. induction s as [|c s IH]; intros d; cbn; [by intros [= ->]|].
  destruct (Z.ltb_spec (paren_depth d c) 0); [done|]. intros Hr. rewrite paren_depth_shift.
  rewrite (proj2 (Z.ltb_ge _ _)) by lia. by apply IH.
Qed.

Lemma nested_app a b : nested a -> nested b -> nested (a ++ b).
Proof. unfold nested. intros Ha Hb. by rewrite depth_run_app, Ha. Qed.

(** ** Splitting at the top level *)

Lemma split_top_pass sep a : forall d part t,
  (forall a1 c a2, a = a1 ++ c :: a2 -> foldl paren_depth d (a1 ++ [c]) = 0%Z ->
     starts_with sep (c :: a2 ++ t) = false) ->
  split_top sep d 0 part (a ++ t) = split_top sep (foldl paren_depth d a) 0 (part ++ a) t.
Proof.
  induction a as [|c a IH]; intros d part t H; [by rewrite app_nil_r|].
  change ((c :: a) ++ t) with (c :: (a ++ t)). cbn [split_top foldl].
  change (if c =? 41 then _ else _) with (paren_depth d c).
  assert ((paren_depth d c =? 0)%Z && starts_with sep (c :: a ++ t) = false) as ->.
  { destruct (Z.eqb_spec (paren_depth d c) 0) as [E|]; [|done]. by apply (H [] c a). }
  rewrite IH.
  - by rewrite <-app_assoc.
  - intros a1 c' a2 -> Hz. by apply (H (c :: a1) c' a2).
Qed.

Lemma split_top_skip sep d w part t : split_top sep d (length w) part (w ++ t) = split_top sep d 0 part t.
Proof. induction w as [|c w IH]; [done|]. cbn. apply IH. Qed.

Lemma split_top_sep x w part t :
  no_paren x = true -> split_top (x :: w) 0 0 part ((x :: w) ++ t) = trim part :: split_top (x :: w) 0 0 [] t.
Proof.
  intros Hx. change ((x :: w) ++ t) with (x :: (w ++ t)). cbn [split_top].
  change (if x =? 41 then _ else _) with (paren_depth 0 x). rewrite (paren_depth_free 0 x Hx).
  change (x :: (w ++ t)) with ((x :: w) ++ t). rewrite starts_with_app. cbn [andb Z.eqb length].
  rewrite Nat.sub_succ, Nat.sub_0_r. f_equal. apply split_top_skip.
Qed.

(** A part in which no separator can start at the top level. *)
Definition opaque (sep a : jsstr) : Prop :=
  foldl paren_depth 0%Z a = 0%Z /\
  forall t a1 c a2, a = a1 ++ c :: a2 -> foldl paren_depth 0%Z (a1 ++ [c]) = 0%Z ->
    starts_with sep (c :: a2 ++ t) = false.

Lemma split_top_join x w l :
  no_paren x = true -> l <> [] -> Forall (opaque (x :: w)) l ->
  split_top (x :: w) 0 0 [] (join (x :: w) l) = map trim l.
Proof.
  intros Hx Hne Hl. induction Hl as [|a l [Hd Ha] Hl IH]; [done|]. destruct l as [|b l].
  - cbn [join map]. rewrite <-(app_nil_r a) at 1. rewrite split_top_pass by (by intros; eapply Ha). by cbn.
  - change (join (x :: w) (a :: b :: l)) with (a ++ (x :: w) ++ join (x :: w) (b :: l)).
    rewrite split_top_pass by (by intros; eapply Ha). rewrite Hd, split_top_sep by done. cbn [app map].
    f_equal. by apply IH.
Qed.

(** A text in parentheses is opaque to a separator that starts with a blank. *)
Lemma opaque_parens w b : nested b -> opaque (32 :: w) (u "(" ++ b ++ u ")").
Proof.
  intros Hb. split.
  - rewrite !foldl_app. cbn [foldl]. change (foldl paren_depth 0%Z (u "(")) with (0 + 1)%Z.
    rewrite fold_depth_shift, (depth_run_fold _ _ _ Hb). done.
  - intros t a1 c a2 Heq Hz. destruct (N.eqb_spec c 32) as [->|Hne].
    + exfalso. destruct a1 as [|x a1]; [done|]. injection Heq as <- Heq.
      assert (exists b2, b = a1 ++ 32 :: b2) as [b2 ->].
      { apply app_eq_inv in Heq as [(k & -> & Hk)|(k & -> & Hk)]; [|].
        - destruct k as [|y k]; [done|]. cbn in Hk. injection Hk as <- Hk. eauto.
        - destruct k as [|y [|z k]]; done. }
      change (foldl paren_depth (0 + 1)%Z (a1 ++ [32]) = 0%Z) in Hz.
      rewrite fold_depth_shift in Hz. unfold nested in Hb.
      change (a1 ++ 32 :: b2) with (a1 ++ [32] ++ b2) in Hb. rewrite app_assoc in Hb.
      apply depth_run_prefix in Hb; lia.
    + cbn [starts_with]. by rewrite (proj2 (N.eqb_neq 32 c)).
Qed.

(** So is a text without ampersands to [&&]. *)
Lemma opaque_and a : foldl paren_depth 0%Z a = 0%Z -> 38 ∉ a -> last a <> Some 32 -> opaque (u " && ") a.
Proof.
  intros Hd Hamp Hlast. split; [done|]. intros t a1 c a2 -> _. change (u " && ") with (32 :: 38 :: u "& ").
  cbn [starts_with]. destruct (N.eqb_spec 32 c) as [<-|]; [|done]. cbn [andb].
  destruct a2 as [|y a2]; [by rewrite last_snoc in Hlast|]. cbn [app]. destruct (N.eqb_spec 38 y) as [<-|]; [|done].
  set_solver.
Qed.

(** ** Conditions the parser can read back *)

Definition plain_text (v : jsstr) : bool := forallb safe_char v && bool_decide (trim v = v).

Definition plain_name (p : jsstr) : bool := truthy p && plain_text p.

(** The modes that survive: all of a time, existence, containment and equality
    of a header, existence and equality of a parameter. *)
Definition readable (c : RequestCondition) : bool :=
  match c with
  | TimeCondition f tz m v rs re =>
      includes TIME_FUNCS f && plain_name tz &&
      (if bool_decide (m = MATCH_RANGE)
       then (bool_decide (v = []) && is_numeric_literal rs && is_numeric_literal re)%bool
       else includes [MATCH_EQ; MATCH_GTE; MATCH_LT] m && is_numeric_literal v && bool_decide (rs = [])
            && bool_decide (re = []))
  | ParamHeaderCondition s p m v =>
      plain_name p &&
      (if bool_decide (m = MATCH_EXISTS) then bool_decide (v = [])
       else if bool_decide (m = MATCH_CONTAINS) then bool_decide (source_name s = u "header") && plain_text v
       else bool_decide (m = MATCH_EQ) && plain_text v)
  end.

Definition readable_group (g : RequestRuleGroup) : bool :=
  truthy_list (conditions g) && forallb readable (conditions g) && is_numeric_literal (multiplier g).

Lemma num_char_not_ws c : is_num_char c = true -> is_ws c = false.
Proof.
  unfold is_num_char, is_ws. rewrite !orb_true_iff, !N.eqb_eq, is_digit_range. intros H.
  rewrite !orb_false_iff, !andb_false_iff, !N.leb_gt, !N.eqb_neq. lia.
Qed.

Lemma num_trim s : forallb is_num_char s = true -> trim s = s.
Proof.
  intros H. apply trim_id, ws_free_no_ws. rewrite forallb_forall in *. intros c Hc. rewrite num_char_not_ws; auto.
Qed.

Lemma numeric_trim s : is_numeric_literal s = true -> trim s = s.
Proof. intros [H _]%numeric_literal_chars. by apply num_trim. Qed.

Lemma num_no_paren c : is_num_char c = true -> no_paren c = true /\ c <> 38 /\ c <> 124 /\ c <> 63.
Proof.
  unfold is_num_char, no_paren. rewrite !orb_true_iff, !N.eqb_eq, is_digit_range, andb_true_iff, !negb_true_iff, !N.eqb_neq.
  lia.
Qed.

Lemma safe_no_paren c : safe_char c = true -> no_paren c = true /\ c <> 38 /\ c <> 124.
Proof.
  unfold safe_char, no_paren. rewrite !andb_true_iff, !negb_true_iff, !N.eqb_neq. tauto.
Qed.

(** Units that neither a name nor a number contains. *)
Definition inert (s : jsstr) : Prop := forallb no_paren s = true /\ (38 ∉ s) /\ (124 ∉ s).

Lemma inert_of p s : (forall c, p c = true -> no_paren c = true /\ c <> 38 /\ c <> 124) ->
  forallb p s = true -> inert s.
Proof.
  intros Hp Hs. rewrite forallb_forall in Hs. split_and!.
  - apply forallb_forall. intros c Hc. by apply Hp, Hs.
  - intros Hc%list_elem_of_In. by apply Hs, Hp in Hc as (_ & ? & _).
  - intros Hc%list_elem_of_In. by apply Hs, Hp in Hc as (_ & _ & ?).
Qed.

Lemma inert_safe s : forallb safe_char s = true -> inert s.
Proof. apply inert_of, safe_no_paren. Qed.

Lemma inert_num s : forallb is_num_char s = true -> inert s.
Proof. apply inert_of. intros c Hc. apply num_no_paren in Hc. tauto. Qed.

Lemma inert_depth d s : (0 <= d)%Z -> inert s -> depth_run d s = Some d.
Proof. intros Hd (H & _). by apply depth_run_free. Qed.

Lemma plain_name_spec p : plain_name p = true ->
  p <> [] /\ forallb safe_char p = true /\ trim p = p /\ forallb not_quote p = true /\ inert p.
Proof.
  unfold plain_name, plain_text. rewrite !andb_true_iff, bool_decide_eq_true. intros (Ht & Hs & Htr).
  split_and!; [by destruct p|done|done|by apply safe_not_quote|by apply inert_safe].
Qed.

Lemma source_call_text s p : forallb safe_char p = true -> source_call s p = call (source_name s ++ u "(") p ++ [41].
Proof. intros H. unfold source_call, call. rewrite safe_quote by done. by rewrite <-!app_assoc. Qed.

Lemma time_call_text f p : forallb safe_char p = true -> time_call f p = f ++ call (u "(") p ++ [41].
Proof. intros H. unfold time_call, call. rewrite safe_quote by done. by rewrite <-!app_assoc. Qed.

Lemma no_bar_no_or s : 124 ∉ s -> str_includes s (u " || ") = false.
Proof.
  intros H. unfold str_includes. destruct (index_of _ s) as [i|] eqn:Hi; [|done]. exfalso.
  apply index_of_first in Hi as [Hs _]; [|done]. apply H. rewrite Hs, !elem_of_app. right; left.
  change (u " || ") with [32; 124; 124; 32]. set_solver.
Qed.

Lemma quoted_ends a : ws_free_ends ([34] ++ a ++ [34]).
Proof.
  split; intros c.
  - by intros [= <-].
  - rewrite app_assoc, last_snoc. by intros [= <-].
Qed.

Lemma inert_quoted a : inert a -> inert ([34] ++ a ++ [34]).
Proof.
  intros (H1 & H2 & H3). unfold inert. rewrite !forallb_app, H1, !not_elem_of_app.
  split_and!; try done; set_solver.
Qed.

Lemma num_ends s : forallb is_num_char s = true -> ws_free_ends s.
Proof.
  intros H. apply ws_free_no_ws. rewrite forallb_forall in *. intros c Hc. rewrite num_char_not_ws; auto.
Qed.

(** The text of a literal and what it reads back as. *)
Definition literal_ok (v lit : jsstr) : Prop :=
  lit <> [] /\ forallb (fun c => negb (is_line_end c)) lit = true /\ parseExprLiteral lit = Some (JStr v) /\
  inert lit /\ ws_free_ends lit.

Lemma num_line_end c : is_num_char c = true -> negb (is_line_end c) = true.
Proof.
  intros H%num_char_not_ws. unfold is_ws, is_line_end in *. rewrite !orb_false_iff, !andb_false_iff, !N.leb_gt, !N.eqb_neq in H.
  rewrite negb_true_iff, !orb_false_iff, !N.eqb_neq. lia.
Qed.

Lemma quoted_literal_ok v : forallb safe_char v = true -> literal_ok v (json_quote v).
Proof.
  intros Hs. pose proof (safe_quote v Hs) as Hq. unfold literal_ok.
  assert (ws_free_ends (json_quote v)) as He by (rewrite Hq; apply quoted_ends).
  split_and!; [by rewrite Hq| | |by rewrite Hq; apply inert_quoted, inert_safe|done].
  - rewrite Hq, !forallb_app, andb_true_iff, andb_true_r. split; [done|].
    rewrite forallb_forall in *. intros c Hc. specialize (Hs c Hc). unfold safe_char in Hs. rewrite !andb_true_iff in Hs. tauto.
  - unfold parseExprLiteral. rewrite trim_id by done.
    assert (head (json_quote v) = Some 34) as Hh by done.
    rewrite !bool_decide_false by (intros E; rewrite E in Hh; done). cbn [orb].
    destruct (is_numeric_literal (json_quote v)) eqn:Hn; [|apply JSON_parse_quote].
    apply numeric_literal_chars in Hn as [Hn _]. destruct (json_quote v) as [|c q]; [done|]. by injection Hh as ->.
Qed.

Lemma numeric_literal_ok v : is_numeric_literal v = true -> v <> u "true" -> v <> u "false" -> literal_ok v v.
Proof.
  intros Hn Ht Hf. pose proof (numeric_literal_chars v Hn) as [Hc Hne]. unfold literal_ok.
  split_and!; [done| | |by apply inert_num|by apply num_ends].
  - rewrite forallb_forall in *. intros c Hin. apply num_line_end; auto.
  - unfold parseExprLiteral. rewrite numeric_trim by done. by rewrite !bool_decide_false, Hn by done.
Qed.

Lemma word_literal_ok v : v = u "true" \/ v = u "false" -> literal_ok v v.
Proof.
  assert (forall w, inert w <-> forallb (fun c => no_paren c && negb (c =? 38) && negb (c =? 124)) w = true) as Hi.
  { intros w. unfold inert. rewrite !forallb_forall. split.
    - intros (H1 & H2 & H3) c Hc. rewrite (H1 c Hc). apply list_elem_of_In in Hc.
      rewrite !(proj2 (N.eqb_neq _ _)); [done|..]; by intros ->.
    - intros H. split_and!; [|intros Hc%list_elem_of_In; by apply H in Hc..].
      intros c Hc. apply H in Hc. rewrite !andb_true_iff in Hc. tauto. }
  intros [->| ->]; unfold literal_ok; rewrite Hi; split_and!; try done; split; intros c; by intros [= <-].
Qed.

Lemma buildExprLiteral_ok v : plain_text v = true -> literal_ok v (buildExprLiteral MATCH_EQ v).
Proof.
  unfold plain_text. rewrite andb_true_iff, bool_decide_eq_true. intros [Hs Ht].
  unfold buildExprLiteral. rewrite Ht, bool_decide_false by done.
  destruct (decide (v = u "true")) as [->|H1]; [apply word_literal_ok; by left|].
  destruct (decide (v = u "false")) as [->|H2]; [apply word_literal_ok; by right|].
  rewrite !bool_decide_false by done. cbn [orb]. destruct (is_numeric_literal v) eqn:Hn.
  - by apply numeric_literal_ok.
  - by apply quoted_literal_ok.
Qed.

(** ** The text of a condition *)

Definition no_amp (c : N) : bool := negb (c =? 38).
Definition no_bar (c : N) : bool := negb (c =? 124).

Lemma forallb_not_elem c s : forallb (fun x => negb (x =? c)) s = true <-> (c ∉ s).
Proof.
  rewrite forallb_forall. split.
  - intros H Hc%list_elem_of_In. apply H in Hc. by rewrite N.eqb_refl in Hc.
  - intros H x Hx%list_elem_of_In. rewrite (proj2 (N.eqb_neq x c)); [done|]. by intros ->.
Qed.

(** What the scanners need to know of it. *)
Record cond_text_ok (e : jsstr) : Prop := {
  ct_ne : e <> [];
  ct_ends : ws_free_ends e;
  ct_amp : forallb no_amp e = true;
  ct_nested : nested e;
}.

Lemma last_app_ne (a b : jsstr) : b <> [] -> last (a ++ b) = last b.
Proof.
  intros Hb. rewrite last_app. destruct (last b) eqn:Hl; [done|]. by apply last_None in Hl.
Qed.

Lemma call_depth d d' f p t :
  inert p -> depth_run d f = Some d' -> (0 <= d')%Z -> depth_run d (call f p ++ t) = depth_run d' t.
Proof.
  intros Hp Hf Hd. unfold call. rewrite <-!app_assoc, depth_run_app, Hf. cbn [mbind option_bind].
  rewrite depth_run_app, (depth_run_free d' [34]) by done. cbn [mbind option_bind].
  rewrite depth_run_app, inert_depth by done. cbn [mbind option_bind].
  by rewrite depth_run_app, (depth_run_free d' [34]).
Qed.

Lemma call_forallb q f p t :
  q 34 = true -> forallb q f = true -> forallb q p = true -> forallb q t = true ->
  forallb q (call f p ++ t) = true.
Proof. intros H1 H2 H3 H4. unfold call. rewrite !forallb_app, H2, H3, H4. cbn. by rewrite H1. Qed.

Lemma inert_amp s : inert s -> forallb no_amp s = true.
Proof. intros (_ & H & _). by apply forallb_not_elem. Qed.

Lemma inert_bar s : inert s -> forallb no_bar s = true.
Proof. intros (_ & _ & H). by apply forallb_not_elem. Qed.

Lemma call_text_ok f p t h d :
  inert p -> head f = Some h -> is_ws h = false -> forallb no_amp f = true -> depth_run 0 f = Some d -> (0 <= d)%Z ->
  t <> [] -> (forall c, last t = Some c -> is_ws c = false) -> forallb no_amp t = true -> depth_run d t = Some 0%Z ->
  cond_text_ok (call f p ++ t).
Proof.
  intros Hp Hh Hws Hf Hd H0 Ht Hl Ht' Hdt. split.
  - by destruct f.
  - split; [by destruct f; [|cbn in *; intros c [= <-]; simplify_eq]|]. intros c. rewrite last_app_ne by done. apply Hl.
  - apply call_forallb; [done..|by apply inert_amp|done].
  - unfold nested. by rewrite (call_depth _ d).
Qed.

Lemma wrap_or_plain e : forallb no_bar e = true -> wrap_or e = e.
Proof. intros H%forallb_not_elem. unfold wrap_or. by rewrite no_bar_no_or. Qed.

(** The text of a condition reads back, also as one of several. *)
Record reads_as (c : RequestCondition) (e : jsstr) : Prop := {
  ra_text : cond_text_ok e;
  ra_parse : tryParseRequestCondition e = Ret (Some c);
}.

Lemma last_app_ends a b : b <> [] -> ws_free_ends b -> forall c, last (a ++ b) = Some c -> is_ws c = false.
Proof. intros Hb [_ Hl] c. rewrite last_app_ne by done. apply Hl. Qed.

Lemma header_exists_reads p :
  plain_name p = true -> reads_as (ParamHeaderCondition Header p MATCH_EXISTS []) (call (u "header(") p ++ uj ") != ''").
Proof.
  intros (Hne & _ & _ & Hq & Hi)%plain_name_spec. split; [|by apply parse_header_exists].
  eapply call_text_ok; try done. by intros c [= <-].
Qed.

Lemma param_exists_reads p :
  plain_name p = true -> reads_as (ParamHeaderCondition Param p MATCH_EXISTS []) (call (u "param(") p ++ u ") != nil").
Proof.
  intros (Hne & _ & _ & Hq & Hi)%plain_name_spec. split; [|by apply parse_param_exists].
  eapply call_text_ok; try done. by intros c [= <-].
Qed.

Lemma plain_units v : forallb safe_char v = true -> forallb plain_unit v = true.
Proof.
  rewrite !forallb_forall. intros H c Hc. specialize (H c Hc). unfold safe_char, plain_unit in *.
  rewrite !andb_true_iff in *. tauto.
Qed.

Lemma header_contains_reads p v :
  plain_name p = true -> forallb safe_char v = true ->
  reads_as (ParamHeaderCondition Header p MATCH_CONTAINS v)
    (call (u "has(header(") p ++ u "), " ++ [34] ++ v ++ [34] ++ u ")").
Proof.
  intros (Hne & _ & _ & Hq & Hi)%plain_name_spec Hv. pose proof (inert_safe v Hv) as Hiv. split.
  - eapply call_text_ok; try done.
    + intros c. rewrite !app_assoc, last_app_ne by done. by intros [= <-].
    + rewrite !forallb_app, (inert_amp v) by done. done.
    + change (depth_run 1 (v ++ [34] ++ u ")") = Some 0%Z). by rewrite depth_run_app, inert_depth.
  - apply parse_header_contains; [done..|by apply plain_units|].
    rewrite <-safe_quote by done. apply JSON_parse_quote.
Qed.

Lemma equals_reads s p v :
  plain_name p = true -> plain_text v = true ->
  reads_as (ParamHeaderCondition s p MATCH_EQ v)
    (call (source_name s ++ u "(") p ++ [41] ++ u " == " ++ buildExprLiteral MATCH_EQ v).
Proof.
  intros (Hne & _ & _ & Hq & Hi)%plain_name_spec Hv.
  destruct (buildExprLiteral_ok v Hv) as (L1 & L2 & L3 & L4 & L5). set (lit := buildExprLiteral _ _) in *. split.
  - eapply (call_text_ok _ _ _ (match s with Param => 112 | Header => 104 end) 1); try done; try by destruct s.
    + rewrite app_assoc. by apply last_app_ends.
    + rewrite !forallb_app, (inert_amp lit) by done. done.
    + change (depth_run 0 lit = Some 0%Z). by apply inert_depth.
  - by apply parse_equals_literal.
Qed.

Lemma time_fn_text f :
  f ∈ TIME_FUNCS ->
  (exists h, head (f ++ u "(") = Some h /\ is_ws h = false) /\ forallb no_amp (f ++ u "(") = true /\
  forallb no_bar (f ++ u "(") = true /\ depth_run 0 (f ++ u "(") = Some 1%Z.
Proof.
  unfold TIME_FUNCS. rewrite !elem_of_cons, elem_of_nil.
  intros [->|[->|[->|[->|[->|[]]]]]]; (split; [by eexists|done]).
Qed.

Lemma time_op_reads f tz op v :
  f ∈ TIME_FUNCS -> plain_name tz = true -> op ∈ [u "=="; u ">="; u "<"] -> is_numeric_literal v = true ->
  let e := f ++ call (u "(") tz ++ u ") " ++ op ++ u " " ++ v in
  reads_as (TimeCondition f tz (time_mode op) v [] []) e /\ wrap_or e = e.
Proof.
  intros Hf (Hne & _ & _ & Hq & Hi)%plain_name_spec Hop Hv. cbn zeta.
  pose proof (numeric_literal_chars v Hv) as [Hc Hvne]. pose proof (inert_num v Hc) as Hiv.
  destruct (time_fn_text f Hf) as ((h & Hh & Hws) & Ha & Hb & Hd).
  assert (forallb no_amp op = true /\ forallb no_bar op = true /\ depth_run 0 op = Some 0%Z) as (O1 & O2 & O3).
  { rewrite !elem_of_cons, elem_of_nil in Hop. by destruct Hop as [->|[->|[->|[]]]]. }
  split; [split; [|by apply parse_time_op]|].
  - rewrite <-call_app. eapply call_text_ok; try done.
    + rewrite !app_assoc. apply last_app_ends; [done|by apply num_ends].
    + rewrite !forallb_app, O1, (inert_amp v) by done. done.
    + change (depth_run 0 (op ++ u " " ++ v) = Some 0%Z). rewrite depth_run_app, O3. cbn [mbind option_bind].
      change (depth_run 0 v = Some 0%Z). by apply inert_depth.
  - apply wrap_or_plain. rewrite <-call_app. apply call_forallb; [done..|by apply inert_bar|].
    rewrite !forallb_app, O2, (inert_bar v) by done. done.
Qed.

Lemma parens_text_ok e : cond_text_ok e -> cond_text_ok (u "(" ++ e ++ u ")").
Proof.
  intros [Hne _ Ha Hn]. split.
  - done.
  - split; intros c; [by intros [= <-]|]. rewrite app_assoc, last_app_ne by done. by intros [= <-].
  - by rewrite !forallb_app, Ha.
  - unfold nested in *. change (depth_run 1 (e ++ u ")") = Some 0%Z). rewrite depth_run_app.
    pose proof (depth_run_lift 1 e 0 0 Hn) as Hl.
    change (0 + 1)%Z with 1%Z in Hl. by rewrite Hl.
Qed.

Lemma time_range_reads f tz s e :
  f ∈ TIME_FUNCS -> plain_name tz = true -> is_numeric_literal s = true -> is_numeric_literal e = true ->
  let t := range_text tz f s e in
  reads_as (TimeCondition f tz MATCH_RANGE [] s e) t /\ reads_as (TimeCondition f tz MATCH_RANGE [] s e) (wrap_or t).
Proof.
  intros Hf (Hne & _ & _ & Hq & Hi)%plain_name_spec Hs He. cbn zeta.
  destruct (parse_time_range tz Hne Hq f s e Hf Hs He) as [P1 P2].
  pose proof (numeric_literal_chars s Hs) as [Hsc Hsne]. pose proof (numeric_literal_chars e He) as [Hec Hene].
  destruct (time_fn_text f Hf) as ((h & Hh & Hws) & Ha & Hb & Hd).
  assert (cond_text_ok (range_text tz f s e)) as Hok.
  { replace (range_text tz f s e) with (call (f ++ u "(") tz ++ u ") >= " ++ s ++ u " || " ++
      call (f ++ u "(") tz ++ u ") < " ++ e) by (by unfold range_text; rewrite !call_app).
    eapply call_text_ok; try done.
    - rewrite !app_assoc. apply last_app_ends; [done|by apply num_ends].
    - do 3 rewrite forallb_app. rewrite (inert_amp s (inert_num s Hsc)). cbn [andb].
      apply call_forallb; [done..|by apply inert_amp|].
      rewrite forallb_app. by rewrite (inert_amp e (inert_num e Hec)).
    - change (depth_run 0 (s ++ u " || " ++ call (f ++ u "(") tz ++ u ") < " ++ e) = Some 0%Z).
      rewrite depth_run_app, (inert_depth 0 s) by first [done|by apply inert_num]. cbn [mbind option_bind].
      change (depth_run 0 (call (f ++ u "(") tz ++ u ") < " ++ e) = Some 0%Z). rewrite (call_depth 0 1) by done.
      change (depth_run 0 e = Some 0%Z). by apply inert_depth, inert_num. }
  split; [done|]. unfold wrap_or. destruct (str_includes _ _); [|done]. split; [by apply parens_text_ok|done].
Qed.

(** ** Printing and reading a condition *)

Lemma time_condition_reads f tz m v rs re :
  readable (TimeCondition f tz m v rs re) = true ->
  let e := time_condition_expr f tz m v rs re in
  reads_as (TimeCondition f tz m v rs re) e /\ reads_as (TimeCondition f tz m v rs re) (wrap_or e).
Proof.
  cbn [readable]. rewrite !andb_true_iff, includes_true. intros [[Hf Htz] Hm].
  pose proof (plain_name_spec tz Htz) as (_ & Hs & _). unfold time_condition_expr. rewrite !time_call_text by done.
  case_bool_decide as Hr.
  - subst m. rewrite !andb_true_iff, bool_decide_eq_true in Hm. destruct Hm as [[-> H1] H2].
    rewrite !numeric_trim, H1, H2 by done. cbn [negb orb].
    replace (_ ++ u " >= " ++ _) with (range_text tz f rs re); [by apply time_range_reads|].
    unfold range_text. rewrite <-!app_assoc. done.
  - rewrite !andb_true_iff, !bool_decide_eq_true, includes_true in Hm. destruct Hm as [[[Hm Hv] ->] ->].
    rewrite numeric_trim, Hv by done. cbn [negb].
    assert (time_op m ∈ [u "=="; u ">="; u "<"] /\ time_mode (time_op m) = m) as [Hop Hmode].
    { rewrite !elem_of_cons, elem_of_nil in Hm. destruct Hm as [->|[->|[->|[]]]]; (split; [|done]); set_solver. }
    destruct (time_op_reads f tz (time_op m) v Hf Htz Hop Hv) as [Hre Hwr]. rewrite Hmode in Hre.
    replace ((f ++ call (u "(") tz ++ [41]) ++ u " " ++ time_op m ++ u " " ++ v)
      with (f ++ call (u "(") tz ++ u ") " ++ time_op m ++ u " " ++ v); [by rewrite Hwr|].
    rewrite <-!app_assoc. done.
Qed.

Lemma param_header_reads s p m v :
  readable (ParamHeaderCondition s p m v) = true ->
  let e := param_header_expr s p m v in
  reads_as (ParamHeaderCondition s p m v) e /\ wrap_or e = e.
Proof.
  cbn [readable]. rewrite andb_true_iff. intros [Hp Hm]. cbn zeta.
  pose proof (plain_name_spec p Hp) as (Hne & Hs & Ht & _ & Hi). unfold param_header_expr. rewrite Ht.
  destruct p as [|c0 p0] eqn:Ep; [done|]. rewrite <-Ep in *. clear Ep c0 p0.
  assert (truthy p = true) as -> by (by destruct p). cbn [negb]. rewrite source_call_text by done.
  case_bool_decide as H1; [|case_bool_decide as H2].
  - subst m. apply bool_decide_eq_true in Hm as ->. destruct s; rewrite <-app_assoc.
    + split; [by apply param_exists_reads|]. apply wrap_or_plain, call_forallb; [done..|by apply inert_bar|done].
    + split; [by apply header_exists_reads|]. apply wrap_or_plain, call_forallb; [done..|by apply inert_bar|done].
  - subst m. apply andb_true_iff in Hm as [Hsrc%bool_decide_eq_true Hv].
    destruct s; [done|]. unfold plain_text in Hv. apply andb_true_iff in Hv as [Hv Hvt%bool_decide_eq_true].
    unfold buildExprLiteral. rewrite bool_decide_true, Hvt, safe_quote by done.
    replace (u "has(" ++ _) with (call (u "has(header(") p ++ u "), " ++ [34] ++ v ++ [34] ++ u ")").
    + split; [by apply header_contains_reads|].
      apply wrap_or_plain, call_forallb; [done..|by apply inert_bar|].
      rewrite !forallb_app, (inert_bar v) by (by apply inert_safe). done.
    + unfold call. rewrite <-!app_assoc. done.
  - apply andb_true_iff in Hm as [->%bool_decide_eq_true Hv]. change (compare_op MATCH_EQ) with (@None jsstr). cbn iota.
    rewrite <-app_assoc. split; [by apply equals_reads|].
    destruct (buildExprLiteral_ok v Hv) as (_ & _ & _ & L4 & _).
    apply wrap_or_plain, call_forallb; [done|by destruct s|by apply inert_bar|].
    rewrite !forallb_app, (inert_bar _ L4). done.
Qed.

Lemma normalize_readable c : readable c = true -> normalizeCondition (Some (to_partial c)) = c.
Proof.
  destruct c as [f tz m v rs re|s p m v]; cbn [readable]; rewrite !andb_true_iff.
  - rewrite includes_true. intros [[Hf (Hne & _)%plain_name_spec] Hm]. unfold normalizeCondition, isTimeFunc.
    cbn [coalesce default from_option id to_partial pc_source pc_timeFunc pc_timezone pc_mode pc_value pc_rangeStart pc_rangeEnd].
    rewrite bool_decide_true, (proj2 (includes_true TIME_FUNCS f) Hf) by done.
    assert (has_mode (getRequestRuleMatchOptions SOURCE_TIME) (Some m) = true) as ->.
    { case_bool_decide; [by subst m|]. rewrite !andb_true_iff, includes_true, !elem_of_cons, elem_of_nil in Hm.
      destruct Hm as [[[[->|[->|[->|[]]]] _] _] _]; done. }
    unfold or_opt_str. by destruct tz.
  - intros [(Hne & _)%plain_name_spec Hm]. unfold normalizeCondition.
    cbn [coalesce default from_option id to_partial pc_source pc_path pc_mode pc_value].
    rewrite bool_decide_false by (by destruct s).
    assert ((if bool_decide (Some (source_name s) = Some SOURCE_HEADER) then Header else Param) = s) as ->
      by (by destruct s).
    assert (has_mode (getRequestRuleMatchOptions (source_name s)) (Some m) = true) as ->.
    { case_bool_decide; [subst m; by destruct s|]. case_bool_decide; [subst m; by destruct s|].
      apply andb_true_iff in Hm as [->%bool_decide_eq_true _]. by destruct s. }
    unfold or_opt_str. by destruct p.
Qed.

Lemma build_reads c :
  readable c = true ->
  reads_as c (buildRequestConditionExpr c) /\ reads_as c (wrap_or (buildRequestConditionExpr c)).
Proof.
  intros Hc. unfold buildRequestConditionExpr. rewrite normalize_readable by done.
  destruct c as [f tz m v rs re|s p m v].
  - by apply time_condition_reads.
  - destruct (param_header_reads s p m v Hc) as [H1 H2]. by rewrite H2.
Qed.

(** ** Printing and reading a group of conditions *)

(** The question mark of a factor is the last one. *)
Lemma no_later_question mult a' t' :
  forallb is_num_char mult = true -> u " ? " ++ mult ++ u " : 1)" = a' ++ t' -> a' <> [] ->
  starts_with (u " ? ") t' = false.
Proof.
  intros Hm Heq Hne. destruct (starts_with (u " ? ") t') eqn:Hs; [|done]. exfalso.
  apply starts_with_spec in Hs as (w & ->). destruct a' as [|x a']; [done|]. injection Heq as <- Heq.
  destruct a' as [|y a']; [done|]. injection Heq as <- Heq.
  assert (63 ∈ 32 :: mult ++ u " : 1)") as Hin.
  { change (32 :: mult ++ u " : 1)") with (u " " ++ mult ++ u " : 1)").
    change (u " " ++ mult ++ u " : 1)" = a' ++ u " ? " ++ w) in Heq. rewrite Heq.
    change (u " ? ") with [32; 63; 32]. set_solver. }
  apply elem_of_cons in Hin as [?|Hin]; [done|]. apply elem_of_app in Hin as [Hin|Hin].
  - rewrite forallb_forall in Hm. apply list_elem_of_In, Hm, num_no_paren in Hin. tauto.
  - apply list_elem_of_In in Hin. vm_compute in Hin. intuition discriminate.
Qed.

Lemma rule_factor_match C mult :
  C <> [] -> is_numeric_literal mult = true ->
  exists m, re_match rule_factor_re (u "(" ++ C ++ u " ? " ++ mult ++ u " : 1)") = Some m /\ cap 1 m = C /\ cap 2 m = mult.
Proof.
  intros HC [Hm Hne]%numeric_literal_chars. unfold rule_factor_re.
  change (rseq (RStart :: ?l)) with (RSeq RStart (rseq l)). rewrite re_match_anchored. unfold start_state.
  rewrite rmatch_lit.
  set (rest := [RStr (u " ? "); RGroup 2 num_re; RStr (u " : 1)"); REnd]).
  set (t := u " ? " ++ mult ++ u " : 1)").
  change (rmatch (rseq (?g :: ?l)) ?k ?st) with (rmatch g (rmatch (rseq l) k) st). cbn [rmatch].
  assert (exists x, rmatch (rseq rest) Some (capture 1 (mkSt (rev (u "(") ++ []) (C ++ t) [])
            (mkSt (rev C ++ rev (u "(") ++ []) t [])) = Some x /\ cap 1 x = C /\ cap 2 x = mult) as (x & Hx & H1 & H2).
  { unfold capture, set_caps. rewrite consumed_mk. cbn [before after caps]. eexists. split.
    - unfold rest, t, num_re. rewrite rmatch_lit. rewrite rmatch_run; [|done|done|by intros c [= <-]|].
      + rewrite rmatch_lit_end. reflexivity.
      + by apply (rejects_str is_num_char 32 (u ": 1)")).
    - done. }
  exists x. split; [|done]. erewrite rmatch_plus_last; [done|done| |exact Hx|].
  - by apply forallb_forall.
  - intros a' t' Ht Hne'. unfold capture, rest. cbn [set_caps before after caps].
    change (rmatch (rseq (RStr ?p :: ?l)) ?k ?st) with (rmatch (RStr p) (rmatch (rseq l) k) st).
    rewrite rmatch_str. cbn [after set_caps]. by rewrite (no_later_question mult a').
Qed.

(** The condition texts of a group as they are joined. *)
Definition and_parts (conds : list RequestCondition) : list jsstr :=
  match conds with
  | [c] => [buildRequestConditionExpr c]
  | _ => map (fun c => wrap_or (buildRequestConditionExpr c)) conds
  end.

Lemma and_parts_reads conds :
  forallb readable conds = true -> Forall2 reads_as conds (and_parts conds).
Proof.
  intros H. rewrite forallb_forall in H.
  assert (forall c, c ∈ conds -> reads_as c (buildRequestConditionExpr c) /\
                                reads_as c (wrap_or (buildRequestConditionExpr c))) as Hr.
  { intros c Hc%list_elem_of_In. by apply build_reads, H. }
  clear H. destruct conds as [|c [|c' conds]]; [constructor| |].
  - constructor; [|constructor]. apply Hr. by left.
  - unfold and_parts. set (l := c :: c' :: conds) in *. clearbody l. clear c c' conds.
    induction l as [|c l IH]; cbn; constructor; [apply Hr; by left|]. apply IH. intros; apply Hr. by right.
Qed.

Lemma combine_and_parts conds :
  forallb readable conds = true ->
  combine_conditions (bfilter truthy (map buildRequestConditionExpr conds)) = join (u " && ") (and_parts conds).
Proof.
  intros H. rewrite bfilter_all.
  - destruct conds as [|c [|c' conds]]; [done|done|]. unfold combine_conditions, and_parts. cbn [map].
    by rewrite map_map.
  - intros e He. apply list_elem_of_In, in_map_iff in He as (c & <- & Hc). rewrite forallb_forall in H.
    destruct (build_reads c (H c Hc)) as [[[Hne _ _ _] _] _]. by destruct (buildRequestConditionExpr c).
Qed.

Lemma collect_map {A B} (f : A -> result (option B)) (l : list A) (l' : list B) :
  Forall2 (fun y x => f x = Ret (Some y)) l' l -> collect f l = Ret (Some l').
Proof. induction 1 as [|y x l' l Hf _ IH]; cbn; [done|]. by rewrite Hf, IH. Qed.

Lemma reads_nonempty c e : reads_as c e -> truthy (trim e) = true /\ trim e = e.
Proof. intros [[Hne He _ _] _]. rewrite trim_id by done. by destruct e. Qed.

Lemma cond_text_opaque e : cond_text_ok e -> opaque (u " && ") e.
Proof.
  intros [_ [_ Hl] Ha Hn]. apply opaque_and; [by apply depth_run_fold|by apply forallb_not_elem|].
  intros Hc. by apply Hl in Hc.
Qed.

Lemma split_and_parts conds :
  conds <> [] -> forallb readable conds = true ->
  splitTopLevelAnd (join (u " && ") (and_parts conds)) = and_parts conds.
Proof.
  intros Hne Hr. apply and_parts_reads in Hr. unfold splitTopLevelAnd.
  rewrite (split_top_join 32 (u "&& ")); [|done| |].
  - rewrite (map_ext_in trim (fun e => e)), map_id, bfilter_all; [done|..].
    + intros e He. apply list_elem_of_lookup in He as [i Hi].
      destruct (Forall2_lookup_r _ _ _ _ _ Hr Hi) as (c & _ & Hc). apply reads_nonempty in Hc as [H1 H2]. by rewrite <-H2.
    + intros e He%list_elem_of_In. apply list_elem_of_lookup in He as [i Hi].
      destruct (Forall2_lookup_r _ _ _ _ _ Hr Hi) as (c & _ & Hc). by apply reads_nonempty in Hc as [_ ?].
  - destruct conds as [|c conds]; [done|]. intros E. rewrite E in Hr. inversion Hr.
  - apply Forall_lookup. intros i e Hi. destruct (Forall2_lookup_r _ _ _ _ _ Hr Hi) as (c & _ & [Hc _]).
    by apply cond_text_opaque.
Qed.

Lemma and_parts_nested conds :
  forallb readable conds = true -> nested (join (u " && ") (and_parts conds)).
Proof.
  intros Hr%and_parts_reads. remember (and_parts conds) as l eqn:El. clear El.
  revert conds Hr. induction l as [|e l IH]; intros conds Hr; [done|].
  inversion Hr as [|c ? cs ? [[_ _ _ Hn] _] Hr']; subst. destruct l as [|e' l]; [done|].
  change (join (u " && ") (e :: e' :: l)) with (e ++ u " && " ++ join (u " && ") (e' :: l)).
  apply nested_app; [done|]. apply nested_app; [done|]. by eapply IH.
Qed.

(** The text of a factor. *)
Definition factor_text (g : RequestRuleGroup) : jsstr :=
  u "(" ++ join (u " && ") (and_parts (conditions g)) ++ u " ? " ++ multiplier g ++ u " : 1)".

Lemma readable_group_spec g :
  readable_group g = true ->
  conditions g <> [] /\ forallb readable (conditions g) = true /\ is_numeric_literal (multiplier g) = true.
Proof. unfold readable_group. rewrite !andb_true_iff. intros [[H1 H2] H3]. by destruct (conditions g). Qed.

Lemma build_factor g : readable_group g = true -> buildRuleGroupFactor g = factor_text g.
Proof.
  intros (Hne & Hr & Hm)%readable_group_spec. unfold buildRuleGroupFactor, factor_text.
  rewrite numeric_trim, Hm by done. cbn [negb]. rewrite <-combine_and_parts by done.
  destruct (bfilter truthy _) eqn:Hf; [|done]. exfalso.
  destruct (conditions g) as [|c cs]; [done|]. cbn [map List.filter forallb] in *.
  apply andb_true_iff in Hr as [Hc _]. destruct (build_reads c Hc) as [[[Hn _ _ _] _] _].
  by destruct (buildRequestConditionExpr c).
Qed.

Lemma join_ne sep l : l <> [] -> Forall (fun e => e <> []) l -> join sep l <> [].
Proof. intros Hl. destruct 1 as [|e l He _]; [done|]. destruct e; [done|]. by destruct l. Qed.

Lemma parse_factor g : readable_group g = true -> tryParseRuleGroupFactor (factor_text g) = Ret (Some g).
Proof.
  intros (Hne & Hr & Hm)%readable_group_spec. unfold tryParseRuleGroupFactor, factor_text.
  pose proof (and_parts_reads _ Hr) as Hreads.
  destruct (rule_factor_match (join (u " && ") (and_parts (conditions g))) (multiplier g)) as (m & -> & H1 & H2); [|done|].
  { apply join_ne.
    - destruct (conditions g); [done|]. intros E. rewrite E in Hreads. inversion Hreads.
    - apply Forall_lookup. intros i e Hi. by destruct (Forall2_lookup_r _ _ _ _ _ Hreads Hi) as (c & _ & [[He _ _ _] _]). }
  rewrite H1, H2, split_and_parts by done. rewrite (collect_map _ _ (conditions g)).
  - cbn. destruct g as [[|c cs] mult]; done.
  - eapply Forall2_impl; [exact Hreads|]. intros c e Hc. cbn. pose proof (reads_nonempty _ _ Hc) as [_ ->]. apply Hc.
Qed.

Lemma factor_nested g : readable_group g = true -> exists b, factor_text g = u "(" ++ b ++ u ")" /\ nested b.
Proof.
  intros (Hne & Hr & Hm)%readable_group_spec. pose proof (numeric_literal_chars _ Hm) as [Hc _].
  exists (join (u " && ") (and_parts (conditions g)) ++ u " ? " ++ multiplier g ++ u " : 1"). split.
  - unfold factor_text. by rewrite <-!app_assoc.
  - apply nested_app; [by apply and_parts_nested|]. apply nested_app; [done|]. apply nested_app; [|done].
    by apply inert_depth, inert_num.
Qed.

Lemma factor_trim g : readable_group g = true -> trim (factor_text g) = factor_text g /\ truthy (factor_text g) = true.
Proof.
  intros Hg. split; [|done]. destruct (factor_nested g Hg) as (b & -> & _). apply trim_id. split; intros c.
  - by intros [= <-].
  - rewrite app_assoc, last_app_ne by done. by intros [= <-].
Qed.

Lemma build_rules gs :
  forallb readable_group gs = true -> buildRequestRuleExpr gs = join (u " * ") (map factor_text gs).
Proof.
  intros H. unfold buildRequestRuleExpr. rewrite forallb_forall in H.
  rewrite (map_ext_in buildRuleGroupFactor factor_text) by (intros g Hg; by apply build_factor, H).
  rewrite bfilter_all; [done|]. intros e He. apply list_elem_of_In, in_map_iff in He as (g & <- & _). done.
Qed.

Lemma split_rules parts gs :
  forallb readable_group gs = true -> Forall (opaque (u " * ")) parts -> parts ++ map factor_text gs <> [] ->
  splitTopLevelMultiply (join (u " * ") (parts ++ map factor_text gs)) =
  bfilter truthy (map trim parts) ++ map factor_text gs.
Proof.
  intros H Hp Hne. rewrite forallb_forall in H. unfold splitTopLevelMultiply.
  rewrite (split_top_join 32 (u "* ")); [|done|done|].
  - rewrite map_app, List.filter_app. f_equal. rewrite map_map.
    rewrite (map_ext_in (fun x => trim (factor_text x)) factor_text) by (intros g Hg; by apply factor_trim, H).
    apply bfilter_all. intros e He. apply list_elem_of_In, in_map_iff in He as (g & <- & _). done.
  - apply Forall_app. split; [done|]. apply Forall_forall. intros e He.
    apply list_elem_of_In, in_map_iff in He as (g & <- & Hg).
    destruct (factor_nested g (H g Hg)) as (b & -> & Hb). by apply (opaque_parens (u "* ")).
Qed.

Lemma parens_join_trim parts :
  Forall (fun r => exists b, r = u "(" ++ b ++ u ")" /\ nested b) parts ->
  trim (join (u " * ") parts) = join (u " * ") parts.
Proof.
  intros H. destruct parts as [|p parts]; [done|]. apply trim_id.
  assert (forall l, l <> [] -> Forall (fun r => exists b, r = u "(" ++ b ++ u ")" /\ nested b) l ->
    exists h, join (u " * ") l = [40] ++ h ++ [41]) as Hshape.
  { clear. induction l as [|r l IH]; intros Hne H; [done|]. apply Forall_cons in H as [(b & -> & _) H'].
    destruct l as [|r' l].
    - by exists b.
    - destruct IH as (h & Hj); [done|done|]. exists (b ++ u ")" ++ u " * " ++ [40] ++ h).
      rewrite join_cons, Hj, <-!app_assoc. done. }
  destruct (Hshape (p :: parts)) as (h & ->); [done|done|]. split; intros c.
  - by intros [= <-].
  - rewrite !app_assoc, last_snoc. by intros [= <-].
Qed.

Lemma rules_parens gs :
  forallb readable_group gs = true ->
  Forall (fun r => exists b, r = u "(" ++ b ++ u ")" /\ nested b) (map factor_text gs).
Proof.
  rewrite forallb_forall. intros H. apply Forall_forall. intros r Hr.
  apply list_elem_of_In, in_map_iff in Hr as (g & <- & Hg). by apply factor_nested, H.
Qed.

Lemma rules_trim gs :
  forallb readable_group gs = true -> trim (join (u " * ") (map factor_text gs)) = join (u " * ") (map factor_text gs).
Proof. intros H. by apply parens_join_trim, rules_parens. Qed.

Lemma parse_rules gs :
  forallb readable_group gs = true -> tryParseRequestRuleExpr (buildRequestRuleExpr gs) = Ret (Some gs).
Proof.
  intros H. rewrite build_rules by done. unfold tryParseRequestRuleExpr. rewrite rules_trim by done.
  destruct gs as [|g gs]; [done|]. set (l := g :: gs) in *.
  assert (truthy (join (u " * ") (map factor_text l)) = true) as ->.
  { unfold l. destruct gs; done. }
  cbn [negb]. pose proof (split_rules [] l H ltac:(constructor) ltac:(done)) as Hs. cbn [map List.filter app] in Hs.
  rewrite Hs.
  apply collect_map. rewrite forallb_forall in H.
  assert (forall g, g ∈ l -> readable_group g = true) as Hl by (intros g' Hg%list_elem_of_In; auto).
  clearbody l. clear -Hl. induction l as [|g l IH]; cbn; constructor.
  - apply parse_factor, Hl. by left.
  - apply IH. intros; apply Hl. by right.
Qed.

(** ** Separating tiers and rules *)

Lemma matches_rseq r l st st' :
  matches (rseq (r :: l)) st st' -> exists st1, matches r st st1 /\ matches (rseq l) st1 st'.
Proof. intros Hm. inversion Hm; subst. eauto. Qed.

Lemma matches_str p st st' : matches (RStr p) st st' -> after st = p ++ after st'.
Proof.
  revert st. induction p as [|c p IH]; intros st Hm; cbn in Hm; inversion Hm; subst; [done|].
  match goal with H : matches (RChr _) _ _ |- _ => inversion H; subst end.
  match goal with H : matches (foldr _ _ _) _ _ |- _ => apply IH in H; cbn in H |- *; rewrite H end.
  match goal with H : (_ =? _) = true |- _ => apply N.eqb_eq in H end. congruence.
Qed.

Lemma rule_factor_ends s m : re_match rule_factor_re s = Some m -> exists w, s = u "(" ++ w ++ u " : 1)".
Proof.
  unfold rule_factor_re. change (rseq (RStart :: ?l)) with (RSeq RStart (rseq l)). rewrite re_match_anchored.
  intros (st & Hm & _)%rmatch_sound.
  apply matches_rseq in Hm as (s1 & H1%matches_str & Hm). apply matches_rseq in Hm as (s2 & H2 & Hm).
  apply matches_rseq in Hm as (s3 & H3%matches_str & Hm). apply matches_rseq in Hm as (s4 & H4 & Hm).
  apply matches_rseq in Hm as (s5 & H5%matches_str & Hm). apply matches_rseq in Hm as (s6 & H6 & _).
  apply (matches_only (fun _ => true)) in H2 as (a1 & H2 & _); [|by cbn].
  apply (matches_only (fun _ => true)) in H4 as (a2 & H4 & _); [|by cbn].
  inversion H6; subst. cbn [after start_state] in *.
  exists (a1 ++ u " ? " ++ a2). by rewrite H1, H2, H3, H4, H5, app_nil_r, <-!app_assoc.
Qed.


Lemma outer_loop_nested b : forall d, (0 <= d)%Z -> depth_run d b = Some 0%Z -> outer_loop (d + 1) (b ++ [41]) = true.
Proof.
  induction b as [|c b IH]; intros d Hd; cbn [depth_run app outer_loop].
  - by intros [= ->].
  - destruct (Z.ltb_spec (paren_depth d c) 0); [done|]. intros Hr. rewrite paren_depth_shift.
    rewrite (proj2 (Z.eqb_neq _ 0)) by lia. cbn [andb]. by apply IH.
Qed.

Lemma full_outer_parens b : nested b -> hasFullOuterParens (u "(" ++ b ++ u ")") = true.
Proof.
  intros Hb. unfold hasFullOuterParens, ends_with. rewrite starts_with_app, !rev_app_distr.
  change (rev (u ")")) with [41]. rewrite <-app_assoc, starts_with_app. cbn [negb orb].
  destruct b as [|c b]; [done|].
  change (outer_loop (0 + 1) ((c :: b) ++ [41]) = true). by apply outer_loop_nested.
Qed.

(** A base expression that the rules can be separated from. *)
Definition separable (base : jsstr) : Prop :=
  base <> [] /\ trim base = base /\ nested base /\ ends_with base (u " : 1") = false /\
  hasFullOuterParens base = false.

Definition paren (b : jsstr) : jsstr := u "(" ++ b ++ u ")".

Lemma paren_trim b : trim (paren b) = paren b.
Proof.
  apply trim_id. split; intros c; [by intros [= <-]|].
  unfold paren. rewrite app_assoc, last_app_ne by done. by intros [= <-].
Qed.

Lemma inner_paren b : inner (paren b) = b.
Proof. unfold inner, paren. change (removelast (b ++ [41]) = b). apply removelast_last. Qed.

Lemma unwrap_paren base : separable base -> unwrapOuterParens (paren base) = base.
Proof.
  intros (_ & Ht & Hn & _ & Hf). unfold unwrapOuterParens. rewrite paren_trim.
  assert (exists n, length (paren base) = S (S n)) as [n ->].
  { exists (length base). unfold paren. rewrite !length_app.
    change (1 + (length base + 1) = S (S (length base)))%nat. lia. }
  pose proof (full_outer_parens base Hn) as Hp. change (u "(" ++ base ++ u ")") with (paren base) in Hp.
  cbn [unwrap_loop]. by rewrite Hp, inner_paren, Ht, Hf.
Qed.

(** One part in parentheses. *)
Lemma parse_one_part b :
  nested b -> tryParseRequestRuleExpr (paren b) =
              res_bind (tryParseRuleGroupFactor (paren b)) (fun o => Ret ((fun g => [g]) <$> o)).
Proof.
  intros Hb. unfold tryParseRequestRuleExpr, splitTopLevelMultiply. rewrite paren_trim.
  change (truthy (paren b)) with true. cbn [negb].
  pose proof (split_top_join 32 (u "* ") [paren b] eq_refl ltac:(done)) as Hs.
  change (Forall (opaque (u " * ")) [paren b] -> split_top (u " * ") 0 0 [] (paren b) = map trim [paren b]) in Hs.
  rewrite Hs.
  - cbn [map]. rewrite paren_trim. change (bfilter truthy [paren b]) with [paren b]. cbn [collect].
    destruct (tryParseRuleGroupFactor (paren b)) as [[g|]|]; done.
  - constructor; [|constructor]. by apply (opaque_parens (u "* ")).
Qed.

Lemma base_not_rule base : separable base -> is_rule_part (paren base) = Ret false.
Proof.
  intros (Hne & _ & Hn & He & _). unfold is_rule_part. rewrite parse_one_part by done.
  unfold tryParseRuleGroupFactor. destruct (re_match rule_factor_re (paren base)) as [m|] eqn:Hm; [|done]. exfalso.
  apply rule_factor_ends in Hm as (w & Hw). unfold paren in Hw. apply app_inv_head in Hw.
  change (u " : 1)") with (u " : 1" ++ u ")") in Hw. rewrite app_assoc in Hw. apply app_inv_tail in Hw as ->.
  unfold ends_with in He. by rewrite rev_app_distr, starts_with_app in He.
Qed.

Lemma factor_is_rule g : readable_group g = true -> is_rule_part (factor_text g) = Ret true.
Proof.
  intros Hg. unfold is_rule_part. destruct (factor_nested g Hg) as (b & Hb & Hn).
  change (u "(" ++ b ++ u ")") with (paren b) in Hb. rewrite Hb, parse_one_part, <-Hb by done.
  by rewrite parse_factor.
Qed.

Lemma sort_factors gs :
  forallb readable_group gs = true -> sort_parts (map factor_text gs) = Ret (map factor_text gs, []).
Proof.
  induction gs as [|g gs IH]; cbn [forallb map sort_parts]; [done|]. intros [Hg Hgs]%andb_true_iff.
  rewrite factor_is_rule, IH by done. done.
Qed.

Lemma combine_join base rules :
  rules <> [] -> join (u " * ") (paren base :: rules) = u "(" ++ base ++ u ") * " ++ join (u " * ") rules.
Proof.
  intros Hr. destruct rules as [|r rules]; [done|].
  rewrite join_cons. unfold paren. rewrite <-!app_assoc. done.
Qed.

(** Splitting what [combineBillingExpr] joined, by the parts. *)
Lemma split_combined base rules :
  separable base -> rules <> [] -> Forall (fun r => exists b, r = paren b /\ nested b) rules ->
  splitBillingExprAndRequestRules (join (u " * ") (paren base :: rules)) =
  res_bind (sort_parts rules) (fun '(rs, bs) =>
    Ret (match rs, bs with
         | _ :: _, [] => (base, join (u " * ") rs)
         | _, _ => (join (u " * ") (paren base :: rules), [])
         end)).
Proof.
  intros Hb Hne Hall. pose proof Hb as (_ & _ & Hn & _). unfold splitBillingExprAndRequestRules.
  set (e := join (u " * ") (paren base :: rules)).
  assert (Forall (fun r => exists b, r = paren b /\ nested b) (paren base :: rules)) as Hall'.
  { constructor; [by exists base|done]. }
  assert (trim e = e) as Htr by (by apply parens_join_trim).
  assert (splitTopLevelMultiply e = paren base :: rules) as Hs.
  { unfold splitTopLevelMultiply, e. rewrite (split_top_join 32 (u "* ")); [|done|done|].
    - rewrite (map_ext_in trim (fun r => r)), map_id, bfilter_all; [done|..].
      + intros r Hr. by apply (proj1 (Forall_forall _ _) Hall') in Hr as (b & -> & _).
      + intros r Hr%list_elem_of_In. apply (proj1 (Forall_forall _ _) Hall') in Hr as (b & -> & _). apply paren_trim.
    - eapply Forall_impl; [exact Hall'|]. intros r (b & -> & Hr). by apply (opaque_parens (u "* ")). }
  rewrite Htr, Hs. assert (truthy e = true) as -> by (unfold e; by destruct rules).
  assert ((length (paren base :: rules) <=? 1)%nat = false) as -> by (by destruct rules).
  cbn [negb sort_parts].
  rewrite base_not_rule by done. cbn [res_bind].
  destruct (sort_parts rules) as [[rs bs]|]; [|done]. cbn [res_bind].
  destruct rs as [|r' rs]; [done|]. destruct bs; [|done]. by rewrite unwrap_paren.
Qed.

Lemma combine_text base gs :
  separable base -> gs <> [] -> forallb readable_group gs = true ->
  combineBillingExpr base (buildRequestRuleExpr gs) = join (u " * ") (paren base :: map factor_text gs).
Proof.
  intros (Hne & Ht & _) Hgs Hr. unfold combineBillingExpr. rewrite build_rules, Ht, rules_trim by done.
  assert (truthy base = true) as -> by (by destruct base).
  assert (truthy (join (u " * ") (map factor_text gs)) = true) as ->.
  { destruct gs as [|g [|g' gs]]; done. }
  cbn [negb]. rewrite combine_join; [done|]. by destruct gs.
Qed.

(** ** Rules the parser cannot read *)

(** The guard that is printed in front of a comparison of a parameter. *)
Definition guard_text (p : jsstr) : jsstr := call (u "param(") p ++ u ") != nil".

(** A factor whose condition is the guard and a second text. *)
Lemma guarded_factor p e c mult :
  plain_name p = true -> is_numeric_literal mult = true -> cond_text_ok e ->
  buildRequestConditionExpr c = guard_text p ++ u " && " ++ e -> tryParseRequestCondition e = Ret None ->
  let t := buildRequestRuleExpr [mkGroup [c] mult] in
  (exists b, t = paren b /\ nested b) /\ tryParseRuleGroupFactor t = Ret None.
Proof.
  intros Hp Hm He Hc Hnone. cbn zeta.
  pose proof (param_exists_reads p Hp) as [Hg Hgp]. fold (guard_text p) in Hg, Hgp.
  pose proof (numeric_literal_chars _ Hm) as [Hmc _].
  assert (buildRequestRuleExpr [mkGroup [c] mult] =
          u "(" ++ join (u " && ") [guard_text p; e] ++ u " ? " ++ mult ++ u " : 1)") as ->.
  { unfold buildRequestRuleExpr, buildRuleGroupFactor. cbn [map conditions multiplier].
    rewrite numeric_trim, Hm by done. cbn [negb]. rewrite Hc. done. }
  split.
  - exists (join (u " && ") [guard_text p; e] ++ u " ? " ++ mult ++ u " : 1"). split.
    + unfold paren. by rewrite <-!app_assoc.
    + rewrite join_cons. apply nested_app; [apply nested_app; [apply Hg|apply nested_app; [done|apply He]]|].
      apply nested_app; [done|]. apply nested_app; [|done]. by apply inert_depth, inert_num.
  - unfold tryParseRuleGroupFactor.
    destruct (rule_factor_match (join (u " && ") [guard_text p; e]) mult) as (m & -> & H1 & _); [done|done|].
    rewrite H1. unfold splitTopLevelAnd. rewrite (split_top_join 32 (u "&& ")); [|done|done|].
    + cbn [map]. rewrite (trim_id _ (ct_ends _ Hg)), (trim_id _ (ct_ends _ He)).
      assert (truthy e = true) as Ht by (by pose proof (ct_ne _ He); destruct e).
      cbn [List.filter]. change (truthy (guard_text p)) with true. rewrite Ht. cbn [collect].
      by rewrite (trim_id _ (ct_ends _ Hg)), (trim_id _ (ct_ends _ He)), Hgp, Hnone.
    + constructor; [by apply cond_text_opaque|]. constructor; [by apply cond_text_opaque|constructor].
Qed.

(** The second half of a comparison is no condition of its own. *)
Lemma bare_comparison p op v :
  plain_name p = true -> op ∈ [u ">"; u ">="; u "<"; u "<="] -> is_numeric_literal v = true ->
  let e := call (u "param(") p ++ u ") " ++ op ++ u " " ++ v in
  cond_text_ok e /\ tryParseRequestCondition e = Ret None.
Proof.
  intros (Hne & _ & _ & Hq & Hi)%plain_name_spec Hop Hv. cbn zeta.
  pose proof (numeric_literal_chars v Hv) as [Hc Hvne]. rewrite !elem_of_cons, elem_of_nil in Hop. split.
  - eapply call_text_ok; try done.
    + rewrite !app_assoc. apply last_app_ends; [done|by apply num_ends].
    + rewrite !forallb_app, (inert_amp v (inert_num v Hc)). by destruct Hop as [->|[->|[->|[->|[]]]]].
    + assert (depth_run 0 v = Some 0%Z) by (by apply inert_depth, inert_num).
      by destruct Hop as [->|[->|[->|[->|[]]]]].
  - unfold tryParseRequestCondition, parse_param_contains, parse_compare, parse_equals.
    rewrite no_time by (right; by left). set (e := call _ _ ++ _).
    assert (re_match header_exists_re e = None) as -> by (anchored header_exists_re; reflexivity).
    assert (re_match header_contains_re e = None) as -> by (anchored header_contains_re; reflexivity).
    assert (re_match param_exists_re e = None) as ->.
    { anchored param_exists_re. unfold e. rewrite rmatch_call by done. by destruct Hop as [->|[->|[->|[->|[]]]]]. }
    assert (re_match param_contains_re e = None) as ->.
    { anchored param_contains_re. unfold e. rewrite rmatch_call by done. by destruct Hop as [->|[->|[->|[->|[]]]]]. }
    assert (re_match param_compare_re e = None) as ->.
    { anchored param_compare_re. unfold e. rewrite rmatch_call by done. by destruct Hop as [->|[->|[->|[->|[]]]]]. }
    assert (re_match equals_re e = None) as ->; [|done].
    anchored equals_re. unfold e. change (u "param(") with (u "param" ++ u "("). rewrite call_app.
    rewrite (rmatch_choice 1 [u "param"; u "header"]).
    + rewrite rmatch_call by done. by destruct Hop as [->|[->|[->|[->|[]]]]].
    + set_solver.
    + intros x [->|Hx%list_elem_of_singleton]%elem_of_cons; [done|subst x; done].
Qed.

(** Neither is the call of [has] on a parameter. *)
Lemma bare_has p v :
  plain_name p = true -> forallb safe_char v = true ->
  let e := call (u "has(param(") p ++ u "), " ++ [34] ++ v ++ [34] ++ u ")" in
  cond_text_ok e /\ tryParseRequestCondition e = Ret None.
Proof.
  intros (Hne & _ & _ & Hq & Hi)%plain_name_spec Hv. pose proof (inert_safe v Hv) as Hiv. cbn zeta. split.
  - eapply call_text_ok; try done.
    + intros c. rewrite !app_assoc, last_app_ne by done. by intros [= <-].
    + rewrite !forallb_app, (inert_amp v) by done. done.
    + change (depth_run 1 (v ++ [34] ++ u ")") = Some 0%Z). by rewrite depth_run_app, inert_depth.
  - unfold tryParseRequestCondition, parse_param_contains, parse_compare, parse_equals.
    rewrite no_time by (right; by right). anchored header_exists_re. anchored param_exists_re.
    anchored header_contains_re. anchored param_contains_re. anchored param_compare_re. anchored equals_re.
    reflexivity.
Qed.

(** What is printed for a parameter that is compared with a number or searched. *)
Definition guarded_mode (m v : jsstr) : bool :=
  match compare_op m with
  | Some _ => is_numeric_literal v
  | None => bool_decide (m = MATCH_CONTAINS) && plain_text v
  end.

Lemma guarded_condition p m v :
  plain_name p = true -> guarded_mode m v = true ->
  exists e, buildRequestConditionExpr (ParamHeaderCondition Param p m v) = guard_text p ++ u " && " ++ e /\
            cond_text_ok e /\ tryParseRequestCondition e = Ret None.
Proof.
  intros Hp Hm. pose proof (plain_name_spec p Hp) as (Hne & Hs & Ht & _).
  assert (normalizeCondition (Some (to_partial (ParamHeaderCondition Param p m v))) = ParamHeaderCondition Param p m v) as Hn.
  { unfold normalizeCondition.
    cbn [coalesce default from_option id to_partial pc_source pc_path pc_mode pc_value].
    rewrite !bool_decide_false by done.
    assert (has_mode (getRequestRuleMatchOptions (source_name Param)) (Some m) = true) as ->.
    { unfold guarded_mode, compare_op in Hm. cbn [map_get] in Hm.
      repeat case_decide; subst; try done; by apply andb_true_iff in Hm as [->%bool_decide_eq_true _]. }
    unfold or_opt_str. by destruct p. }
  unfold buildRequestConditionExpr. rewrite Hn. unfold param_header_expr. rewrite Ht.
  assert (truthy p = true) as -> by (by destruct p). cbn [negb]. rewrite source_call_text by done.
  unfold guarded_mode in Hm. destruct (compare_op m) as [op|] eqn:Hop.
  - assert (m <> MATCH_EXISTS /\ m <> MATCH_CONTAINS /\ op ∈ [u ">"; u ">="; u "<"; u "<="]) as (H1 & H2 & H3).
    { unfold compare_op in Hop. cbn [map_get] in Hop. repeat case_decide; simplify_eq; split_and!; try done; set_solver. }
    rewrite !bool_decide_false, numeric_trim, Hm by done. cbn [negb].
    exists (call (u "param(") p ++ u ") " ++ op ++ u " " ++ v). split; [|by apply bare_comparison].
    unfold guard_text. rewrite <-!app_assoc. done.
  - apply andb_true_iff in Hm as [->%bool_decide_eq_true Hv].
    unfold plain_text in Hv. apply andb_true_iff in Hv as [Hv Hvt%bool_decide_eq_true].
    rewrite bool_decide_false, bool_decide_true by done. unfold buildExprLiteral.
    rewrite bool_decide_true, Hvt, safe_quote by done.
    exists (call (u "has(param(") p ++ u "), " ++ [34] ++ v ++ [34] ++ u ")"). split; [|by apply bare_has].
    unfold guard_text, call. rewrite <-!app_assoc. done.
Qed.

(** ** Theorems *)



Lemma split_joined base gs :
  separable base -> gs <> [] -> forallb readable_group gs = true ->
  splitBillingExprAndRequestRules (combineBillingExpr base (buildRequestRuleExpr gs)) =
  Ret (base, buildRequestRuleExpr gs).
Proof.
  intros Hb Hne Hr. rewrite combine_text, build_rules by done. rewrite split_combined; [|done|by destruct gs|].
  - rewrite sort_factors by done. cbn [res_bind]. by destruct gs.
  - by apply rules_parens.
Qed.

(** A tier expression and rules joined for storage come apart again exactly. *)
Theorem split_combine base gs :
  separable base -> gs <> [] -> forallb readable_group gs = true ->
  splitBillingExprAndRequestRules (combineBillingExpr base (buildRequestRuleExpr gs)) =
  Ret (base, buildRequestRuleExpr gs).
Proof. apply split_joined. Qed.

Definition sample_base : jsstr := uj "tier('base', p * 3 + c * 15)".

Lemma sample_base_separable : separable sample_base.
Proof. unfold separable, nested. vm_compute. done. Defined.

Lemma split_combine_witness :
  splitBillingExprAndRequestRules (combineBillingExpr sample_base (buildRequestRuleExpr sample_groups)) =
  Ret (sample_base, buildRequestRuleExpr sample_groups).
Proof. apply split_combine; [exact sample_base_separable|discriminate|vm_compute; reflexivity]. Defined.

(** A rule that compares a parameter with a number, or looks for a text in it,
    is printed with a guard joined by a conjunction.  The parser splits at that
    conjunction before it tries the pattern for the pair, so it never reads
    the rule; the joined expression is then taken for a tier expression
    without rules. *)
Theorem param_rule_not_read p m v mult base :
  plain_name p = true -> guarded_mode m v = true -> is_numeric_literal mult = true -> separable base ->
  let rules := buildRequestRuleExpr [mkGroup [ParamHeaderCondition Param p m v] mult] in
  tryParseRequestRuleExpr rules = Ret None /\
  splitBillingExprAndRequestRules (combineBillingExpr base rules) = Ret (combineBillingExpr base rules, []).
Proof.
  intros Hp Hm Hmult Hb. cbn zeta. destruct (guarded_condition p m v Hp Hm) as (e & Hc & He & Hnone).
  destruct (guarded_factor p e _ mult Hp Hmult He Hc Hnone) as [(b & Ht & Hn) Hf].
  rewrite Ht in *. pose proof (parse_one_part b Hn) as Hone. rewrite Hf in Hone. split; [exact Hone|].
  assert (combineBillingExpr base (paren b) = join (u " * ") [paren base; paren b]) as ->.
  { unfold combineBillingExpr. destruct Hb as (Hne & -> & _). rewrite paren_trim.
    assert (truthy base = true) as -> by (by destruct base). by rewrite combine_join. }
  rewrite split_combined; [|done|done|by constructor; [exists b|]].
  cbn [sort_parts]. unfold is_rule_part. rewrite Hone. done.
Qed.

Lemma param_rule_not_read_witness :
  let rules := buildRequestRuleExpr [mkGroup [ParamHeaderCondition Param (u "n") MATCH_GT (u "4")] (u "2")] in
  rules = uj "(param('n') != nil && param('n') > 4 ? 2 : 1)" /\
  tryParseRequestRuleExpr rules = Ret None.
Proof.
  split; [vm_compute; reflexivity|].
  apply (param_rule_not_read (u "n") MATCH_GT (u "4") (u "2") sample_base);
    [vm_compute; reflexivity..|exact sample_base_separable].
Defined.

(** A malformed escape in a rule makes the parser throw; nothing on the way from
    the price display catches it. *)
Theorem bad_escape_throws :
  splitBillingExprAndRequestRules (sample_base ++ u " * (has(header(" ++ uj "'ua'), '" ++ [92; 113] ++ uj "') ? 2 : 1)") = Throw.
Proof. vm_compute. reflexivity. Qed.

End Rules.
