(* ===== verification/TierExpr.v ===== *)
(** * The visual tier editor
    (web/default/src/features/pricing/lib/tier-expr.ts)

    The editor shows a billing expression as a table of tiers.
    [generateExprFromVisualConfig] prints the table and [tryParseVisualConfig]
    reads an expression back, or gives up when the expression is not one the
    table can show.

    An optional property that is absent is [None] or missing from the list of
    extra prices; properties are not present with the value [undefined]. *)

From S2P Require Import Prelude JsString JsNumber JsJson JsRegex PricingModels BillingExpr.

Import Billing.
Open Scope N_scope.

Module Tier.

(** ** Data *)

Inductive CacheMode := CACHE_MODE_TIMED | CACHE_MODE_GENERIC.

(** [number | string] *)
Inductive CondValue := VNum (x : number) | VStr (s : jsstr).

Record TierConditionInput := mkTCI { ci_var : jsstr; ci_op : jsstr; ci_value : CondValue }.

(** The prices other than input and output are kept by field name. *)
Record VisualTier := mkVT {
  label : jsstr;
  vt_conditions : list TierConditionInput;
  input_unit_cost : number;
  output_unit_cost : number;
  cache_mode : CacheMode;
  extras : list (jsstr * number);
}.

(** [Partial<VisualTier>] *)
Record PartialTier := mkPartialTier {
  pl_label : option jsstr;
  pl_conditions : option (list TierConditionInput);
  pl_input : option number;
  pl_output : option number;
  pl_cache_mode : option CacheMode;
  pl_extras : list (jsstr * number);
}.

Definition partial_of (t : VisualTier) : PartialTier :=
  mkPartialTier (Some (label t)) (Some (vt_conditions t)) (Some (input_unit_cost t)) (Some (output_unit_cost t))
    (Some (cache_mode t)) (extras t).

Record VisualConfig := mkConfig { version : option number; tiers : list VisualTier }.

(** ** Normalisation *)

(** [Number(x)] for a property that may be absent *)
Definition to_number (x : option number) : number := x ?? NaN.

Definition getTierCacheMode (tier : PartialTier) : CacheMode :=
  match pl_cache_mode tier with
  | Some m => m
  | None =>
      if num_gt (to_number (map_get (u "cache_create_1h_unit_cost") (pl_extras tier))) (num_of_Z 0)
      then CACHE_MODE_TIMED else CACHE_MODE_GENERIC
  end.

Definition EXTRA_FIELDS : list jsstr :=
  [u "cache_read_unit_cost"; u "cache_create_unit_cost"; u "cache_create_1h_unit_cost"; u "image_unit_cost";
   u "image_output_unit_cost"; u "audio_input_unit_cost"; u "audio_output_unit_cost";
   u "document_input_unit_cost"; u "video_input_unit_cost"].

(** The spread comes after label, conditions, the two base prices and the
    cache mode, so a present value replaces the normalised one. *)
Definition normalizeVisualTier (tier : PartialTier) : VisualTier :=
  mkVT (pl_label tier ?? []) (pl_conditions tier ?? [])
    (pl_input tier ?? or_zero (to_number (pl_input tier)))
    (pl_output tier ?? or_zero (to_number (pl_output tier)))
    (pl_cache_mode tier ?? getTierCacheMode tier)
    (map (fun f => (f, or_zero (to_number (map_get f (pl_extras tier))))) EXTRA_FIELDS).

Definition createDefaultVisualConfig : VisualConfig :=
  mkConfig None [normalizeVisualTier (mkPartialTier (Some (u "base")) (Some []) (Some (num_of_Z 0))
                                        (Some (num_of_Z 0)) (Some CACHE_MODE_GENERIC) [])].

Definition normalizeVisualConfig (config : option VisualConfig) : VisualConfig :=
  match config with
  | None => createDefaultVisualConfig
  | Some c =>
      if negb (truthy_list (tiers c)) then createDefaultVisualConfig
      else mkConfig (version c) (map (fun t => normalizeVisualTier (partial_of t)) (tiers c))
  end.

(** ** Printing *)

Definition value_text (v : CondValue) : jsstr :=
  match v with VNum x => num_to_str x | VStr s => s end.

Definition cond_complete (c : TierConditionInput) : bool :=
  truthy (ci_var c) && truthy (ci_op c) && match ci_value c with VNum _ => true | VStr s => truthy s end.

Definition cond_text (c : TierConditionInput) : jsstr := ci_var c ++ u " " ++ ci_op c ++ u " " ++ value_text (ci_value c).

Definition buildConditionStr (conds : list TierConditionInput) : jsstr :=
  join (u " && ") (map cond_text (bfilter cond_complete conds)).

(** [`${exprVar} * ${v}`] *)
Definition term_text (v : jsstr) (x : number) : jsstr := v ++ u " * " ++ num_to_str x.

Definition extra_term (tier : VisualTier) (cv : jsstr * jsstr) : option jsstr :=
  let v := or_zero (to_number (map_get cv.1 (extras tier))) in
  if negb (num_eq v (num_of_Z 0)) then Some (term_text cv.2 v) else None.

Definition buildTierBodyExpr (tier : VisualTier) : jsstr :=
  join (u " + ")
    ([term_text (u "p") (or_zero (input_unit_cost tier)); term_text (u "c") (or_zero (output_unit_cost tier))]
     ++ omap (extra_term tier) BILLING_CACHE_VAR_MAP).

Definition requires_v2 (tier : VisualTier) : bool :=
  negb (num_eq (to_number (map_get (u "document_input_unit_cost") (extras tier))) (num_of_Z 0))
  || negb (num_eq (to_number (map_get (u "video_input_unit_cost") (extras tier))) (num_of_Z 0)).

Definition applyExprVersion (config : VisualConfig) (body : jsstr) : jsstr :=
  let requiresV2 := existsb requires_v2 (tiers config) in
  let v := num_max (version config ?? num_of_Z 1) (if requiresV2 then num_of_Z 2 else num_of_Z 1) in
  if num_gt v (num_of_Z 1) then u "v" ++ num_to_str v ++ u ":" ++ body else body.

Definition tier_call (lab body : jsstr) : jsstr := uj "tier('" ++ lab ++ uj "', " ++ body ++ u ")".

(** The [i]-th of [n] tiers, [n] at least 2. *)
Definition tier_part (n : nat) (i : nat) (tier : VisualTier) : jsstr :=
  let lab := or_str (label tier) (u "tier_" ++ N_to_str (N.of_nat (i + 1))) in
  let body := tier_call lab (buildTierBodyExpr tier) in
  let cond := buildConditionStr (vt_conditions tier) in
  if (i <? n - 1)%nat && truthy cond then cond ++ u " ? " ++ body else body.

Definition zero_expr : jsstr := u "p * 0 + c * 0".

(** The expression before its version. *)
Definition expr_body (ts : list VisualTier) : jsstr :=
  match ts with
  | [tier] =>
      let body := tier_call (or_str (label tier) (u "default")) (buildTierBodyExpr tier) in
      let cond := buildConditionStr (vt_conditions tier) in
      if truthy cond then cond ++ u " ? " ++ body ++ u " : " ++ zero_expr else body
  | _ => join (u " : ") (imap (tier_part (length ts)) ts)
  end.

Definition generateExprFromVisualConfig (config : option VisualConfig) : jsstr :=
  match config with
  | None => zero_expr
  | Some c =>
      if negb (truthy_list (tiers c)) then zero_expr
      else applyExprVersion c (expr_body (tiers c))
  end.

(** ** Reading *)

(** [\s*\*\s*([\d.eE+-]+)], group [n], after a variable *)
Definition times_num_re (n : nat) : re := rseq [rws; RStr (u "*"); rws; RGroup n num_re].

Definition plus_re : re := rseq [rws; RStr (u "+"); rws].

Definition opt_extra_re (n : nat) (v : jsstr) : re :=
  ROpt (rseq [plus_re; RStr v; times_num_re n]).

(** [optCacheStr]: the extra variables in order, from group [n] on *)
Fixpoint opt_extras_re (n : nat) (vars : list jsstr) : re :=
  match vars with
  | [] => REps
  | v :: vs => RSeq (opt_extra_re n v) (opt_extras_re (S n) vs)
  end.

Definition cacheVarNames : list jsstr := map snd BILLING_CACHE_VAR_MAP.

(** [bodyPat], its groups numbered from [n] *)
Definition bodyPat (n : nat) : re :=
  rseq [RStr (u "p"); times_num_re n; plus_re; RStr (u "c"); times_num_re (S n); opt_extras_re (S (S n)) cacheVarNames].

Definition singleRe : re :=
  rseq [RStart; RStr (uj "tier('"); RGroup 1 (RStar (RCls not_quote)); RStr (uj "',"); rws; bodyPat 2;
        RStr (u ")"); REnd].

Definition visualTierRe : re := tier_re (bodyPat 3).

(** The extra prices of a match whose first extra group is [n]. *)
Definition match_extras (n : nat) (m : mstate) : list (jsstr * number) :=
  omap (fun '(i, cv) => (fun val => (cv.1, str_to_num val)) <$> group (n + i) m)
    (imap pair BILLING_CACHE_VAR_MAP).

Definition partial_tier_of (conds : list TierConditionInput) (lab p c : jsstr) (ex : list (jsstr * number)) : PartialTier :=
  mkPartialTier (Some lab) (Some conds) (Some (str_to_num p)) (Some (str_to_num c)) None ex.

Definition single_tier (m : mstate) : VisualTier :=
  normalizeVisualTier (partial_tier_of [] (cap 1 m) (cap 2 m) (cap 3 m) (match_extras 4 m)).

Definition input_of (c : TierCondition) : TierConditionInput := mkTCI (tc_var c) (tc_op c) (VNum (tc_value c)).

Definition visual_tier (m : mstate) : VisualTier :=
  normalizeVisualTier (partial_tier_of (map input_of (parse_conditions (cap 1 m))) (cap 2 m) (cap 3 m) (cap 4 m)
                         (match_extras 5 m)).

(** [s.replace(/^v\d+:/, '')] *)
Definition drop_version (s : jsstr) : jsstr :=
  match rmatch (rseq [RStr (u "v"); RPlus (RCls is_digit); RStr (u ":")]) Some (start_state [] s) with
  | Some m => after m
  | None => s
  end.

(** [s.replace(/\s+/g, '')] *)
Definition strip_ws (s : jsstr) : jsstr := replace_all (RPlus (RCls is_ws)) [] s.

Definition split_version (exprStr : jsstr) : number * jsstr :=
  match re_match VERSION_REGEX exprStr with
  | Some m => (str_to_num (cap 1 m), cap 2 m)
  | None => (num_of_Z 1, exprStr)
  end.

Definition tryParseVisualConfig (exprStr : option jsstr) : option VisualConfig :=
  if negb (truthy_opt exprStr) then None
  else
    let '(v, body) := split_version (exprStr ?? []) in
    match re_match singleRe body with
    | Some m => Some (normalizeVisualConfig (Some (mkConfig (Some v) [single_tier m])))
    | None =>
        match map visual_tier (exec_all visualTierRe body) with
        | [] => None
        | ts =>
            let cfg := normalizeVisualConfig (Some (mkConfig (Some v) ts)) in
            let regeneratedBody := drop_version (generateExprFromVisualConfig (Some cfg)) in
            if negb (bool_decide (strip_ws regeneratedBody = strip_ws body)) then None else Some cfg
        end
    end.

(** ** Use of extra variables *)

(** The pairs of [var] and [stateKey]. *)
Definition ESTIMATOR_VARS : list (jsstr * jsstr) :=
  [(u "cr", u "cacheReadTokens"); (u "cc", u "cacheCreateTokens"); (u "cc1h", u "cacheCreate1hTokens");
   (u "img", u "imageTokens"); (u "img_o", u "imageOutputTokens"); (u "ai", u "audioInputTokens");
   (u "doc", u "documentInputTokens"); (u "vid", u "videoInputTokens"); (u "ao", u "audioOutputTokens")].

Definition exprUsesExtraVars (exprStr : jsstr) : bool :=
  if negb (truthy exprStr) then false
  else re_test (rseq [RWordB; ralt (map (fun f => RStr f.1) ESTIMATOR_VARS); RWordB]) exprStr.

(** ** Examples *)

Definition sample_tiers : list VisualTier :=
  [normalizeVisualTier (mkPartialTier (Some (u "small")) (Some [mkTCI (u "len") (u "<=") (VNum (num_of_Z 200000));
                                                               mkTCI (u "c") (u "<") (VNum (num_of_Z 10))])
     (Some (num_of_Z 3)) (Some (num_of_Z 15)) None [(u "cache_read_unit_cost", num_of_decimal 3 (-1));
                                                    (u "video_input_unit_cost", num_of_Z 7)]);
   normalizeVisualTier (mkPartialTier (Some (u "large")) (Some []) (Some (num_of_Z 6)) (Some (num_of_decimal 225 (-1))) None [])].

Definition sample_config : VisualConfig := mkConfig (Some (num_of_Z 2)) sample_tiers.

Example generate_sample :
  generateExprFromVisualConfig (Some sample_config) =
  uj "v2:len <= 200000 && c < 10 ? tier('small', p * 3 + c * 15 + cr * 0.3 + vid * 7) : tier('large', p * 6 + c * 22.5)".
Proof. vm_compute. reflexivity. Qed.

Example parse_generated_sample :
  tryParseVisualConfig (Some (generateExprFromVisualConfig (Some sample_config))) = Some sample_config.
Proof. vm_compute. reflexivity. Qed.

End Tier.
