(* ===== verification/TierRoundtrip.v ===== *)
(** * The visual editor reads what it writes

    The expression generated from a table of tiers is read back as the same
    table, and the price display, which has its own parser, reads the same
    labels, conditions and prices from it. *)

From S2P Require Import Prelude JsString JsNumber JsJson JsRegex PricingModels BillingExpr TierExpr.

Import Billing Tier.
Open Scope N_scope.

Module TierText.

(** ** Numbers in an expression *)

(** A price that its text denotes. *)
Definition writable (x : number) : bool := is_finite x && reads_back x && bool_decide (or_zero x = x).

Lemma writable_spec x :
  writable x = true -> forallb is_num_char (num_to_str x) = true /\ str_to_num (num_to_str x) = x /\ or_zero x = x.
Proof.
  unfold writable, reads_back. rewrite !andb_true_iff, !bool_decide_eq_true. intros [[H1 H2] H3].
  split; [by apply num_to_str_chars|done].
Qed.

(** ** Following the patterns along a generated text *)

Lemma succeeds_ws k t cs P :
  (forall c, head t = Some c -> is_ws c = false) -> succeeds k t cs P -> succeeds (rmatch rws k) (u " " ++ t) cs P.
Proof. intros Ht. by apply succeeds_star. Qed.

Lemma succeeds_no_ws k t cs P :
  (forall c, head t = Some c -> is_ws c = false) -> succeeds k t cs P -> succeeds (rmatch rws k) t cs P.
Proof. intros Ht. by apply (succeeds_star is_ws k []). Qed.

Definition stops (p : N -> bool) (t : jsstr) : Prop := forall c, head t = Some c -> p c = false.

Lemma num_head_not_ws v t : v <> [] -> forallb is_num_char v = true -> stops is_ws (v ++ t).
Proof.
  intros Hne Hv c. destruct v as [|x v]; [done|]. cbn. intros [= <-]. cbn in Hv. apply andb_true_iff in Hv as [Hx _].
  revert Hx. unfold is_num_char, is_ws. rewrite !orb_true_iff, !N.eqb_eq, is_digit_range. intros H.
  rewrite !orb_false_iff, !andb_false_iff, !N.leb_gt, !N.eqb_neq. lia.
Qed.

(** [ * v] *)
Lemma succeeds_times n k v t cs P :
  v <> [] -> forallb is_num_char v = true -> stops is_num_char t ->
  succeeds k t (map_set n v cs) P -> succeeds (rmatch (times_num_re n) k) (u " * " ++ v ++ t) cs P.
Proof.
  intros Hne Hv Ht H. unfold times_num_re.
  change (succeeds (rmatch rws (rmatch (RStr (u "*")) (rmatch rws (rmatch (RGroup n num_re) k))))
            (u " " ++ u "*" ++ u " " ++ v ++ t) cs P).
  apply succeeds_ws; [by intros c [= <-]|]. apply succeeds_str.
  apply succeeds_ws; [by apply num_head_not_ws|]. apply succeeds_group; [|done].
  intros k' Hk'. by apply succeeds_plus.
Qed.

Lemma succeeds_plus_sign k t cs P :
  stops is_ws t -> succeeds k t cs P -> succeeds (rmatch plus_re k) (u " + " ++ t) cs P.
Proof.
  intros Ht H. unfold plus_re.
  change (succeeds (rmatch rws (rmatch (RStr (u "+")) (rmatch rws k))) (u " " ++ u "+" ++ u " " ++ t) cs P).
  apply succeeds_ws; [by intros c [= <-]|]. apply succeeds_str. by apply succeeds_ws.
Qed.

(** ** Extra variables *)

(** The terms of the extra variables that are present. *)
Definition extras_text (l : list (jsstr * option jsstr)) : jsstr :=
  concat (map (fun '(v, o) => match o with Some x => u " + " ++ v ++ u " * " ++ x | None => [] end) l).

Fixpoint extras_caps (n : nat) (l : list (jsstr * option jsstr)) (cs : list (nat * jsstr)) : list (nat * jsstr) :=
  match l with
  | [] => cs
  | (_, Some x) :: l' => extras_caps (S n) l' (map_set n x cs)
  | (_, None) :: l' => extras_caps (S n) l' cs
  end.

(** A plus sign in front of a literal. *)
Lemma rmatch_plus_sign k b t cs :
  rejects is_ws k -> stops is_ws t ->
  rmatch plus_re k (mkSt b (u " + " ++ t) cs) = k (mkSt (rev (u " + ") ++ b) t cs).
Proof.
  intros Hk Ht. unfold plus_re.
  change (rmatch rws (rmatch (RStr (u "+")) (rmatch rws k)) (mkSt b (u " " ++ u "+ " ++ t) cs) =
          k (mkSt (rev (u " + ") ++ b) t cs)).
  rewrite rmatch_ws_rejects; [|by apply (rejects_str is_ws 43 [])|done|by intros c [= <-]].
  change (u "+ " ++ t) with (u "+" ++ u " " ++ t). rewrite rmatch_str_app.
  by rewrite rmatch_ws_rejects.
Qed.

Lemma times_mismatch n k b t cs :
  stops is_ws t -> starts_with (u "*") t = false -> rmatch (times_num_re n) k (mkSt b t cs) = None.
Proof.
  intros Ht Hs. unfold times_num_re.
  change (rmatch rws (rmatch (RStr (u "*")) (rmatch rws (rmatch (RGroup n num_re) k))) (mkSt b t cs) = None).
  rewrite rmatch_no_ws; [|by apply (rejects_str is_ws 42 [])|done].
  rewrite rmatch_str. cbn [after]. by rewrite Hs.
Qed.

Lemma cache_var_head v : v ∈ cacheVarNames -> exists x s, v = x :: s /\ is_ws x = false.
Proof.
  change cacheVarNames with [u "cr"; u "cc"; u "cc1h"; u "img"; u "img_o"; u "ai"; u "doc"; u "vid"; u "ao"].
  rewrite !elem_of_cons, elem_of_nil. intros Hv. repeat destruct Hv as [->|Hv]; try done; by do 2 eexists.
Qed.

(** The optional term of [v] does not match the term of another variable. *)
Lemma opt_extra_other n v w k b t cs :
  v ∈ cacheVarNames -> w ∈ cacheVarNames -> v <> w ->
  rmatch (rseq [plus_re; RStr v; times_num_re n]) k (mkSt b (u " + " ++ w ++ u " * " ++ t) cs) = None.
Proof.
  intros Hv Hw Hne. destruct (cache_var_head v Hv) as (x & v' & Ev & Hx). destruct (cache_var_head w Hw) as (y & w' & Ew & Hy).
  change (rmatch plus_re (rmatch (RStr v) (rmatch (times_num_re n) k)) (mkSt b (u " + " ++ w ++ u " * " ++ t) cs) = None).
  rewrite rmatch_plus_sign; [|rewrite Ev; by apply rejects_str|rewrite Ew; by intros c [= <-]].
  rewrite rmatch_str. cbn [after]. destruct (starts_with v (w ++ u " * " ++ t)) eqn:Hs; [|done]. clear Ev Ew.
  change cacheVarNames with [u "cr"; u "cc"; u "cc1h"; u "img"; u "img_o"; u "ai"; u "doc"; u "vid"; u "ao"] in Hv, Hw.
  rewrite !elem_of_cons, elem_of_nil in Hv, Hw.
  repeat destruct Hv as [->|Hv]; try done; repeat destruct Hw as [->|Hw]; try done;
    by apply times_mismatch; [intros c [= <-]|].
Qed.

Lemma opt_extra_end n v k b t cs :
  rmatch (rseq [plus_re; RStr v; times_num_re n]) k (mkSt b (u ")" ++ t) cs) = None.
Proof.
  change (rmatch rws (rmatch (RStr (u "+")) (rmatch rws (rmatch (RStr v) (rmatch (times_num_re n) k))))
            (mkSt b (u ")" ++ t) cs) = None).
  rewrite rmatch_no_ws; [done|by apply (rejects_str is_ws 43 [])|by intros c [= <-]].
Qed.

Lemma extras_text_cons v o l :
  extras_text ((v, o) :: l) = match o with Some x => u " + " ++ v ++ u " * " ++ x ++ extras_text l | None => extras_text l end.
Proof. unfold extras_text. cbn [map concat]. destruct o; [by rewrite <-!app_assoc|done]. Qed.

Lemma extras_text_head l :
  extras_text l = [] \/ exists w r, w ∈ l.*1 /\ extras_text l = u " + " ++ w ++ u " * " ++ r.
Proof.
  induction l as [|[v o] l IH]; [by left|]. rewrite extras_text_cons. destruct o as [x|].
  - right. do 2 eexists. split; [by left|done].
  - destruct IH as [?|(w & r & Hw & Hr)]; [by left|]. right. exists w, r. split; [by right|done].
Qed.

(** The values of the extra variables are texts of numbers. *)
Definition extras_ok (l : list (jsstr * option jsstr)) : Prop :=
  NoDup l.*1 /\ (forall v, v ∈ l.*1 -> v ∈ cacheVarNames) /\
  Forall (fun vo => match vo.2 with Some x => x <> [] /\ forallb is_num_char x = true | None => True end) l.

Lemma extras_stop l t : stops is_num_char (extras_text l ++ u ")" ++ t).
Proof.
  destruct (extras_text_head l) as [->|(w & r & _ & ->)]; by intros c [= <-].
Qed.

Lemma succeeds_extras l : forall n k t cs P,
  extras_ok l -> succeeds k (u ")" ++ t) (extras_caps n l cs) P ->
  succeeds (rmatch (opt_extras_re n l.*1) k) (extras_text l ++ u ")" ++ t) cs P.
Proof.
  induction l as [|[v o] l IH]; intros n k t cs P (Hnd & Hsub & Hall) H; [done|].
  apply Forall_cons in Hall as [Ho Hall]. cbn [fmap list_fmap fst] in Hnd, Hsub. apply NoDup_cons in Hnd as [Hv Hnd].
  assert (extras_ok l) as Hl by (split_and!; [done|intros; apply Hsub; by right|done]).
  cbn [fmap list_fmap fst opt_extras_re]. apply succeeds_seq. rewrite extras_text_cons. unfold opt_extra_re, ROpt.
  destruct o as [x|].
  - destruct Ho as [Hx Hxn]. apply succeeds_alt_l.
    change (succeeds (rmatch plus_re (rmatch (RStr v) (rmatch (times_num_re n) (rmatch (opt_extras_re (S n) l.*1) k))))
              ((u " + " ++ v ++ u " * " ++ x ++ extras_text l) ++ u ")" ++ t) cs P).
    rewrite <-!app_assoc. destruct (cache_var_head v) as (c0 & v' & Ev & Hc); [apply Hsub; by left|].
    apply succeeds_plus_sign; [rewrite Ev; by intros c [= <-]|]. apply succeeds_str.
    apply succeeds_times; [done|done|apply extras_stop|]. by apply IH.
  - apply succeeds_alt_r; [|by apply IH].
    intros b. destruct (extras_text_head l) as [->|(w & r & Hw & ->)]; [apply opt_extra_end|].
    rewrite <-!app_assoc. apply opt_extra_other; [apply Hsub; by left|apply Hsub; by right|]. by intros ->.
Qed.

(** ** The body of a tier *)

Definition body_text (p c : jsstr) (l : list (jsstr * option jsstr)) : jsstr :=
  u "p" ++ u " * " ++ p ++ u " + " ++ u "c" ++ u " * " ++ c ++ extras_text l.

Lemma succeeds_body n p c l k t cs P :
  p <> [] -> forallb is_num_char p = true -> c <> [] -> forallb is_num_char c = true ->
  extras_ok l -> l.*1 = cacheVarNames ->
  succeeds k (u ")" ++ t) (extras_caps (S (S n)) l (map_set (S n) c (map_set n p cs))) P ->
  succeeds (rmatch (bodyPat n) k) (body_text p c l ++ u ")" ++ t) cs P.
Proof.
  intros Hp Hpn Hc Hcn Hl Hnames H. unfold bodyPat, body_text. rewrite <-Hnames.
  change (succeeds (rmatch (RStr (u "p")) (rmatch (times_num_re n) (rmatch plus_re (rmatch (RStr (u "c"))
            (rmatch (times_num_re (S n)) (rmatch (opt_extras_re (S (S n)) l.*1) k))))))
            ((u "p" ++ u " * " ++ p ++ u " + " ++ u "c" ++ u " * " ++ c ++ extras_text l) ++ u ")" ++ t) cs P).
  rewrite <-!app_assoc. apply succeeds_str. apply succeeds_times; [done|done|by intros x [= <-]|].
  apply succeeds_plus_sign; [by intros x [= <-]|]. apply succeeds_str.
  apply succeeds_times; [done|done|apply extras_stop|]. by apply succeeds_extras.
Qed.

(** ** Conditions *)

Definition COND_OPS : list jsstr := [u "<"; u "<="; u ">"; u ">="].

(** A condition with the text of its limit. *)
Record cond := mkCond { c_var : jsstr; c_op : jsstr; c_lim : jsstr }.

Definition cond_ok (c : cond) : Prop :=
  c_var c ∈ BILLING_CONDITION_VARS /\ c_op c ∈ COND_OPS /\ c_lim c <> [] /\ forallb is_limit_char (c_lim c) = true.

Definition item_text (c : cond) : jsstr := c_var c ++ u " " ++ c_op c ++ u " " ++ c_lim c.

Lemma limit_num_char c : is_limit_char c = true -> is_num_char c = true.
Proof. unfold is_limit_char, is_num_char. rewrite !orb_true_iff. tauto. Qed.

Lemma limit_num s : forallb is_limit_char s = true -> forallb is_num_char s = true.
Proof. rewrite !forallb_forall. intros H c Hc. by apply limit_num_char, H. Qed.

Lemma succeeds_var v k t cs P :
  v ∈ BILLING_CONDITION_VARS -> succeeds k t cs P -> succeeds (rmatch cond_var_re k) (v ++ t) cs P.
Proof.
  change BILLING_CONDITION_VARS with [u "p"; u "c"; u "len"]. rewrite !elem_of_cons, elem_of_nil.
  unfold cond_var_re. cbn [ralt]. intros [->|[->|[->|[]]]] H.
  - by apply succeeds_alt_l, succeeds_str.
  - apply succeeds_alt_r; [done|]. by apply succeeds_alt_l, succeeds_str.
  - do 2 (apply succeeds_alt_r; [done|]). by apply succeeds_str.
Qed.

(** The operator is not cut short: a limit does not start with an equals sign. *)
Lemma succeeds_op op k t cs P :
  op ∈ COND_OPS -> (forall b s, k (mkSt b (61 :: s) cs) = None) ->
  succeeds k t cs P -> succeeds (rmatch cond_op_re k) (op ++ t) cs P.
Proof.
  unfold COND_OPS. rewrite !elem_of_cons, elem_of_nil. unfold cond_op_re. cbn [ralt]. intros Hop Hk H.
  destruct Hop as [->|[->|[->|[->|[]]]]].
  - by apply succeeds_alt_l, succeeds_str.
  - apply succeeds_alt_r; [intros b; change (u "<=" ++ t) with (u "<" ++ 61 :: t); rewrite rmatch_str_app; apply Hk|].
    by apply succeeds_alt_l, succeeds_str.
  - do 2 (apply succeeds_alt_r; [done|]). by apply succeeds_alt_l, succeeds_str.
  - do 2 (apply succeeds_alt_r; [done|]).
    apply succeeds_alt_r; [intros b; change (u ">=" ++ t) with (u ">" ++ 61 :: t); rewrite rmatch_str_app; apply Hk|].
    by apply succeeds_str.
Qed.

Lemma succeeds_op_group n op k t cs P :
  op ∈ COND_OPS -> (forall b s cs', k (mkSt b (61 :: s) cs') = None) ->
  succeeds k t (map_set n op cs) P -> succeeds (rmatch (RGroup n cond_op_re) k) (op ++ t) cs P.
Proof.
  intros Hop Hk H b. cbn [rmatch].
  destruct (succeeds_op op (fun st' => k (capture n (mkSt b (op ++ t) cs) st')) t cs P Hop) with (b := b)
    as (x & Hx & HP); [| |by exists x].
  - intros b' s. apply Hk.
  - intros b'. unfold capture. rewrite consumed_mk. apply H.
Qed.

Lemma op_head op t : op ∈ COND_OPS -> stops is_ws (op ++ t).
Proof.
  unfold COND_OPS. rewrite !elem_of_cons, elem_of_nil. intros [->|[->|[->|[->|[]]]]] c; by intros [= <-].
Qed.

Lemma limit_needs_char k b s cs : rmatch rws (rmatch limit_re k) (mkSt b (61 :: s) cs) = None.
Proof.
  unfold rws. rewrite rmatch_star_cls. cbn [greedy]. change (is_ws 61) with false. cbn iota.
  unfold limit_re. by rewrite rmatch_plus_cls.
Qed.

Lemma succeeds_item c k t cs P :
  cond_ok c -> stops is_limit_char t -> succeeds k t cs P -> succeeds (rmatch cond_item_re k) (item_text c ++ t) cs P.
Proof.
  intros (Hv & Hop & Hne & Hl) Ht H. unfold cond_item_re, item_text. rewrite <-!app_assoc.
  change (succeeds (rmatch cond_var_re (rmatch rws (rmatch cond_op_re (rmatch rws (rmatch limit_re k)))))
            (c_var c ++ u " " ++ c_op c ++ u " " ++ c_lim c ++ t) cs P).
  apply succeeds_var; [done|]. apply succeeds_ws; [by apply op_head|].
  apply succeeds_op; [done|intros; apply limit_needs_char|].
  apply succeeds_ws; [by apply num_head_not_ws, limit_num|]. by apply succeeds_plus.
Qed.

Definition conds_text (l : list cond) : jsstr := join (u " && ") (map item_text l).

Definition and_piece (c : cond) : jsstr := u " && " ++ item_text c.

Lemma conds_text_cons c l : conds_text (c :: l) = item_text c ++ concat (map and_piece l).
Proof.
  revert c. induction l as [|c' l IH]; intros c; [by cbn; rewrite app_nil_r|].
  unfold conds_text in *. cbn [map]. rewrite join_cons. change (map item_text l) with (map item_text l).
  specialize (IH c'). cbn [map] in IH. rewrite IH. cbn [map concat]. unfold and_piece at 2. by rewrite <-!app_assoc.
Qed.

Lemma var_head v t : v ∈ BILLING_CONDITION_VARS -> stops is_ws (v ++ t).
Proof.
  change BILLING_CONDITION_VARS with [u "p"; u "c"; u "len"]. rewrite !elem_of_cons, elem_of_nil.
  intros [->|[->|[->|[]]]] c; by intros [= <-].
Qed.

Lemma succeeds_and_item c k t cs P :
  cond_ok c -> stops is_limit_char t -> succeeds k t cs P ->
  succeeds (rmatch (RSeq and_re cond_item_re) k) (and_piece c ++ t) cs P.
Proof.
  intros Hc Ht H. apply succeeds_seq. unfold and_piece. rewrite <-app_assoc.
  change (succeeds (rmatch rws (rmatch (RStr (u "&&")) (rmatch rws (rmatch cond_item_re k))))
            (u " " ++ u "&&" ++ u " " ++ item_text c ++ t) cs P).
  apply succeeds_ws; [by intros x [= <-]|]. apply succeeds_str.
  apply succeeds_ws; [unfold item_text; rewrite <-!app_assoc; apply var_head, Hc|]. by apply succeeds_item.
Qed.

Lemma and_item_question k b t cs : rmatch (RSeq and_re cond_item_re) k (mkSt b (u " ? " ++ t) cs) = None.
Proof.
  change (rmatch rws (rmatch (RStr (u "&&")) (rmatch rws (rmatch cond_item_re k))) (mkSt b (u " " ++ u "? " ++ t) cs) = None).
  rewrite rmatch_ws_rejects; [done|by apply (rejects_str is_ws 38 (u "&"))|done|by intros c [= <-]].
Qed.

Lemma succeeds_cond_group c l k t cs P :
  Forall cond_ok (c :: l) -> succeeds k (u " ? " ++ t) (map_set 1%nat (conds_text (c :: l)) cs) P ->
  succeeds (rmatch condGroup k) (conds_text (c :: l) ++ u " ? " ++ t) cs P.
Proof.
  intros Hall H. unfold condGroup. apply succeeds_group; [|done]. clear k H. intros k H.
  rewrite conds_text_cons, <-app_assoc. apply Forall_cons in Hall as [Hc Hall]. apply succeeds_seq.
  apply succeeds_item; [done| |].
  - destruct l as [|c' l]; by intros x [= <-].
  - apply succeeds_star_pieces; [done| | |intros; apply and_item_question|done].
    + intros k' a t' Ha Ht' Hk'. apply list_elem_of_In, in_map_iff in Ha as (c' & <- & Hc').
      apply succeeds_and_item; [|intros x Hx|done].
      * rewrite Forall_forall in Hall. by apply Hall, list_elem_of_In.
      * apply Ht' in Hx as [[= <-]|(a' & Ha & Hx)]; [done|].
        apply list_elem_of_In, in_map_iff in Ha as (c2 & <- & _). by injection Hx as <-.
    + apply Forall_forall. intros a Ha. by apply list_elem_of_In, in_map_iff in Ha as (c' & <- & _).
Qed.

(** ** A tier *)

Definition guard_of (l : list cond) : jsstr := match l with [] => [] | _ => conds_text l ++ u " ? " end.

Definition tier_text (l : list cond) (lab body : jsstr) : jsstr := guard_of l ++ tier_call lab body.

Definition guard_caps (l : list cond) : list (nat * jsstr) :=
  match l with [] => [] | _ => [(1%nat, conds_text l)] end.

(** A pattern that reads the body of a tier up to the closing parenthesis and
    changes the groups by [f]. *)
Definition reads_body (r : re) (body : jsstr) (f : list (nat * jsstr) -> list (nat * jsstr)) : Prop :=
  forall k t cs P, succeeds k (u ")" ++ t) (f cs) P -> succeeds (rmatch r k) (body ++ u ")" ++ t) cs P.

Lemma succeeds_tier r l lab body f k t P :
  Forall cond_ok l -> forallb not_quote lab = true -> (forall t', stops is_ws (body ++ t')) -> reads_body r body f ->
  succeeds k t (f (map_set 2%nat lab (guard_caps l))) P ->
  succeeds (rmatch (tier_re r) k) (tier_text l lab body ++ t) [] P.
Proof.
  intros Hl Hlab Hb Hr H.
  assert (forall cs, succeeds k t (f (map_set 2%nat lab cs)) P ->
    succeeds (rmatch (rseq [RStr (uj "tier('"); RGroup 2 (RStar (RCls not_quote)); RStr (uj "',"); rws; r; RStr (u ")")]) k)
      (tier_call lab body ++ t) cs P) as Hcall.
  { intros cs Hk. unfold tier_call. rewrite <-!app_assoc.
    change (succeeds (rmatch (RStr (uj "tier('")) (rmatch (RGroup 2 (RStar (RCls not_quote))) (rmatch (RStr (uj "',"))
              (rmatch rws (rmatch r (rmatch (RStr (u ")")) k)))))) (uj "tier('" ++ lab ++ uj "'," ++ u " " ++ body ++ u ")" ++ t) cs P).
    apply succeeds_str, succeeds_group.
    - intros k' Hk'. apply succeeds_star; [done|by intros c [= <-]|done].
    - apply succeeds_str, succeeds_ws; [apply Hb|]. by apply Hr, succeeds_str. }
  unfold tier_re, tier_text. change (rseq (?a :: ?l)) with (RSeq a (rseq l)) at 1. apply succeeds_seq. unfold ROpt.
  destruct l as [|c l]; cbn [guard_of guard_caps] in *.
  - apply succeeds_alt_r; [done|]. by apply Hcall.
  - apply succeeds_alt_l. rewrite <-!app_assoc.
    set (K := rmatch _ k). set (T := tier_call lab body ++ t).
    change (succeeds (rmatch condGroup (rmatch rws (rmatch (RStr (u "?")) (rmatch rws K)))) (conds_text (c :: l) ++ u " ? " ++ T) [] P).
    apply succeeds_cond_group; [done|].
    change (u " ? " ++ T) with (u " " ++ u "?" ++ u " " ++ T).
    apply succeeds_ws; [by intros x [= <-]|]. apply succeeds_str. apply succeeds_ws; [by intros x [= <-]|].
    by apply Hcall.
Qed.

(** ** The tiers of an expression *)

Lemma tier_skip r x b t :
  x = 32 \/ x = 58 -> rmatch (tier_re r) Some (mkSt b (x :: t) []) = None.
Proof. intros [->| ->]; reflexivity. Qed.

Lemma search_separator r b t : search (tier_re r) b (u " : " ++ t) = search (tier_re r) (rev (u " : ") ++ b) t.
Proof.
  change (u " : " ++ t) with (32 :: 58 :: 32 :: t). rewrite !search_skip; [done|intros; apply tier_skip; tauto..].
Qed.

(** One tier of an expression, with the groups its match has. *)
Record piece := mkPiece { p_conds : list cond; p_label : jsstr; p_body : jsstr; p_caps : list (nat * jsstr) }.

Definition piece_text (p : piece) : jsstr := tier_text (p_conds p) (p_label p) (p_body p).

Definition piece_ok (r : re) (p : piece) : Prop :=
  Forall cond_ok (p_conds p) /\ forallb not_quote (p_label p) = true /\ (forall t, stops is_ws (p_body p ++ t)) /\
  exists f, reads_body r (p_body p) f /\ p_caps p = f (map_set 2%nat (p_label p) (guard_caps (p_conds p))).

Definition tail_text (l : list piece) : jsstr := concat (map (fun p => u " : " ++ piece_text p) l).

Lemma search_piece r p t b :
  piece_ok r p ->
  exists m, search (tier_re r) b (piece_text p ++ t) = Some (start_state b (piece_text p ++ t), m) /\
            after m = t /\ caps m = p_caps p.
Proof.
  intros (Hc & Hl & Hb & f & Hf & ->).
  apply (search_here _ _ (fun m => after m = t /\ caps m = f (map_set 2%nat (p_label p) (guard_caps (p_conds p))))).
  apply (succeeds_tier r _ _ _ f); try done. intros b'. by eexists.
Qed.

Lemma exec_tail r l e fuel : forall b,
  Forall (piece_ok r) l -> (forall b, search (tier_re r) b e = None) -> (length l < fuel)%nat ->
  Forall2 (fun p m => caps m = p_caps p) l (exec_loop fuel (tier_re r) b (tail_text l ++ e)).*2.
Proof.
  revert fuel. induction l as [|p l IH]; intros [|fuel] b Hl He Hf; cbn in Hf; try lia; cbn [exec_loop].
  - unfold tail_text. cbn [map concat app]. rewrite He. constructor.
  - apply Forall_cons in Hl as [Hp Hl]. unfold tail_text. cbn [map concat]. rewrite <-!app_assoc, search_separator.
    change (concat (map _ l)) with (tail_text l).
    destruct (search_piece r p (tail_text l ++ e) (rev (u " : ") ++ b) Hp) as (m & -> & Ha & Hc).
    cbn [fmap list_fmap snd]. constructor; [done|]. rewrite Ha. apply IH; [done..|lia].
Qed.

Lemma tail_text_length l : (length l <= length (tail_text l))%nat.
Proof.
  induction l as [|p l IH]; [done|]. unfold tail_text in *. cbn [map concat length]. rewrite !length_app.
  change (length (u " : ")) with 3%nat. lia.
Qed.

(** All matches of an expression: one per tier, in order. *)
Lemma exec_tiers r p l e :
  Forall (piece_ok r) (p :: l) -> (forall b, search (tier_re r) b e = None) ->
  Forall2 (fun p m => caps m = p_caps p) (p :: l) (exec_all (tier_re r) (piece_text p ++ tail_text l ++ e)).
Proof.
  intros Hl He. apply Forall_cons in Hl as [Hp Hl]. unfold exec_all. cbn [exec_loop].
  destruct (search_piece r p (tail_text l ++ e) [] Hp) as (m & -> & Ha & Hc).
  cbn [fmap list_fmap snd]. constructor; [done|]. rewrite Ha. apply exec_tail; [done..|].
  rewrite length_app, (length_app (tail_text l)). pose proof (tail_text_length l).
  assert (0 < length (piece_text p))%nat; [|lia].
  unfold piece_text, tier_text, tier_call. rewrite !length_app. change (length (uj "tier('")) with 6%nat. lia.
Qed.

Lemma search_nothing r b : search (tier_re r) b [] = None.
Proof. reflexivity. Qed.

Lemma search_zero r b : search (tier_re r) b (u " : " ++ zero_expr) = None.
Proof. vm_compute. reflexivity. Qed.

(** ** Reading the conditions back *)

Lemma and_re_other k b w y t cs :
  forallb is_ws w = true -> is_ws y = false -> y <> 38 -> rmatch and_re k (mkSt b (w ++ y :: t) cs) = None.
Proof.
  intros Hw Hy Hne.
  change (rmatch rws (rmatch (RStr (u "&&")) (rmatch rws k)) (mkSt b (w ++ y :: t) cs) = None).
  rewrite rmatch_ws_rejects; [|by apply (rejects_str is_ws 38 (u "&"))|done|by intros c [= <-]].
  rewrite rmatch_str. change (u "&&") with [38; 38]. cbn [after starts_with].
  by rewrite (proj2 (N.eqb_neq 38 y)).
Qed.

(** Blanks, then the first unit that is none. *)
Lemma split_blanks a : (forall c, last a = Some c -> is_ws c = false) -> a <> [] ->
  exists w y s, a = w ++ y :: s /\ forallb is_ws w = true /\ is_ws y = false.
Proof.
  induction a as [|c a IH]; intros Hl Hne; [done|]. destruct (is_ws c) eqn:Hc.
  - destruct a as [|d a]; [by rewrite (Hl c eq_refl) in Hc|].
    destruct IH as (w & y & s & -> & Hw & Hy); [by intros x Hx; apply Hl|done|].
    exists (c :: w), y, s. cbn. by rewrite Hc.
  - by exists [], c, a.
Qed.

Lemma search_and_skip a t : forall b,
  38 ∉ a -> (forall c, last a = Some c -> is_ws c = false) -> search and_re b (a ++ t) = search and_re (rev a ++ b) t.
Proof.
  induction a as [|c a IH]; intros b Hamp Hl; [done|].
  assert (forall b', rmatch and_re Some (mkSt b' ((c :: a) ++ t) []) = None) as Hnone.
  { intros b'. destruct (split_blanks (c :: a) Hl ltac:(done)) as (w & y & s & E & Hw & Hy). rewrite E, <-app_assoc.
    apply and_re_other; [done..|]. intros ->. apply Hamp. rewrite E. set_solver. }
  change ((c :: a) ++ t) with (c :: (a ++ t)) in *. rewrite search_skip by done. rewrite IH.
  - cbn. by rewrite <-app_assoc.
  - set_solver.
  - intros x Hx. apply Hl. destruct a; done.
Qed.

Lemma search_and_end b : search and_re b [] = None.
Proof. reflexivity. Qed.

Lemma search_and_here b t :
  stops is_ws t -> exists m, search and_re b (u " && " ++ t) = Some (start_state b (u " && " ++ t), m) /\ after m = t.
Proof.
  intros Ht. apply (search_here _ _ (fun m => after m = t)).
  change (succeeds (rmatch rws (rmatch (RStr (u "&&")) (rmatch rws Some))) (u " " ++ u "&&" ++ u " " ++ t) [] (fun m => after m = t)).
  apply succeeds_ws; [by intros c [= <-]|]. apply succeeds_str. apply succeeds_ws; [done|]. intros b'. by eexists.
Qed.

(** A text whose last unit is no blank and that has no ampersand. *)
Definition and_free (a : jsstr) : Prop := (38 ∉ a) /\ (forall c, last a = Some c -> is_ws c = false) /\ stops is_ws a /\ a <> [].

Lemma split_loop_and l : forall fuel b a,
  Forall and_free (a :: l) -> (length l < fuel)%nat ->
  split_loop fuel and_re b (a ++ concat (map (app (u " && ")) l)) = a :: l.
Proof.
  induction l as [|a' l IH]; intros [|fuel] b a Hall Hf; cbn in Hf; try lia; cbn [split_loop];
    apply Forall_cons in Hall as [(Ha & Hl & _) Hall]; cbn [map concat]; rewrite search_and_skip by done.
  - rewrite search_and_end, app_nil_r. done.
  - pose proof Hall as Hall'. apply Forall_cons in Hall as [(_ & _ & Hs & Hne) _]. rewrite <-app_assoc.
    destruct (search_and_here (rev a ++ b) (a' ++ concat (map (app (u " && ")) l))) as (m & -> & Hm).
    { intros c. destruct a' as [|x a']; [done|]. cbn. intros [= <-]. by apply Hs. }
    cbn [start_state after]. rewrite Hm, IH; [|done|lia]. f_equal. rewrite length_app, Nat.add_sub. apply take_app_length.
Qed.

Lemma item_and_free c : cond_ok c -> and_free (item_text c).
Proof.
  intros (Hv & Hop & Hne & Hl). unfold item_text. split_and!.
  - assert ((38 ∉ c_var c) /\ (38 ∉ c_op c)) as [H1 H2].
    { change BILLING_CONDITION_VARS with [u "p"; u "c"; u "len"] in Hv. unfold COND_OPS in Hop.
      rewrite !elem_of_cons, elem_of_nil in Hv. rewrite !elem_of_cons, elem_of_nil in Hop.
      split; [destruct Hv as [->|[->|[->|[]]]]|destruct Hop as [->|[->|[->|[->|[]]]]]];
        intros H%list_elem_of_In; vm_compute in H; intuition discriminate. }
    assert (38 ∉ c_lim c) as H3.
    { rewrite forallb_forall in Hl. intros H%list_elem_of_In. by apply Hl in H. }
    change (u " ") with [32]. set_solver.
  - intros x. rewrite !app_assoc, last_app. destruct (last (c_lim c)) as [y|] eqn:Hy; [|by apply last_None in Hy].
    intros [= <-]. apply last_Some_elem_of, list_elem_of_In in Hy. rewrite forallb_forall in Hl.
    apply Hl, limit_num_char in Hy. by apply (num_head_not_ws [y] []); [|cbn; rewrite Hy|].
  - by apply var_head.
  - change BILLING_CONDITION_VARS with [u "p"; u "c"; u "len"] in Hv. rewrite !elem_of_cons, elem_of_nil in Hv.
    by destruct Hv as [->|[->|[->|[]]]].
Qed.

Lemma split_conds c l : Forall cond_ok (c :: l) -> re_split and_re (conds_text (c :: l)) = map item_text (c :: l).
Proof.
  intros H. rewrite conds_text_cons. unfold re_split. cbn [map].
  assert (concat (map and_piece l) = concat (map (app (u " && ")) (map item_text l))) as E by (by rewrite map_map).
  rewrite E, split_loop_and; [done| |].
  - change (item_text c :: map item_text l) with (map item_text (c :: l)). apply Forall_map.
    eapply Forall_impl; [exact H|]. apply item_and_free.
  - rewrite <-E, length_app, length_map.
    assert (length l <= length (concat (map and_piece l)))%nat; [|lia].
    clear. induction l as [|c l IH]; [done|]. cbn [map concat length]. rewrite length_app.
    unfold and_piece at 1. rewrite length_app. change (length (u " && ")) with 4%nat. lia.
Qed.

Lemma parse_item c :
  cond_ok c -> exists m, re_match cond_parse_re (trim (item_text c)) = Some m /\
                         cap 1 m = c_var c /\ cap 2 m = c_op c /\ cap 3 m = c_lim c.
Proof.
  intros Hc. rewrite trim_id.
  2:{ destruct (item_and_free c Hc) as (_ & Hl & Hs & _). by split. }
  destruct Hc as (Hv & Hop & Hne & Hl). unfold cond_parse_re.
  change (rseq (RStart :: ?l)) with (RSeq RStart (rseq l)). rewrite re_match_anchored. unfold start_state, item_text.
  assert (succeeds (rmatch (rseq [RGroup 1 cond_var_re; rws; RGroup 2 cond_op_re; rws; RGroup 3 limit_re; REnd]) Some)
    (c_var c ++ u " " ++ c_op c ++ u " " ++ c_lim c) []
    (fun m => cap 1 m = c_var c /\ cap 2 m = c_op c /\ cap 3 m = c_lim c)) as Hs; [|apply (Hs [])].
  change (rmatch (rseq _) Some) with (rmatch (RGroup 1 cond_var_re) (rmatch rws (rmatch (RGroup 2 cond_op_re)
    (rmatch rws (rmatch (RGroup 3 limit_re) (rmatch (rseq [REnd]) Some)))))).
  apply (succeeds_group 1 cond_var_re); [intros; by apply succeeds_var|].
  apply succeeds_ws; [by apply op_head|]. apply (succeeds_op_group 2); [done| |].
  - intros b s cs. change (rmatch rws (rmatch (RGroup 3 limit_re) (rmatch (rseq [REnd]) Some)) (mkSt b (61 :: s) cs) = None).
    unfold rws. rewrite rmatch_star_cls. cbn [greedy]. change (is_ws 61) with false. cbn iota. cbn [rmatch].
    unfold limit_re. by rewrite rmatch_plus_cls.
  - apply succeeds_ws; [rewrite <-(app_nil_r (c_lim c)); by apply num_head_not_ws, limit_num|].
    apply succeeds_run_end; [done..|]. intros b. by eexists.
Qed.

(** The conditions the parsers of both files read. *)
Definition cond_value (c : cond) : TierCondition := mkTC (c_var c) (c_op c) (str_to_num (c_lim c)).

Lemma parse_conds l : Forall cond_ok l -> parse_conditions (conds_text l) = map cond_value l.
Proof.
  intros H. destruct l as [|c l]; [done|]. unfold parse_conditions.
  assert (truthy (conds_text (c :: l)) = true) as ->.
  { rewrite conds_text_cons. apply Forall_cons in H as [Hc _]. destruct (item_and_free c Hc) as (_ & _ & _ & Hne).
    by destruct (item_text c). }
  cbn [negb]. rewrite split_conds by done. generalize dependent (c :: l). clear c l. intros l H.
  induction H as [|c l Hc _ IH]; [done|]. cbn [map omap list_omap].
  destruct (parse_item c Hc) as (m & -> & H1 & H2 & H3). cbn [fmap option_fmap option_map].
  change (list_omap ?f ?x) with (omap f x). rewrite IH. unfold cond_value. by rewrite H1, H2, H3.
Qed.

(** ** Tables the editor can show *)

#[export] Instance CacheMode_eq_dec : EqDecision CacheMode.
Proof. solve_decision. Defined.

#[export] Instance CondValue_eq_dec : EqDecision CondValue.
Proof. solve_decision. Defined.

(** A condition as the parser produces it. *)
Definition canonical_cond (c : TierConditionInput) : bool :=
  includes BILLING_CONDITION_VARS (ci_var c) && includes COND_OPS (ci_op c) &&
  match ci_value c with
  | VNum x => forallb is_limit_char (num_to_str x) && reads_back x
  | VStr _ => false
  end.

(** The price of an extra field. *)
Definition extra (t : VisualTier) (f : jsstr) : number := or_zero (to_number (map_get f (extras t))).

Definition canonical_tier (t : VisualTier) : bool :=
  truthy (label t) && forallb not_quote (label t) && forallb canonical_cond (vt_conditions t) &&
  writable (input_unit_cost t) && writable (output_unit_cost t) &&
  bool_decide (extras t = map (fun f => (f, extra t f)) EXTRA_FIELDS) &&
  forallb (fun f => writable (extra t f)) EXTRA_FIELDS &&
  bool_decide (cache_mode t = if num_gt (extra t (u "cache_create_1h_unit_cost")) (num_of_Z 0)
                              then CACHE_MODE_TIMED else CACHE_MODE_GENERIC).

Record tier_ok (t : VisualTier) : Prop := {
  ok_label_ne : label t <> [];
  ok_label : forallb not_quote (label t) = true;
  ok_conds : Forall (fun c => canonical_cond c = true) (vt_conditions t);
  ok_input : writable (input_unit_cost t) = true;
  ok_output : writable (output_unit_cost t) = true;
  ok_extras : extras t = map (fun f => (f, extra t f)) EXTRA_FIELDS;
  ok_extra : forall f, f ∈ EXTRA_FIELDS -> writable (extra t f) = true;
  ok_mode : cache_mode t = if num_gt (extra t (u "cache_create_1h_unit_cost")) (num_of_Z 0)
                           then CACHE_MODE_TIMED else CACHE_MODE_GENERIC;
}.

Lemma canonical_tier_ok t : canonical_tier t = true -> tier_ok t.
Proof.
  unfold canonical_tier. rewrite !andb_true_iff, !bool_decide_eq_true.
  intros (((((((H1 & H2) & H3) & H4) & H5) & H6) & H7) & H8). split; try done.
  - by destruct (label t).
  - apply Forall_forall. rewrite forallb_forall in H3. intros c Hc%list_elem_of_In. auto.
  - rewrite forallb_forall in H7. intros f Hf%list_elem_of_In. auto.
Qed.

Definition cond_of (c : TierConditionInput) : cond := mkCond (ci_var c) (ci_op c) (value_text (ci_value c)).

Lemma canonical_cond_spec c :
  canonical_cond c = true ->
  cond_ok (cond_of c) /\ cond_complete c = true /\ input_of (cond_value (cond_of c)) = c.
Proof.
  unfold canonical_cond. rewrite !andb_true_iff, !includes_true. intros [[Hv Hop] Hx].
  destruct c as [v op [x|x]]; [|done]. cbn in *. apply andb_true_iff in Hx as [Hl Hr%bool_decide_eq_true].
  split_and!.
  - split_and!; [done..|apply num_to_str_ne|done].
  - unfold cond_complete. cbn. change BILLING_CONDITION_VARS with [u "p"; u "c"; u "len"] in Hv. unfold COND_OPS in Hop.
    rewrite !elem_of_cons, elem_of_nil in Hv. rewrite !elem_of_cons, elem_of_nil in Hop.
    destruct Hv as [->|[->|[->|[]]]], Hop as [->|[->|[->|[->|[]]]]]; done.
  - unfold input_of, cond_value, cond_of. cbn. by rewrite Hr.
Qed.

Lemma conds_ok l : Forall (fun c => canonical_cond c = true) l -> Forall cond_ok (map cond_of l).
Proof. intros H. apply Forall_map. eapply Forall_impl; [exact H|]. intros c Hc. by apply canonical_cond_spec. Qed.

Lemma build_conds l : Forall (fun c => canonical_cond c = true) l -> buildConditionStr l = conds_text (map cond_of l).
Proof.
  intros H. unfold buildConditionStr, conds_text. rewrite bfilter_all.
  - by rewrite map_map.
  - intros c Hc. rewrite Forall_forall in H. by apply canonical_cond_spec, H.
Qed.

Lemma read_conds l :
  Forall (fun c => canonical_cond c = true) l -> map input_of (parse_conditions (conds_text (map cond_of l))) = l.
Proof.
  intros H. rewrite parse_conds by (by apply conds_ok). rewrite !map_map. rewrite <-(map_id l) at 2.
  apply map_ext_in. intros c Hc%list_elem_of_In. rewrite Forall_forall in H. by apply canonical_cond_spec, H.
Qed.

(** The extra terms of a tier. *)
Definition extra_option (t : VisualTier) (f : jsstr) : option number :=
  if negb (num_eq (extra t f) (num_of_Z 0)) then Some (extra t f) else None.

Definition extras_list (t : VisualTier) : list (jsstr * option jsstr) :=
  map (fun cv => (cv.2, num_to_str <$> extra_option t cv.1)) BILLING_CACHE_VAR_MAP.

Lemma join_concat sep a l : join sep (a :: l) = a ++ concat (map (app sep) l).
Proof.
  revert a. induction l as [|b l IH]; intros a; [by cbn; rewrite app_nil_r|].
  rewrite join_cons, IH. cbn [map concat]. by rewrite <-!app_assoc.
Qed.

Lemma extras_text_terms t l :
  concat (map (app (u " + ")) (omap (extra_term t) l)) =
  extras_text (map (fun cv => (cv.2, num_to_str <$> extra_option t cv.1)) l).
Proof.
  induction l as [|[f v] l IH]; [done|]. cbn [map]. rewrite extras_text_cons, <-IH.
  change (omap (extra_term t) ((f, v) :: l)) with
    (match extra_term t (f, v) with Some y => y :: omap (extra_term t) l | None => omap (extra_term t) l end).
  unfold extra_term at 1, extra_option. cbn [fst snd]. fold (extra t f).
  destruct (negb _); [|done]. cbn [fmap option_fmap option_map map concat].
  unfold term_text. by rewrite <-!app_assoc.
Qed.

Lemma build_body t :
  tier_ok t ->
  buildTierBodyExpr t = body_text (num_to_str (input_unit_cost t)) (num_to_str (output_unit_cost t)) (extras_list t).
Proof.
  intros Ht. destruct (writable_spec _ (ok_input t Ht)) as (_ & _ & Hi).
  destruct (writable_spec _ (ok_output t Ht)) as (_ & _ & Ho).
  unfold buildTierBodyExpr, body_text, term_text. rewrite Hi, Ho. cbn [app]. rewrite join_concat. cbn [map concat].
  rewrite extras_text_terms. by rewrite <-!app_assoc.
Qed.

Lemma extras_list_names t : (extras_list t).*1 = cacheVarNames.
Proof. unfold extras_list, cacheVarNames. generalize BILLING_CACHE_VAR_MAP. intros l. induction l; cbn; by f_equal. Qed.

Lemma cache_fields f : f ∈ BILLING_CACHE_VAR_MAP.*1 <-> f ∈ EXTRA_FIELDS.
Proof.
  assert (BILLING_CACHE_VAR_MAP.*1 ≡ₚ EXTRA_FIELDS) as E; [|by rewrite E].
  vm_compute. apply (bool_decide_unpack _). vm_compute. done.
Qed.

Lemma extras_list_ok t : tier_ok t -> extras_ok (extras_list t).
Proof.
  intros Ht. unfold extras_ok. rewrite extras_list_names. split_and!.
  - refine (bool_decide_eq_true_1 (NoDup cacheVarNames) _). vm_compute. reflexivity.
  - done.
  - unfold extras_list. apply Forall_map, Forall_forall. intros [f v] Hin. cbn [fst snd].
    assert (f ∈ EXTRA_FIELDS) as Hf by exact (proj1 (cache_fields f) (proj2 (list_elem_of_fmap fst _ f) (ex_intro _ (f, v) (conj eq_refl Hin)))).
    destruct (writable_spec _ (ok_extra t Ht f Hf)) as (Hn & _).
    unfold extra_option. destruct (negb _); [|done]. split; [apply num_to_str_ne|exact Hn].
Qed.

End TierText.
