(* ===== verification/TierVisual.v ===== *)
(** * Round trip of the visual tier editor

    [tryParseVisualConfig] reads the expression that
    [generateExprFromVisualConfig] writes as the same table of tiers. *)

From S2P Require Import Prelude JsString JsNumber JsJson JsRegex PricingModels BillingExpr TierExpr TierRoundtrip.

Import Billing Tier TierText.
Open Scope N_scope.

Module Visual.

(** ** The groups of a match *)

Lemma extras_caps_below j n l cs : (j < n)%nat -> map_get j (extras_caps n l cs) = map_get j cs.
Proof.
  revert n cs. induction l as [|[v [x|]] l IH]; intros n cs Hj; cbn [extras_caps]; [done| |].
  - rewrite IH by lia. apply map_get_set_ne. lia.
  - apply IH. lia.
Qed.

Lemma extras_caps_at l : forall n cs i v o,
  (forall j, (n <= j)%nat -> map_get j cs = None) -> l !! i = Some (v, o) -> map_get (n + i)%nat (extras_caps n l cs) = o.
Proof.
  induction l as [|[v' o'] l IH]; intros n cs i v o Hcs Hi; [done|]. destruct i as [|i].
  - injection Hi as -> ->. rewrite Nat.add_0_r. destruct o as [x|]; cbn [extras_caps];
      rewrite extras_caps_below by lia; [apply map_get_set_eq|by apply Hcs].
  - rewrite <-Nat.add_succ_comm. destruct o' as [x|]; cbn [extras_caps]; eapply IH; try exact Hi; intros j Hj.
    + rewrite map_get_set_ne by lia. apply Hcs. lia.
    + apply Hcs. lia.
Qed.

Lemma omap_imap {A B} (F : nat * A -> option B) (G : A -> option B) l : forall h : nat -> nat,
  (forall i x, l !! i = Some x -> F (h i, x) = G x) -> omap F (imap (fun i x => (h i, x)) l) = omap G l.
Proof.
  induction l as [|x l IH]; intros h H; [done|].
  specialize (IH (h ∘ S) (fun i y => H (S i) y)).
  change (match F (h 0%nat, x) with
          | Some y => y :: omap F (imap (fun i y => ((h ∘ S) i, y)) l)
          | None => omap F (imap (fun i y => ((h ∘ S) i, y)) l)
          end = match G x with Some y => y :: omap G l | None => omap G l end).
  by rewrite IH, (H 0%nat x eq_refl).
Qed.

(** The extra prices that are present in a match of a tier's text. *)
Definition extras_read (t : VisualTier) : list (jsstr * number) :=
  omap (fun cv : jsstr * jsstr => pair cv.1 <$> extra_option t cv.1) BILLING_CACHE_VAR_MAP.

Lemma cache_field cv : cv ∈ BILLING_CACHE_VAR_MAP -> cv.1 ∈ EXTRA_FIELDS.
Proof. intros H. exact (proj1 (cache_fields cv.1) (proj2 (list_elem_of_fmap fst _ cv.1) (ex_intro _ cv (conj eq_refl H)))). Qed.

Lemma match_extras_read t n m cs :
  tier_ok t -> caps m = extras_caps n (extras_list t) cs -> (forall j, (n <= j)%nat -> map_get j cs = None) ->
  match_extras n m = extras_read t.
Proof.
  intros Ht Hm Hcs. unfold match_extras, extras_read. apply (omap_imap _ _ _ (fun i => i)). intros i cv Hi.
  unfold group. rewrite Hm.
  rewrite (extras_caps_at (extras_list t) n cs i cv.2 (num_to_str <$> extra_option t cv.1) Hcs).
  2:{ unfold extras_list. rewrite list_lookup_fmap, Hi. done. }
  destruct (writable_spec _ (ok_extra t Ht cv.1 (cache_field cv (list_elem_of_lookup_2 _ _ _ Hi)))) as (_ & Hr & _).
  unfold extra_option. destruct (negb _); [|done]. cbn [fmap option_fmap option_map]. by rewrite Hr.
Qed.

Lemma map_get_read t f L :
  map_get f (omap (fun cv : jsstr * jsstr => pair cv.1 <$> extra_option t cv.1) L) =
  if decide (f ∈ L.*1) then extra_option t f else None.
Proof.
  induction L as [|[f' v] L IH]; [done|].
  set (rest := omap (fun cv : jsstr * jsstr => pair cv.1 <$> extra_option t cv.1) L) in *.
  change (omap _ ((f', v) :: L)) with (match pair f' <$> extra_option t f' with Some y => y :: rest | None => rest end).
  change ((f', v) :: L).*1 with (f' :: L.*1).
  destruct (decide (f' = f)) as [->|Hne].
  - rewrite (decide_True (P := f ∈ f :: L.*1)) by (by left).
    destruct (extra_option t f) as [x|] eqn:Hx; cbn [fmap option_fmap option_map map_get]; [by rewrite decide_True|].
    rewrite IH. by destruct (decide _).
  - assert (map_get f rest = if decide (f ∈ f' :: L.*1) then extra_option t f else None) as E.
    { rewrite IH. apply decide_ext. rewrite elem_of_cons. naive_solver. }
    destruct (extra_option t f') as [x|]; cbn [fmap option_fmap option_map map_get]; [by rewrite decide_False|done].
Qed.

Lemma extras_read_get t f : f ∈ EXTRA_FIELDS -> map_get f (extras_read t) = extra_option t f.
Proof. intros Hf. unfold extras_read. rewrite map_get_read. by rewrite decide_True by (by apply cache_fields). Qed.

(** A price that is not written is zero. *)
Lemma extra_zero t f : num_eq (extra t f) (num_of_Z 0) = true -> extra t f = num_of_Z 0.
Proof.
  unfold extra, or_zero. destruct (num_truthy _) eqn:E; [|done]. unfold num_eq.
  destruct (to_number _) as [s|s| |s m e]; try done; by destruct s.
Qed.

Lemma extra_option_value t f : or_zero (to_number (extra_option t f)) = extra t f.
Proof.
  unfold extra_option. destruct (num_eq (extra t f) (num_of_Z 0)) eqn:E; cbn [negb to_number default].
  - by rewrite extra_zero.
  - unfold extra. generalize (to_number (map_get f (extras t))). intros x. by destruct x.
Qed.

Lemma extra_option_pos t f : num_gt (to_number (extra_option t f)) (num_of_Z 0) = num_gt (extra t f) (num_of_Z 0).
Proof.
  unfold extra_option. destruct (num_eq (extra t f) (num_of_Z 0)) eqn:E; cbn [negb to_number default]; [|done].
  by rewrite extra_zero.
Qed.

Lemma one_hour_field : u "cache_create_1h_unit_cost" ∈ EXTRA_FIELDS.
Proof. unfold EXTRA_FIELDS. do 2 right. left. Qed.

(** The tier a match gives. *)
Lemma tier_of_read t p c :
  tier_ok t -> str_to_num p = input_unit_cost t -> str_to_num c = output_unit_cost t ->
  normalizeVisualTier (partial_tier_of (vt_conditions t) (label t) p c (extras_read t)) = t.
Proof.
  intros Ht Hp Hc. unfold normalizeVisualTier, partial_tier_of. cbn [pl_label pl_conditions pl_input pl_output pl_cache_mode pl_extras default].
  rewrite Hp, Hc. unfold getTierCacheMode. cbn [pl_cache_mode pl_extras].
  rewrite (extras_read_get t _ one_hour_field), extra_option_pos.
  destruct t as [lab conds ic oc cm ex]. cbn [label vt_conditions input_unit_cost output_unit_cost]. f_equal.
  - symmetry. apply (ok_mode _ Ht).
  - transitivity (map (fun f => (f, extra (mkVT lab conds ic oc cm ex) f)) EXTRA_FIELDS).
    + apply map_ext_in. intros f Hf%list_elem_of_In. by rewrite extras_read_get, extra_option_value.
    + symmetry. apply (ok_extras _ Ht).
Qed.

Lemma normalize_id t : tier_ok t -> normalizeVisualTier (partial_of t) = t.
Proof.
  intros Ht. unfold normalizeVisualTier, partial_of. cbn [pl_label pl_conditions pl_input pl_output pl_cache_mode pl_extras default].
  destruct t as [lab conds ic oc cm ex]. cbn [label vt_conditions input_unit_cost output_unit_cost cache_mode]. f_equal.
  symmetry. apply (ok_extras _ Ht).
Qed.

(** ** The pieces of a table *)

Definition body_caps (t : VisualTier) (n : nat) (cs : list (nat * jsstr)) : list (nat * jsstr) :=
  extras_caps (S (S n)) (extras_list t)
    (map_set (S n) (num_to_str (output_unit_cost t)) (map_set n (num_to_str (input_unit_cost t)) cs)).

Definition piece_of (t : VisualTier) : piece :=
  let conds := map cond_of (vt_conditions t) in
  mkPiece conds (label t) (buildTierBodyExpr t) (body_caps t 3 (map_set 2%nat (label t) (guard_caps conds))).

Lemma reads_visual_body t n : tier_ok t -> reads_body (bodyPat n) (buildTierBodyExpr t) (body_caps t n).
Proof.
  intros Ht k r cs P H. rewrite build_body by done.
  destruct (writable_spec _ (ok_input t Ht)) as (Hi & _). destruct (writable_spec _ (ok_output t Ht)) as (Ho & _).
  apply succeeds_body; [apply num_to_str_ne|done|apply num_to_str_ne|done|by apply extras_list_ok|apply extras_list_names|done].
Qed.

Lemma body_head t r : tier_ok t -> stops is_ws (buildTierBodyExpr t ++ r).
Proof. intros Ht. rewrite build_body by done. unfold body_text. by intros c [= <-]. Qed.

Lemma piece_of_ok t : tier_ok t -> piece_ok (bodyPat 3) (piece_of t).
Proof.
  intros Ht. split_and!; cbn [piece_of p_conds p_label p_body p_caps].
  - apply conds_ok, Ht.
  - apply Ht.
  - intros r. by apply body_head.
  - exists (body_caps t 3). split; [by apply reads_visual_body|done].
Qed.

Lemma guard_caps_get l j : map_get j (guard_caps l) = if decide (j = 1%nat) then if truthy_list l then Some (conds_text l) else None else None.
Proof. destruct l; cbn; by repeat case_decide. Qed.

Lemma visual_tier_read t m : tier_ok t -> caps m = p_caps (piece_of t) -> visual_tier m = t.
Proof.
  intros Ht Hm. cbn [piece_of p_caps] in Hm. unfold visual_tier.
  destruct (writable_spec _ (ok_input t Ht)) as (_ & Hi & _). destruct (writable_spec _ (ok_output t Ht)) as (_ & Ho & _).
  assert (match_extras 5 m = extras_read t) as ->.
  { eapply match_extras_read; [done|exact Hm|]. intros j Hj.
    rewrite !map_get_set_ne by lia. rewrite guard_caps_get. by rewrite decide_False by lia. }
  unfold cap, group. rewrite Hm. unfold body_caps.
  rewrite !extras_caps_below by lia. rewrite !map_get_set_eq.
  rewrite !(map_get_set_ne 4%nat) by lia. rewrite !map_get_set_eq. rewrite !(map_get_set_ne 3%nat) by lia. rewrite !map_get_set_eq.
  rewrite (map_get_set_ne 2%nat) by lia. rewrite guard_caps_get, decide_True by done. cbn [default].
  assert (map input_of (parse_conditions
    ((if truthy_list (map cond_of (vt_conditions t)) then Some (conds_text (map cond_of (vt_conditions t))) else None) ?? []))
    = vt_conditions t) as Hc.
  { rewrite <-(read_conds (vt_conditions t)) at 3 by apply Ht. by destruct (vt_conditions t). }
  unfold default in Hc |- *. rewrite Hc. by apply tier_of_read.
Qed.

(** All tiers but the last have a condition, the last has none. *)
Fixpoint layout (ts : list VisualTier) : bool :=
  match ts with
  | [] => false
  | [t] => negb (truthy_list (vt_conditions t))
  | t :: ts' => truthy_list (vt_conditions t) && layout ts'
  end.

Definition config_layout (ts : list VisualTier) : bool := match ts with [_] => true | _ => layout ts end.

Lemma conds_text_ne l : l <> [] -> Forall cond_ok l -> truthy (conds_text l) = true.
Proof.
  destruct l as [|c l]; [done|]. intros _ H. rewrite conds_text_cons. apply Forall_cons in H as [Hc _].
  destruct (item_and_free c Hc) as (_ & _ & _ & Hne). by destruct (item_text c).
Qed.

Lemma build_conds_truthy t : tier_ok t -> truthy (buildConditionStr (vt_conditions t)) = truthy_list (vt_conditions t).
Proof.
  intros Ht. rewrite build_conds by apply Ht. destruct (vt_conditions t) as [|c l] eqn:E; [done|].
  apply (conds_text_ne (map cond_of (c :: l))); [done|]. rewrite <-E. apply conds_ok, Ht.
Qed.

Lemma label_kept t d : tier_ok t -> or_str (label t) d = label t.
Proof. intros Ht. unfold or_str. pose proof (ok_label_ne t Ht). by destruct (label t). Qed.

Lemma piece_of_text t :
  tier_ok t ->
  piece_text (piece_of t) =
  (if truthy_list (vt_conditions t) then buildConditionStr (vt_conditions t) ++ u " ? " else []) ++
  tier_call (label t) (buildTierBodyExpr t).
Proof.
  intros Ht. unfold piece_text, tier_text. cbn [piece_of p_conds p_label p_body]. rewrite build_conds by apply Ht.
  unfold guard_of. by destruct (vt_conditions t).
Qed.

Lemma parts_of_layout n ts : forall k,
  Forall tier_ok ts -> layout ts = true -> (n = k + length ts)%nat ->
  imap (fun i => tier_part n (k + i)%nat) ts = map (fun t => piece_text (piece_of t)) ts.
Proof.
  induction ts as [|t ts IH]; intros k Hts Hl Hn; [done|]. apply Forall_cons in Hts as [Ht Hts].
  rewrite imap_cons. cbn [map]. f_equal.
  - rewrite piece_of_text by done. unfold tier_part. rewrite label_kept, build_conds_truthy by done.
    destruct ts as [|t' ts].
    + cbn [layout] in Hl. apply negb_true_iff in Hl. rewrite Hl, andb_false_r. done.
    + cbn [layout] in Hl. apply andb_true_iff in Hl as [Hc _]. rewrite Hc, andb_true_r.
      cbn [length] in Hn. rewrite (proj2 (Nat.ltb_lt _ _)) by lia. by rewrite <-app_assoc.
  - destruct ts as [|t' ts]; [done|]. cbn [layout] in Hl. apply andb_true_iff in Hl as [_ Hl].
    rewrite <-(IH (S k)); [|done..|cbn [length] in *; lia]. apply imap_ext. intros i x _. cbn. by rewrite Nat.add_succ_r.
Qed.

Definition rest_text (ts : list VisualTier) : jsstr :=
  match ts with [t] => if truthy_list (vt_conditions t) then u " : " ++ zero_expr else [] | _ => [] end.

Lemma expr_body_pieces t ts :
  Forall tier_ok (t :: ts) -> config_layout (t :: ts) = true ->
  expr_body (t :: ts) = piece_text (piece_of t) ++ tail_text (map piece_of ts) ++ rest_text (t :: ts).
Proof.
  intros Hts Hl. pose proof Hts as Hall. apply Forall_cons in Hts as [Ht Hts]. destruct ts as [|t' ts].
  - cbn [expr_body]. rewrite label_kept, build_conds_truthy, piece_of_text by done. unfold rest_text.
    destruct (truthy_list _); [by rewrite <-!app_assoc|]. cbn [map app]. by rewrite app_nil_r.
  - cbn [config_layout] in Hl. change (expr_body (t :: t' :: ts)) with
      (join (u " : ") (imap (fun i => tier_part (length (t :: t' :: ts)) (0 + i)%nat) (t :: t' :: ts))).
    rewrite parts_of_layout by done. cbn [map]. rewrite join_concat.
    unfold rest_text, tail_text. rewrite app_nil_r. cbn [map concat]. rewrite !map_map. done.
Qed.

(** ** The version *)

Lemma version_read v s :
  v <> [] -> forallb is_digit v = true -> split_version (u "v" ++ v ++ u ":" ++ s) = (str_to_num v, s).
Proof.
  intros Hne Hv. unfold split_version, VERSION_REGEX.
  change (rseq (RStart :: ?l)) with (RSeq RStart (rseq l)). rewrite re_match_anchored. unfold start_state.
  assert (succeeds (rmatch (rseq [RStr (u "v"); RGroup 1 (RPlus (RCls is_digit)); RStr (u ":");
                                  RGroup 2 (RStar (RCls (fun _ => true))); REnd]) Some)
    (u "v" ++ v ++ u ":" ++ s) [] (fun m => cap 1 m = v /\ cap 2 m = s)) as Hs.
  { change (rmatch (rseq _) Some) with (rmatch (RStr (u "v")) (rmatch (RGroup 1 (RPlus (RCls is_digit)))
      (rmatch (RStr (u ":")) (rmatch (RGroup 2 (RStar (RCls (fun _ => true)))) (rmatch (rseq [REnd]) Some))))).
    apply succeeds_str, succeeds_group.
    - intros k Hk. apply succeeds_plus; [done..|by intros c [= <-]|done].
    - apply succeeds_str. rewrite <-(app_nil_r s). apply succeeds_group.
      + intros k Hk. apply succeeds_star; [by apply forallb_forall|done|done].
      + intros b. eexists. split; [reflexivity|]. by rewrite app_nil_r. }
  destruct (Hs []) as (m & -> & H1 & H2). by rewrite H1, H2.
Qed.

(** A text that does not start with [v]. *)
Definition no_version (s : jsstr) : Prop := starts_with (u "v") s = false.

Lemma version_absent s : no_version s -> split_version s = (num_of_Z 1, s).
Proof.
  intros Hs. unfold split_version, VERSION_REGEX.
  change (rseq (RStart :: ?l)) with (RSeq RStart (rseq l)). rewrite re_match_anchored.
  change (rseq (RStr (u "v") :: ?l)) with (RSeq (RStr (u "v")) (rseq l)). cbn [rmatch].
  rewrite rmatch_str. unfold start_state. cbn [after]. by rewrite Hs.
Qed.

Lemma drop_version_read v s :
  v <> [] -> forallb is_digit v = true -> drop_version (u "v" ++ v ++ u ":" ++ s) = s.
Proof.
  intros Hne Hv. unfold drop_version.
  assert (succeeds (rmatch (rseq [RStr (u "v"); RPlus (RCls is_digit); RStr (u ":")]) Some)
    (u "v" ++ v ++ u ":" ++ s) [] (fun m => after m = s)) as Hs.
  { change (rmatch (rseq _) Some) with (rmatch (RStr (u "v")) (rmatch (RPlus (RCls is_digit)) (rmatch (RStr (u ":")) Some))).
    apply succeeds_str, succeeds_plus; [done..|by intros c [= <-]|]. apply succeeds_str. intros b. by eexists. }
  unfold start_state. by destruct (Hs []) as (m & -> & ->).
Qed.

Lemma drop_version_absent s : no_version s -> drop_version s = s.
Proof.
  intros Hs. unfold drop_version.
  change (rseq (RStr (u "v") :: ?l)) with (RSeq (RStr (u "v")) (rseq l)). cbn [rmatch].
  rewrite rmatch_str. unfold start_state. cbn [after]. by rewrite Hs.
Qed.

(** The version the expression needs, and one that its text can show. *)
Definition min_version (ts : list VisualTier) : number := if existsb requires_v2 ts then num_of_Z 2 else num_of_Z 1.

Definition version_ok (v : number) (ts : list VisualTier) : bool :=
  bool_decide (num_max v (min_version ts) = v) &&
  (bool_decide (v = num_of_Z 1) || (num_gt v (num_of_Z 1) && forallb is_digit (num_to_str v) && reads_back v)).

(** A table that the editor can show. *)
Definition canonical_config (cfg : VisualConfig) : bool :=
  forallb canonical_tier (tiers cfg) && truthy_list (tiers cfg) && config_layout (tiers cfg) &&
  match version cfg with Some v => version_ok v (tiers cfg) | None => false end.

Lemma version_roundtrip v ts s :
  version_ok v ts = true -> no_version s ->
  let e := applyExprVersion (mkConfig (Some v) ts) s in
  split_version e = (v, s) /\ drop_version e = s.
Proof.
  unfold version_ok. rewrite !andb_true_iff, bool_decide_eq_true, orb_true_iff, !andb_true_iff, !bool_decide_eq_true.
  intros [Hmax Hv] Hs.
  change (applyExprVersion (mkConfig (Some v) ts) s) with
    (let w := num_max v (min_version ts) in if num_gt w (num_of_Z 1) then u "v" ++ num_to_str w ++ u ":" ++ s else s).
  rewrite Hmax. cbn zeta.
  destruct Hv as [->|[[Hgt Hd] Hr%bool_decide_eq_true]].
  - change (num_gt (num_of_Z 1) (num_of_Z 1)) with false. cbn beta iota zeta.
    by rewrite version_absent, drop_version_absent.
  - rewrite Hgt. cbn zeta. rewrite version_read, drop_version_read, Hr; [done|apply num_to_str_ne|done|apply num_to_str_ne|done].
Qed.

(** ** The first unit of an expression *)

Lemma cond_head c l r : Forall cond_ok (c :: l) -> exists x s, conds_text (c :: l) ++ r = x :: s /\ (x = 112 \/ x = 99 \/ x = 108).
Proof.
  intros [(Hv & _) _]%Forall_cons. rewrite conds_text_cons. unfold item_text. rewrite <-!app_assoc.
  change BILLING_CONDITION_VARS with [u "p"; u "c"; u "len"] in Hv. rewrite !elem_of_cons, elem_of_nil in Hv.
  destruct Hv as [->|[->|[->|[]]]]; do 2 eexists; (split; [reflexivity|]); tauto.
Qed.

Lemma expr_head t ts :
  Forall tier_ok (t :: ts) -> config_layout (t :: ts) = true ->
  no_version (expr_body (t :: ts)) /\
  (truthy_list (vt_conditions t) = true -> re_match singleRe (expr_body (t :: ts)) = None).
Proof.
  intros Hts Hl. rewrite expr_body_pieces by done. apply Forall_cons in Hts as [Ht _].
  unfold piece_text, tier_text. cbn [piece_of p_conds p_label p_body]. rewrite <-app_assoc.
  pose proof (conds_ok _ (ok_conds t Ht)) as Hc.
  destruct (vt_conditions t) as [|c l]; [split; done|]. cbn [map guard_of] in Hc |- *. rewrite <-app_assoc.
  edestruct (cond_head (cond_of c) (map cond_of l)) as (x & s & -> & Hx); [done|]. split.
  - by destruct Hx as [->|[->| ->]].
  - intros _. unfold singleRe. change (rseq (RStart :: ?l)) with (RSeq RStart (rseq l)). rewrite re_match_anchored.
    change (rseq (RStr (uj "tier('") :: ?l)) with (RSeq (RStr (uj "tier('")) (rseq l)).
    by destruct Hx as [->|[->| ->]].
Qed.

(** An expression is not empty. *)
Lemma expr_truthy v t ts e :
  Forall tier_ok (t :: ts) -> config_layout (t :: ts) = true -> split_version e = (v, expr_body (t :: ts)) -> truthy e = true.
Proof.
  intros Hts Hl Hs. destruct e as [|c e]; [|done]. apply (f_equal snd) in Hs.
  change (([] : jsstr) = expr_body (t :: ts)) in Hs. symmetry in Hs.
  rewrite expr_body_pieces in Hs by done. unfold piece_text, tier_text, tier_call in Hs.
  destruct (guard_of _); discriminate Hs.
Qed.

(** ** Reading a table back *)

Lemma rest_no_tier r ts b : search (tier_re r) b (rest_text ts) = None.
Proof.
  destruct ts as [|t [|t' ts]]; [apply search_nothing| |apply search_nothing].
  unfold rest_text. destruct (truthy_list _); [apply search_zero|apply search_nothing].
Qed.

Lemma visual_tiers_read t ts :
  Forall tier_ok (t :: ts) -> config_layout (t :: ts) = true ->
  map visual_tier (exec_all visualTierRe (expr_body (t :: ts))) = t :: ts.
Proof.
  intros Hts Hl. rewrite expr_body_pieces by done. unfold visualTierRe.
  pose proof (exec_tiers (bodyPat 3) (piece_of t) (map piece_of ts) (rest_text (t :: ts))) as H.
  change (piece_of t :: map piece_of ts) with (map piece_of (t :: ts)) in H.
  specialize (H ltac:(apply Forall_map; eapply Forall_impl; [exact Hts|apply piece_of_ok]) (rest_no_tier _ _)).
  generalize dependent (exec_all (tier_re (bodyPat 3)) (piece_text (piece_of t) ++ tail_text (map piece_of ts) ++ rest_text (t :: ts))).
  intros ms H. apply Forall2_fmap_l in H. revert Hts. clear Hl. induction H as [|t' m l ms Hm _ IH]; intros Hts; [done|].
  apply Forall_cons in Hts as [Ht Hts]. cbn [map]. rewrite (visual_tier_read t') by done. by rewrite IH.
Qed.

Lemma single_tier_read t :
  tier_ok t -> vt_conditions t = [] ->
  exists m, re_match singleRe (expr_body [t]) = Some m /\ single_tier m = t.
Proof.
  intros Ht Hc. cbn [expr_body]. rewrite label_kept, build_conds_truthy, Hc by done. cbn [truthy_list].
  unfold singleRe. change (rseq (RStart :: ?l)) with (RSeq RStart (rseq l)). rewrite re_match_anchored.
  unfold start_state, tier_call. set (lab := label t). set (body := buildTierBodyExpr t).
  assert (succeeds (rmatch (rseq [RStr (uj "tier('"); RGroup 1 (RStar (RCls not_quote)); RStr (uj "',"); rws; bodyPat 2;
                                  RStr (u ")"); REnd]) Some)
    (uj "tier('" ++ lab ++ uj "', " ++ body ++ u ")") [] (fun m => caps m = body_caps t 2 [(1%nat, lab)])) as Hs.
  { change (rmatch (rseq _) Some) with (rmatch (RStr (uj "tier('")) (rmatch (RGroup 1 (RStar (RCls not_quote)))
      (rmatch (RStr (uj "',")) (rmatch rws (rmatch (bodyPat 2) (rmatch (RStr (u ")")) (rmatch (rseq [REnd]) Some))))))).
    change (uj "', " ++ body ++ u ")") with (uj "'," ++ u " " ++ body ++ u ")" ++ []).
    apply succeeds_str, succeeds_group.
    - intros k Hk. apply succeeds_star; [apply Ht|by intros c [= <-]|done].
    - apply succeeds_str, succeeds_ws; [by apply body_head|]. apply reads_visual_body; [done|].
      apply succeeds_str. intros b. by eexists. }
  destruct (Hs []) as (m & -> & Hm). exists m. split; [done|]. unfold single_tier.
  destruct (writable_spec _ (ok_input t Ht)) as (_ & Hi & _). destruct (writable_spec _ (ok_output t Ht)) as (_ & Ho & _).
  assert (match_extras 4 m = extras_read t) as ->.
  { eapply match_extras_read; [done|exact Hm|]. intros j Hj. rewrite !map_get_set_ne by lia.
    cbn [map_get]. by rewrite decide_False by lia. }
  unfold cap, group. rewrite Hm. unfold body_caps. rewrite !extras_caps_below by lia.
  rewrite map_get_set_eq, !(map_get_set_ne 3%nat) by lia. rewrite map_get_set_eq, (map_get_set_ne 2%nat) by lia.
  rewrite <-Hc. by apply tier_of_read.
Qed.

Lemma canonical_config_spec cfg :
  canonical_config cfg = true ->
  exists v t ts, cfg = mkConfig (Some v) (t :: ts) /\ Forall tier_ok (t :: ts) /\
                 config_layout (t :: ts) = true /\ version_ok v (t :: ts) = true.
Proof.
  unfold canonical_config. rewrite !andb_true_iff. intros [[[Hts Hne] Hl] Hv].
  destruct cfg as [[v|] [|t ts]]; try done. cbn [tiers version] in *. exists v, t, ts. split_and!; [done| |done|done].
  apply Forall_forall. intros x Hx%list_elem_of_In. rewrite forallb_forall in Hts. by apply canonical_tier_ok, Hts.
Qed.

Lemma normalize_config v t ts :
  Forall tier_ok (t :: ts) -> normalizeVisualConfig (Some (mkConfig (Some v) (t :: ts))) = mkConfig (Some v) (t :: ts).
Proof.
  intros Hts. cbn [normalizeVisualConfig tiers truthy_list negb version]. f_equal.
  rewrite <-(map_id (t :: ts)) at 2. apply map_ext_in. intros x Hx%list_elem_of_In. rewrite Forall_forall in Hts.
  by apply normalize_id, Hts.
Qed.

Lemma parse_generated cfg :
  canonical_config cfg = true ->
  tryParseVisualConfig (Some (generateExprFromVisualConfig (Some cfg))) = Some cfg.
Proof.
  intros (v & t & ts & -> & Hts & Hl & Hv)%canonical_config_spec.
  destruct (expr_head t ts Hts Hl) as [Hnv Hsingle].
  destruct (version_roundtrip v (t :: ts) (expr_body (t :: ts)) Hv Hnv) as [Hsplit Hdrop].
  change (generateExprFromVisualConfig (Some (mkConfig (Some v) (t :: ts)))) with
    (applyExprVersion (mkConfig (Some v) (t :: ts)) (expr_body (t :: ts))) at 1.
  unfold tryParseVisualConfig.
  set (e := applyExprVersion _ _) in *.
  assert (truthy_opt (Some e) = true) as ->.
  { exact (expr_truthy v t ts e Hts Hl Hsplit). }
  cbn [negb default from_option id]. change (Some e ?? []) with e. rewrite Hsplit. cbn beta iota.
  destruct (re_match singleRe (expr_body (t :: ts))) as [m|] eqn:Hm.
  - destruct (vt_conditions t) as [|c l] eqn:Hc; [|by discriminate Hsingle].
    destruct ts as [|t' ts].
    + apply Forall_cons in Hts as [Ht _]. destruct (single_tier_read t Ht Hc) as (m' & Hm' & Hr).
      rewrite Hm in Hm'. injection Hm' as <-. rewrite Hr. by rewrite normalize_config by (by constructor).
    + cbn [config_layout layout] in Hl. by rewrite Hc in Hl.
  - rewrite visual_tiers_read by done. rewrite normalize_config by done.
    change (generateExprFromVisualConfig (Some (mkConfig (Some v) (t :: ts)))) with e.
    rewrite Hdrop. by rewrite bool_decide_eq_true_2.
Qed.

(** ** Tables as the user leaves them *)

(** A limit typed as text counts as the number it spells. *)
Definition read_value (v : CondValue) : CondValue :=
  match v with
  | VStr s => if bool_decide (num_to_str (str_to_num s) = s) then VNum (str_to_num s) else v
  | VNum _ => v
  end.

Definition read_cond (c : TierConditionInput) : TierConditionInput := mkTCI (ci_var c) (ci_op c) (read_value (ci_value c)).

(** The [i]-th of [n] tiers as it is written: a blank label gets a name, only
    complete conditions count and those of the last of several tiers do not, a
    price that is no number is zero, and the cache mode follows from the
    one-hour price. *)
Definition read_tier (n i : nat) (t : VisualTier) : VisualTier :=
  mkVT (or_str (label t) (if (n =? 1)%nat then u "default" else u "tier_" ++ N_to_str (N.of_nat (i + 1))))
    (if (n =? 1)%nat || (i <? n - 1)%nat then map read_cond (bfilter cond_complete (vt_conditions t)) else [])
    (or_zero (input_unit_cost t)) (or_zero (output_unit_cost t))
    (if num_gt (extra t (u "cache_create_1h_unit_cost")) (num_of_Z 0) then CACHE_MODE_TIMED else CACHE_MODE_GENERIC)
    (extras t).

(** The table that the text stands for, with the version its prices need. *)
Definition as_read (c : VisualConfig) : VisualConfig :=
  mkConfig (Some (num_max (version c ?? num_of_Z 1) (min_version (tiers c)))) (imap (read_tier (length (tiers c))) (tiers c)).

Lemma read_value_text v : value_text (read_value v) = value_text v.
Proof. destruct v as [x|t]; [done|]. cbn. by case_bool_decide. Qed.

Lemma read_cond_complete c : cond_complete c = true -> cond_complete (read_cond c) = true.
Proof.
  unfold cond_complete, read_cond, read_value. cbn [ci_var ci_op ci_value]. destruct (ci_value c) as [x|t]; [done|].
  case_bool_decide; [|done]. rewrite !andb_true_iff. tauto.
Qed.

Lemma read_conds_text l : buildConditionStr (map read_cond (bfilter cond_complete l)) = buildConditionStr l.
Proof.
  unfold buildConditionStr. rewrite bfilter_all.
  - rewrite map_map. f_equal. apply map_ext. intros c. unfold cond_text, read_cond. cbn [ci_var ci_op ci_value]. by rewrite read_value_text.
  - intros c Hc%list_elem_of_In. apply in_map_iff in Hc as (d & <- & Hd%list_elem_of_In%elem_of_bfilter). destruct Hd. by apply read_cond_complete.
Qed.

Lemma or_zero_idem x : or_zero (or_zero x) = or_zero x.
Proof. unfold or_zero. destruct (num_truthy x) eqn:E; [by rewrite E|done]. Qed.

Lemma or_str_idem a b : or_str (or_str a b) b = or_str a b.
Proof. destruct a as [|c a]; [|done]. cbn [or_str truthy]. by destruct b. Qed.

Lemma read_tier_body n i t : buildTierBodyExpr (read_tier n i t) = buildTierBodyExpr t.
Proof. unfold buildTierBodyExpr. cbn [read_tier input_unit_cost output_unit_cost]. rewrite !or_zero_idem. reflexivity. Qed.

Lemma read_tier_part n i t : n <> 1%nat -> tier_part n i (read_tier n i t) = tier_part n i t.
Proof.
  intros Hn. unfold tier_part. rewrite read_tier_body. cbn [read_tier label vt_conditions].
  apply Nat.eqb_neq in Hn. rewrite Hn, or_str_idem. cbn [orb].
  destruct (i <? n - 1)%nat; [by rewrite read_conds_text|done].
Qed.

Lemma expr_body_read ts : expr_body (imap (read_tier (length ts)) ts) = expr_body ts.
Proof.
  destruct ts as [|t [|t' ts]]; [done| |].
  - cbn [imap length expr_body]. rewrite read_tier_body. cbn [read_tier label vt_conditions].
    change (1 =? 1)%nat with true. cbn [orb]. by rewrite read_conds_text, or_str_idem.
  - set (l := t :: t' :: ts).
    assert (imap (tier_part (length l)) (imap (read_tier (length l)) l) = imap (tier_part (length l)) l) as H.
    { apply list_eq. intros i. rewrite !list_lookup_imap. destruct (l !! i) as [x|]; [|done]. cbn. by rewrite read_tier_part. }
    assert (length (imap (read_tier (length l)) l) = length l) as Hl by apply length_imap.
    change (join (u " : ") (imap (tier_part (length (imap (read_tier (length l)) l))) (imap (read_tier (length l)) l)) =
      join (u " : ") (imap (tier_part (length l)) l)). by rewrite Hl, H.
Qed.

Lemma min_version_read n ts : min_version (imap (read_tier n) ts) = min_version ts.
Proof.
  unfold min_version. assert (existsb requires_v2 (imap (read_tier n) ts) = existsb requires_v2 ts) as ->; [|done].
  generalize (read_tier n), (fun i t => eq_refl : requires_v2 (read_tier n i t) = requires_v2 t). intros f Hf.
  revert f Hf. induction ts as [|t ts IH]; intros f Hf; [done|]. cbn [imap existsb]. rewrite Hf. f_equal. apply (IH (f ∘ S)). intros i x. apply Hf.
Qed.

Lemma apply_version c b :
  applyExprVersion c b =
  (if num_gt (num_max (version c ?? num_of_Z 1) (min_version (tiers c))) (num_of_Z 1)
   then u "v" ++ num_to_str (num_max (version c ?? num_of_Z 1) (min_version (tiers c))) ++ u ":" ++ b else b).
Proof. reflexivity. Qed.

(** The table and what is read of it have the same text. *)
Lemma generate_as_read c :
  canonical_config (as_read c) = true -> generateExprFromVisualConfig (Some c) = generateExprFromVisualConfig (Some (as_read c)).
Proof.
  unfold canonical_config. rewrite !andb_true_iff. cbn [as_read version tiers]. intros [[[_ Hne] _] Hv].
  unfold version_ok in Hv. apply andb_true_iff in Hv as [Hv%bool_decide_eq_true _]. rewrite min_version_read in Hv.
  destruct c as [v [|t ts]]; [done|]. cbn [version tiers] in *. unfold generateExprFromVisualConfig. cbn [as_read tiers version].
  set (l := t :: ts) in *. rewrite Hne, expr_body_read. change (truthy_list l) with true. cbn [negb].
  rewrite !apply_version. cbn [version tiers as_read]. rewrite min_version_read. change (Some ?x ?? _) with x. by rewrite Hv.
Qed.

Lemma read_canonical_conds l :
  Forall (fun c => canonical_cond c = true) l -> map read_cond (bfilter cond_complete l) = l.
Proof.
  intros H. rewrite Forall_forall in H. rewrite bfilter_all by (intros c Hc; by apply canonical_cond_spec, H).
  rewrite <-(map_id l) at 2. apply map_ext_in. intros c Hc%list_elem_of_In%H.
  destruct c as [v op [x|x]]; [done|]. unfold canonical_cond in Hc. cbn in Hc. by rewrite andb_false_r in Hc.
Qed.

Lemma layout_last ts t :
  layout ts = true -> ts !! (length ts - 1)%nat = Some t -> vt_conditions t = [].
Proof.
  induction ts as [|x ts IH]; [done|]. destruct ts as [|y ts].
  - cbn. intros H [= ->]. by destruct (vt_conditions t).
  - cbn [layout]. intros [_ Hl]%andb_true_iff Ht. apply IH; [done|]. cbn [length] in *. by rewrite !Nat.sub_succ, !Nat.sub_0_r in *.
Qed.

(** A canonical table is read as it is. *)
Lemma as_read_id c : canonical_config c = true -> as_read c = c.
Proof.
  intros (v & t & ts & -> & Hts & Hl & Hv)%canonical_config_spec. unfold as_read. cbn [version tiers].
  unfold version_ok in Hv. apply andb_true_iff in Hv as [Hv%bool_decide_eq_true _]. change (Some v ?? _) with v. rewrite Hv. f_equal.
  apply list_eq. intros i. rewrite list_lookup_imap. destruct ((t :: ts) !! i) as [x|] eqn:Hx; [|done].
  change (Some (read_tier (length (t :: ts)) i x) = Some x). f_equal.
  rewrite Forall_lookup in Hts. pose proof (Hts _ _ Hx) as Ht.
  assert ((if (length (t :: ts) =? 1)%nat || (i <? length (t :: ts) - 1)%nat then vt_conditions x else []) = vt_conditions x) as Hc.
  { destruct (length (t :: ts) =? 1)%nat eqn:Hn; [done|]. cbn [orb]. destruct (i <? length (t :: ts) - 1)%nat eqn:Hi; [done|].
    apply Nat.eqb_neq in Hn. apply Nat.ltb_ge in Hi. pose proof (lookup_lt_Some _ _ _ Hx). symmetry.
    apply (layout_last (t :: ts)); [by destruct ts|]. by replace (length (t :: ts) - 1)%nat with i by lia. }
  destruct (writable_spec _ (ok_input x Ht)) as (_ & _ & Hin). destruct (writable_spec _ (ok_output x Ht)) as (_ & _ & Hout).
  unfold read_tier. rewrite read_canonical_conds, Hc, Hin, Hout, <-(ok_mode x Ht) by apply Ht.
  pose proof (ok_label_ne x Ht). destruct x as [[|ch lab] ? ? ? ? ?]; done.
Qed.

(** ** What no table stands for *)

(** The letters of the variables of conditions, and of [tier]. *)
Definition is_head (c : N) : bool := includes [112; 99; 108; 101; 110; 116] c.

Definition good_head (s : jsstr) : Prop := exists c r, s = c :: r /\ is_head c = true.

Lemma cond_parse_var x m : re_match cond_parse_re x = Some m -> forallb is_head (cap 1 m) = true.
Proof.
  unfold cond_parse_re. change (rseq (RStart :: ?l)) with (RSeq RStart (rseq l)). rewrite re_match_anchored.
  intros (m' & Hm & [= ->])%rmatch_sound.
  change (rseq (RGroup 1 cond_var_re :: ?l)) with (RSeq (RGroup 1 cond_var_re) (rseq l)) in Hm.
  inversion Hm as [| |r1 r2 st st1 st2 H1 H2| | | | | | | | | | | |]; subst. unfold cap, group.
  rewrite (matches_caps _ _ _ 1%nat H2) by (apply (bool_decide_unpack _); vm_compute; exact I).
  inversion H1 as [| | | | | | | | |n r st st' Hv| | | | |]; subst. cbn [capture set_caps caps]. rewrite map_get_set_eq.
  change (Some ?y ?? []) with y.
  destruct (matches_only is_head _ _ _ Hv) as (a & Ha & Hf & _).
  - cbn. unfold RChr. cbn. repeat split; intros c Hc%N.eqb_eq; subst c; reflexivity.
  - unfold consumed. rewrite Ha, length_app, Nat.add_sub, take_app_length. done.
Qed.

Lemma parsed_vars s : Forall (fun c => forallb is_head (ci_var c) = true) (map input_of (parse_conditions s)).
Proof.
  apply Forall_map, Forall_forall. intros c Hc. unfold parse_conditions in Hc. destruct (negb _); [by apply elem_of_nil in Hc|].
  apply list_elem_of_omap in Hc as (cp & _ & Hc). destruct (re_match cond_parse_re (trim cp)) as [m|] eqn:Hm; [|done].
  injection Hc as <-. cbn. by eapply cond_parse_var.
Qed.

Lemma conds_good_head l :
  Forall (fun c => forallb is_head (ci_var c) = true) l -> truthy (buildConditionStr l) = true -> good_head (buildConditionStr l).
Proof.
  intros Hl. unfold buildConditionStr. destruct (bfilter cond_complete l) as [|c cs] eqn:E; [done|]. intros _.
  assert (c ∈ bfilter cond_complete l) as [Hc Hcomp]%elem_of_bfilter by (rewrite E; by left).
  rewrite Forall_forall in Hl. specialize (Hl c Hc). unfold cond_complete in Hcomp. rewrite !andb_true_iff in Hcomp.
  destruct Hcomp as [[Hv _] _]. cbn [map]. unfold cond_text at 1. destruct (ci_var c) as [|x v]; [done|].
  cbn [forallb] in Hl. apply andb_true_iff in Hl as [Hx _]. exists x.
  destruct (map cond_text cs) as [|y ys]; (eexists; split; [reflexivity|done]).
Qed.

Lemma part_good_head n i t :
  Forall (fun c => forallb is_head (ci_var c) = true) (vt_conditions t) -> good_head (tier_part n i t).
Proof.
  intros Ht. unfold tier_part. destruct (_ && truthy _) eqn:E; [|by do 2 eexists].
  apply andb_true_iff in E as [_ E]. destruct (conds_good_head _ Ht E) as (x & r & -> & Hx). by do 2 eexists.
Qed.

Lemma body_good_head t ts :
  Forall (fun c => forallb is_head (ci_var c) = true) (vt_conditions t) -> good_head (expr_body (t :: ts)).
Proof.
  intros Ht. destruct ts as [|t' ts].
  - cbn [expr_body]. destruct (truthy (buildConditionStr (vt_conditions t))) eqn:E; [|by do 2 eexists].
    destruct (conds_good_head _ Ht E) as (x & r & -> & Hx). by do 2 eexists.
  - cbn [expr_body imap]. destruct (part_good_head (length (t :: t' :: ts)) 0 t Ht) as (x & r & -> & Hx).
    rewrite join_cons. by do 2 eexists.
Qed.

Lemma good_head_version s : good_head s -> no_version s.
Proof.
  intros (c & r & -> & Hc). unfold no_version. change (u "v") with [118]. cbn [starts_with].
  destruct (N.eqb_spec 118 c) as [<-|]; [done|by rewrite andb_false_l].
Qed.

(** An expression in parentheses is not the text of a table. *)
Lemma paren_not_visual s : tryParseVisualConfig (Some (40 :: s)) = None.
Proof.
  unfold tryParseVisualConfig. cbn [truthy_opt truthy negb]. change (Some (40 :: s) ?? []) with (40 :: s).
  rewrite version_absent by done.
  assert (re_match singleRe (40 :: s) = None) as ->.
  { unfold singleRe. change (rseq (RStart :: ?l)) with (RSeq RStart (rseq l)). by rewrite re_match_anchored. }
  destruct (exec_all visualTierRe (40 :: s)) as [|m ms]; [done|]. cbn [map]. set (cfg := normalizeVisualConfig _).
  assert (exists t ts, cfg = mkConfig (Some (num_of_Z 1)) (t :: ts) /\ Forall (fun c => forallb is_head (ci_var c) = true) (vt_conditions t))
    as (t & ts & -> & Ht) by (do 2 eexists; split; [reflexivity|apply parsed_vars]).
  pose proof (body_good_head t ts Ht) as Hb.
  assert (drop_version (generateExprFromVisualConfig (Some (mkConfig (Some (num_of_Z 1)) (t :: ts)))) = expr_body (t :: ts)) as ->.
  { change (generateExprFromVisualConfig _) with (applyExprVersion (mkConfig (Some (num_of_Z 1)) (t :: ts)) (expr_body (t :: ts))).
    rewrite apply_version. cbn [version tiers]. unfold min_version.
    destruct (existsb requires_v2 (t :: ts)).
    - change (num_gt _ _) with true. change (num_to_str _) with (u "2"). by apply drop_version_read.
    - change (num_gt _ _) with false. by apply drop_version_absent, good_head_version. }
  destruct Hb as (c & r & -> & Hc). unfold strip_ws.
  assert (is_ws c = false) as Hw.
  { unfold is_head in Hc. apply includes_true in Hc. rewrite !elem_of_cons, elem_of_nil in Hc. by destruct Hc as [->|[->|[->|[->|[->|[->|[]]]]]]]. }
  destruct (replace_head is_ws [] c r Hw) as [r' ->]. destruct (replace_head is_ws [] 40 s eq_refl) as [s' ->].
  rewrite bool_decide_eq_false_2; [done|]. intros [= -> _]. done.
Qed.


(** A table as a user may leave it: no version, a label that is blank, a limit
    typed as text, a condition that is not complete, and a cache mode that the
    prices do not call for. *)
Definition rough_tier_input (lab : jsstr) (conds : list TierConditionInput) (p c : Z) (ex : list (jsstr * number)) : VisualTier :=
  normalizeVisualTier (mkPartialTier (Some lab) (Some conds) (Some (num_of_Z p)) (Some (num_of_Z c)) (Some CACHE_MODE_TIMED) ex).

Definition rough_config : VisualConfig :=
  let blank := mkTCI (u "len") (u "<") (VStr []) in
  mkConfig None
    [rough_tier_input (u "small") [mkTCI (u "len") (u "<=") (VStr (u "32")); blank] 3 4 [(u "cache_read_unit_cost", num_of_Z 1)];
     rough_tier_input [] [blank] 6 8 []].


End Visual.
