(* ===== verification/TierDisplay.v ===== *)
(** * The price display reads the tables the editor writes

    The model pages show tier prices with a parser of their own
    ([parseTiersFromExpr], [parseTierBody]).  On an expression generated by the
    editor it finds the editor's tiers. *)

From S2P Require Import Prelude JsString JsNumber JsJson JsRegex PricingModels BillingExpr BillingRules TierExpr TierRoundtrip TierVisual.

Import Billing Tier TierText Visual.
Open Scope N_scope.

Module Display.

(** ** The terms of a body *)

Definition var_names : list jsstr := map bv_key BILLING_PRICING_VARS.

Definition pair_text (vx : jsstr * jsstr) : jsstr := vx.1 ++ u " * " ++ vx.2.

Definition pair_ok (vx : jsstr * jsstr) : Prop :=
  vx.1 ∈ var_names /\ vx.2 <> [] /\ forallb is_num_char vx.2 = true.

Lemma var_names_eq :
  var_names = [u "p"; u "c"; u "cr"; u "cc"; u "cc1h"; u "img"; u "img_o"; u "ai"; u "doc"; u "vid"; u "ao"].
Proof. reflexivity. Qed.

(** [v] is not read in place of [w]: no multiplication sign follows it. *)
Lemma other_var n v w k b t cs :
  v ∈ var_names -> w ∈ var_names -> v <> w -> starts_with v (w ++ u " * " ++ t) = true ->
  rmatch (times_num_re n) k (mkSt b (drop (length v) (w ++ u " * " ++ t)) cs) = None.
Proof.
  rewrite var_names_eq, !elem_of_cons, !elem_of_nil. intros Hv Hw Hne Hs.
  repeat destruct Hv as [->|Hv]; try done; repeat destruct Hw as [->|Hw]; try done;
    by apply times_mismatch; [intros c [= <-]|].
Qed.

(** The right alternative is found. *)
Lemma succeeds_names w k t cs P l :
  w ∈ l -> (forall v b, v ∈ l -> v <> w -> rmatch (RStr v) k (mkSt b (w ++ t) cs) = None) ->
  succeeds k t cs P -> succeeds (rmatch (ralt (map RStr l)) k) (w ++ t) cs P.
Proof.
  intros Hw Hne H. induction l as [|v l IH]; [by apply not_elem_of_nil in Hw|].
  destruct (decide (v = w)) as [->|Hv].
  - destruct l as [|v' l]; [by apply succeeds_str|]. by apply succeeds_alt_l, succeeds_str.
  - destruct l as [|v' l]; [by apply elem_of_cons in Hw as [->|?%not_elem_of_nil]|].
    apply succeeds_alt_r; [intros b; apply Hne; [by left|done]|]. apply IH.
    + by apply elem_of_cons in Hw as [->|Hw].
    + intros v0 b Hv0. apply Hne. by right.
Qed.

Definition var_tail_re : re := times_num_re 2.

Lemma var_regex_unfold k :
  rmatch BILLING_VAR_REGEX k = rmatch RWordB (rmatch (RGroup 1 (ralt (map RStr var_names))) (rmatch var_tail_re k)).
Proof. unfold BILLING_VAR_REGEX, var_names. rewrite map_map. reflexivity. Qed.

Lemma succeeds_pair vx k t cs P :
  pair_ok vx -> stops is_num_char t -> succeeds k t (map_set 2%nat vx.2 (map_set 1%nat vx.1 cs)) P ->
  succeeds (rmatch (RGroup 1 (ralt (map RStr var_names))) (rmatch var_tail_re k)) (pair_text vx ++ t) cs P.
Proof.
  intros (Hv & Hne & Hx) Ht H b. unfold pair_text. rewrite <-!app_assoc.
  change (exists x, rmatch (ralt (map RStr var_names))
    (fun st' => rmatch var_tail_re k (capture 1 (mkSt b (vx.1 ++ u " * " ++ vx.2 ++ t) cs) st'))
    (mkSt b (vx.1 ++ u " * " ++ vx.2 ++ t) cs) = Some x /\ P x).
  refine (succeeds_names vx.1 _ (u " * " ++ vx.2 ++ t) cs P var_names Hv _ _ b).
  - intros v b' Hv' Hvw. rewrite rmatch_str. cbn [after]. destruct (starts_with v _) eqn:Hs; [|done].
    by apply (other_var 2).
  - intros b'. unfold capture. rewrite consumed_mk. apply succeeds_times; done.
Qed.

Lemma var_head_word v t : v ∈ var_names -> word_at (v ++ t) = true.
Proof.
  rewrite var_names_eq, !elem_of_cons, elem_of_nil. intros Hv. by repeat destruct Hv as [->|Hv].
Qed.

(** A term is found where no word ends before it. *)
Lemma search_pair vx b t :
  pair_ok vx -> stops is_num_char t -> word_at b = false ->
  exists m, search BILLING_VAR_REGEX b (pair_text vx ++ t) = Some (start_state b (pair_text vx ++ t), m) /\
            after m = t /\ caps m = [(1%nat, vx.1); (2%nat, vx.2)].
Proof.
  intros Hok Ht Hb.
  destruct (succeeds_pair vx Some t [] (fun m => after m = t /\ caps m = [(1%nat, vx.1); (2%nat, vx.2)]) Hok Ht) with (b := b)
    as (m & Hm & HP); [intros b'; by eexists|].
  exists m. split; [|done].
  assert (rmatch BILLING_VAR_REGEX Some (start_state b (pair_text vx ++ t)) = Some m) as E.
  { rewrite var_regex_unfold. unfold start_state. rewrite <-Hm. cbn [rmatch before after]. rewrite Hb.
    unfold pair_text. rewrite <-!app_assoc. rewrite var_head_word by apply Hok. done. }
  destruct (pair_text vx ++ t); cbn [search]; by rewrite E.
Qed.

Lemma no_var_at s b : (forall c, head s = Some c -> c = 32 \/ c = 43) -> rmatch BILLING_VAR_REGEX Some (mkSt b s []) = None.
Proof.
  intros Hs. rewrite var_regex_unfold. cbn [rmatch before after]. destruct (xorb _ _); [|done].
  destruct s as [|c s]; [reflexivity|]. by destruct (Hs c eq_refl) as [->| ->].
Qed.

Lemma search_plus b t : search BILLING_VAR_REGEX b (u " + " ++ t) = search BILLING_VAR_REGEX (32 :: 43 :: 32 :: b) t.
Proof.
  change (u " + " ++ t) with (32 :: 43 :: 32 :: t).
  rewrite !search_skip; [done|intros; apply no_var_at; intros c [= <-]; tauto..].
Qed.

Lemma search_var_end b : search BILLING_VAR_REGEX b [] = None.
Proof. cbn [search]. unfold start_state. by rewrite no_var_at. Qed.

Definition pairs_tail (l : list (jsstr * jsstr)) : jsstr := concat (map (app (u " + ")) (map pair_text l)).

Lemma pairs_tail_stop l : stops is_num_char (pairs_tail l).
Proof. destruct l; by intros c [= <-]. Qed.

Definition caps_of (vx : jsstr * jsstr) (m : mstate) : Prop := caps m = [(1%nat, vx.1); (2%nat, vx.2)].

Lemma exec_pairs_tail l : forall fuel b,
  Forall pair_ok l -> (length l < fuel)%nat -> Forall2 caps_of l (exec_loop fuel BILLING_VAR_REGEX b (pairs_tail l)).*2.
Proof.
  induction l as [|vx l IH]; intros [|fuel] b Hl Hf; cbn in Hf; try lia; cbn [exec_loop].
  - unfold pairs_tail. cbn [map concat]. rewrite search_var_end. constructor.
  - apply Forall_cons in Hl as [Hx Hl]. unfold pairs_tail. cbn [map concat]. rewrite <-app_assoc, search_plus.
    change (concat (map (app (u " + ")) (map pair_text l))) with (pairs_tail l).
    destruct (search_pair vx (32 :: 43 :: 32 :: b) (pairs_tail l) Hx (pairs_tail_stop l) eq_refl) as (m & -> & Ha & Hc).
    cbn [fmap list_fmap snd]. constructor; [done|]. rewrite Ha. apply IH; [done|lia].
Qed.

Lemma pairs_tail_length l : (length l <= length (pairs_tail l))%nat.
Proof.
  induction l as [|p l IH]; [done|]. unfold pairs_tail in *. cbn [map concat length]. rewrite !length_app.
  change (length (u " + ")) with 3%nat. lia.
Qed.

Lemma exec_pairs vx l :
  Forall pair_ok (vx :: l) ->
  Forall2 caps_of (vx :: l) (exec_all BILLING_VAR_REGEX (join (u " + ") (map pair_text (vx :: l)))).
Proof.
  intros [Hx Hl]%Forall_cons. cbn [map]. rewrite join_concat. change (concat _) with (pairs_tail l).
  unfold exec_all. cbn [exec_loop].
  destruct (search_pair vx [] (pairs_tail l) Hx (pairs_tail_stop l) eq_refl) as (m & -> & Ha & Hc).
  cbn [fmap list_fmap snd]. constructor; [done|]. rewrite Ha. apply exec_pairs_tail; [done|].
  rewrite length_app. pose proof (pairs_tail_length l).
  assert (0 < length (pair_text vx))%nat; [|lia]. unfold pair_text. rewrite !length_app.
  change (length (u " * ")) with 3%nat. lia.
Qed.

(** ** Coefficients and prices *)

Lemma add_coeff_caps v x m acc :
  caps_of (v, x) m ->
  add_coeff acc m = match map_get v acc with Some _ => acc | None => map_set v (str_to_num x) acc end.
Proof. intros Hm. unfold add_coeff, cap, group. unfold caps_of in Hm. rewrite !Hm. reflexivity. Qed.

(** The first coefficient of a variable is kept. *)
Lemma coeff_get l ms v : forall acc,
  Forall2 caps_of l ms ->
  map_get v (foldl add_coeff acc ms) =
  match map_get v acc with Some x => Some x | None => str_to_num <$> map_get v l end.
Proof.
  intros acc H. revert acc. induction H as [|[w x] m l ms Hm _ IH]; intros acc; cbn [foldl map_get].
  - by destruct (map_get v acc).
  - rewrite IH, (add_coeff_caps w x) by done. cbn [fst snd]. destruct (decide (w = v)) as [->|Hne].
    + destruct (map_get v acc) as [y|] eqn:E; [by rewrite E|]. by rewrite map_get_set_eq.
    + destruct (map_get w acc); [done|]. by rewrite map_get_set_ne.
Qed.

Lemma foldl_map_set {A B} (g : A -> B) (L : list (A * jsstr)) : forall acc,
  NoDup (acc.*1 ++ L.*2) ->
  foldl (fun tier '(v, f) => map_set f (g v) tier) acc L = acc ++ map (fun '(v, f) => (f, g v)) L.
Proof.
  induction L as [|[v f] L IH]; intros acc Hnd; cbn [foldl map]; [by rewrite app_nil_r|].
  assert (map_set f (g v) acc = acc ++ [(f, g v)]) as E.
  { assert (f ∉ acc.*1) as Hf.
    { apply NoDup_app in Hnd as (_ & Hd & _). intros Hf. apply (Hd _ Hf). by left. }
    clear IH Hnd. induction acc as [|[f' y] acc IH]; [done|]. cbn [map_set app]. rewrite decide_False by set_solver.
    f_equal. apply IH. set_solver. }
  rewrite E, IH; [by rewrite <-app_assoc|]. rewrite fmap_app, <-app_assoc. exact Hnd.
Qed.

Lemma fields_distinct : NoDup BILLING_VAR_KEY_TO_FIELD.*2.
Proof. refine (bool_decide_eq_true_1 (NoDup BILLING_VAR_KEY_TO_FIELD.*2) _). vm_compute. reflexivity. Qed.

Lemma parse_body_pairs vx l :
  Forall pair_ok (vx :: l) ->
  parseTierBody (join (u " + ") (map pair_text (vx :: l))) =
  map (fun '(v, f) => (f, or_zero ((str_to_num <$> map_get v (vx :: l)) ?? num_of_Z 0))) BILLING_VAR_KEY_TO_FIELD.
Proof.
  intros H. unfold parseTierBody.
  set (coeffs := foldl add_coeff [] _).
  rewrite (foldl_map_set (fun v => or_zero (map_get v coeffs ?? num_of_Z 0))) by apply fields_distinct. cbn [app].
  apply map_ext. intros [v f]. unfold coeffs. by rewrite (coeff_get (vx :: l) _ v []) by (by apply exec_pairs).
Qed.

(** ** The terms of a tier *)

Definition extra_pair (t : VisualTier) (cv : jsstr * jsstr) : option (jsstr * jsstr) :=
  (fun x => (cv.2, num_to_str x)) <$> extra_option t cv.1.

Definition terms (t : VisualTier) : list (jsstr * jsstr) :=
  (u "p", num_to_str (input_unit_cost t)) :: (u "c", num_to_str (output_unit_cost t))
  :: omap (extra_pair t) BILLING_CACHE_VAR_MAP.

Lemma extra_terms_pairs t l : omap (extra_term t) l = map pair_text (omap (extra_pair t) l).
Proof.
  induction l as [|[f v] l IH]; [done|].
  change (match extra_term t (f, v) with Some y => y :: omap (extra_term t) l | None => omap (extra_term t) l end =
          map pair_text (match extra_pair t (f, v) with Some y => y :: omap (extra_pair t) l | None => omap (extra_pair t) l end)).
  rewrite IH. unfold extra_term, extra_pair, extra_option. cbn [fst snd]. fold (extra t f). by destruct (negb _).
Qed.

Lemma body_terms t : tier_ok t -> buildTierBodyExpr t = join (u " + ") (map pair_text (terms t)).
Proof.
  intros Ht. destruct (writable_spec _ (ok_input t Ht)) as (_ & _ & Hi).
  destruct (writable_spec _ (ok_output t Ht)) as (_ & _ & Ho).
  unfold buildTierBodyExpr, terms. rewrite Hi, Ho, extra_terms_pairs. done.
Qed.

Lemma cache_var_name cv : cv ∈ BILLING_CACHE_VAR_MAP -> cv.2 ∈ var_names.
Proof.
  assert (Forall (fun cv : jsstr * jsstr => cv.2 ∈ var_names) BILLING_CACHE_VAR_MAP) as H.
  { refine (bool_decide_eq_true_1 (Forall (fun cv : jsstr * jsstr => cv.2 ∈ var_names) BILLING_CACHE_VAR_MAP) _).
    vm_compute. reflexivity. }
  rewrite Forall_forall in H. apply H.
Qed.

Lemma terms_ok t : tier_ok t -> Forall pair_ok (terms t).
Proof.
  intros Ht. destruct (writable_spec _ (ok_input t Ht)) as (Hi & _). destruct (writable_spec _ (ok_output t Ht)) as (Ho & _).
  unfold terms. apply Forall_cons. split; [|apply Forall_cons; split].
  - unfold pair_ok. cbn [fst snd]. rewrite var_names_eq. split_and!; [left|apply num_to_str_ne|done].
  - unfold pair_ok. cbn [fst snd]. rewrite var_names_eq. split_and!; [right; left|apply num_to_str_ne|done].
  - apply Forall_forall. intros vx (cv & Hcv & E)%list_elem_of_omap. unfold extra_pair, extra_option in E.
    destruct (negb _); [|done]. injection E as <-.
    destruct (writable_spec _ (ok_extra t Ht cv.1 (cache_field cv Hcv))) as (Hn & _).
    split_and!; [by apply cache_var_name|apply num_to_str_ne|exact Hn].
Qed.

Lemma extra_pair_get t L f v :
  NoDup L.*2 -> (f, v) ∈ L -> map_get v (omap (extra_pair t) L) = num_to_str <$> extra_option t f.
Proof.
  intros Hnd Hin. induction L as [|[f' v'] L IH]; [by apply not_elem_of_nil in Hin|].
  change ((f', v') :: L).*2 with (v' :: L.*2) in Hnd. apply NoDup_cons in Hnd as [Hv' Hnd].
  change (omap (extra_pair t) ((f', v') :: L)) with
    (match extra_pair t (f', v') with Some y => y :: omap (extra_pair t) L | None => omap (extra_pair t) L end).
  apply elem_of_cons in Hin as [[= <- <-]|Hin].
  - unfold extra_pair at 1. cbn [fst snd]. destruct (extra_option t f) as [x|]; cbn [fmap option_fmap option_map].
    + cbn [map_get]. by rewrite decide_True.
    + apply map_get_None. intros (vx & -> & (cv & Hcv & E)%list_elem_of_omap)%list_elem_of_fmap.
      unfold extra_pair in E. destruct (extra_option t cv.1); [|done]. injection E as <-. cbn [fst] in Hv'.
      apply Hv'. apply list_elem_of_fmap. by exists cv.
  - assert (v' <> v) as Hne by (intros ->; apply Hv', list_elem_of_fmap; by exists (f, v)).
    destruct (extra_pair t (f', v')) as [y|] eqn:E; [|by apply IH].
    unfold extra_pair in E. cbn [fst snd] in E. destruct (extra_option t f'); [|done]. injection E as <-.
    cbn [map_get]. rewrite decide_False by done. by apply IH.
Qed.

(** ** The tier that is shown *)

(** The price of a variable in the editor's table. *)
Definition tier_price (t : VisualTier) (v : BillingVar) : number :=
  if decide (bv_key v = u "p") then input_unit_cost t
  else if decide (bv_key v = u "c") then output_unit_cost t
  else extra t (bv_tierField v ?? []).

Definition display_cond (c : TierConditionInput) : TierCondition :=
  mkTC (ci_var c) (ci_op c) (match ci_value c with VNum x => x | VStr _ => NaN end).

Definition display_tier (t : VisualTier) : ParsedTier :=
  mkPT (label t) (map display_cond (vt_conditions t))
    (map (fun v => (bv_field v ?? [], tier_price t v)) BILLING_PRICING_VARS).

Lemma cache_vars_distinct : NoDup BILLING_CACHE_VAR_MAP.*2.
Proof. refine (bool_decide_eq_true_1 (NoDup BILLING_CACHE_VAR_MAP.*2) _). vm_compute. reflexivity. Qed.

Lemma pricing_vars_split v :
  v ∈ BILLING_PRICING_VARS -> bv_key v <> u "p" -> bv_key v <> u "c" -> (bv_tierField v ?? [], bv_key v) ∈ BILLING_CACHE_VAR_MAP.
Proof.
  intros Hv%list_elem_of_In Hp Hc. apply list_elem_of_In.
  set (P := fun v => bool_decide (bv_key v = u "p") || bool_decide (bv_key v = u "c") ||
                     bool_decide ((bv_tierField v ?? [], bv_key v) ∈ BILLING_CACHE_VAR_MAP)).
  assert (forallb P BILLING_PRICING_VARS = true) as H by (vm_compute; reflexivity).
  rewrite forallb_forall in H. specialize (H v Hv). unfold P in H.
  rewrite !orb_true_iff, !bool_decide_eq_true in H. apply list_elem_of_In. tauto.
Qed.

Lemma price_read t v :
  tier_ok t -> v ∈ BILLING_PRICING_VARS ->
  or_zero ((str_to_num <$> map_get (bv_key v) (terms t)) ?? num_of_Z 0) = tier_price t v.
Proof.
  intros Ht Hv. destruct (writable_spec _ (ok_input t Ht)) as (_ & Hi & Hi0).
  destruct (writable_spec _ (ok_output t Ht)) as (_ & Ho & Ho0). unfold tier_price, terms. cbn [map_get].
  destruct (decide (bv_key v = u "p")) as [->|Hp].
  { rewrite decide_True by done. cbn [fmap option_fmap option_map default from_option]. rewrite Hi. exact Hi0. }
  rewrite decide_False by done. destruct (decide (bv_key v = u "c")) as [->|Hc].
  { rewrite decide_True by done. cbn [fmap option_fmap option_map default from_option]. rewrite Ho. exact Ho0. }
  rewrite decide_False by done. pose proof (pricing_vars_split v Hv Hp Hc) as Hin.
  rewrite (extra_pair_get t _ _ _ cache_vars_distinct Hin).
  destruct (writable_spec _ (ok_extra t Ht _ (cache_field _ Hin))) as (_ & Hr & _). cbn [fst] in Hr.
  rewrite <-extra_option_value. unfold extra_option. destruct (negb _); [|done].
  cbn [fmap option_fmap option_map]. by rewrite Hr.
Qed.

Lemma parse_body_tier t :
  tier_ok t -> parseTierBody (buildTierBodyExpr t) = map (fun v => (bv_field v ?? [], tier_price t v)) BILLING_PRICING_VARS.
Proof.
  intros Ht. rewrite body_terms by done. unfold terms at 1. rewrite parse_body_pairs by (by apply terms_ok).
  unfold BILLING_VAR_KEY_TO_FIELD. rewrite map_map. apply map_ext_in. intros v Hv%list_elem_of_In.
  change (_ :: _ :: omap _ _) with (terms t). by rewrite price_read.
Qed.

(** ** The body of a tier in the display's pattern *)

Definition not_close (c : N) : bool := negb (c =? 41).

Lemma numeral_no_paren s : forallb is_num_char s = true -> forallb Rules.no_paren s = true.
Proof. rewrite !forallb_forall. intros H c Hc. by apply Rules.num_no_paren, H. Qed.

Lemma pair_no_paren vx : pair_ok vx -> forallb Rules.no_paren (pair_text vx) = true.
Proof.
  intros (Hv & _ & Hx). unfold pair_text. rewrite !forallb_app, !andb_true_iff. split_and!; [|done|by apply numeral_no_paren].
  rewrite var_names_eq, !elem_of_cons, elem_of_nil in Hv. by repeat destruct Hv as [->|Hv].
Qed.

Lemma body_no_paren t : tier_ok t -> forallb Rules.no_paren (buildTierBodyExpr t) = true.
Proof.
  intros Ht. rewrite body_terms by done. pose proof (terms_ok t Ht) as H. induction (terms t) as [|vx l IH]; [done|].
  apply Forall_cons in H as [Hx H]. destruct l as [|vx' l].
  - cbn [map join]. by apply pair_no_paren.
  - cbn [map]. rewrite join_cons, !forallb_app, !andb_true_iff. split_and!; [by apply pair_no_paren|done|by apply IH].
Qed.

Lemma body_not_close t : tier_ok t -> forallb not_close (buildTierBodyExpr t) = true.
Proof.
  intros Ht%body_no_paren. rewrite forallb_forall in Ht |- *. intros c Hc%Ht. by apply andb_true_iff in Hc as [_ Hc].
Qed.

Definition display_piece (t : VisualTier) : piece :=
  let conds := map cond_of (vt_conditions t) in
  mkPiece conds (label t) (buildTierBodyExpr t)
    (map_set 3%nat (buildTierBodyExpr t) (map_set 2%nat (label t) (guard_caps conds))).

Lemma display_piece_ok t : tier_ok t -> piece_ok (RGroup 3 (RPlus (RCls not_close))) (display_piece t).
Proof.
  intros Ht. split_and!; cbn [display_piece p_conds p_label p_body p_caps].
  - apply conds_ok, Ht.
  - apply Ht.
  - intros r. by apply body_head.
  - exists (map_set 3%nat (buildTierBodyExpr t)). split; [|done]. intros k r cs P H.
    apply succeeds_group; [|done]. intros k' Hk'. apply succeeds_plus; [|by apply body_not_close|by intros c [= <-]|done].
    rewrite build_body by done. by unfold body_text.
Qed.

Lemma display_conds l :
  Forall (fun c => canonical_cond c = true) l -> parse_conditions (conds_text (map cond_of l)) = map display_cond l.
Proof.
  intros H. rewrite parse_conds by (by apply conds_ok). rewrite map_map. apply map_ext_in. intros c Hc%list_elem_of_In.
  rewrite Forall_forall in H. destruct (canonical_cond_spec c (H c Hc)) as (_ & _ & E).
  destruct c as [v op [x|x]]; [|done]. unfold display_cond, cond_value, cond_of, input_of in *. cbn in *. by injection E as ->.
Qed.

Lemma display_tier_read t m : tier_ok t -> caps m = p_caps (display_piece t) -> tier_of_match m = display_tier t.
Proof.
  intros Ht Hm. cbn [display_piece p_caps] in Hm. unfold tier_of_match, cap, group, display_tier. rewrite Hm.
  rewrite map_get_set_eq, !(map_get_set_ne 3%nat) by lia. rewrite map_get_set_eq, (map_get_set_ne 2%nat) by lia.
  rewrite guard_caps_get, decide_True by done. rewrite (parse_body_tier t Ht : parseTierBody (Some (buildTierBodyExpr t) ?? []) = _). f_equal.
  rewrite <-display_conds by apply Ht. by destruct (vt_conditions t).
Qed.

Lemma editor_shown cfg :
  canonical_config cfg = true ->
  parseTiersFromExpr (generateExprFromVisualConfig (Some cfg)) = map display_tier (tiers cfg).
Proof.
  intros (v & t & ts & -> & Hts & Hl & Hv)%canonical_config_spec.
  destruct (expr_head t ts Hts Hl) as [Hnv _].
  destruct (version_roundtrip v (t :: ts) (expr_body (t :: ts)) Hv Hnv) as [Hsplit _].
  change (generateExprFromVisualConfig (Some (mkConfig (Some v) (t :: ts)))) with
    (applyExprVersion (mkConfig (Some v) (t :: ts)) (expr_body (t :: ts))).
  set (e := applyExprVersion _ _) in *.
  assert (stripExprVersion e = (v, expr_body (t :: ts)) /\ truthy e = true) as [Hs He].
  { pose proof (expr_truthy v t ts e Hts Hl Hsplit) as He. unfold stripExprVersion. rewrite He. by split. }
  unfold parseTiersFromExpr. rewrite He, Hs. cbn [negb snd tiers]. rewrite expr_body_pieces by done.
  pose proof (exec_tiers (RGroup 3 (RPlus (RCls not_close))) (display_piece t) (map display_piece ts) (rest_text (t :: ts))) as H.
  change (display_piece t :: map display_piece ts) with (map display_piece (t :: ts)) in H.
  specialize (H ltac:(apply Forall_map; eapply Forall_impl; [exact Hts|apply display_piece_ok]) (rest_no_tier _ _)).
  change (piece_text (display_piece t)) with (piece_text (piece_of t)) in H.
  change (tier_re _) with tierRe in H.
  assert (tail_text (map display_piece ts) = tail_text (map piece_of ts)) as E.
  { unfold tail_text. by rewrite !map_map. }
  rewrite E in H.
  generalize dependent (exec_all tierRe (piece_text (piece_of t) ++ tail_text (map piece_of ts) ++ rest_text (t :: ts))).
  intros ms H. apply Forall2_fmap_l in H. revert Hts. clear -H. induction H as [|t' m l ms Hm _ IH]; intros Hts; [done|].
  apply Forall_cons in Hts as [Ht Hts]. cbn [map]. rewrite (display_tier_read t') by done. by rewrite IH.
Qed.

(** C7. The price display and the editor agree: from the expression that the
    editor generates for a table, the display's own parser finds the tiers that
    the editor itself would read ([as_read]), in order, each with its label, its
    conditions and the price of every variable, zero where the tier has none.
    It holds for tables whose labels have no quotation mark, in which every tier
    but the last of several has a complete condition, and whose prices, limits
    and version are numbers that their decimal text denotes. *)
Theorem display_reads_editor cfg :
  canonical_config (as_read cfg) = true ->
  parseTiersFromExpr (generateExprFromVisualConfig (Some cfg)) = map display_tier (tiers (as_read cfg)).
Proof. intros Hc. rewrite generate_as_read by done. by apply editor_shown. Qed.

Lemma display_reads_editor_witness :
  canonical_config (as_read rough_config) = true /\
  parseTiersFromExpr (generateExprFromVisualConfig (Some rough_config)) = map display_tier (tiers (as_read rough_config)).
Proof. split; [vm_compute; reflexivity|apply display_reads_editor; vm_compute; reflexivity]. Defined.

(** ** Where the two parsers differ *)

Definition editor_prices (expr : jsstr) : option (list (jsstr * number * number)) :=
  (fun cfg => map (fun t => (label t, input_unit_cost t, output_unit_cost t)) (tiers cfg)) <$> tryParseVisualConfig (Some expr).

Definition shown_prices (expr : jsstr) : list (jsstr * number * number) :=
  map (fun t => (pt_label t, map_get (u "inputPrice") (pt_prices t) ?? NaN, map_get (u "outputPrice") (pt_prices t) ?? NaN))
    (parseTiersFromExpr expr).

Definition dense_expr : jsstr := uj "tier('base', p*6+c*22.5)".

(** The editor and the display read an expression without blanks
    differently: the pattern of a number takes the plus sign after it as an
    exponent's sign, so the display shows an input price of zero where the
    editor, which backtracks, reads 6. *)
Theorem dense_prices_differ :
  editor_prices dense_expr = Some [(u "base", num_of_Z 6, num_of_decimal 225 (-1))] /\
  shown_prices dense_expr = [(u "base", num_of_Z 0, num_of_decimal 225 (-1))].
Proof. split; vm_compute; reflexivity. Qed.

(** A price text that is no number is kept as [NaN] in the table: the
    fields spread after the normalised ones overwrite the default of zero for
    the two base prices. *)
Theorem spread_keeps_nan :
  editor_prices (uj "tier('base', p * 1.2.3 + c * 2)") = Some [(u "base", NaN, num_of_Z 2)].
Proof. vm_compute. reflexivity. Qed.

End Display.
