(* ===== verification/TierEstimate.v ===== *)
(** * The cost estimator of the tier editor
    (web/default/src/features/pricing/lib/tier-expr.ts, [evalExprLocally])

    The editor previews the cost of a request by evaluating the expression as
    JavaScript.  The theorem at the end says what the preview shows for the
    expressions that the editor generates: the first tier whose conditions
    hold, and its prices times the numbers of tokens. *)

From S2P Require Import Prelude JsString JsNumber JsJson JsRegex JsExpr PricingModels BillingExpr TierExpr TierRoundtrip TierVisual.

Import Expr Billing Tier TierText Visual.
Open Scope N_scope.

Module Estimate.

(** ** The evaluator *)

(** Numbers of tokens by [stateKey]. *)
Definition ExtraTokenValues := list (jsstr * number).

Record EvalResult := mkEval { cost : number; matchedTier : jsstr; error : option jsstr }.

(** [extraTokenValues[key] || 0] *)
Definition extra_tokens (values : ExtraTokenValues) (key : jsstr) : number := or_zero (map_get key values ?? NaN).

(** The numbers in [env]; the loop over [ESTIMATOR_VARS] comes last. *)
Definition env (promptTokens completionTokens : number) (values : ExtraTokenValues) : list (jsstr * value) :=
  let cacheReadTokens := extra_tokens values (u "cacheReadTokens") in
  let cacheCreateTokens := extra_tokens values (u "cacheCreateTokens") in
  let cacheCreate1hTokens := extra_tokens values (u "cacheCreate1hTokens") in
  let len := (promptTokens + cacheReadTokens + cacheCreateTokens + cacheCreate1hTokens)%num in
  [(u "p", VN promptTokens); (u "c", VN completionTokens); (u "len", VN len)]
  ++ map (fun '(v, key) => (v, VN (extra_tokens values key))) ESTIMATOR_VARS.

Definition first_num (args : list value) : number := to_num (hd VU args).

(** The functions in [env]; the state is the variable [matchedTier].  A tier
    name that is not a string is outside the model. *)
Definition env_call (f : jsstr) (args : list value) (matched : jsstr) : option (value * jsstr) :=
  if bool_decide (f = u "tier") then
    match args with
    | VS name :: rest => Some (hd VU rest, name)
    | _ => None
    end
  else if bool_decide (f = u "max") then
    Some (VN (foldl (fun m v => num_max m (to_num v)) (num_opp Infinity) args), matched)
  else if bool_decide (f = u "min") then
    Some (VN (num_opp (foldl (fun m v => num_max m (num_opp (to_num v))) (num_opp Infinity) args)), matched)
  else if bool_decide (f = u "abs") then Some (VN (num_abs (first_num args)), matched)
  else if bool_decide (f = u "ceil") then Some (VN (num_opp (num_floor (num_opp (first_num args)))), matched)
  else if bool_decide (f = u "floor") then Some (VN (num_floor (first_num args)), matched)
  else None.

Definition no_cost : EvalResult := mkEval (num_of_Z 0) [] None.

(** [None]: the text is not in the modelled fragment of JavaScript. *)
Definition evalExprLocally (exprStr : jsstr) (promptTokens completionTokens : number) (values : ExtraTokenValues)
  : option EvalResult :=
  if negb (truthy exprStr) || negb (truthy (trim exprStr)) then Some no_cost
  else
    let run expressionBody :=
      e ← parse expressionBody;
      '(v, matched) ← eval (env promptTokens completionTokens values) env_call e [];
      Some (mkEval (or_zero (to_num v)) matched None) in
    match re_match VERSION_REGEX (trim exprStr) with
    | Some m =>
        let version := str_to_num (cap 1 m) in
        if negb (num_eq version (num_of_Z 1)) && negb (num_eq version (num_of_Z 2))
        then Some (mkEval (num_of_Z 0) [] (Some (u "unsupported billing expression version v" ++ num_to_str version)))
        else run (cap 2 m)
    | None => run (trim exprStr)
    end.

Definition sample_tokens : ExtraTokenValues :=
  map (fun '(_, key) => (key, num_of_Z 0)) ESTIMATOR_VARS.

Example estimate_sample :
  evalExprLocally (generateExprFromVisualConfig (Some sample_config)) (num_of_Z 1000) (num_of_Z 5) sample_tokens =
    Some (mkEval (num_of_Z 3075) (u "small") None) /\
  evalExprLocally (generateExprFromVisualConfig (Some sample_config)) (num_of_Z 1000) (num_of_Z 100) sample_tokens =
    Some (mkEval (num_of_Z 8250) (u "large") None) /\
  evalExprLocally (u "v3:p") (num_of_Z 1) (num_of_Z 1) sample_tokens =
    Some (mkEval (num_of_Z 0) [] (Some (u "unsupported billing expression version v3"))) /\
  evalExprLocally (u "max(p, 2, ceil(c / 3)) + min(1, p)") (num_of_Z 1) (num_of_Z 10) sample_tokens =
    Some (mkEval (num_of_Z 5) [] None).
Proof. vm_compute. done. Qed.

(** ** The reference: the first tier whose conditions hold *)

Section spec.
Context (promptTokens completionTokens : number) (values : ExtraTokenValues).

(** The number of tokens that a variable stands for: [len] is the prompt with
    everything read from and written to the cache. *)
Definition tokens_of (v : jsstr) : number :=
  if bool_decide (v = u "p") then promptTokens
  else if bool_decide (v = u "c") then completionTokens
  else if bool_decide (v = u "len") then
    (promptTokens + extra_tokens values (u "cacheReadTokens") + extra_tokens values (u "cacheCreateTokens")
     + extra_tokens values (u "cacheCreate1hTokens"))%num
  else extra_tokens values (map_get v ESTIMATOR_VARS ?? []).

Definition limit (c : TierConditionInput) : number :=
  match ci_value c with VNum x => x | VStr s => str_to_num s end.

Definition compare_op (op : jsstr) (x y : number) : bool :=
  if bool_decide (op = u "<") then num_lt x y
  else if bool_decide (op = u "<=") then num_le x y
  else if bool_decide (op = u ">") then num_gt x y
  else num_ge x y.

Definition cond_holds (c : TierConditionInput) : bool := compare_op (ci_op c) (tokens_of (ci_var c)) (limit c).

(** The extra prices that are not zero, in the order of the expression. *)
Definition terms (t : VisualTier) : list (jsstr * number) :=
  (u "c", output_unit_cost t) :: omap (fun cv => pair cv.2 <$> extra_option t cv.1) BILLING_CACHE_VAR_MAP.

Definition tier_cost (t : VisualTier) : number :=
  foldl (fun s vx => s + tokens_of vx.1 * vx.2)%num (tokens_of (u "p") * input_unit_cost t)%num (terms t).

Definition first_tier (ts : list VisualTier) : option VisualTier :=
  List.find (fun t => forallb cond_holds (vt_conditions t)) ts.

Definition tier_result (ts : list VisualTier) : EvalResult :=
  match first_tier ts with
  | Some t => mkEval (or_zero (tier_cost t)) (label t) None
  | None => no_cost
  end.

End spec.

(** ** Tokens of the generated expression *)

(** A number whose decimal text is a numeral of the language. *)
Definition literal (x : number) : bool :=
  match num_to_str x with c :: _ => is_digit c | [] => false end &&
  bool_decide (lex_number (num_to_str x) = Some (x, [])).

Definition identifier (v : jsstr) : bool :=
  match v with c :: _ => is_id_start c | [] => false end && forallb is_id_part v.

Lemma lexed_identifier v r ts :
  identifier v = true -> lexed r ts -> lexed (v ++ 32 :: r) (TId v :: ts).
Proof.
  unfold identifier. rewrite andb_true_iff. intros [Hc Hv] H. apply lexed_id; [|done|by intros c [= <-]|by apply lexed_blank].
  destruct v as [|c v]; [done|]. by exists c, v.
Qed.

Lemma lexed_literal x r ts :
  literal x = true -> ends_number r -> lexed r ts -> lexed (num_to_str x ++ r) (TNum x :: ts).
Proof.
  unfold literal. rewrite andb_true_iff, bool_decide_eq_true. intros [Hc Hx] Hr H. apply lexed_num; [|done..].
  destruct (num_to_str x) as [|c s]; [done|]. by exists c, s.
Qed.

Lemma ends_blank r : ends_number (32 :: r).
Proof. by intros c [= <-]. Qed.

Lemma ends_paren r : ends_number (41 :: r).
Proof. by intros c [= <-]. Qed.

#[local] Hint Resolve ends_blank ends_paren : core.

Lemma lexed_symbol o r ts :
  o ∈ [u "*"; u "+"; u "?"; u ":"; u "&&"] ++ COND_OPS -> lexed r ts -> lexed (o ++ 32 :: r) (TOp o :: ts).
Proof.
  intros Ho H. apply lexed_op; [| | |by apply lexed_blank].
  all: cbn [app] in Ho; unfold COND_OPS in Ho; rewrite !elem_of_cons, elem_of_nil in Ho.
  all: repeat destruct Ho as [->|Ho]; try done; try (by intros c [= <-]).
Qed.

Lemma lexed_times vx r ts :
  identifier vx.1 = true -> literal vx.2 = true -> ends_number r -> lexed r ts ->
  lexed (term_text vx.1 vx.2 ++ r) (times_tokens vx ++ ts).
Proof.
  intros Hv Hx Hr H. unfold term_text, times_tokens. rewrite <-!app_assoc.
  change (u " * " ++ ?s) with (32 :: u "*" ++ 32 :: s). cbn [app].
  apply lexed_identifier; [done|]. apply (lexed_symbol (u "*")); [by repeat constructor|]. by apply lexed_literal.
Qed.

Definition term_ok (vx : jsstr * number) : Prop := identifier vx.1 = true /\ literal vx.2 = true.

Definition plus_term (vx : jsstr * number) : jsstr := u " + " ++ term_text vx.1 vx.2.

Lemma ends_terms l r : ends_number r -> ends_number (concat (map plus_term l) ++ r).
Proof. destruct l; [done|]. intros _. by intros c [= <-]. Qed.

Lemma lexed_sum l r ts :
  Forall term_ok l -> ends_number r -> lexed r ts -> lexed (concat (map plus_term l) ++ r) (sum_tokens l ++ ts).
Proof.
  intros Hl Hr H. unfold sum_tokens. induction Hl as [|vx l [Hv Hx] Hl IH]; [done|]. cbn [map concat]. unfold plus_term at 1.
  rewrite <-!app_assoc. change (u " + " ++ ?s) with (32 :: u "+" ++ 32 :: s). apply lexed_blank. cbn [app].
  apply (lexed_symbol (u "+")); [by repeat constructor|].
  apply lexed_times; [done..|by apply ends_terms|exact IH].
Qed.

Definition item_tokens (c : TierConditionInput) : list token := [TId (ci_var c); TOp (ci_op c); TNum (limit c)].

Definition item_ok (c : TierConditionInput) : Prop :=
  identifier (ci_var c) = true /\ ci_op c ∈ COND_OPS /\ literal (limit c) = true /\ value_text (ci_value c) = num_to_str (limit c).

Lemma lexed_item c r ts :
  item_ok c -> ends_number r -> lexed r ts -> lexed (item_text (cond_of c) ++ r) (item_tokens c ++ ts).
Proof.
  intros (Hv & Hop & Hx & Ht) Hr H. unfold item_text, cond_of, item_tokens. cbn [c_var c_op c_lim]. rewrite Ht.
  rewrite <-!app_assoc. change (u " " ++ ?s) with (32 :: s). cbn [app]. apply lexed_identifier; [done|].
  apply lexed_symbol; [by apply elem_of_app; right|]. by apply lexed_literal.
Qed.

Definition and_tokens (l : list TierConditionInput) : list token := concat (map (fun c => TOp (u "&&") :: item_tokens c) l).

Lemma lexed_and l r ts :
  Forall item_ok l -> lexed r ts ->
  lexed (concat (map and_piece (map cond_of l)) ++ 32 :: r) (and_tokens l ++ ts).
Proof.
  intros Hl H. unfold and_tokens. induction Hl as [|c l Hc Hl IH]; [by apply lexed_blank|]. cbn [map concat].
  unfold and_piece at 1. rewrite <-!app_assoc. change (u " && " ++ ?s) with (32 :: u "&&" ++ 32 :: s).
  apply lexed_blank. cbn [app]. apply (lexed_symbol (u "&&")); [by repeat constructor|].
  apply lexed_item; [done| |exact IH]. destruct l; by intros x [= <-].
Qed.

(** ** The tiers as a chain of choices *)

(** What a tier needs to be readable as JavaScript. *)
Definition tier_plain (t : VisualTier) : bool :=
  forallb is_plain_char (label t) && forallb (fun c => literal (limit c)) (vt_conditions t) &&
  literal (input_unit_cost t) && literal (output_unit_cost t) && forallb (fun f => literal (extra t f)) EXTRA_FIELDS.

Definition zero_term : jsstr * number := (u "c", num_of_Z 0).

Definition base_term (t : VisualTier) : jsstr * number := (u "p", input_unit_cost t).

Definition call_tokens (t : VisualTier) : list token :=
  [TId (u "tier"); TOp (u "("); TStr (label t); TOp (u ",")] ++ times_tokens (base_term t) ++ sum_tokens (terms t) ++
  [TOp (u ")")].

Definition call_text (t : VisualTier) : jsstr := tier_call (label t) (buildTierBodyExpr t).

Fixpoint choice_text (ts : list VisualTier) : jsstr :=
  match ts with
  | [] => zero_expr
  | t :: ts' =>
      match vt_conditions t with
      | [] => call_text t
      | _ => conds_text (map cond_of (vt_conditions t)) ++ u " ? " ++ call_text t ++ u " : " ++ choice_text ts'
      end
  end.

Fixpoint choice_tokens (ts : list VisualTier) : list token :=
  match ts with
  | [] => times_tokens (u "p", num_of_Z 0) ++ sum_tokens [zero_term]
  | t :: ts' =>
      match vt_conditions t with
      | [] => call_tokens t
      | c :: l => item_tokens c ++ and_tokens l ++ TOp (u "?") :: call_tokens t ++ TOp (u ":") :: choice_tokens ts'
      end
  end.

Lemma body_products t :
  tier_ok t -> buildTierBodyExpr t = term_text (u "p") (input_unit_cost t) ++ concat (map plus_term (terms t)).
Proof.
  intros Ht. destruct (writable_spec _ (ok_input t Ht)) as (_ & _ & Hi).
  destruct (writable_spec _ (ok_output t Ht)) as (_ & _ & Ho).
  unfold buildTierBodyExpr. rewrite Hi, Ho. cbn [app]. rewrite join_concat. cbn [map concat]. f_equal. unfold terms.
  cbn [map concat]. unfold plus_term at 1. cbn [fst snd]. f_equal. generalize BILLING_CACHE_VAR_MAP. intros l.
  induction l as [|[f v] l IH]; [done|].
  change (omap ?g ((f, v) :: l)) with (match g (f, v) with Some y => y :: omap g l | None => omap g l end).
  unfold extra_term at 1, extra_option at 1. cbn [fst snd]. fold (extra t f). destruct (negb _); [|exact IH].
  cbn [fmap option_fmap option_map map concat fst snd]. rewrite <-IH. by unfold plus_term.
Qed.

Lemma cache_vars_identifiers v : v ∈ cacheVarNames -> identifier v = true.
Proof.
  assert (Forall (fun v => identifier v = true) cacheVarNames) as H; [|rewrite Forall_forall in H; apply H].
  refine (bool_decide_eq_true_1 _ _). vm_compute. reflexivity.
Qed.

Lemma tier_plain_spec t :
  tier_plain t = true ->
  forallb is_plain_char (label t) = true /\ Forall (fun c => literal (limit c) = true) (vt_conditions t) /\
  literal (input_unit_cost t) = true /\ literal (output_unit_cost t) = true /\
  (forall f, f ∈ EXTRA_FIELDS -> literal (extra t f) = true).
Proof.
  unfold tier_plain. rewrite !andb_true_iff, !forallb_forall. intros [[[[H1 H2] H3] H4] H5]. split_and!; [done| |done|done|].
  - apply Forall_forall. intros c Hc%list_elem_of_In. by apply H2.
  - intros f Hf%list_elem_of_In. by apply H5.
Qed.

Lemma products_ok t : tier_plain t = true -> Forall term_ok (terms t).
Proof.
  intros (_ & _ & _ & Ho & He)%tier_plain_spec. unfold terms. constructor; [done|].
  apply Forall_forall. intros [v x] ([f w] & Hin & Hx)%list_elem_of_omap. cbn [fst snd] in Hx.
  unfold extra_option in Hx. destruct (negb _); [|done]. injection Hx as <- <-. split; cbn [fst snd].
  - apply cache_vars_identifiers. exact (proj2 (list_elem_of_fmap snd _ w) (ex_intro _ (f, w) (conj eq_refl Hin))).
  - apply He. exact (cache_field (f, w) Hin).
Qed.

Lemma items_ok t :
  tier_ok t -> tier_plain t = true -> Forall item_ok (vt_conditions t).
Proof.
  intros Ht (_ & Hl & _)%tier_plain_spec. pose proof (ok_conds t Ht) as Hc. rewrite Forall_forall in Hl, Hc |- *.
  intros c Hin. specialize (Hl c Hin). specialize (Hc c Hin). unfold canonical_cond in Hc.
  rewrite !andb_true_iff, !includes_true in Hc. destruct Hc as [[Hv Hop] Hx]. unfold item_ok, limit in *.
  destruct (ci_value c) as [x|x]; [|done]. split_and!; [|done..].
  change BILLING_CONDITION_VARS with [u "p"; u "c"; u "len"] in Hv. rewrite !elem_of_cons, elem_of_nil in Hv.
  by destruct Hv as [->|[->|[->|[]]]].
Qed.

Lemma lexed_call t r ts :
  tier_ok t -> tier_plain t = true -> lexed r ts -> lexed (call_text t ++ r) (call_tokens t ++ ts).
Proof.
  intros Ht Hp H. unfold call_text, tier_call, call_tokens. rewrite body_products by done.
  destruct (tier_plain_spec t Hp) as (Hlab & _ & Hi & _).
  rewrite <-!app_assoc. change (uj "tier('" ++ ?s) with (u "tier" ++ u "(" ++ 34 :: s). cbn [app].
  apply lexed_id; [by do 2 eexists|done|by intros c [= <-]|].
  apply (lexed_op (u "(")); [by intros c [= <-]|done|done|].
  change (uj "', " ++ ?s) with (34 :: u "," ++ 32 :: s). apply lexed_str; [done|].
  apply (lexed_op (u ",")); [by intros c [= <-]|done|done|]. apply lexed_blank.
  change (u "p") with ((base_term t).1). change (input_unit_cost t) with ((base_term t).2).
  apply lexed_times; [done..|apply ends_terms; apply ends_paren|]. apply lexed_sum; [by apply products_ok|apply ends_paren|].
  by apply (lexed_op (u ")")); [intros c [= <-]|..].
Qed.

Lemma lexed_choice ts :
  Forall tier_ok ts -> Forall (fun t => tier_plain t = true) ts -> lexed (choice_text ts) (choice_tokens ts).
Proof.
  induction ts as [|t ts IH]; intros Hok Hp.
  - change (lexed (term_text (u "p") (num_of_Z 0) ++ concat (map plus_term [zero_term]) ++ [])
              (times_tokens (u "p", num_of_Z 0) ++ sum_tokens [zero_term] ++ [])).
    apply (lexed_times (u "p", num_of_Z 0)); [done|vm_compute; reflexivity|by apply ends_terms|].
    apply lexed_sum; [|done|by constructor]. repeat constructor; vm_compute; reflexivity.
  - apply Forall_cons in Hok as [Ht Hok]. apply Forall_cons in Hp as [Htp Hp]. cbn [choice_text choice_tokens].
    pose proof (items_ok t Ht Htp) as Hi. destruct (vt_conditions t) as [|c l].
    + rewrite <-(app_nil_r (call_text t)), <-(app_nil_r (call_tokens t)). by apply lexed_call; [..|constructor].
    + cbn [map]. rewrite conds_text_cons, <-app_assoc. change (u " ? " ++ ?s) with (32 :: u "?" ++ 32 :: s).
      apply Forall_cons in Hi as [Hc Hl]. apply lexed_item; [done|destruct l; by intros x [= <-]|].
      apply lexed_and; [done|]. apply (lexed_symbol (u "?")); [by repeat constructor|].
      apply lexed_call; [done..|]. change (u " : " ++ ?s) with (32 :: u ":" ++ 32 :: s).
      apply lexed_blank, (lexed_symbol (u ":")); [by repeat constructor|]. by apply IH.
Qed.

Lemma piece_guard t :
  tier_ok t ->
  piece_text (piece_of t) =
  match vt_conditions t with [] => call_text t | l => conds_text (map cond_of l) ++ u " ? " ++ call_text t end.
Proof.
  intros Ht. rewrite piece_of_text, build_conds by (done || apply Ht). destruct (vt_conditions t); [done|].
  cbn [truthy_list]. by rewrite <-app_assoc.
Qed.

Lemma layout_choice ts : forall t,
  Forall tier_ok (t :: ts) -> layout (t :: ts) = true ->
  piece_text (piece_of t) ++ tail_text (map piece_of ts) = choice_text (t :: ts).
Proof.
  induction ts as [|t' ts IH]; intros t [Ht Hts]%Forall_cons Hl; rewrite piece_guard by done.
  - cbn [layout] in Hl. cbn [choice_text]. destruct (vt_conditions t); [|done]. apply app_nil_r.
  - cbn [layout] in Hl. apply andb_true_iff in Hl as [Hc Hl]. specialize (IH t' Hts Hl).
    change (choice_text (t :: t' :: ts)) with
      (match vt_conditions t with
       | [] => call_text t
       | _ => conds_text (map cond_of (vt_conditions t)) ++ u " ? " ++ call_text t ++ u " : " ++ choice_text (t' :: ts)
       end).
    rewrite <-IH. destruct (vt_conditions t); [done|]. unfold tail_text. cbn [map concat]. by rewrite <-!app_assoc.
Qed.

Lemma body_choice t ts :
  Forall tier_ok (t :: ts) -> config_layout (t :: ts) = true -> expr_body (t :: ts) = choice_text (t :: ts).
Proof.
  intros Hts Hl. rewrite expr_body_pieces by done. destruct ts as [|t' ts].
  - apply Forall_cons in Hts as [Ht _]. rewrite piece_guard by done. unfold rest_text. cbn [map tail_text choice_text concat app].
    destruct (vt_conditions t); [apply app_nil_r|]. by rewrite <-!app_assoc.
  - cbn [config_layout] in Hl. unfold rest_text. rewrite app_nil_r. by apply layout_choice.
Qed.

(** ** The syntax tree *)

Definition item_expr (c : TierConditionInput) : expr := EBin (ci_op c) (EVar (ci_var c)) (ENum (limit c)).
Definition and_expr (e : expr) (l : list TierConditionInput) : expr := foldl (fun e c => EBin (u "&&") e (item_expr c)) e l.
Definition call_expr (t : VisualTier) : expr :=
  ECall (u "tier") [EStr (label t); sum_expr (times (base_term t)) (terms t)].

Fixpoint choice_expr (ts : list VisualTier) : expr :=
  match ts with
  | [] => sum_expr (times (u "p", num_of_Z 0)) [zero_term]
  | t :: ts' =>
      match vt_conditions t with
      | [] => call_expr t
      | c :: l => ECond (and_expr (item_expr c) l) (call_expr t) (choice_expr ts')
      end
  end.

Lemma equ_item sub c r :
  ci_op c ∈ COND_OPS -> follows MUL r -> follows ADD r -> follows REL r -> follows EQU r ->
  equ_level sub (item_tokens c ++ r) = Some (item_expr c, r).
Proof.
  intros Hop Hm Ha Hr He. unfold equ_level, rel_level. apply chain_one; [|done].
  assert (ci_op c <> u "(" /\ includes MUL (ci_op c) = false /\ includes ADD (ci_op c) = false /\ includes REL (ci_op c) = true)
    as (H1 & H2 & H3 & H4).
  { unfold COND_OPS in Hop. rewrite !elem_of_cons, elem_of_nil in Hop. by destruct Hop as [->|[->|[->|[->|[]]]]]. }
  eapply chain_reads; [apply add_of_unary; [by apply unary_id|done|done]|].
  eapply chained_step; [done|by apply add_of_unary|cbn; lia|by apply chained_end].
Qed.

Lemma and_items sub c l r :
  Forall (fun c => ci_op c ∈ COND_OPS) (c :: l) ->
  and_level sub (item_tokens c ++ and_tokens l ++ TOp (u "?") :: r) = Some (and_expr (item_expr c) l, TOp (u "?") :: r).
Proof.
  intros [Hc Hl]%Forall_cons. unfold and_level. eapply chain_reads; [apply equ_item; [done|by destruct l..]|].
  generalize (item_expr c). unfold and_tokens. induction Hl as [|c' l Hc' Hl IH]; intros e; [by apply chained_end|].
  cbn [map concat]. rewrite <-app_assoc. cbn [app].
  eapply chained_step; [done|apply equ_item; [done|by destruct l..]|cbn; lia|apply IH].
Qed.

(** What may follow a branch: nothing, or the colon of a choice. *)
Definition closes (r : list token) : Prop :=
  match r with [] => True | TOp o :: _ => o = u ":" | _ => False end.

Lemma closes_follows ops r : closes r -> includes ops (u ":") = false -> follows ops r.
Proof. destruct r as [|[] r]; try done. cbn. by intros ->. Qed.

Lemma parse_call f t r :
  closes r -> parse_expr (S (S f)) (call_tokens t ++ r) = Some (call_expr t, r).
Proof.
  intros Hr. pose proof (fun ops => closes_follows ops r Hr) as Hf.
  change (parse_expr (S (S f))) with (cond_level (parse_expr (S f))).
  apply reads_cond; [apply add_of_unary|..]; try (apply Hf; reflexivity).
  unfold call_tokens, call_expr. generalize (terms t). intros l. rewrite <-!app_assoc.
  eapply unary_call2; [done| | |cbn [app length]; lia].
  - change (parse_expr (S f)) with (cond_level (parse_expr f)).
    apply reads_cond; [by apply add_of_unary|done..].
  - change (parse_expr (S f)) with (cond_level (parse_expr f)).
    apply reads_cond; [by apply add_sum|done..].
Qed.

Lemma parse_choice ts : forall f,
  Forall (fun t => Forall (fun c => ci_op c ∈ COND_OPS) (vt_conditions t)) ts ->
  (length (choice_tokens ts) < f)%nat -> parse_expr f (choice_tokens ts) = Some (choice_expr ts, []).
Proof.
  induction ts as [|t ts IH]; intros f Hops Hf.
  - destruct f as [|f]; [lia|]. change (parse_expr (S f)) with (cond_level (parse_expr f)).
    apply reads_cond; [|done..]. by apply (add_sum _ (u "p", num_of_Z 0) [zero_term] []).
  - apply Forall_cons in Hops as [Ht Hops]. cbn [choice_tokens choice_expr] in *. destruct (vt_conditions t) as [|c l].
    + rewrite <-(app_nil_r (call_tokens t)). destruct f as [|[|f]]; [unfold call_tokens in Hf; cbn [app length] in Hf; lia..|]. by apply parse_call.
    + rewrite !length_app in Hf. cbn [length] in Hf. rewrite length_app in Hf. cbn [length] in Hf.
      destruct f as [|[|[|f]]]; [lia..|]. change (parse_expr (S (S (S f)))) with (cond_level (parse_expr (S (S f)))).
      eapply reads_choice; [by apply and_items|by apply parse_call|]. apply IH; [done|lia].
Qed.

(** ** Its value *)

Section value.
Context (promptTokens completionTokens : number) (values : ExtraTokenValues).

#[local] Abbreviation vars := (env promptTokens completionTokens values).
#[local] Abbreviation tokens := (tokens_of promptTokens completionTokens values).
#[local] Abbreviation holds := (cond_holds promptTokens completionTokens values).
#[local] Abbreviation evaluates e st r := (eval vars env_call e st = Some r).

Lemma env_get v :
  v ∈ BILLING_CONDITION_VARS ++ cacheVarNames -> map_get v vars = Some (VN (tokens v)).
Proof.
  intros Hv.
  let l := eval vm_compute in (BILLING_CONDITION_VARS ++ cacheVarNames) in
    change (BILLING_CONDITION_VARS ++ cacheVarNames) with l in Hv.
  rewrite !elem_of_cons, elem_of_nil in Hv. repeat destruct Hv as [->|Hv]; try reflexivity. done.
Qed.

Lemma eval_times vx st :
  vx.1 ∈ BILLING_CONDITION_VARS ++ cacheVarNames -> evaluates (times vx) st (VN (tokens vx.1 * vx.2)%num, st).
Proof. intros Hv. unfold times. cbn [eval]. rewrite env_get by done. reflexivity. Qed.

Lemma eval_sum l st : forall e x,
  Forall (fun vx => vx.1 ∈ BILLING_CONDITION_VARS ++ cacheVarNames) l -> evaluates e st (VN x, st) ->
  evaluates (sum_expr e l) st (VN (foldl (fun s vx => s + tokens vx.1 * vx.2)%num x l), st).
Proof.
  unfold sum_expr. induction l as [|vx l IH]; intros e x Hl He; [done|]. apply Forall_cons in Hl as [Hv Hl].
  cbn [foldl]. apply IH; [done|]. cbn [eval]. rewrite He. cbn [mbind option_bind].
  rewrite eval_times by done. reflexivity.
Qed.

Lemma terms_known t : Forall (fun vx => vx.1 ∈ BILLING_CONDITION_VARS ++ cacheVarNames) (terms t).
Proof.
  unfold terms. constructor; [by repeat constructor|]. apply Forall_forall.
  intros [v x] ([f w] & Hin & Hx)%list_elem_of_omap. cbn [fst snd] in *. destruct (extra_option t f); [|done].
  injection Hx as <- _. apply elem_of_app. right.
  exact (proj2 (list_elem_of_fmap snd _ w) (ex_intro _ (f, w) (conj eq_refl Hin))).
Qed.

Lemma eval_call t st : evaluates (call_expr t) st (VN (tier_cost promptTokens completionTokens values t), label t).
Proof.
  unfold call_expr. cbn [eval mbind option_bind].
  rewrite (eval_sum (terms t) st (times (base_term t)) (tokens (u "p") * input_unit_cost t)%num).
  - reflexivity.
  - apply terms_known.
  - apply eval_times. by repeat constructor.
Qed.

Definition known_cond (c : TierConditionInput) : Prop := ci_var c ∈ BILLING_CONDITION_VARS /\ ci_op c ∈ COND_OPS.

Lemma eval_item c st : known_cond c -> evaluates (item_expr c) st (VB (holds c), st).
Proof.
  intros [Hv Hop]. unfold item_expr, cond_holds. cbn [eval]. rewrite env_get by (apply elem_of_app; by left).
  generalize (tokens (ci_var c)). intros x. unfold COND_OPS in Hop. rewrite !elem_of_cons, elem_of_nil in Hop.
  by destruct Hop as [->|[->|[->|[->|[]]]]].
Qed.

Lemma eval_and l st : forall e b,
  Forall known_cond l -> evaluates e st (VB b, st) ->
  evaluates (and_expr e l) st (VB (b && forallb (holds) l), st).
Proof.
  unfold and_expr. induction l as [|c l IH]; intros e b Hl He; [by rewrite andb_true_r|]. apply Forall_cons in Hl as [Hc Hl].
  cbn [foldl forallb]. rewrite andb_assoc. apply IH; [done|]. cbn [eval]. rewrite He. cbn [mbind option_bind].
  rewrite bool_decide_eq_true_2 by done. cbn [to_bool]. destruct b; [by apply eval_item|done].
Qed.

Lemma zero_amount x y : or_zero (x * num_of_Z 0 + y * num_of_Z 0)%num = num_of_Z 0.
Proof. destruct x as [[]|[]| |[] m e], y as [[]|[]| |[] m' e']; reflexivity. Qed.

Lemma eval_choice ts :
  Forall (fun t => Forall known_cond (vt_conditions t)) ts ->
  exists v matched, evaluates (choice_expr ts) [] (v, matched) /\
    mkEval (or_zero (to_num v)) matched None = tier_result promptTokens completionTokens values ts.
Proof.
  unfold tier_result, first_tier. induction 1 as [|t ts Ht Hts IH].
  - do 2 eexists. split.
    + apply eval_sum; [by repeat constructor|]. apply eval_times. by repeat constructor.
    + cbn [to_num foldl fst snd List.find]. by rewrite zero_amount.
  - cbn [choice_expr List.find]. destruct (vt_conditions t) as [|c l]; [by do 2 eexists; split; [apply eval_call|]|].
    apply Forall_cons in Ht as [Hc Hl]. cbn [eval forallb]. rewrite (eval_and l [] _ _ Hl (eval_item c [] Hc)).
    cbn [mbind option_bind to_bool]. destruct (holds c && _); [by do 2 eexists; split; [apply eval_call|]|exact IH].
Qed.

End value.

(** ** The estimate of a generated expression *)

(** A table that the editor can show and JavaScript can read. *)
Definition estimable (cfg : VisualConfig) : bool :=
  canonical_config cfg && forallb tier_plain (tiers cfg) &&
  match version cfg with Some v => num_eq v (num_of_Z 1) || num_eq v (num_of_Z 2) | None => false end.

Lemma choice_end ts : exists s c, choice_text ts = s ++ [c] /\ is_ws c = false.
Proof.
  induction ts as [|t ts (s & c & E & Hc)]; [by exists (u "p * 0 + c * "), 48|].
  assert (exists s, call_text t = s ++ [41]) as [w Hw].
  { exists (uj "tier('" ++ label t ++ uj "', " ++ buildTierBodyExpr t). unfold call_text, tier_call. by rewrite <-!app_assoc. }
  cbn [choice_text]. destruct (vt_conditions t) as [|d l]; [by exists w, 41|].
  rewrite E. exists (conds_text (map cond_of (d :: l)) ++ u " ? " ++ call_text t ++ u " : " ++ s), c.
  by rewrite <-!app_assoc.
Qed.

Lemma choice_head t ts r :
  tier_ok t -> exists c s, choice_text (t :: ts) ++ r = c :: s /\ is_ws c = false.
Proof.
  intros Ht. cbn [choice_text]. pose proof (conds_ok _ (ok_conds t Ht)) as Hc.
  destruct (vt_conditions t) as [|c l]; [by do 2 eexists|]. cbn [map] in *. rewrite <-app_assoc.
  edestruct (cond_head (cond_of c) (map cond_of l)) as (x & s & -> & Hx); [done|]. exists x, s. split; [done|].
  by destruct Hx as [->|[->| ->]].
Qed.

Lemma trim_versioned v t ts :
  tier_ok t -> let e := applyExprVersion (mkConfig v (t :: ts)) (choice_text (t :: ts)) in trim e = e /\ truthy e = true.
Proof.
  intros Ht e. subst e. destruct (choice_end (t :: ts)) as (s & c & E & Hc). unfold applyExprVersion.
  destruct (num_gt _ _); cbn beta iota zeta.
  - split; [|done]. apply trim_id. split; [by intros x [= <-]|]. rewrite E, !app_assoc.
    intros x. rewrite last_snoc. by intros [= <-].
  - destruct (choice_head t ts [] Ht) as (x & s' & E' & Hx). rewrite app_nil_r in E'. split; [|by rewrite E'].
    apply trim_id. split; [rewrite E'; by intros y [= <-]|]. rewrite E. intros y. rewrite last_snoc. by intros [= <-].
Qed.

Lemma run_choice p c values ts :
  Forall tier_ok ts -> Forall (fun t => tier_plain t = true) ts ->
  (e ← parse (choice_text ts); '(v, matched) ← eval (env p c values) env_call e [];
   Some (mkEval (or_zero (to_num v)) matched None)) = Some (tier_result p c values ts).
Proof.
  intros Hok Hp.
  assert (Forall (fun t => Forall known_cond (vt_conditions t)) ts) as Hk.
  { eapply Forall_impl; [exact Hok|]. intros t Ht. eapply Forall_impl; [apply (ok_conds t Ht)|]. intros d Hd.
    unfold canonical_cond in Hd. rewrite !andb_true_iff, !includes_true in Hd. split; apply Hd. }
  unfold parse. rewrite (lexed_lex _ _ (lexed_choice ts Hok Hp)). cbn [mbind option_bind].
  rewrite parse_choice; [|eapply Forall_impl; [exact Hk|]; intros t Ht; by eapply Forall_impl; [exact Ht|]; intros d []|lia].
  destruct (eval_choice p c values ts Hk) as (v & matched & E & <-). cbn [mbind option_bind]. by rewrite E.
Qed.

Lemma estimate_canonical cfg p c values :
  estimable cfg = true ->
  evalExprLocally (generateExprFromVisualConfig (Some cfg)) p c values =
  Some (tier_result p c values (tiers cfg)).
Proof.
  unfold estimable. rewrite !andb_true_iff.
  intros [[(v & t & ts & -> & Hts & Hl & Hv)%canonical_config_spec Hp] Hver]. cbn [tiers version] in *.
  assert (Forall (fun t => tier_plain t = true) (t :: ts)) as Hpl.
  { apply Forall_forall. rewrite forallb_forall in Hp. intros x Hx%list_elem_of_In. by apply Hp. }
  destruct (version_roundtrip v (t :: ts) (expr_body (t :: ts)) Hv (proj1 (expr_head t ts Hts Hl))) as [Hsplit _].
  change (generateExprFromVisualConfig (Some (mkConfig (Some v) (t :: ts)))) with
    (applyExprVersion (mkConfig (Some v) (t :: ts)) (expr_body (t :: ts))).
  rewrite body_choice in Hsplit |- * by done.
  destruct (trim_versioned (Some v) t ts (proj1 (proj1 (Forall_cons _ _ _) Hts))) as [Htrim Htruthy].
  set (e := applyExprVersion _ _) in *. unfold evalExprLocally. rewrite Htrim, Htruthy. cbn [negb orb].
  unfold split_version in Hsplit. pose proof (run_choice p c values (t :: ts) Hts Hpl) as Hrun.
  destruct (re_match VERSION_REGEX e) as [m|].
  - pose proof (f_equal fst Hsplit) as H1. pose proof (f_equal snd Hsplit) as H2. cbn [fst snd] in H1, H2.
    rewrite H1, H2. apply orb_true_iff in Hver.
    destruct Hver as [-> | ->]; rewrite ?andb_false_r; exact Hrun.
  - pose proof (f_equal snd Hsplit) as H2. cbn [fst snd] in H2. rewrite H2. exact Hrun.
Qed.



End Estimate.
