(* ===== verification/DynamicPrice.v ===== *)
(** * Dynamic prices on the model pages
    (web/default/src/features/pricing/lib/dynamic-price.ts)

    A model with the billing mode [tiered_expr] carries its prices in an
    expression, joined with its request rules.  The pages split the two, parse
    the tiers and list the prices of the first one.  Splitting can throw
    ([result]), since the rules contain JSON literals. *)

From S2P Require Import Prelude JsString JsNumber JsJson JsRegex Currency PricingModels PricingPrice BillingExpr BillingRules TierExpr TierRoundtrip TierVisual TierDisplay.

Import Currency Pricing Price Billing Rules Tier TierText Visual Display.
Open Scope N_scope.

Module Dynamic.

Record DynamicPriceOptions := mkDynOptions {
  tokenUnit : TokenUnit;
  showRechargePrice : option bool;
  priceRate : option number;
  dyn_usdExchangeRate : option number;
  groupRatioMultiplier : option number;
}.

Record DynamicPriceEntry := mkEntry {
  entry_key : jsstr;
  entry_field : jsstr;
  entry_label : jsstr;
  entry_shortLabel : jsstr;
  entry_value : number;
  entry_formatted : jsstr;
  entry_variable : BillingVar;
}.

Record DynamicPricingSummary := mkSummary {
  sum_tiers : list ParsedTier;
  sum_tier : option ParsedTier;
  tierCount : nat;
  hasRequestRules : bool;
  isSpecialExpression : bool;
  rawExpression : jsstr;
  entries : list DynamicPriceEntry;
  primaryEntries : list DynamicPriceEntry;
  secondaryEntries : list DynamicPriceEntry;
}.

Definition PRIMARY_DYNAMIC_FIELDS : list jsstr := [u "inputPrice"; u "outputPrice"].

Definition is_primary (e : DynamicPriceEntry) : bool := includes PRIMARY_DYNAMIC_FIELDS (entry_field e).

Definition isDynamicPricingModel (model : PricingModel) : bool :=
  bool_decide (billing_mode model = Some (u "tiered_expr")) && truthy_opt (billing_expr model).

Section format.
Context `{Intl} (stored : option StoredCurrency).

Definition formatDynamicUnitPrice (valuePerMillionTokens : number) (options : DynamicPriceOptions) : jsstr :=
  let groupRatio := groupRatioMultiplier options ?? num_of_Z 1 in
  let rate := priceRate options ?? num_of_Z 1 in
  let exchange := dyn_usdExchangeRate options ?? num_of_Z 1 in
  let priceUSD := (valuePerMillionTokens * groupRatio / TOKEN_UNIT_DIVISORS (tokenUnit options))%num in
  let displayPrice := applyRechargeRate priceUSD (showRechargePrice options ?? false) rate exchange in
  formatBillingCurrencyFromUSD stored (Some displayPrice) (Some (mkFormat (Some 4%Z) (Some 6%Z) (Some false) None)).

Definition getDynamicPricingTiers (model : PricingModel) : result (list ParsedTier) :=
  if negb (isDynamicPricingModel model) then Ret []
  else
    res_bind (splitBillingExprAndRequestRules (or_str (billing_expr model ?? []) []))
      (fun '(billingExpr, _) => Ret (parseTiersFromExpr billingExpr)).

Definition hasDynamicRequestRules (model : PricingModel) : result bool :=
  if negb (isDynamicPricingModel model) then Ret false
  else
    res_bind (splitBillingExprAndRequestRules (or_str (billing_expr model ?? []) []))
      (fun '(_, requestRuleExpr) =>
         res_bind (tryParseRequestRuleExpr (or_str requestRuleExpr []))
           (fun rules => Ret (truthy_list (rules ?? [])))).

(** The entry of a variable, when the tier has a price for it. *)
Definition price_entry (tier : ParsedTier) (options : DynamicPriceOptions) (variable : BillingVar) : option DynamicPriceEntry :=
  match bv_field variable with
  | None => None
  | Some field =>
      if negb (truthy field) then None
      else
        let value := map_get field (pt_prices tier) ?? NaN in
        if negb (is_finite value) || num_le value (num_of_Z 0) then None
        else Some (mkEntry (bv_key variable) field (bv_label variable) (bv_shortLabel variable) value
                     (formatDynamicUnitPrice value options) variable)
  end.

Definition cmp_primary (a b : DynamicPriceEntry) : Z :=
  if negb (eqb (is_primary a) (is_primary b)) then if is_primary a then (-1)%Z else 1%Z else 0%Z.

Definition getDynamicPriceEntries (tier : option ParsedTier) (options : DynamicPriceOptions) : list DynamicPriceEntry :=
  match tier with
  | None => []
  | Some t => js_sort cmp_primary (omap (price_entry t options) BILLING_PRICING_VARS)
  end.

Definition getDynamicPricingSummary (model : PricingModel) (options : DynamicPriceOptions)
  : result (option DynamicPricingSummary) :=
  if negb (isDynamicPricingModel model) then Ret None
  else
    res_bind (getDynamicPricingTiers model) (fun tiers =>
    let tier := head tiers in
    let entries := getDynamicPriceEntries tier options in
    let rawExpression := or_str (billing_expr model ?? []) [] in
    res_bind (hasDynamicRequestRules model) (fun rules =>
    Ret (Some (mkSummary tiers tier (length tiers) rules
                 ((0 <? length (trim rawExpression))%nat && (length tiers =? 0)%nat)
                 rawExpression entries (bfilter is_primary entries)
                 (bfilter (fun e => negb (is_primary e)) entries))))).

End format.

(** ** Entries *)

Lemma sort_partition (l : list DynamicPriceEntry) :
  js_sort cmp_primary l = bfilter is_primary l ++ bfilter (fun e => negb (is_primary e)) l.
Proof.
  induction l as [|x l IH]; [done|]. change (js_sort cmp_primary (x :: l)) with (sort_insert cmp_primary x (js_sort cmp_primary l)).
  rewrite IH. clear IH. cbn [List.filter]. destruct (is_primary x) eqn:Hx; cbn [negb].
  - cbn [app]. destruct (bfilter is_primary l ++ _) as [|y r]; [done|]. cbn [sort_insert].
    assert ((cmp_primary x y <=? 0)%Z = true) as ->; [|done]. unfold cmp_primary. rewrite Hx. by destruct (is_primary y).
  - assert (forall y, y ∈ bfilter is_primary l -> is_primary y = true) as Hp.
    { intros y Hy. apply elem_of_bfilter in Hy. tauto. }
    assert (forall y, y ∈ bfilter (fun e => negb (is_primary e)) l -> is_primary y = false) as Hs.
    { intros y [_ Hy]%elem_of_bfilter. by apply negb_true_iff. }
    cbn [app]. revert Hp Hs. generalize (bfilter is_primary l) (bfilter (fun e => negb (is_primary e)) l). intros P S Hp Hs.
    induction P as [|y P IH]; cbn [app sort_insert].
    + destruct S as [|y S]; [done|]. cbn [sort_insert].
      assert ((cmp_primary x y <=? 0)%Z = true) as ->; [|done]. unfold cmp_primary. rewrite Hx, (Hs y) by left. done.
    + assert ((cmp_primary x y <=? 0)%Z = false) as ->.
      { unfold cmp_primary. rewrite Hx, (Hp y) by left. done. }
      f_equal. apply IH. intros z Hz. apply Hp. by right.
Qed.

Section summary.
Context `{Intl} (stored : option StoredCurrency) (options : DynamicPriceOptions).

Lemma entries_partition t :
  let l := getDynamicPriceEntries stored t options in
  l = bfilter is_primary l ++ bfilter (fun e => negb (is_primary e)) l.
Proof.
  destruct t as [t|]; [|done]. cbn zeta. cbn [getDynamicPriceEntries].
  rewrite sort_partition at 1. f_equal; rewrite sort_partition, List.filter_app.
  - rewrite bfilter_idemp, (bfilter_none is_primary (bfilter (fun e => negb (is_primary e)) _)); [by rewrite app_nil_r|].
    intros e [_ He]%elem_of_bfilter. by apply negb_true_iff.
  - rewrite bfilter_idemp, (bfilter_none _ (bfilter is_primary _)); [done|].
    intros e [_ He]%elem_of_bfilter. by rewrite He.
Qed.

(** The price list of a tier: one entry per price variable whose price is
    finite and positive, with that price; input and output come first, and
    within the two groups the entries keep the order of the variable table. *)
Theorem price_entries_spec t :
  let l := getDynamicPriceEntries stored (Some t) options in
  l = bfilter is_primary l ++ bfilter (fun e => negb (is_primary e)) l /\
  forall e, e ∈ l <-> exists v f, v ∈ BILLING_PRICING_VARS /\ bv_field v = Some f /\ f <> [] /\
    is_finite (entry_value e) = true /\ num_le (entry_value e) (num_of_Z 0) = false /\
    e = mkEntry (bv_key v) f (bv_label v) (bv_shortLabel v) (map_get f (pt_prices t) ?? NaN)
          (formatDynamicUnitPrice stored (map_get f (pt_prices t) ?? NaN) options) v.
Proof.
  cbn zeta. split; [apply (entries_partition (Some t))|]. cbn [getDynamicPriceEntries].
  intros e. rewrite elem_of_js_sort, list_elem_of_omap. split.
    + intros (v & Hv & He). unfold price_entry in He. destruct (bv_field v) as [f|] eqn:Hf; [|done].
      destruct (truthy f) eqn:Hne; [|done]. cbn [negb] in He.
      destruct (negb (is_finite _) || num_le _ _) eqn:E; [done|]. injection He as <-.
      apply orb_false_iff in E as [E1%negb_false_iff E2]. exists v, f. by destruct f.
    + intros (v & f & Hv & Hf & Hne & H1 & H2 & ->). exists v. split; [done|]. unfold price_entry. rewrite Hf.
      destruct f as [|c f]; [done|]. cbn [truthy negb]. cbn [entry_value] in H1, H2. by rewrite H1, H2.
Qed.

(** ** The editor's expressions can be joined with rules *)

Definition plain_labels (ts : list VisualTier) : bool := forallb (fun t => forallb no_paren (label t)) ts.

Lemma free_nested s : forallb no_paren s = true -> nested s.
Proof. intros Hs. by apply depth_run_free. Qed.

Lemma tier_call_nested lab body :
  forallb no_paren lab = true -> forallb no_paren body = true -> nested (tier_call lab body).
Proof.
  intros Hl Hb. unfold nested, tier_call. rewrite depth_run_app.
  change (depth_run 0 (uj "tier('")) with (Some 1%Z). cbn [mbind option_bind].
  rewrite depth_run_app, (depth_run_free 1 lab) by done. cbn [mbind option_bind].
  rewrite depth_run_app. change (depth_run 1 (uj "', ")) with (Some 1%Z). cbn [mbind option_bind].
  rewrite depth_run_app, (depth_run_free 1 body) by done. reflexivity.
Qed.

Lemma item_no_paren c : cond_ok c -> forallb no_paren (item_text c) = true.
Proof.
  intros (Hv & Hop & _ & Hl). unfold item_text. rewrite !forallb_app, !andb_true_iff.
  change BILLING_CONDITION_VARS with [u "p"; u "c"; u "len"] in Hv. unfold COND_OPS in Hop.
  rewrite !elem_of_cons, elem_of_nil in Hv. rewrite !elem_of_cons, elem_of_nil in Hop. split_and!.
  - by destruct Hv as [->|[->|[->|[]]]].
  - done.
  - by destruct Hop as [->|[->|[->|[->|[]]]]].
  - done.
  - by apply numeral_no_paren, limit_num.
Qed.

Lemma conds_no_paren l : Forall cond_ok l -> forallb no_paren (conds_text l) = true.
Proof.
  destruct l as [|c l]; [done|]. intros [Hc Hl]%Forall_cons. rewrite conds_text_cons, forallb_app, andb_true_iff.
  split; [by apply item_no_paren|]. induction Hl as [|c' l Hc' _ IH]; [done|]. cbn [map concat].
  unfold and_piece at 1. rewrite !forallb_app, !andb_true_iff. split_and!; [done|by apply item_no_paren|done].
Qed.

Lemma piece_nested t : tier_ok t -> forallb no_paren (label t) = true -> nested (piece_text (piece_of t)).
Proof.
  intros Ht Hlab. unfold piece_text, tier_text. cbn [piece_of p_conds p_label p_body]. apply nested_app.
  - apply free_nested. pose proof (conds_no_paren _ (conds_ok _ (ok_conds t Ht))) as Hc. unfold guard_of.
    destruct (map cond_of (vt_conditions t)); [done|]. by rewrite forallb_app, Hc.
  - apply tier_call_nested; [done|by apply body_no_paren].
Qed.

Lemma tail_nested ts :
  Forall tier_ok ts -> plain_labels ts = true -> nested (tail_text (map piece_of ts)).
Proof.
  induction ts as [|t ts IH]; intros Hts Hl; [done|]. apply Forall_cons in Hts as [Ht Hts].
  apply andb_true_iff in Hl as [Hlab Hl]. unfold tail_text. cbn [map concat].
  apply nested_app; [|by apply IH]. apply nested_app; [by apply free_nested|by apply piece_nested].
Qed.

Lemma expr_body_nested t ts :
  Forall tier_ok (t :: ts) -> config_layout (t :: ts) = true -> plain_labels (t :: ts) = true ->
  nested (expr_body (t :: ts)).
Proof.
  intros Hts Hl Hp. rewrite expr_body_pieces by done. apply Forall_cons in Hts as [Ht Hts].
  pose proof Hp as Hp'. apply andb_true_iff in Hp' as [Hlab Hp']. apply nested_app; [by apply piece_nested|].
  apply nested_app; [by apply tail_nested|]. unfold rest_text. destruct ts; [|done].
  by destruct (truthy_list _).
Qed.

(** The last unit of an expression: a closing parenthesis or the zero of the default. *)
Lemma piece_last t b : last (b ++ piece_text (piece_of t)) = Some 41.
Proof.
  unfold piece_text, tier_text, tier_call. rewrite !app_assoc, last_app. done.
Qed.

Lemma tail_last t ts b : last (b ++ piece_text (piece_of t) ++ tail_text (map piece_of ts)) = Some 41.
Proof.
  revert t b. induction ts as [|t' ts IH]; intros t b.
  - cbn [map]. unfold tail_text. cbn [map concat]. rewrite app_nil_r. apply piece_last.
  - unfold tail_text. cbn [map concat]. change (concat _) with (tail_text (map piece_of ts)).
    rewrite <-(app_assoc (u " : ")), !app_assoc, <-(app_assoc _ (piece_text (piece_of t'))). apply IH.
Qed.

Lemma separable_ends e c d :
  head e = Some c -> is_ws c = false -> c <> 40 -> last e = Some d -> d = 41 \/ d = 48 -> nested e -> separable e.
Proof.
  intros Hh Hc Hp Hl Hd Hn. split_and!.
  - by destruct e.
  - apply trim_id. split; intros x Hx; [congruence|]. rewrite Hl in Hx. injection Hx as <-. by destruct Hd as [->| ->].
  - done.
  - unfold ends_with. change (rev (u " : 1")) with (49 :: rev (u " : ")). destruct (rev e) as [|y r] eqn:E; [done|].
    cbn [starts_with].
    assert (y = d) as -> by (rewrite <-(rev_involutive e), E, last_rev in Hl; cbn in Hl; congruence).
    by destruct Hd as [->| ->].
  - unfold hasFullOuterParens. destruct e as [|x e]; [done|]. injection Hh as ->.
    change (u "(") with [40]. cbn [starts_with]. by rewrite (proj2 (N.eqb_neq 40 c)).
Qed.

Lemma expr_body_ends t ts :
  Forall tier_ok (t :: ts) -> config_layout (t :: ts) = true ->
  exists c d, head (expr_body (t :: ts)) = Some c /\ is_ws c = false /\ c <> 40 /\
              last (expr_body (t :: ts)) = Some d /\ (d = 41 \/ d = 48).
Proof.
  intros Hts Hl. rewrite expr_body_pieces by done. apply Forall_cons in Hts as [Ht _].
  assert (exists c, head (piece_text (piece_of t) ++ tail_text (map piece_of ts) ++ rest_text (t :: ts)) = Some c /\
                    is_ws c = false /\ c <> 40) as (c & Hh & Hc & Hp).
  { unfold piece_text, tier_text. cbn [piece_of p_conds p_label p_body]. rewrite <-app_assoc.
    pose proof (conds_ok _ (ok_conds t Ht)) as Hc. destruct (vt_conditions t) as [|c l]; [by eexists|].
    cbn [map guard_of] in Hc |- *. rewrite <-app_assoc.
    edestruct (cond_head (cond_of c) (map cond_of l)) as (x & s & -> & Hx); [done|]. exists x.
    by destruct Hx as [->|[->| ->]]. }
  pose proof (tail_last t ts []) as Hlast. cbn [app] in Hlast.
  exists c. unfold rest_text in *. destruct ts as [|t' ts]; [destruct (truthy_list (vt_conditions t))|].
  - exists 48. split_and!; [done..| |by right]. by rewrite !app_assoc, last_app.
  - exists 41. rewrite app_nil_r in *. split_and!; [done..|by left].
  - exists 41. rewrite app_nil_r in *. split_and!; [done..|by left].
Qed.

Lemma generated_separable cfg :
  canonical_config cfg = true -> plain_labels (tiers cfg) = true ->
  separable (generateExprFromVisualConfig (Some cfg)).
Proof.
  intros (v & t & ts & -> & Hts & Hl & Hv)%canonical_config_spec Hp. cbn [tiers] in Hp.
  change (generateExprFromVisualConfig (Some (mkConfig (Some v) (t :: ts)))) with
    (applyExprVersion (mkConfig (Some v) (t :: ts)) (expr_body (t :: ts))).
  destruct (expr_body_ends t ts Hts Hl) as (c & d & Hh & Hc & H40 & Hlast & Hd).
  pose proof (expr_body_nested t ts Hts Hl Hp) as Hn.
  unfold version_ok in Hv. rewrite !andb_true_iff, bool_decide_eq_true, orb_true_iff, !andb_true_iff, bool_decide_eq_true in Hv.
  destruct Hv as [Hmax Hv].
  change (applyExprVersion (mkConfig (Some v) (t :: ts)) (expr_body (t :: ts))) with
    (let w := num_max v (min_version (t :: ts)) in
     if num_gt w (num_of_Z 1) then u "v" ++ num_to_str w ++ u ":" ++ expr_body (t :: ts) else expr_body (t :: ts)).
  rewrite Hmax. cbn zeta. destruct Hv as [->|[[Hgt Hdig] _]].
  - change (num_gt (num_of_Z 1) (num_of_Z 1)) with false. by eapply separable_ends.
  - rewrite Hgt. apply (separable_ends _ 118 d); try done.
    + rewrite !app_assoc, last_app, Hlast. done.
    + apply nested_app; [done|]. apply nested_app; [|by apply nested_app].
      apply free_nested. revert Hdig. rewrite !forallb_forall. intros H0 x Hx. specialize (H0 x Hx).
      apply is_digit_range in H0. unfold no_paren. rewrite andb_true_iff, !negb_true_iff, !N.eqb_neq. lia.
Qed.

(** C6. From the editor to the model page: when a model is billed by a table's
    expression joined with at least one request rule, as the settings page
    stores them, its page shows the tiers that the editor reads ([as_read]) with
    their labels, conditions and prices, says that there are request rules, and
    lists the prices of the first tier; the rules themselves can be read from
    the stored text.  It holds for tables as in [display_reads_editor] whose
    labels have no parentheses, and rules of the kinds that are read back
    ([readable_group]: no comparison of a parameter). *)
Theorem summary_of_editor cfg gs model :
  canonical_config (as_read cfg) = true -> plain_labels (tiers (as_read cfg)) = true -> gs <> [] -> forallb readable_group gs = true ->
  let text := combineBillingExpr (generateExprFromVisualConfig (Some cfg)) (buildRequestRuleExpr gs) in
  billing_mode model = Some (u "tiered_expr") -> billing_expr model = Some text ->
  (exists b r, splitBillingExprAndRequestRules text = Ret (b, r) /\ tryParseRequestRuleExpr r = Ret (Some gs)) /\
  exists s, getDynamicPricingSummary stored model options = Ret (Some s) /\
    sum_tiers s = map display_tier (tiers (as_read cfg)) /\ tierCount s = length (tiers cfg) /\
    hasRequestRules s = true /\ isSpecialExpression s = false /\
    entries s = getDynamicPriceEntries stored (display_tier <$> head (tiers (as_read cfg))) options /\
    primaryEntries s ++ secondaryEntries s = entries s.
Proof.
  intros Hcfg Hlab Hne Hgs text Hmode Hexpr. unfold text in *. clear text. rewrite generate_as_read in * by done.
  assert (length (tiers cfg) = length (tiers (as_read cfg))) as -> by (symmetry; apply length_imap).
  generalize dependent (as_read cfg). clear cfg. intros cfg Hcfg Hlab Hexpr.
  pose proof (split_joined _ gs (generated_separable cfg Hcfg Hlab) Hne Hgs) as Hsplit.
  split; [do 2 eexists; split; [exact Hsplit|by apply parse_rules]|].
  set (e := combineBillingExpr _ _) in *.
  assert (exists x r, e = x :: r) as (x & r & He).
  { unfold e. rewrite combine_text by (try done; by apply generated_separable).
    destruct gs as [|g gs]; [done|]. cbn [map]. rewrite join_cons. by do 2 eexists. }
  assert (isDynamicPricingModel model = true) as Hdyn.
  { unfold isDynamicPricingModel. rewrite Hmode, Hexpr, He. done. }
  assert (or_str (billing_expr model ?? []) [] = e) as Hraw by (by rewrite Hexpr, He).
  assert (getDynamicPricingTiers model = Ret (map display_tier (tiers cfg))) as Ht.
  { unfold getDynamicPricingTiers. rewrite Hdyn, Hraw, Hsplit. cbn [negb res_bind]. by rewrite editor_shown. }
  assert (hasDynamicRequestRules model = Ret true) as Hr.
  { unfold hasDynamicRequestRules. rewrite Hdyn, Hraw, Hsplit. cbn [negb res_bind].
    assert (or_str (buildRequestRuleExpr gs) [] = buildRequestRuleExpr gs) as -> by (unfold or_str; by destruct (buildRequestRuleExpr gs)).
    rewrite parse_rules by done. cbn [res_bind]. by destruct gs. }
  unfold getDynamicPricingSummary. rewrite Hdyn, Ht. cbn [negb res_bind]. rewrite Hr. cbn [res_bind].
  eexists. split; [reflexivity|]. cbn [sum_tiers tierCount hasRequestRules isSpecialExpression entries primaryEntries secondaryEntries].
  apply canonical_config_spec in Hcfg as (v & t & ts & -> & _). cbn [tiers]. split_and!.
  - done.
  - by rewrite length_map.
  - done.
  - by rewrite length_map, andb_false_r.
  - done.
  - cbn [map head]. symmetry. apply entries_partition.
Qed.

End summary.

#[local] Existing Instance sample_intl.

Definition sample_dynamic : PricingModel :=
  mkModel 1 (u "m") None None None None None None None None 0 (num_of_Z 1) (num_of_Z 1)
    None None None None None None [] None None None None (Some (u "tiered_expr"))
    (Some (combineBillingExpr (generateExprFromVisualConfig (Some rough_config)) (buildRequestRuleExpr sample_groups))) None.

Definition sample_options : DynamicPriceOptions := mkDynOptions unit_M None None None None.

Lemma summary_of_editor_witness :
  exists s, getDynamicPricingSummary None sample_dynamic sample_options = Ret (Some s) /\
    sum_tiers s = map display_tier (tiers (as_read rough_config)) /\ hasRequestRules s = true.
Proof.
  destruct (summary_of_editor None sample_options rough_config sample_groups sample_dynamic) as (_ & s & Hs & Ht & _ & Hr & _).
  - vm_compute. reflexivity.
  - vm_compute. reflexivity.
  - discriminate.
  - vm_compute. reflexivity.
  - reflexivity.
  - reflexivity.
  - exists s. split; [exact Hs|]. split; [exact Ht|exact Hr].
Defined.

(** The summary of an expression with prices for several kinds of input. *)
Example multimodal_summary :
  let model := mkModel 1 (u "gemini-embedding-2") None None None None None None None None 0 (num_of_decimal 1 (-1)) (num_of_Z 1)
    None None None None None None [] None None None None (Some (u "tiered_expr"))
    (Some (uj "v2:tier('standard', p * 0.20 + img * 0.45 + doc * 0.45 + ai * 6.50 + vid * 12.00)")) None in
  match getDynamicPricingSummary None model sample_options with
  | Ret (Some s) => map (fun e => (entry_key e, entry_value e)) (entries s) =
      [(u "p", num_of_decimal 2 (-1)); (u "img", num_of_decimal 45 (-2)); (u "ai", num_of_decimal 65 (-1));
       (u "doc", num_of_decimal 45 (-2)); (u "vid", num_of_Z 12)] /\ isSpecialExpression s = false
  | _ => False
  end.
Proof. vm_compute. done. Qed.

End Dynamic.
