(* ===== verification/TierEditor.v ===== *)
(** * The editor of tiered prices
    (web/default/src/features/system-settings/models/tiered-pricing-editor.tsx)

    The component shows a billing expression as a table with request rules, or
    as text.  Its own state is [Editor]; the expressions belong to the page
    around it ([Props]) and are changed by callbacks.  A handler changes both;
    then React renders and runs the effects until nothing changes: [round] is
    one render (with the adjustment of the state during rendering) and the
    effects after it.  Splitting an expression can throw ([result]).

    Rows are edited through their index, which is that of a row on the screen;
    an index out of range changes nothing here. *)

From S2P Require Import Prelude JsString JsNumber JsJson JsRegex Currency PricingModels BillingExpr TierExpr.

Import Billing Tier.
Open Scope N_scope.

Module Tiered.

(** ** Number inputs *)

(** [value: number | string] *)
Definition formatNumberDraft (value : CondValue) : jsstr :=
  match value with
  | VStr s => s
  | VNum x => if is_finite x then num_to_str x else u "0"
  end.

Definition parseNumberDraft (value : jsstr) : number :=
  if negb (truthy (trim value)) then num_of_Z 0
  else let next := str_to_num value in if is_finite next then next else num_of_Z 0.

Definition isZeroDraft (value : jsstr) : bool := truthy (trim value) && num_eq (parseNumberDraft value) (num_of_Z 0).

(** The state of an input field: what is typed, and the value of the last
    rendering. *)
Record DraftNumberInput := mkDraft { draft : jsstr; focused : bool; prevValue : CondValue; prevFocused : bool }.

Definition same_value (a b : CondValue) : bool :=
  match a, b with
  | VNum x, VNum y => num_eq x y
  | VStr x, VStr y => bool_decide (x = y)
  | _, _ => false
  end.

Definition draft_mount (value : CondValue) : DraftNumberInput := mkDraft (formatNumberDraft value) false value false.

(** Rendering with a value from outside. *)
Definition draft_render (value : CondValue) (d : DraftNumberInput) : DraftNumberInput :=
  if negb (same_value (prevValue d) value) || xorb (prevFocused d) (focused d)
  then mkDraft (if focused d then draft d else formatNumberDraft value) (focused d) value (focused d)
  else d.

(** The new state and the number that is passed on. *)
Definition handleChange (nextDraft : jsstr) (d : DraftNumberInput) : DraftNumberInput * number :=
  (mkDraft nextDraft (focused d) (prevValue d) (prevFocused d), parseNumberDraft nextDraft).

Definition handleFocus (d : DraftNumberInput) : DraftNumberInput := mkDraft (draft d) true (prevValue d) (prevFocused d).

Definition handleBlur (d : DraftNumberInput) : DraftNumberInput * number :=
  let normalized := parseNumberDraft (draft d) in
  (mkDraft (num_to_str normalized) false (prevValue d) (prevFocused d), normalized).

Section hints.
Context `{Currency.Intl}.

Definition toLocaleString (x : number) : jsstr := Currency.intl_format (Currency.mkIntl None None None None None 3) x.

(** For a value that is there; [Number(s)] of a text. *)
Definition formatTokenHint (n : CondValue) : jsstr :=
  let v := match n with VNum x => x | VStr s => str_to_num s end in
  let empty := match n with VStr [] => true | _ => false end in
  if empty || is_nan v then []
  else if num_eq v (num_of_Z 0) then u "= 0"
  else if num_ge v (num_of_Z 1000000) then u "= " ++ toLocaleString (num_div v (num_of_Z 1000000)) ++ u "M tokens"
  else if num_ge v (num_of_Z 1000) then u "= " ++ toLocaleString (num_div v (num_of_Z 1000)) ++ u "K tokens"
  else u "= " ++ toLocaleString v ++ u " tokens".

End hints.

(** ** The card of a tier *)

Definition set_label (l : jsstr) (t : VisualTier) : VisualTier :=
  mkVT l (vt_conditions t) (input_unit_cost t) (output_unit_cost t) (cache_mode t) (extras t).
Definition set_conditions (cs : list TierConditionInput) (t : VisualTier) : VisualTier :=
  mkVT (label t) cs (input_unit_cost t) (output_unit_cost t) (cache_mode t) (extras t).

(** [array.filter((_, i) => i !== index)] *)
Definition without {A} (index : nat) (l : list A) : list A := take index l ++ drop (S index) l.

Definition handleConditionChange (conditionIndex : nat) (next : TierConditionInput) (t : VisualTier) : VisualTier :=
  set_conditions (<[conditionIndex := next]> (vt_conditions t)) t.

Definition handleConditionRemove (conditionIndex : nat) (t : VisualTier) : VisualTier :=
  set_conditions (without conditionIndex (vt_conditions t)) t.

(** [Number(x) || 0] *)
Definition priceToUnitCost (price : number) : number := or_zero price.
Definition unitCostToPrice (uc : number) : number := or_zero uc.

(** [{ ...tier, [field]: value }], for a field with a price *)
Definition handlePriceChange (field : jsstr) (value : number) (t : VisualTier) : VisualTier :=
  if bool_decide (field = u "input_unit_cost") then mkVT (label t) (vt_conditions t) value (output_unit_cost t) (cache_mode t) (extras t)
  else if bool_decide (field = u "output_unit_cost") then mkVT (label t) (vt_conditions t) (input_unit_cost t) value (cache_mode t) (extras t)
  else mkVT (label t) (vt_conditions t) (input_unit_cost t) (output_unit_cost t) (cache_mode t) (map_set field value (extras t)).

Definition cc1h_field : jsstr := u "cache_create_1h_unit_cost".

Definition handleCacheModeChange (mode : CacheMode) (t : VisualTier) : VisualTier :=
  let kept := match mode with CACHE_MODE_TIMED => map_get cc1h_field (extras t) ?? num_of_Z 0 | CACHE_MODE_GENERIC => num_of_Z 0 end in
  mkVT (label t) (vt_conditions t) (input_unit_cost t) (output_unit_cost t) mode (map_set cc1h_field kept (extras t)).

Definition hasMediaPricing (t : VisualTier) : bool :=
  existsb (fun v => num_gt (unitCostToPrice (map_get (bv_tierField v ?? []) (extras t) ?? num_of_Z 0)) (num_of_Z 0))
    (bfilter (fun v => bool_decide (bv_group v = Some (u "media"))) BILLING_EXTRA_VARS).

(** The section of the media prices: whether it is open, and whether there were
    such prices at the last rendering.  Prices that appear open it. *)
Record MediaSection := mkMedia { mediaOpen : bool; prevHasMediaPricing : bool }.

Definition media_mount (t : VisualTier) : MediaSection := mkMedia (hasMediaPricing t) (hasMediaPricing t).

Definition media_render (t : VisualTier) (m : MediaSection) : MediaSection :=
  if xorb (prevHasMediaPricing m) (hasMediaPricing t)
  then mkMedia (hasMediaPricing t || mediaOpen m) (hasMediaPricing t)
  else m.

(** ** The table *)

Definition set_tiers (ts : list VisualTier) (c : VisualConfig) : VisualConfig := mkConfig (version c) ts.

Definition handleTierChange (index : nat) (next : VisualTier) (config : VisualConfig) : VisualConfig :=
  set_tiers (<[index := normalizeVisualTier (partial_of next)]> (tiers config)) config.

Definition default_condition (v : jsstr) : TierConditionInput := mkTCI v (u "<") (VNum (num_of_Z 200000)).

(** The last tier gets a condition when it has none. *)
Definition close_last (ts : list VisualTier) : list VisualTier :=
  match last ts with
  | Some t =>
      match vt_conditions t with
      | [] => removelast ts ++ [normalizeVisualTier (partial_of (set_conditions [default_condition (u "len")] t))]
      | _ => ts
      end
  | None => ts
  end.

Definition new_tier (n : nat) : VisualTier :=
  normalizeVisualTier (mkPartialTier (Some (u "tier_" ++ N_to_str (N.of_nat (n + 1)))) (Some []) (Some (num_of_Z 0)) (Some (num_of_Z 0)) None []).

Definition handleAddTier (config : VisualConfig) : VisualConfig :=
  set_tiers (close_last (tiers config) ++ [new_tier (length (tiers config))]) config.

Definition handleRemoveTier (index : nat) (config : VisualConfig) : VisualConfig :=
  let ts := without index (tiers config) in
  set_tiers (match ts with [] => tiers config | _ => ts end) config.

Definition handleAddCondition (index : nat) (config : VisualConfig) : VisualConfig :=
  match tiers config !! index with
  | None => config
  | Some tier =>
      if (2 <=? length (vt_conditions tier))%nat then config
      else
        let nextVar := if existsb (fun c => bool_decide (ci_var c = u "len")) (vt_conditions tier) then u "c" else u "len" in
        set_tiers (<[index := set_conditions (vt_conditions tier ++ [default_condition nextVar]) tier]> (tiers config)) config
  end.

(** ** The rules *)

Definition getMatchLabel (mode : jsstr) : jsstr :=
  if bool_decide (mode = MATCH_EQ) then u "Equals"
  else if bool_decide (mode = MATCH_CONTAINS) then u "Contains"
  else if bool_decide (mode = MATCH_EXISTS) then u "Exists"
  else if bool_decide (mode = MATCH_GT) then u "Greater than"
  else if bool_decide (mode = MATCH_GTE) then u "Greater than or equal"
  else if bool_decide (mode = MATCH_LT) then u "Less than"
  else if bool_decide (mode = MATCH_LTE) then u "Less than or equal"
  else if bool_decide (mode = MATCH_RANGE) then u "Overnight range"
  else mode.

Definition getTimeFuncLabel (timeFunc : jsstr) : jsstr :=
  if bool_decide (timeFunc = u "hour") then u "Hour of day"
  else if bool_decide (timeFunc = u "minute") then u "Minute"
  else if bool_decide (timeFunc = u "weekday") then u "Weekday"
  else if bool_decide (timeFunc = u "month") then u "Month number"
  else if bool_decide (timeFunc = u "day") then u "Day of month"
  else timeFunc.

Definition sourceLabel (c : RequestCondition) : jsstr :=
  match c with
  | ParamHeaderCondition Param _ _ _ => u "Body param"
  | ParamHeaderCondition Header _ _ _ => u "Header"
  | TimeCondition _ _ _ _ _ _ => u "Time"
  end.

Definition handleSourceChange (source : jsstr) (c : RequestCondition) : RequestCondition :=
  if bool_decide (source = SOURCE_TIME) then createEmptyTimeCondition
  else if bool_decide (source = SOURCE_HEADER) then ParamHeaderCondition Header [] MATCH_EQ []
  else if bool_decide (source = u "param") then createEmptyCondition
  else c.

Definition handleRuleModeChange (mode : jsstr) (c : RequestCondition) : RequestCondition :=
  match c with
  | TimeCondition f tz _ v rs re => TimeCondition f tz mode v rs re
  | ParamHeaderCondition s p _ v => ParamHeaderCondition s p mode v
  end.

(** [onChange({ ...condition, field })] of the inputs of a row *)
Definition set_path (p : jsstr) (c : RequestCondition) : RequestCondition :=
  match c with ParamHeaderCondition s _ m v => ParamHeaderCondition s p m v | _ => c end.
Definition set_value (v : jsstr) (c : RequestCondition) : RequestCondition :=
  match c with
  | ParamHeaderCondition s p m _ => ParamHeaderCondition s p m v
  | TimeCondition f tz m _ rs re => TimeCondition f tz m v rs re
  end.
Definition set_time (f tz rs re : option jsstr) (c : RequestCondition) : RequestCondition :=
  match c with
  | TimeCondition f0 tz0 m v rs0 re0 => TimeCondition (f ?? f0) (tz ?? tz0) m v (rs ?? rs0) (re ?? re0)
  | _ => c
  end.

Definition handleRuleConditionChange (conditionIndex : nat) (next : RequestCondition) (g : RequestRuleGroup) : RequestRuleGroup :=
  mkGroup (<[conditionIndex := next]> (conditions g)) (multiplier g).

Definition handleAddRuleCondition (timeMode : bool) (g : RequestRuleGroup) : RequestRuleGroup :=
  mkGroup (conditions g ++ [if timeMode then createEmptyTimeCondition else createEmptyCondition]) (multiplier g).

Definition handleRemoveRuleCondition (conditionIndex : nat) (g : RequestRuleGroup) : RequestRuleGroup :=
  mkGroup (without conditionIndex (conditions g)) (multiplier g).

(** [String(value)] of the number of the input *)
Definition set_multiplier (value : number) (g : RequestRuleGroup) : RequestRuleGroup := mkGroup (conditions g) (num_to_str value).

(** ** The editor *)

Inductive EditorMode := visual | raw.

Record InitCycle := mkCycle { ic_model : option jsstr; ic_key : jsstr; armed : bool }.

Record Props := mkProps { modelName : option jsstr; currentExpr : jsstr; currentRequestRuleExpr : jsstr }.

Record Editor := mkEditor {
  editorMode : EditorMode;
  visualConfig : option VisualConfig;
  rawExpr : jsstr;
  requestRuleGroups : list RequestRuleGroup;
  initCycle : InitCycle;
}.

Definition exprKey (p : Props) : jsstr := currentExpr p ++ [0] ++ currentRequestRuleExpr p.

(** [tryParseRequestRuleExpr(expr) || []] *)
Definition rule_groups (expr : jsstr) : result (list RequestRuleGroup) :=
  res_bind (tryParseRequestRuleExpr expr) (fun o => Ret (o ?? [])).

Definition mount (p : Props) : result Editor :=
  let parsed := tryParseVisualConfig (Some (currentExpr p)) in
  let empty := negb (truthy (currentExpr p)) in
  res_bind (rule_groups (currentRequestRuleExpr p)) (fun groups =>
  Ret (mkEditor
    (match parsed with Some _ => visual | None => if empty then visual else raw end)
    (match parsed with Some c => Some c | None => if empty then Some createDefaultVisualConfig else None end)
    (combineBillingExpr (currentExpr p) (currentRequestRuleExpr p)) groups
    (mkCycle (modelName p) (exprKey p) true))).

Definition set_cycle (c : InitCycle) (e : Editor) : Editor :=
  mkEditor (editorMode e) (visualConfig e) (rawExpr e) (requestRuleGroups e) c.

(** The state is initialised again from the expressions. *)
Definition reseed (p : Props) (e : Editor) : result Editor :=
  res_bind (rule_groups (currentRequestRuleExpr p)) (fun groups =>
  let '(mode, cfg) :=
    match tryParseVisualConfig (Some (currentExpr p)) with
    | Some c => (visual, Some c)
    | None => if truthy (currentExpr p) then (raw, None) else (editorMode e, Some createDefaultVisualConfig)
    end in
  Ret (mkEditor mode cfg (combineBillingExpr (currentExpr p) (currentRequestRuleExpr p)) groups
         (mkCycle (modelName p) (exprKey p) false))).

Definition render (p : Props) (e : Editor) : result Editor :=
  if negb (bool_decide (modelName p = ic_model (initCycle e))) then Ret (set_cycle (mkCycle (modelName p) (exprKey p) true) e)
  else if armed (initCycle e) && negb (bool_decide (exprKey p = ic_key (initCycle e))) then reseed p e
  else Ret e.

(** Whether the cards of the rules are shown, or the note that they are too
    complex. *)
Definition canUseVisualRules (p : Props) : result bool :=
  if negb (truthy (currentRequestRuleExpr p)) then Ret true
  else res_bind (tryParseRequestRuleExpr (currentRequestRuleExpr p)) (fun o => Ret (bool_decide (is_Some o))).

Definition effectiveExpr (e : Editor) : result jsstr :=
  match editorMode e with
  | visual => Ret (generateExprFromVisualConfig (visualConfig e))
  | raw => res_bind (splitBillingExprAndRequestRules (rawExpr e)) (fun '(billingExpr, _) => Ret billingExpr)
  end.

(** [onRequestRuleExprChange] *)
Definition set_rule (r : jsstr) (p : Props) : Props := mkProps (modelName p) (currentExpr p) r.

(** The two effects; the second one only in visual mode. *)
Definition effects (p : Props) (e : Editor) : result Props :=
  res_bind (effectiveExpr e) (fun expr =>
  Ret (mkProps (modelName p) (if bool_decide (expr = currentExpr p) then currentExpr p else expr)
    (match editorMode e with
     | visual =>
         let ruleExpr := buildRequestRuleExpr (requestRuleGroups e) in
         if bool_decide (ruleExpr = currentRequestRuleExpr p) then currentRequestRuleExpr p else ruleExpr
     | raw => currentRequestRuleExpr p
     end))).

Definition round (s : Props * Editor) : result (Props * Editor) :=
  res_bind (render s.1 s.2) (fun e => res_bind (effects s.1 e) (fun p => Ret (p, e))).

(** Three rounds; more change nothing. *)
Definition settle (s : Props * Editor) : result (Props * Editor) := res_bind (round s) (fun s => res_bind (round s) round).

(** ** Handlers *)

Definition handleVisualChange (next : VisualConfig) (e : Editor) : Editor :=
  mkEditor (editorMode e) (Some next) (rawExpr e) (requestRuleGroups e) (initCycle e).

Definition handleRuleGroupsChange (next : list RequestRuleGroup) (e : Editor) : Editor :=
  mkEditor (editorMode e) (visualConfig e) (rawExpr e) next (initCycle e).

Definition handleRawChange (value : jsstr) (s : Props * Editor) : result (Props * Editor) :=
  let e := s.2 in
  res_bind (splitBillingExprAndRequestRules value) (fun '(_, ruleStr) =>
  Ret (set_rule ruleStr s.1, mkEditor (editorMode e) (visualConfig e) value (requestRuleGroups e) (initCycle e))).

Definition handleModeChange (next : EditorMode) (s : Props * Editor) : result (Props * Editor) :=
  let '(p, e) := s in
  match next with
  | visual =>
      res_bind (splitBillingExprAndRequestRules (rawExpr e)) (fun '(billingExpr, ruleStr) =>
      res_bind (rule_groups ruleStr) (fun groups =>
      let cfg := match tryParseVisualConfig (Some billingExpr) with Some c => c | None => createDefaultVisualConfig end in
      Ret (set_rule ruleStr p, mkEditor visual (Some cfg) (rawExpr e) groups (initCycle e))))
  | raw =>
      let expr := generateExprFromVisualConfig (visualConfig e) in
      let ruleExpr := buildRequestRuleExpr (requestRuleGroups e) in
      Ret (p, mkEditor raw (visualConfig e) (or_str (combineBillingExpr expr ruleExpr) expr) (requestRuleGroups e) (initCycle e))
  end.

Record Preset := mkPreset { pr_key : jsstr; pr_label : jsstr; pr_expr : jsstr; requestRules : list RequestRuleGroup }.

Definition applyPreset (preset : Preset) (s : Props * Editor) : Props * Editor :=
  let '(p, e) := s in
  let ruleExpr := buildRequestRuleExpr (requestRules preset) in
  let combined := or_str (combineBillingExpr (pr_expr preset) ruleExpr) (pr_expr preset) in
  let '(mode, cfg) := match tryParseVisualConfig (Some (pr_expr preset)) with Some c => (visual, Some c) | None => (raw, None) end in
  (set_rule ruleExpr p, mkEditor mode cfg combined (requestRules preset) (initCycle e)).

(** ** Presets *)

Definition PRESET_GROUPS : list (jsstr * list Preset) :=
  [(u "Fixed price",
    [mkPreset (u "flat") (u "Flat")
       (uj "tier('base', p * 2 + c * 4)") [];
     mkPreset (u "claude-opus") (u "Claude Opus 4.6")
       (uj "tier('base', p * 5 + c * 25 + cr * 0.5 + cc * 6.25 + cc1h * 10)") [];
     mkPreset (u "gpt-5.4") (u "GPT-5.4")
       (uj "len <= 272000 ? tier('standard', p * 2.5 + c * 15 + cr * 0.25) : tier('long_context', p * 5 + c * 22.5 + cr * 0.5)") []]);
   (u "Tiered",
    [mkPreset (u "claude-sonnet") (u "Claude Sonnet 4.5")
       (uj "len <= 200000 ? tier('standard', p * 3 + c * 15 + cr * 0.3 + cc * 3.75 + cc1h * 6) : tier('long_context', p * 6 + c * 22.5 + cr * 0.6 + cc * 7.5 + cc1h * 12)") [];
     mkPreset (u "qwen3-max") (u "Qwen3 Max")
       (uj "len <= 32000 ? tier('short', p * 1.2 + c * 6 + cr * 0.24 + cc * 1.5) : len <= 128000 ? tier('mid', p * 2.4 + c * 12 + cr * 0.48 + cc * 3) : tier('long', p * 3 + c * 15 + cr * 0.6 + cc * 3.75)") [];
     mkPreset (u "glm-4.5-air") (u "GLM-4.5 Air")
       (uj "len < 32000 && c < 200 ? tier('short_output', p * 0.8 + c * 2 + cr * 0.16) : len < 32000 && c >= 200 ? tier('long_output', p * 0.8 + c * 6 + cr * 0.16) : tier('mid_context', p * 1.2 + c * 8 + cr * 0.24)") [];
     mkPreset (u "doubao-seed-1.8") (u "Doubao Seed 1.8")
       (uj "len <= 32000 && c <= 200 ? tier('discount', p * 0.8 + c * 2 + cr * 0.16 + cc * 0.17) : len <= 32000 ? tier('short', p * 0.8 + c * 8 + cr * 0.16 + cc * 0.17) : len <= 128000 ? tier('mid', p * 1.2 + c * 16 + cr * 0.16 + cc * 0.17) : tier('long', p * 2.4 + c * 24 + cr * 0.16 + cc * 0.17)") []]);
   (u "Multimodal",
    [mkPreset (u "gpt-image-1-mini") (u "GPT Image 1 Mini")
       (uj "tier('base', p * 2 + c * 8 + img * 2.5)") [];
     mkPreset (u "gemini-2.5-flash") (u "Gemini 2.5 Flash")
       (uj "tier('base', p * 0.3 + c * 2.5 + cr * 0.03 + ai * 1.0)") [];
     mkPreset (u "gemini-embedding-2") (u "Gemini Embedding 2")
       (uj "v2:tier('standard', p * 0.20 + img * 0.45 + doc * 0.45 + ai * 6.50 + vid * 12.00)") [];
     mkPreset (u "gemini-3-pro-image") (u "Gemini 3 Pro Image")
       (uj "tier('base', p * 2 + c * 12 + img_o * 120)") [];
     mkPreset (u "qwen3-omni-flash") (u "Qwen3 Omni Flash")
       (uj "tier('base', p * 0.43 + c * 3.06 + img * 0.78 + ai * 3.81 + ao * 15.11)") []]);
   (u "Request rule",
    [mkPreset (u "claude-opus-fast") (u "Claude Opus 4.6 Fast")
       (uj "tier('base', p * 5 + c * 25 + cr * 0.5 + cc * 6.25 + cc1h * 10)") [mkGroup [ParamHeaderCondition Header (u "anthropic-beta") MATCH_CONTAINS (u "fast-mode-2026-02-01")] (u "6")];
     mkPreset (u "gpt-5.4-tiers") (u "GPT-5.4 Priority/Flex")
       (uj "len <= 272000 ? tier('standard', p * 2.5 + c * 15 + cr * 0.25) : tier('long_context', p * 5 + c * 22.5 + cr * 0.5)") [mkGroup [ParamHeaderCondition Param (u "service_tier") MATCH_EQ (u "priority")] (u "2");
        mkGroup [ParamHeaderCondition Param (u "service_tier") MATCH_EQ (u "flex")] (u "0.5")]]);
   (u "Time-based",
    [mkPreset (u "night-discount") (u "Night discount (50%)")
       (uj "tier('base', p * 3 + c * 15)") [mkGroup [TimeCondition (u "hour") (u "Asia/Shanghai") MATCH_RANGE [] (u "21") (u "6")] (u "0.5")];
     mkPreset (u "weekend-discount") (u "Weekend discount (80%)")
       (uj "tier('base', p * 3 + c * 15)") [mkGroup [TimeCondition (u "weekday") (u "Asia/Shanghai") MATCH_EQ (u "0") [] []] (u "0.8");
        mkGroup [TimeCondition (u "weekday") (u "Asia/Shanghai") MATCH_EQ (u "6") [] []] (u "0.8")]])].

(** The groups that are shown. *)
Definition visible_presets (expanded : bool) : list (jsstr * list Preset) := if expanded then PRESET_GROUPS else take 2 PRESET_GROUPS.

(** ** The page *)

(** What the user can do, and the page around the editor. *)
Inductive action :=
  | EditTier (index : nat) (f : VisualTier -> VisualTier)
  | AddTier | RemoveTier (index : nat) | AddCondition (index : nat)
  | EditGroup (index : nat) (f : RequestRuleGroup -> RequestRuleGroup)
  | AddGroup | RemoveGroup (index : nat)
  | RawChange (value : jsstr) | ModeChange (next : EditorMode) | ApplyPreset (preset : Preset)
  | SetName (name : option jsstr) | Load (billingExpr requestRuleExpr : jsstr).

Definition on_table (f : VisualConfig -> VisualConfig) (e : Editor) : Editor :=
  handleVisualChange (f (normalizeVisualConfig (visualConfig e))) e.

(** The table and the rules are on the screen in visual mode only, and the
    cards of the rules only when the rules are not too complex. *)
Definition act (a : action) (s : Props * Editor) : result (Props * Editor) :=
  let '(p, e) := s in
  let table f := Ret (p, match editorMode e with visual => on_table f e | raw => e end) in
  let groups f :=
    res_bind (canUseVisualRules p) (fun can =>
    Ret (p, match editorMode e with visual => if can : bool then handleRuleGroupsChange (f (requestRuleGroups e)) e else e | raw => e end)) in
  match a with
  | EditTier i f => table (fun c => match tiers c !! i with Some t => handleTierChange i (f t) c | None => c end)
  | AddTier => table handleAddTier
  | RemoveTier i => table (handleRemoveTier i)
  | AddCondition i => table (handleAddCondition i)
  | EditGroup i f => groups (fun gs => match gs !! i with Some g => <[i := f g]> gs | None => gs end)
  | AddGroup => groups (fun gs => gs ++ [createEmptyRuleGroup])
  | RemoveGroup i => groups (without i)
  | RawChange value => match editorMode e with raw => handleRawChange value s | visual => Ret s end
  | ModeChange next => handleModeChange next s
  | ApplyPreset preset => Ret (applyPreset preset s)
  | SetName name => Ret (mkProps name (currentExpr p) (currentRequestRuleExpr p), e)
  | Load b r => Ret (mkProps (modelName p) b r, e)
  end.

Definition step (a : action) (s : Props * Editor) : result (Props * Editor) := res_bind (act a s) settle.

Definition open (p : Props) : result (Props * Editor) := res_bind (mount p) (fun e => settle (p, e)).

Fixpoint run (actions : list action) (s : Props * Editor) : result (Props * Editor) :=
  match actions with [] => Ret s | a :: rest => res_bind (step a s) (run rest) end.

(** What the page saves. *)
Definition saved (s : Props * Editor) : jsstr := combineBillingExpr (currentExpr s.1) (currentRequestRuleExpr s.1).

End Tiered.
