(* ===== verification/TierEditorTheory.v ===== *)
(** * What holds of the editor of tiered prices

    The editor comes to rest after every action, what the page saves is what
    the editor shows, opening a record changes nothing and changing the mode
    loses nothing, for the tables and rules that can be read back.  The states
    where this fails are theorems too. *)

From S2P Require Import Prelude JsString JsNumber JsJson JsRegex Currency PricingModels BillingExpr BillingRules TierExpr TierRoundtrip TierVisual TierDisplay DynamicPrice TierEditor.

Import Billing Rules Tier TierText Visual Display Dynamic Tiered.
Open Scope N_scope.

Module TieredTheory.

(** ** Coming to rest *)

Lemma bind_Ret {A B} (m : result A) (f : A -> result B) b : res_bind m f = Ret b -> exists a, m = Ret a /\ f a = Ret b.
Proof. destruct m; [by eexists|done]. Qed.

Lemma if_same (a b : jsstr) : (if bool_decide (a = b) then b else a) = a.
Proof. by case_bool_decide. Qed.

(** The expressions the editor stands for. *)
Lemma effects_spec p e p' :
  effects p e = Ret p' ->
  effectiveExpr e = Ret (currentExpr p') /\ modelName p' = modelName p /\
  currentRequestRuleExpr p' =
    match editorMode e with visual => buildRequestRuleExpr (requestRuleGroups e) | raw => currentRequestRuleExpr p end.
Proof.
  unfold effects. intros (expr & -> & H)%bind_Ret. injection H as <-. cbn [currentExpr modelName currentRequestRuleExpr].
  rewrite if_same. split; [done|]. split; [done|]. destruct (editorMode e); [|done]. cbn zeta. by rewrite if_same.
Qed.

Lemma effects_again p e p' : effects p e = Ret p' -> effects p' e = Ret p'.
Proof.
  intros (H1 & H2 & H3)%effects_spec. unfold effects. rewrite H1. cbn [res_bind]. rewrite if_same.
  destruct p' as [n b r]. cbn [currentExpr modelName currentRequestRuleExpr] in *. destruct (editorMode e); [|done].
  cbn zeta. by rewrite if_same, H3.
Qed.

Lemma reseed_cycle p e e' : reseed p e = Ret e' -> initCycle e' = mkCycle (modelName p) (exprKey p) false.
Proof. unfold reseed. intros (gs & _ & H)%bind_Ret. destruct (match tryParseVisualConfig _ with Some _ => _ | None => _ end). by injection H as <-. Qed.

Lemma render_cycle p e e' :
  render p e = Ret e' -> ic_model (initCycle e') = modelName p /\ (armed (initCycle e') = true -> ic_key (initCycle e') = exprKey p).
Proof.
  unfold render. case_bool_decide as Hm; cbn [negb]; [|intros H; by injection H as <-].
  destruct (armed (initCycle e) && _) eqn:E.
  - intros H%reseed_cycle. by rewrite H.
  - intros H. injection H as <-. split; [done|]. intros Ha. rewrite Ha in E. cbn [andb] in E. by apply negb_false_iff, bool_decide_eq_true in E.
Qed.

(** Rendering that changes nothing. *)
Definition rests (p : Props) (e : Editor) : Prop :=
  ic_model (initCycle e) = modelName p /\ (armed (initCycle e) = true -> ic_key (initCycle e) = exprKey p).

Lemma render_rests p e : rests p e -> render p e = Ret e.
Proof.
  intros [Hm Hk]. unfold render. rewrite Hm, bool_decide_eq_true_2 by done. cbn [negb]. destruct (armed (initCycle e)); [|done].
  rewrite Hk, bool_decide_eq_true_2 by done. done.
Qed.

Lemma round_spec p e p' e' : round (p, e) = Ret (p', e') -> render p e = Ret e' /\ effects p e' = Ret p'.
Proof. unfold round. cbn [fst snd]. intros (e1 & H1 & (p1 & H2 & H)%bind_Ret)%bind_Ret. by injection H as <- <-. Qed.

Lemma round_rests p e : rests p e -> effects p e = Ret p -> round (p, e) = Ret (p, e).
Proof. intros Hr He. unfold round. cbn [fst snd]. rewrite render_rests by done. cbn [res_bind]. by rewrite He. Qed.

Lemma unarmed_rests p p' e : rests p e -> armed (initCycle e) = false -> modelName p' = modelName p -> rests p' e.
Proof. intros [Hm _] Ha Hp. split; [by rewrite Hp|]. by rewrite Ha. Qed.

(** After a round: at rest, or initialised again in the next one. *)
Lemma two_rounds p e p1 e1 p2 e2 :
  round (p, e) = Ret (p1, e1) -> round (p1, e1) = Ret (p2, e2) -> (round (p1, e1) = Ret (p1, e1)) \/ armed (initCycle e2) = false.
Proof.
  intros [Hr1 He1]%round_spec Hround. pose proof Hround as [Hr2 He2]%round_spec.
  destruct (effects_spec _ _ _ He1) as (_ & Hm1 & _). destruct (render_cycle _ _ _ Hr1) as [Hc1 Hk1].
  unfold render in Hr2. rewrite Hc1, Hm1, bool_decide_eq_true_2 in Hr2 by done. cbn [negb] in Hr2.
  destruct (armed (initCycle e1)) eqn:Ea; cbn [andb] in Hr2.
  - case_bool_decide as Hkey; cbn [negb] in Hr2; [|right; by rewrite (reseed_cycle _ _ _ Hr2)].
    injection Hr2 as <-. left. apply round_rests; [|by eapply effects_again]. split; [congruence|]. intros _. congruence.
  - injection Hr2 as <-. by right.
Qed.

Lemma settle_rests s s' : settle s = Ret s' -> round s' = Ret s'.
Proof.
  unfold settle. destruct s as [p e]. intros ([p1 e1] & H1 & ([p2 e2] & H2 & H3)%bind_Ret)%bind_Ret. destruct s' as [p3 e3].
  destruct (two_rounds _ _ _ _ _ _ H1 H2) as [Hfix|Ha].
  - rewrite Hfix in H2. injection H2 as <- <-. rewrite Hfix in H3. by injection H3 as <- <-.
  - pose proof H2 as [Hr2 He2]%round_spec. pose proof (render_cycle _ _ _ Hr2) as Hc2. destruct (effects_spec _ _ _ He2) as (_ & Hm & _).
    assert (rests p2 e2) as Hrest by (split; [by rewrite Hm; apply Hc2|by rewrite Ha]).
    rewrite round_rests in H3; [|done|by eapply effects_again]. injection H3 as <- <-. apply round_rests; [done|by eapply effects_again].
Qed.

(** A state at rest shows what the page holds. *)
Definition mirrors (s : Props * Editor) : Prop :=
  effectiveExpr s.2 = Ret (currentExpr s.1) /\
  (editorMode s.2 = visual -> currentRequestRuleExpr s.1 = buildRequestRuleExpr (requestRuleGroups s.2)).

Lemma round_mirrors s : round s = Ret s -> mirrors s.
Proof.
  destruct s as [p e]. intros [_ He]%round_spec. destruct (effects_spec _ _ _ He) as (H1 & _ & H3). split; [done|].
  cbn [fst snd]. intros Hv. by rewrite Hv in H3.
Qed.

(** ** The table is never empty *)

Definition table_ok (e : Editor) : Prop :=
  match visualConfig e with Some c => tiers c <> [] | None => editorMode e = raw end.

Lemma normalize_nonempty c : tiers (normalizeVisualConfig c) <> [].
Proof. destruct c as [[v [|t ts]]|]; done. Qed.

Lemma parse_nonempty s c : tryParseVisualConfig s = Some c -> tiers c <> [].
Proof.
  unfold tryParseVisualConfig. destruct (negb _); [done|]. destruct (split_version _) as [v body].
  destruct (re_match singleRe body); [intros H; by injection H as <-|].
  destruct (map visual_tier _) as [|t ts]; [done|]. destruct (negb (bool_decide _)); [done|]. intros H. by injection H as <-.
Qed.

Lemma mount_table p e : mount p = Ret e -> table_ok e.
Proof.
  unfold mount. intros (gs & _ & H)%bind_Ret. injection H as <-. unfold table_ok. cbn [visualConfig editorMode].
  destruct (tryParseVisualConfig _) eqn:E; [by apply parse_nonempty in E|]. by destruct (truthy _).
Qed.

Lemma render_table p e e' : table_ok e -> render p e = Ret e' -> table_ok e'.
Proof.
  intros He. unfold render. destruct (negb _); [intros H; by injection H as <-|]. destruct (_ && _); [|intros H; by injection H as <-].
  unfold reseed. intros (gs & _ & H)%bind_Ret. destruct (tryParseVisualConfig _) eqn:E.
  - injection H as <-. by apply parse_nonempty in E.
  - destruct (truthy _); by injection H as <-.
Qed.

Lemma round_table s s' : table_ok s.2 -> round s = Ret s' -> table_ok s'.2.
Proof. destruct s as [p e], s' as [p' e']. intros He [Hr _]%round_spec. by eapply render_table. Qed.

Lemma settle_table s s' : table_ok s.2 -> settle s = Ret s' -> table_ok s'.2.
Proof.
  unfold settle. intros Hs (s1 & H1 & (s2 & H2 & H3)%bind_Ret)%bind_Ret. do 3 (eapply round_table; [|eassumption]). done.
Qed.

Lemma tables_nonempty f e : table_ok e -> (forall c, tiers c <> [] -> tiers (f c) <> []) -> table_ok (on_table f e).
Proof. intros He Hf. unfold table_ok. cbn. apply Hf, normalize_nonempty. Qed.

Lemma insert_nonempty {A} i (x : A) l : l <> [] -> <[i := x]> l <> [].
Proof. intros Hl H. apply Hl. apply (f_equal length) in H. rewrite length_insert in H. by destruct l. Qed.

Lemma act_table a s s' : table_ok s.2 -> act a s = Ret s' -> table_ok s'.2.
Proof.
  destruct s as [p e]. intros He. cbn [snd] in He. unfold act.
  assert (forall f, (forall c, tiers c <> [] -> tiers (f c) <> []) ->
    table_ok (match editorMode e with visual => on_table f e | raw => e end)) as Ht.
  { intros f Hf. destruct (editorMode e); [by apply tables_nonempty|done]. }
  assert (forall f b, table_ok (match editorMode e with visual => if b : bool then handleRuleGroupsChange (f (requestRuleGroups e)) e else e | raw => e end)) as Hg.
  { intros f b. destruct (editorMode e) eqn:Em; [|done]. by destruct b; [unfold table_ok in *; cbn; rewrite Em in *|]. }
  destruct a as [i f| |i|i|i f| |i|v|m|pr|n|b r]; try (intros H; injection H as <-; cbn [snd]; apply Ht; intros c Hc).
  - destruct (tiers c !! i); [|done]. by apply insert_nonempty.
  - unfold handleAddTier. cbn. by destruct (close_last (tiers c)).
  - unfold handleRemoveTier. cbn. by destruct (without i (tiers c)).
  - unfold handleAddCondition. destruct (tiers c !! i); [|done]. destruct (_ <=? _)%nat; [done|]. by apply insert_nonempty.
  - intros (can & _ & H)%bind_Ret. injection H as <-. apply (Hg (fun gs => match gs !! i with Some g => <[i := f g]> gs | None => gs end) can).
  - intros (can & _ & H)%bind_Ret. injection H as <-. apply (Hg (fun gs => gs ++ [createEmptyRuleGroup]) can).
  - intros (can & _ & H)%bind_Ret. injection H as <-. apply (Hg (without i) can).
  - destruct (editorMode e) eqn:Em; [intros H; by injection H as <-|]. unfold handleRawChange.
    intros ([b r] & _ & H)%bind_Ret. injection H as <-. unfold table_ok in *. cbn. by rewrite Em in *.
  - destruct m; cbn [handleModeChange].
    + intros ([b r] & _ & (gs & _ & H)%bind_Ret)%bind_Ret. injection H as <-. unfold table_ok. cbn.
      destruct (tryParseVisualConfig _) eqn:E; [by apply parse_nonempty in E|done].
    + intros H. injection H as <-. unfold table_ok in *. cbn. by destruct (visualConfig e).
  - intros H. injection H as <-. unfold applyPreset. destruct (tryParseVisualConfig _) eqn:E; [by apply parse_nonempty in E|done].
  - intros H. by injection H as <-.
  - intros H. by injection H as <-.
Qed.

(** ** A table's expression has no factors at the top level *)

(** No asterisk outside parentheses, from a depth on. *)
Fixpoint star_free (d : Z) (s : jsstr) : bool :=
  match s with
  | [] => true
  | c :: r => negb ((paren_depth d c =? 0)%Z && (c =? 42)) && star_free (paren_depth d c) r
  end.

Lemma star_free_app a : forall d b, star_free d (a ++ b) = star_free d a && star_free (foldl paren_depth d a) b.
Proof. induction a as [|c a IH]; intros d b; [done|]. cbn [star_free app foldl]. by rewrite IH, andb_assoc. Qed.

(** Opaque to the splitting at [" * "]. *)
Lemma star_free_opaque a : nested a -> star_free 0 a = true -> last a <> Some 32 -> opaque (u " * ") a.
Proof.
  intros Hn Hs Hlast. split; [by apply depth_run_fold|]. intros t a1 c a2 -> Hz. change (u " * ") with [32; 42; 32].
  cbn [starts_with]. destruct (N.eqb_spec 32 c) as [<-|]; [|done]. cbn [andb].
  destruct a2 as [|y a2]; [by rewrite last_snoc in Hlast|]. cbn [app]. destruct (N.eqb_spec 42 y) as [<-|]; [|done].
  exfalso. change (a1 ++ 32 :: 42 :: a2) with (a1 ++ [32] ++ 42 :: a2) in Hs. rewrite app_assoc, star_free_app, Hz in Hs.
  by apply andb_true_iff in Hs as [_ Hs].
Qed.

Definition no_star (c : N) : bool := negb (c =? 42).

Lemma star_free_inside d s : (0 < d)%Z -> forallb no_paren s = true -> star_free d s = true /\ foldl paren_depth d s = d.
Proof.
  intros Hd. induction s as [|c s IH]; [done|]. cbn [forallb star_free foldl]. intros [Hc Hs]%andb_true_iff.
  rewrite paren_depth_free by done. rewrite (proj2 (Z.eqb_neq d 0)) by lia. by apply IH.
Qed.

Lemma star_free_top s : forallb no_paren s = true -> forallb no_star s = true -> star_free 0 s = true.
Proof.
  induction s as [|c s IH]; [done|]. cbn [forallb star_free]. intros [Hc Hs]%andb_true_iff [Hc' Hs']%andb_true_iff.
  rewrite paren_depth_free by done. unfold no_star in Hc'. rewrite (proj1 (negb_true_iff _) Hc'), andb_false_r. by apply IH.
Qed.

Lemma num_no_star s : forallb is_num_char s = true -> forallb no_star s = true.
Proof.
  rewrite !forallb_forall. intros H c Hc%H. unfold no_star. destruct (N.eqb_spec c 42) as [->|]; [|done]. discriminate Hc.
Qed.

Lemma digit_num_chars s : forallb is_digit s = true -> forallb is_num_char s = true.
Proof. rewrite !forallb_forall. intros H c Hc%H. unfold is_num_char. by rewrite Hc. Qed.

Lemma item_no_star c : cond_ok c -> forallb no_star (item_text c) = true.
Proof.
  intros (Hv & Hop & _ & Hl). unfold item_text. rewrite !forallb_app, !andb_true_iff.
  change BILLING_CONDITION_VARS with [u "p"; u "c"; u "len"] in Hv. unfold COND_OPS in Hop.
  rewrite !elem_of_cons, elem_of_nil in Hv. rewrite !elem_of_cons, elem_of_nil in Hop. split_and!; try done.
  - by destruct Hv as [->|[->|[->|[]]]].
  - by destruct Hop as [->|[->|[->|[->|[]]]]].
  - by apply num_no_star, limit_num.
Qed.

Lemma conds_no_star l : Forall cond_ok l -> forallb no_star (conds_text l) = true.
Proof.
  destruct l as [|c l]; [done|]. intros [Hc Hl]%Forall_cons. rewrite conds_text_cons, forallb_app, andb_true_iff.
  split; [by apply item_no_star|]. induction Hl as [|c' l Hc' _ IH]; [done|]. cbn [map concat].
  unfold and_piece at 1. rewrite !forallb_app, !andb_true_iff. split_and!; [done|by apply item_no_star|done].
Qed.

Lemma tier_call_free lab body :
  forallb no_paren lab = true -> forallb no_paren body = true -> star_free 0 (tier_call lab body) = true.
Proof.
  intros Hl Hb. unfold tier_call. rewrite star_free_app. change (foldl paren_depth 0%Z (uj "tier('")) with 1%Z.
  destruct (star_free_inside 1 lab) as [H1 H2]; [lia|done|]. rewrite star_free_app, H1, H2.
  rewrite star_free_app. change (foldl paren_depth 1%Z (uj "', ")) with 1%Z.
  destruct (star_free_inside 1 body) as [H3 H4]; [lia|done|]. by rewrite star_free_app, H3, H4.
Qed.

Lemma nested_free a b : nested a -> star_free 0 a = true -> star_free 0 b = true -> star_free 0 (a ++ b) = true.
Proof. intros Hn Ha Hb. rewrite star_free_app, Ha. by rewrite (depth_run_fold _ _ _ Hn). Qed.

Lemma piece_free t : tier_ok t -> forallb no_paren (label t) = true -> star_free 0 (piece_text (piece_of t)) = true.
Proof.
  intros Ht Hlab. unfold piece_text, tier_text. cbn [piece_of p_conds p_label p_body].
  pose proof (conds_ok _ (ok_conds t Ht)) as Hc. pose proof (conds_no_paren _ Hc). pose proof (conds_no_star _ Hc).
  assert (forallb no_paren (guard_of (map cond_of (vt_conditions t))) = true /\ forallb no_star (guard_of (map cond_of (vt_conditions t))) = true) as [Hp Hs].
  { unfold guard_of. destruct (map cond_of (vt_conditions t)); [done|]. rewrite !forallb_app. by split; apply andb_true_iff. }
  apply nested_free; [by apply free_nested|by apply star_free_top|]. apply tier_call_free; [done|by apply body_no_paren].
Qed.

Lemma tail_free ts : Forall tier_ok ts -> plain_labels ts = true -> star_free 0 (tail_text (map piece_of ts)) = true.
Proof.
  induction ts as [|t ts IH]; intros Hts Hl; [done|]. apply Forall_cons in Hts as [Ht Hts].
  apply andb_true_iff in Hl as [Hlab Hl]. unfold tail_text. cbn [map concat].
  apply nested_free; [| |by apply IH].
  - apply nested_app; [by apply free_nested|by apply piece_nested].
  - apply nested_free; [done..|by apply piece_free].
Qed.

(** The expression up to the default of a single tier with conditions. *)
Definition pieces_text (t : VisualTier) (ts : list VisualTier) : jsstr := piece_text (piece_of t) ++ tail_text (map piece_of ts).

Lemma pieces_free t ts :
  Forall tier_ok (t :: ts) -> plain_labels (t :: ts) = true -> nested (pieces_text t ts) /\ star_free 0 (pieces_text t ts) = true.
Proof.
  intros [Ht Hts]%Forall_cons Hp. pose proof Hp as Hp'. apply andb_true_iff in Hp' as [Hlab Hp'].
  split; [apply nested_app; [by apply piece_nested|by apply tail_nested]|].
  apply nested_free; [by apply piece_nested|by apply piece_free|by apply tail_free].
Qed.

Lemma generated_shape cfg :
  canonical_config cfg = true -> plain_labels (tiers cfg) = true ->
  exists e rest, generateExprFromVisualConfig (Some cfg) = e ++ rest /\ nested e /\ star_free 0 e = true /\ last e = Some 41 /\
    (rest = [] \/ rest = u " : " ++ zero_expr).
Proof.
  intros (v & t & ts & -> & Hts & Hl & Hv)%canonical_config_spec Hp. cbn [tiers] in Hp.
  destruct (pieces_free t ts Hts Hp) as [Hn Hs].
  assert (rest_text (t :: ts) = [] \/ rest_text (t :: ts) = u " : " ++ zero_expr) as Hr.
  { unfold rest_text. destruct ts; [destruct (truthy_list _)|]; auto. }
  assert (generateExprFromVisualConfig (Some (mkConfig (Some v) (t :: ts))) =
          let w := num_max v (min_version (t :: ts)) in
          (if num_gt w (num_of_Z 1) then u "v" ++ num_to_str w ++ u ":" else []) ++ expr_body (t :: ts)) as ->.
  { change (generateExprFromVisualConfig (Some (mkConfig (Some v) (t :: ts)))) with
      (let w := num_max v (min_version (t :: ts)) in
       if num_gt w (num_of_Z 1) then u "v" ++ num_to_str w ++ u ":" ++ expr_body (t :: ts) else expr_body (t :: ts)).
    cbn zeta. destruct (num_gt _ _); [by rewrite <-!app_assoc|done]. }
  rewrite expr_body_pieces by done. cbn zeta. rewrite (app_assoc (piece_text _)). change (piece_text _ ++ tail_text _) with (pieces_text t ts).
  unfold version_ok in Hv. rewrite !andb_true_iff, bool_decide_eq_true, orb_true_iff, !andb_true_iff, bool_decide_eq_true in Hv.
  destruct Hv as [-> Hv]. set (pre := if num_gt v _ then _ else _).
  assert (nested pre /\ star_free 0 pre = true) as [Hpn Hps].
  { unfold pre. destruct Hv as [->|[[-> Hdig] _]]; [done|].
    assert (forallb is_num_char (num_to_str v) = true) as Hnum by (by apply digit_num_chars).
    split; [|apply star_free_top; rewrite !forallb_app, !andb_true_iff; split_and!; try done; [by apply numeral_no_paren|by apply num_no_star]].
    apply free_nested. rewrite !forallb_app, !andb_true_iff. split_and!; try done. by apply numeral_no_paren. }
  exists (pre ++ pieces_text t ts), (rest_text (t :: ts)). split_and!; [by rewrite app_assoc|by apply nested_app|by apply nested_free| |done].
  rewrite last_app. pose proof (tail_last t ts []) as Ht. change ([] ++ piece_text (piece_of t) ++ tail_text (map piece_of ts)) with (pieces_text t ts) in Ht. by rewrite Ht.
Qed.

(** Only a text that ends in ["1)"] is a rule. *)
Lemma opaque_not_rule e c : opaque (u " * ") e -> trim e = e -> truthy e = true -> last e = Some c -> c <> 41 -> is_rule_part e = Ret false.
Proof.
  intros Ho Ht Hne Hl Hc. unfold is_rule_part, tryParseRequestRuleExpr, splitTopLevelMultiply. rewrite Ht, Hne. cbn [negb].
  pose proof (split_top_join 32 (u "* ") [e] eq_refl ltac:(done)) as Hs. cbn [join map] in Hs.
  change (32 :: u "* ") with (u " * ") in Hs. rewrite Hs by (by constructor). rewrite Ht. cbn [bfilter filter]. rewrite Hne.
  cbn [collect]. unfold tryParseRuleGroupFactor. destruct (re_match rule_factor_re e) as [m|] eqn:Hm; [|done]. exfalso.
  apply rule_factor_ends in Hm as (w & Hw). rewrite Hw, app_assoc, last_app_ne in Hl by done. by apply Hc; injection Hl.
Qed.

Lemma split_single e : opaque (u " * ") e -> trim e = e -> truthy e = true -> splitBillingExprAndRequestRules e = Ret (e, []).
Proof.
  intros Ho Ht Hne. unfold splitBillingExprAndRequestRules, splitTopLevelMultiply. rewrite Ht, Hne. cbn [negb].
  pose proof (split_top_join 32 (u "* ") [e] eq_refl ltac:(done)) as Hs. cbn [join map] in Hs.
  change (32 :: u "* ") with (u " * ") in Hs. rewrite Hs by (by constructor). rewrite Ht. cbn [bfilter filter]. by rewrite Hne.
Qed.

(** The default of a single tier with conditions is split at its products,
    but no part is a rule. *)
Lemma split_default e :
  nested e -> star_free 0 e = true -> last e = Some 41 -> trim (e ++ u " : " ++ zero_expr) = e ++ u " : " ++ zero_expr ->
  splitBillingExprAndRequestRules (e ++ u " : " ++ zero_expr) = Ret (e ++ u " : " ++ zero_expr, []).
Proof.
  intros Hn Hs Hl Ht. set (a := e ++ u " : p").
  assert (e ++ u " : " ++ zero_expr = join (u " * ") [a; u "0 + c"; u "0"]) as Hj.
  { change (join (u " * ") [a; u "0 + c"; u "0"]) with (a ++ u " * 0 + c * 0"). unfold a. by rewrite <-app_assoc. }
  assert (opaque (u " * ") a) as Ha.
  { apply star_free_opaque; [by apply nested_app|by apply nested_free|]. unfold a. by rewrite last_app. }
  assert (Forall (opaque (u " * ")) [a; u "0 + c"; u "0"]) as Hall.
  { apply Forall_cons. split; [done|]. apply Forall_cons. split; [by apply star_free_opaque|]. apply Forall_cons. split; [by apply star_free_opaque|constructor]. }
  assert (trim a = a) as Hta.
  { apply trim_id. split; intros c Hc; [|unfold a in Hc; rewrite last_app in Hc; cbn in Hc; by injection Hc as <-].
    pose proof (trim_ends (e ++ u " : " ++ zero_expr)) as [Hh _]. rewrite Ht in Hh. apply Hh. unfold a in Hc. by destruct e. }
  assert (truthy a = true) as Hna by (unfold a; by destruct e).
  unfold splitBillingExprAndRequestRules. rewrite Ht, Hj. unfold splitTopLevelMultiply.
  rewrite (split_top_join 32 (u "* ")) by done. rewrite <-Hj. cbn [map]. rewrite Hta.
  change (trim (u "0 + c")) with (u "0 + c"). change (trim (u "0")) with (u "0").
  assert (truthy (e ++ u " : " ++ zero_expr) = true) as -> by (by destruct e). cbn [negb].
  rewrite bfilter_all by (intros x Hx; rewrite !elem_of_cons, elem_of_nil in Hx; by destruct Hx as [->|[->|[->|[]]]]). change (length [a; u "0 + c"; u "0"] <=? 1)%nat with false. cbn iota.
  assert (sort_parts [a; u "0 + c"; u "0"] = Ret ([], [a; u "0 + c"; u "0"])) as ->; [|done].
  cbn [sort_parts]. rewrite (opaque_not_rule a 112); [|done|done|done| |done]; [|unfold a; by rewrite last_app].
  change (is_rule_part (u "0 + c")) with (Ret false : result bool). by change (is_rule_part (u "0")) with (Ret false : result bool).
Qed.

Lemma split_alone cfg :
  canonical_config cfg = true -> plain_labels (tiers cfg) = true ->
  splitBillingExprAndRequestRules (generateExprFromVisualConfig (Some cfg)) = Ret (generateExprFromVisualConfig (Some cfg), []).
Proof.
  intros Hc Hp. destruct (generated_separable cfg Hc Hp) as (Hne & Ht & _).
  destruct (generated_shape cfg Hc Hp) as (e & rest & He & Hn & Hs & Hl & Hr). rewrite He in *. destruct Hr as [->| ->].
  - rewrite app_nil_r in *. apply split_single; [|done|by destruct e]. apply star_free_opaque; [done..|]. by rewrite Hl.
  - by apply split_default.
Qed.

(** What the editor stands for comes apart into its table and its rules. *)
Lemma split_editor cfg gs :
  canonical_config cfg = true -> plain_labels (tiers cfg) = true -> forallb readable_group gs = true ->
  let e := combineBillingExpr (generateExprFromVisualConfig (Some cfg)) (buildRequestRuleExpr gs) in
  splitBillingExprAndRequestRules e = Ret (generateExprFromVisualConfig (Some cfg), buildRequestRuleExpr gs) /\ truthy e = true.
Proof.
  intros Hc Hp Hg e. pose proof (generated_separable cfg Hc Hp) as Hsep. pose proof Hsep as (Hne & Ht & _).
  destruct gs as [|g gs].
  - assert (e = generateExprFromVisualConfig (Some cfg)) as ->.
    { unfold e, combineBillingExpr. rewrite Ht. by destruct (generateExprFromVisualConfig (Some cfg)). }
    split; [by apply split_alone|]. by destruct (generateExprFromVisualConfig (Some cfg)).
  - split; [by apply split_joined|]. unfold e. rewrite combine_text by done. by cbn [map]; rewrite join_cons.
Qed.

(** ** Tables that are shown and saved *)

(** What a state shows in visual mode: a table whose text can be read back, with
    labels without parentheses, and rules of the kinds that are read back. *)
Definition shows (s : Props * Editor) (cfg : VisualConfig) (gs : list RequestRuleGroup) : Prop :=
  editorMode s.2 = visual /\ visualConfig s.2 = Some cfg /\ requestRuleGroups s.2 = gs /\
  canonical_config (as_read cfg) = true /\ plain_labels (tiers (as_read cfg)) = true /\ forallb readable_group gs = true.

Lemma shows_saved s cfg gs :
  mirrors s -> shows s cfg gs ->
  currentExpr s.1 = generateExprFromVisualConfig (Some (as_read cfg)) /\ currentRequestRuleExpr s.1 = buildRequestRuleExpr gs.
Proof.
  intros [He Hr] (Hm & Hc & Hg & Hcan & _). unfold effectiveExpr in He. rewrite Hm, Hc in He. injection He as He.
  rewrite (Hr Hm), Hg, <-He. split; [by apply generate_as_read|done].
Qed.

(** ** Runs *)

Lemma step_rests a s s' : step a s = Ret s' -> round s' = Ret s'.
Proof. unfold step. intros (s1 & _ & H)%bind_Ret. by eapply settle_rests. Qed.

Lemma step_table a s s' : table_ok s.2 -> step a s = Ret s' -> table_ok s'.2.
Proof. unfold step. intros Hs (s1 & H1 & H2)%bind_Ret. eapply settle_table; [|done]. by eapply act_table. Qed.

Lemma open_rests p s : open p = Ret s -> round s = Ret s /\ table_ok s.2.
Proof.
  unfold open. intros (e & He & H)%bind_Ret. split; [by eapply settle_rests|]. eapply settle_table; [|done]. by eapply mount_table.
Qed.

Lemma run_rests l : forall s s', round s = Ret s /\ table_ok s.2 -> run l s = Ret s' -> round s' = Ret s' /\ table_ok s'.2.
Proof.
  induction l as [|a l IH]; intros s s' Hs; cbn [run]; [intros H; by injection H as <-|].
  intros (s1 & H1 & H2)%bind_Ret. eapply IH; [|done]. split; [by eapply step_rests|]. eapply step_table; [|done]. apply Hs.
Qed.

(** The states the editor can be in. *)
Definition session (p : Props) (l : list action) : result (Props * Editor) := res_bind (open p) (run l).

Lemma run_app l l' : forall s, run (l ++ l') s = res_bind (run l s) (run l').
Proof. induction l as [|a l IH]; intros s; [done|]. simpl. destruct (step a s); simpl; [apply IH|done]. Qed.

(** A session goes on from the state it has reached. *)
Lemma session_app p l l' s : session p l = Ret s -> session p (l ++ l') = run l' s.
Proof. unfold session. destruct (open p) as [s0|]; [|done]. simpl. intros Hs. by rewrite run_app, Hs. Qed.

Lemma session_rests p l s : session p l = Ret s -> round s = Ret s /\ table_ok s.2.
Proof. unfold session. intros (s0 & H0 & H)%bind_Ret. eapply run_rests; [|done]. by eapply open_rests. Qed.

Lemma round_at_rest p e p' e' : round (p, e) = Ret (p, e) -> initCycle e' = initCycle e -> modelName p' = modelName p ->
  exprKey p' = exprKey p -> rests p' e'.
Proof.
  intros [Hr _]%round_spec Hi Hm Hk. destruct (render_cycle _ _ _ Hr) as [H1 H2]. unfold rests. rewrite Hi, Hm, Hk. done.
Qed.

Lemma settle_at_rest s : round s = Ret s -> settle s = Ret s.
Proof. intros H. unfold settle. do 2 (rewrite H; cbn [res_bind]). done. Qed.

(** A state with the same cycle and page, whose expressions are those of the
    page, is at rest. *)
Lemma still p e e' :
  round (p, e) = Ret (p, e) -> initCycle e' = initCycle e -> effectiveExpr e' = Ret (currentExpr p) ->
  (editorMode e' = visual -> currentRequestRuleExpr p = buildRequestRuleExpr (requestRuleGroups e')) ->
  settle (p, e') = Ret (p, e').
Proof.
  intros Hr Hi He Hg. apply settle_at_rest, round_rests; [by eapply round_at_rest|]. unfold effects. rewrite He. cbn [res_bind].
  rewrite bool_decide_eq_true_2 by done. destruct p as [n b r]. cbn [currentExpr modelName currentRequestRuleExpr] in *.
  destruct (editorMode e'); [|done]. cbn zeta. by rewrite Hg, if_same.
Qed.

(** C9. Whatever record is opened and whatever the user does, the editor comes to
    rest: another rendering with its effects changes nothing.  At rest the page
    holds the expression that the table or the text stands for.  In visual mode
    it also holds the rules of the cards; in raw mode nothing is said of its
    rules, which stay as they were.  The table has at least one tier, and is
    missing only in raw mode.  (Actions that throw end the session.) *)
Theorem editor_invariant p l s :
  session p l = Ret s -> round s = Ret s /\ mirrors s /\ table_ok s.2.
Proof. intros [Hr Ht]%session_rests. split; [done|]. split; [by apply round_mirrors|done]. Qed.

(** C10. In visual mode, what the page saves for the table and the rules on the
    screen is taken apart into an expression and rules that are read as that
    table, as [as_read] shows it, and those rules.  It holds for tables whose
    labels have no quotation mark and no parenthesis, in which every tier but
    the last of several has a complete condition and all numbers can be read
    back from their text, and for rules of the kinds that are read back, which
    a comparison of a parameter is not ([shows]). *)
Theorem saved_read_back p l s cfg gs :
  session p l = Ret s -> shows s cfg gs ->
  exists b r, splitBillingExprAndRequestRules (saved s) = Ret (b, r) /\
    tryParseVisualConfig (Some b) = Some (as_read cfg) /\ tryParseRequestRuleExpr r = Ret (Some gs).
Proof.
  intros [Hr%round_mirrors _]%session_rests Hs. destruct (shows_saved _ _ _ Hr Hs) as [He Hg].
  destruct Hs as (_ & _ & _ & Hcan & Hp & Hgs). unfold saved. rewrite He, Hg.
  destruct (split_editor (as_read cfg) gs Hcan Hp Hgs) as [H _]. do 2 eexists. split; [exact H|].
  split; [by apply parse_generated|by apply parse_rules].
Qed.

(** C11. For a table and rules that can be read back (as in [saved_read_back]),
    showing the text and going back to the table loses nothing: the text is
    what the page saves, the page's expressions stay as they were, and
    afterwards the rules and the table, as [as_read] shows it, are on the
    screen. *)
Theorem modes_keep p l s cfg gs :
  session p l = Ret s -> shows s cfg gs ->
  exists s1 s2, step (ModeChange raw) s = Ret s1 /\ rawExpr s1.2 = saved s /\ s1.1 = s.1 /\
    step (ModeChange visual) s1 = Ret s2 /\ s2.1 = s.1 /\ shows s2 (as_read cfg) gs.
Proof.
  intros [Hr _]%session_rests Hs. pose proof (round_mirrors _ Hr) as Hm. destruct (shows_saved _ _ _ Hm Hs) as [He Hg].
  destruct s as [q e]. cbn [fst snd] in *. pose proof Hs as (Hmode & Hc & Hgr & Hcan & Hp & Hgs). cbn [fst snd] in *.
  destruct (split_editor (as_read cfg) gs Hcan Hp Hgs) as [Hsplit Htruthy]. set (t := combineBillingExpr _ _) in *.
  set (e1 := mkEditor raw (visualConfig e) t (requestRuleGroups e) (initCycle e)).
  set (e2 := mkEditor visual (Some (as_read cfg)) t gs (initCycle e)).
  assert (step (ModeChange raw) (q, e) = Ret (q, e1)) as H1.
  { unfold step, act. cbn [handleModeChange res_bind]. rewrite Hc, Hgr, generate_as_read by done.
    change (combineBillingExpr _ _) with t. unfold or_str. rewrite Htruthy, <-Hc, <-Hgr. change (mkEditor raw _ _ _ _) with e1.
    apply (still q e e1 Hr); [done| |done]. unfold effectiveExpr. cbn [editorMode rawExpr e1]. rewrite Hsplit. cbn [res_bind]. by rewrite He. }
  assert (step (ModeChange visual) (q, e1) = Ret (q, e2)) as H2.
  { unfold step, act. cbn [handleModeChange]. change (rawExpr e1) with t. rewrite Hsplit. cbn [res_bind]. unfold rule_groups.
    rewrite parse_rules by done. cbn [res_bind]. rewrite parse_generated by done. rewrite <-Hg. change (set_rule (currentRequestRuleExpr q) q) with (mkProps (modelName q) (currentExpr q) (currentRequestRuleExpr q)).
    assert (mkProps (modelName q) (currentExpr q) (currentRequestRuleExpr q) = q) as -> by (by destruct q).
    apply (still q e e2 Hr); [done| |done]. unfold effectiveExpr. cbn [editorMode visualConfig e2]. by rewrite He. }
  exists (q, e1), (q, e2). split_and!; [done| |done|done|done|].
  - unfold saved. cbn [fst snd e1 rawExpr]. by rewrite He, Hg.
  - unfold shows. cbn [fst snd e2 editorMode visualConfig requestRuleGroups]. split_and!; try done.
    all: by rewrite as_read_id.
Qed.

(** Opening a record that holds a table and rules as the editor prints them
    shows that table and those rules and changes nothing on the page. *)
Theorem open_unchanged n cfg gs :
  canonical_config cfg = true -> forallb readable_group gs = true ->
  let p := mkProps n (generateExprFromVisualConfig (Some cfg)) (buildRequestRuleExpr gs) in
  exists e, session p [] = Ret (p, e) /\ editorMode e = visual /\ visualConfig e = Some cfg /\ requestRuleGroups e = gs.
Proof.
  intros Hc Hg p. unfold session, open, mount, rule_groups. cbn [currentExpr currentRequestRuleExpr p]. rewrite parse_rules by done. cbn [res_bind].
  rewrite parse_generated by done. change (Some gs ?? []) with gs. set (e := mkEditor _ _ _ _ _). exists e. split; [|done].
  assert (rests p e) as Hr by done. assert (effects p e = Ret p) as He.
  { unfold effects. cbn [effectiveExpr editorMode visualConfig e res_bind requestRuleGroups currentExpr currentRequestRuleExpr p].
    by rewrite !bool_decide_eq_true_2. }
  cbn [res_bind]. by rewrite (settle_at_rest (p, e)) by (by apply round_rests).
Qed.

(** ** Examples *)

Definition sample_props : Props := mkProps (Some (u "m")) (uj "tier('base', p * 2 + c * 4)") [].

(** A new price, a second tier, and a rule on a header. *)
Definition sample_actions : list action :=
  [EditTier 0 (handlePriceChange (u "input_unit_cost") (num_of_Z 3)); AddTier; AddGroup;
   EditGroup 0 (fun g => set_multiplier (num_of_Z 6)
     (handleRuleConditionChange 0 (ParamHeaderCondition Header (u "anthropic-beta") MATCH_CONTAINS (u "fast-mode")) g))].

Definition on_result {A B} (f : A -> B) (r : result A) : option B := match r with Ret a => Some (f a) | Throw => None end.

(** The state a session ends in; a state of no interest where it throws. *)
Definition result_of (r : result (Props * Editor)) : Props * Editor :=
  on_result id r ?? (sample_props, mkEditor raw None [] [] (mkCycle None [] false)).

Definition sample_result : Props * Editor := Eval vm_compute in result_of (session sample_props sample_actions).

Definition sample_table : VisualConfig := visualConfig sample_result.2 ?? createDefaultVisualConfig.

Lemma sample_session : session sample_props sample_actions = Ret sample_result.
Proof. vm_compute. reflexivity. Qed.

Example sample_table_saved :
  saved sample_result =
  uj "(len < 200000 ? tier('base', p * 3 + c * 4) : tier('tier_2', p * 0 + c * 0)) * (has(header('anthropic-beta'), 'fast-mode') ? 6 : 1)".
Proof. vm_compute. reflexivity. Qed.

Lemma sample_shows : shows sample_result sample_table (requestRuleGroups sample_result.2).
Proof. unfold shows. vm_compute. done. Qed.

Lemma editor_invariant_witness :
  session sample_props sample_actions = Ret sample_result /\ mirrors sample_result /\ table_ok sample_result.2.
Proof. split; [exact sample_session|]. apply (editor_invariant sample_props sample_actions). exact sample_session. Defined.

Lemma saved_read_back_witness :
  exists b r, splitBillingExprAndRequestRules (saved sample_result) = Ret (b, r) /\
    tryParseVisualConfig (Some b) = Some (as_read sample_table) /\ tryParseRequestRuleExpr r = Ret (Some (requestRuleGroups sample_result.2)).
Proof. apply (saved_read_back sample_props sample_actions); [exact sample_session|exact sample_shows]. Defined.

Lemma modes_keep_witness :
  exists s1 s2, step (ModeChange raw) sample_result = Ret s1 /\ rawExpr s1.2 = saved sample_result /\ s1.1 = sample_result.1 /\
    step (ModeChange visual) s1 = Ret s2 /\ s2.1 = sample_result.1 /\ shows s2 (as_read sample_table) (requestRuleGroups sample_result.2).
Proof. apply (modes_keep sample_props sample_actions); [exact sample_session|exact sample_shows]. Defined.

Lemma open_unchanged_witness :
  let p := mkProps None (generateExprFromVisualConfig (Some sample_config)) (buildRequestRuleExpr sample_groups) in
  exists e, session p [] = Ret (p, e) /\ editorMode e = visual /\ visualConfig e = Some sample_config /\ requestRuleGroups e = sample_groups.
Proof. apply open_unchanged; vm_compute; reflexivity. Defined.

(** ** Where the editor loses work *)

(** The first edit after a record is opened is taken for the record that
    loads: the state is initialised again from the expression just printed.  A
    label with a quotation mark then cannot be read, and the user is thrown
    into the text with the table gone; as a second edit it is kept, and the
    table stays.  The first edit of the text likewise leads back to the table. *)
Theorem first_edit_reseeds :
  let relabel := EditTier 0 (set_label (uj "a'b")) in
  let price := EditTier 0 (handlePriceChange (u "input_unit_cost") (num_of_Z 3)) in
  let mode l := on_result (fun s => (editorMode s.2, bool_decide (is_Some (visualConfig s.2)))) (session sample_props l) in
  mode [] = Some (visual, true) /\ mode [relabel] = Some (raw, false) /\ mode [price; relabel] = Some (visual, true) /\
  mode [ModeChange raw] = Some (raw, true) /\ mode [ModeChange raw; RawChange (uj "tier('base', p * 2 + c * 45)")] = Some (visual, true).
Proof. vm_compute. done. Qed.

(** A cycle that is spent: the state is at rest as soon as the effects are. *)
Lemma settle_spent p e p' :
  armed (initCycle e) = false -> modelName p = ic_model (initCycle e) -> effects p e = Ret p' -> settle (p, e) = Ret (p', e).
Proof.
  intros Ha Hm He. destruct (effects_spec _ _ _ He) as (_ & Hn & _).
  assert (render p e = Ret e /\ render p' e = Ret e) as [R1 R2].
  { split; apply render_rests; (split; [congruence|by rewrite Ha]). }
  unfold settle, round. cbn [fst snd]. rewrite R1. cbn [res_bind]. rewrite He. cbn [res_bind fst snd].
  rewrite R2. cbn [res_bind]. rewrite (effects_again _ _ _ He). cbn [res_bind fst snd]. rewrite R2. cbn [res_bind].
  by rewrite (effects_again _ _ _ He).
Qed.

Lemma act_to_text s :
  act (ModeChange raw) s =
  Ret (s.1, mkEditor raw (visualConfig s.2)
    (or_str (combineBillingExpr (generateExprFromVisualConfig (visualConfig s.2)) (buildRequestRuleExpr (requestRuleGroups s.2)))
       (generateExprFromVisualConfig (visualConfig s.2))) (requestRuleGroups s.2) (initCycle s.2)).
Proof. by destruct s. Qed.

Section param_rule.
Context (p : Props) (l : list action) (s : Props * Editor) (cfg : VisualConfig) (name mode value mult : jsstr).

Let group := mkGroup [ParamHeaderCondition Param name mode value] mult.
Let rules := buildRequestRuleExpr [group].

(** A state in visual mode with such a rule, reached by a session and with no
    record waiting to be loaded. *)
Record compares_param : Prop := {
  cp_session : session p l = Ret s;
  cp_visual : editorMode s.2 = visual;
  cp_table : visualConfig s.2 = Some cfg;
  cp_canonical : canonical_config (as_read cfg) = true;
  cp_labels : plain_labels (tiers (as_read cfg)) = true;
  cp_groups : requestRuleGroups s.2 = [group];
  cp_name : plain_name name = true;
  cp_mode : guarded_mode mode value = true;
  cp_mult : is_numeric_literal mult = true;
  cp_spent : armed (initCycle s.2) = false;
}.

Context (H : compares_param).

Lemma param_page :
  currentExpr s.1 = generateExprFromVisualConfig (Some (as_read cfg)) /\ currentRequestRuleExpr s.1 = rules /\
  modelName s.1 = ic_model (initCycle s.2).
Proof.
  pose proof (session_rests _ _ _ (cp_session H)) as [Hr _]. pose proof (round_mirrors _ Hr) as [He Hg].
  rewrite (Hg (cp_visual H)), (cp_groups H). unfold effectiveExpr in He. rewrite (cp_visual H), (cp_table H) in He. injection He as He.
  rewrite <-He. split; [apply generate_as_read, H|]. split; [done|].
  destruct s as [q e]. apply round_spec in Hr as [Hr _]. symmetry. by apply (render_cycle _ _ _ Hr).
Qed.

Lemma param_unread :
  tryParseRequestRuleExpr rules = Ret None /\ truthy rules = true /\
  (exists t, saved s = 40 :: t) /\ splitBillingExprAndRequestRules (saved s) = Ret (saved s, []).
Proof.
  destruct param_page as (He & Hr & _). pose proof (generated_separable _ (cp_canonical H) (cp_labels H)) as Hsep.
  destruct (param_rule_not_read name mode value mult _ (cp_name H) (cp_mode H) (cp_mult H) Hsep) as [H1 H2].
  fold group in H1, H2. fold rules in H1, H2.
  assert (truthy (trim rules) = true) as Ht by (unfold tryParseRequestRuleExpr in H1; by destruct (trim rules)).
  assert (truthy rules = true) as Hrules by (by destruct rules).
  split; [done|]. split; [done|]. unfold saved. rewrite He, Hr. split; [|done].
  unfold combineBillingExpr. destruct Hsep as (Hne & -> & _). rewrite Ht. destruct (generateExprFromVisualConfig _); [done|]. by eexists.
Qed.

(** The cards are not shown, so that no action on them has an effect. *)
Lemma param_cards f : res_bind (canUseVisualRules s.1) (fun can : bool => Ret (s.1, if can then handleRuleGroupsChange f s.2 else s.2)) = Ret s.
Proof.
  destruct param_page as (_ & Hr & _), param_unread as (Hn & Ht & _).
  unfold canUseVisualRules. rewrite Hr, Ht, Hn. cbn [negb res_bind]. by destruct s.
Qed.

Lemma param_actions a :
  (exists i f, a = EditGroup i f) \/ (exists i, a = RemoveGroup i) \/ a = AddGroup -> step a s = Ret s.
Proof.
  intros Ha. assert (act a s = Ret s) as Hact.
  { pose proof (cp_visual H) as Hv. pose proof param_cards as Hc. destruct s as [q e]. cbn [fst snd] in *.
    destruct Ha as [(i & f & ->)|[(i & ->)| ->]]; cbn [act]; rewrite Hv; apply Hc. }
  unfold step. rewrite Hact. apply settle_at_rest. by apply (session_rests p l), H.
Qed.

(** The text mode: the whole text is taken for the expression, next to the rule. *)
Lemma param_to_text :
  step (ModeChange raw) s =
  Ret (mkProps (modelName s.1) (saved s) rules, mkEditor raw (visualConfig s.2) (saved s) (requestRuleGroups s.2) (initCycle s.2)).
Proof.
  destruct param_page as (He & Hr & Hm), param_unread as (_ & _ & [t Ht] & Hsplit).
  unfold step. rewrite act_to_text. cbn [res_bind].
  assert (or_str (combineBillingExpr (generateExprFromVisualConfig (visualConfig s.2)) (buildRequestRuleExpr (requestRuleGroups s.2)))
    (generateExprFromVisualConfig (visualConfig s.2)) = saved s) as ->.
  { rewrite (cp_table H), (cp_groups H), generate_as_read by apply H. fold rules. rewrite <-He, <-Hr. fold (saved s). by rewrite Ht. }
  apply settle_spent; [apply H|done|]. unfold effects, effectiveExpr. cbn [editorMode rawExpr]. rewrite Hsplit. cbn [res_bind].
  rewrite Hr. by rewrite if_same.
Qed.

(** Back from the text: it is not the text of a table. *)
Lemma param_from_text :
  step (ModeChange visual)
    (mkProps (modelName s.1) (saved s) rules, mkEditor raw (visualConfig s.2) (saved s) (requestRuleGroups s.2) (initCycle s.2)) =
  Ret (mkProps (modelName s.1) (generateExprFromVisualConfig (Some createDefaultVisualConfig)) [],
       mkEditor visual (Some createDefaultVisualConfig) (saved s) [] (initCycle s.2)).
Proof.
  destruct param_page as (He & Hr & Hm), param_unread as (_ & _ & [t Ht] & Hsplit).
  unfold step, act. cbn [handleModeChange rawExpr initCycle]. rewrite Hsplit. cbn [res_bind].
  change (rule_groups []) with (Ret [] : result (list RequestRuleGroup)). cbn [res_bind].
  assert (tryParseVisualConfig (Some (saved s)) = None) as -> by (rewrite Ht; apply paren_not_visual).
  apply settle_spent; [apply H|done|]. unfold effects, effectiveExpr. cbn [editorMode visualConfig res_bind requestRuleGroups set_rule currentExpr currentRequestRuleExpr modelName].
  rewrite if_same. reflexivity.
Qed.

(** C40. A rule that compares a parameter, or looks for a text in it, spoils the
    editor, for every table that can be read back and every such rule: once it
    is the rule of the editor (in visual mode, with no record waiting to be
    loaded), no action on the cards has an effect, so that it can neither be
    changed nor removed; showing the text makes the page save the rule twice;
    and going back to the table replaces the table by the default one, whose
    prices are zero, and drops the rule. *)
Theorem param_rule_spoils :
  (forall a, (exists i f, a = EditGroup i f) \/ (exists i, a = RemoveGroup i) \/ a = AddGroup -> step a s = Ret s) /\
  exists s1 s2, step (ModeChange raw) s = Ret s1 /\ saved s1 = combineBillingExpr (saved s) rules /\
    step (ModeChange visual) s1 = Ret s2 /\ visualConfig s2.2 = Some createDefaultVisualConfig /\ requestRuleGroups s2.2 = [] /\
    saved s2 = generateExprFromVisualConfig (Some createDefaultVisualConfig).
Proof.
  split; [exact param_actions|]. do 2 eexists. split; [exact param_to_text|]. split; [done|].
  split; [exact param_from_text|]. done.
Qed.

End param_rule.

(** A new price, then a rule on the number of tokens asked for. *)
Definition param_rule : list action :=
  [EditTier 0 (handlePriceChange (u "input_unit_cost") (num_of_Z 3)); AddGroup; EditGroup 0 (fun g => set_multiplier (num_of_Z 2)
     (handleRuleConditionChange 0 (ParamHeaderCondition Param (u "max_tokens") MATCH_GT (u "5")) g))].

Definition ruled : Props * Editor := Eval vm_compute in result_of (session sample_props param_rule).

Lemma param_rule_spoils_witness :
  saved ruled = uj "(tier('base', p * 3 + c * 4)) * (param('max_tokens') != nil && param('max_tokens') > 5 ? 2 : 1)" /\
  step (RemoveGroup 0) ruled = Ret ruled.
Proof.
  split; [vm_compute; reflexivity|].
  apply (param_rule_spoils sample_props param_rule ruled (visualConfig ruled.2 ?? createDefaultVisualConfig) (u "max_tokens") MATCH_GT (u "5") (u "2")).
  - split; vm_compute; reflexivity.
  - right. left. by exists 0%nat.
Defined.

End TieredTheory.
