(* ===== verification/UsageLogs.v ===== *)
(** * Usage logs (web/default/src/features/usage-logs)

    The tables of kinds and states (constants.ts, lib/mappers.ts), the filters
    and the queries they become (lib/filter.ts, lib/utils.ts, api.ts), the
    export as a CSV file (lib/export-logs.ts) and what is shown of a log
    (lib/format.ts).

    The gateway is a function from the number of the request, the path and the
    parameters to an answer, or nothing when the request fails.  Times are
    milliseconds; the time of a request and midnight in the zone of the browser
    are arguments.  Numbers of a log (counts, times, quotas) are integers, which
    double-precision numbers hold exactly below [2^53]. *)

From S2P Require Import Prelude JsString JsNumber JsJson JsRegex PricingModels BillingExpr.

Import Billing.
Open Scope N_scope.

Module Logs.

(** ** Constants *)

Record LogStatistics := mkStats { ls_quota : Z; rpm : Z; tpm : Z }.
Definition DEFAULT_LOG_STATS : LogStatistics := mkStats 0 0 0.

Record LogType := mkLogType { lt_value : Z; lt_label : jsstr; lt_color : jsstr }.

Definition LOG_TYPE_UNKNOWN : Z := 0.
Definition LOG_TYPE_ALL_VALUE : jsstr := u "0".

Definition TIME_RANGE_PRESETS : list (Z * jsstr) :=
  [(1%Z, u "24 Hours"); (7%Z, u "7 Days"); (14%Z, u "14 Days"); (30%Z, u "30 Days")].

Definition LOG_TYPES : list LogType :=
  [mkLogType 0 (u "Unknown") (u "default"); mkLogType 1 (u "Top-up") (u "cyan"); mkLogType 2 (u "Consume") (u "green");
   mkLogType 3 (u "Manage") (u "orange"); mkLogType 4 (u "System") (u "purple"); mkLogType 5 (u "Error") (u "red");
   mkLogType 6 (u "Refund") (u "blue")].

(** The pairs of [label] and [value]. *)
Definition LOG_TYPE_FILTERS : list (jsstr * jsstr) :=
  (u "All Types", LOG_TYPE_ALL_VALUE) ::
  map (fun t => (lt_label t, Z_to_str (lt_value t))) (bfilter (fun t => negb (bool_decide (lt_value t = LOG_TYPE_UNKNOWN))) LOG_TYPES).

Record StatusMapping := mkMapping { sm_label : jsstr; sm_variant : jsstr }.

Definition MJ_TASK_TYPE_MAPPINGS : list (jsstr * StatusMapping) :=
  [(u "IMAGINE", mkMapping (u "Draw") (u "blue")); (u "UPSCALE", mkMapping (u "Upscale") (u "orange"));
   (u "VIDEO", mkMapping (u "Video") (u "orange")); (u "EDITS", mkMapping (u "Edit") (u "orange"));
   (u "VARIATION", mkMapping (u "Vary") (u "violet")); (u "HIGH_VARIATION", mkMapping (u "Vary (Strong)") (u "violet"));
   (u "LOW_VARIATION", mkMapping (u "Vary (Subtle)") (u "violet")); (u "PAN", mkMapping (u "Pan") (u "cyan"));
   (u "DESCRIBE", mkMapping (u "Describe") (u "yellow")); (u "BLEND", mkMapping (u "Blend") (u "lime"));
   (u "UPLOAD", mkMapping (u "Upload") (u "blue")); (u "SHORTEN", mkMapping (u "Shorten") (u "pink"));
   (u "REROLL", mkMapping (u "Reroll") (u "indigo")); (u "INPAINT", mkMapping (u "Inpaint") (u "teal"));
   (u "SWAP_FACE", mkMapping (u "Swap Face") (u "purple")); (u "ZOOM", mkMapping (u "Zoom") (u "green"));
   (u "CUSTOM_ZOOM", mkMapping (u "Custom Zoom") (u "green"))].

Definition MJ_STATUS_MAPPINGS : list (jsstr * StatusMapping) :=
  [(u "SUCCESS", mkMapping (u "Success") (u "green")); (u "NOT_START", mkMapping (u "Not Started") (u "neutral"));
   (u "SUBMITTED", mkMapping (u "Queued") (u "yellow")); (u "IN_PROGRESS", mkMapping (u "In Progress") (u "blue"));
   (u "FAILURE", mkMapping (u "Failed") (u "red")); (u "MODAL", mkMapping (u "Waiting") (u "amber"))].

Definition MJ_SUBMIT_RESULT_MAPPINGS : list (jsstr * StatusMapping) :=
  [(Z_to_str 1, mkMapping (u "Submitted") (u "green")); (Z_to_str 21, mkMapping (u "Waiting") (u "lime"));
   (Z_to_str 22, mkMapping (u "Duplicate") (u "orange")); (Z_to_str 0, mkMapping (u "Not Submitted") (u "yellow"))].

Definition TASK_ACTION_MAPPINGS : list (jsstr * StatusMapping) :=
  [(u "MUSIC", mkMapping (u "Generate Music") (u "neutral")); (u "LYRICS", mkMapping (u "Generate Lyrics") (u "pink"));
   (u "generate", mkMapping (u "Image to Video") (u "blue")); (u "textGenerate", mkMapping (u "Text to Video") (u "blue"));
   (u "firstTailGenerate", mkMapping (u "First/Last Frame to Video") (u "blue"));
   (u "referenceGenerate", mkMapping (u "Reference Video") (u "blue")); (u "remixGenerate", mkMapping (u "Video Remix") (u "blue"))].

Definition TASK_STATUS_MAPPINGS : list (jsstr * StatusMapping) :=
  [(u "SUCCESS", mkMapping (u "Success") (u "green")); (u "NOT_START", mkMapping (u "Not Started") (u "neutral"));
   (u "SUBMITTED", mkMapping (u "Queued") (u "yellow")); (u "IN_PROGRESS", mkMapping (u "In Progress") (u "blue"));
   (u "FAILURE", mkMapping (u "Failed") (u "red")); (u "QUEUED", mkMapping (u "Queued") (u "orange"));
   (u "UNKNOWN", mkMapping (u "Unknown") (u "neutral"))].

Definition TASK_PLATFORM_MAPPINGS : list (jsstr * StatusMapping) :=
  [(u "suno", mkMapping (u "suno") (u "green")); (u "kling", mkMapping (u "kling") (u "blue"));
   (u "runway", mkMapping (u "runway") (u "violet")); (u "luma", mkMapping (u "luma") (u "orange"));
   (u "viggle", mkMapping (u "viggle") (u "pink"))].

Inductive LogCategory := common | drawing | task.

Definition LOG_CATEGORY_LABELS (c : LogCategory) : jsstr :=
  match c with common => u "Common" | drawing => u "Drawing" | task => u "Task" end.

Definition getLogCategoryLabel (category : LogCategory) : jsstr := LOG_CATEGORY_LABELS category.

Definition DISPLAYABLE_LOG_TYPES : list Z := [0; 2; 5; 6]%Z.
Definition TIMING_LOG_TYPES : list Z := [2; 5]%Z.

(** ** Labels and colours of states *)

(** [createStatusMapper(mapping).getLabel] and [.getVariant] *)
Definition getLabel (mapping : list (jsstr * StatusMapping)) (status : jsstr) (defaultLabel : jsstr) : jsstr :=
  (sm_label <$> map_get status mapping) ?? defaultLabel.
Definition getVariant (mapping : list (jsstr * StatusMapping)) (status : jsstr) (defaultVariant : jsstr) : jsstr :=
  (sm_variant <$> map_get status mapping) ?? defaultVariant.

Definition isDisplayableLogType (type : Z) : bool := bool_decide (type ∈ DISPLAYABLE_LOG_TYPES).
Definition isTimingLogType (type : Z) : bool := bool_decide (type ∈ TIMING_LOG_TYPES).

Definition getLogTypeConfig (type : Z) : LogType :=
  List.find (fun t => bool_decide (lt_value t = type)) LOG_TYPES ?? mkLogType 0 (u "Unknown") (u "default").

Definition isPerCallBilling (modelPrice : option number) : bool := num_gt (modelPrice ?? num_of_Z 0) (num_of_Z 0).

(** ** Filters *)

(** The fields of the three kinds of filters. *)
Record LogFilters := mkFilters {
  startTime : option number; endTime : option number; channel : option jsstr;
  model : option jsstr; token : option jsstr; group : option jsstr; username : option jsstr;
  requestId : option jsstr; upstreamRequestId : option jsstr;
  mjId : option jsstr; taskId : option jsstr;
}.

Definition params := list (jsstr * json).

(** [...(value && { key: value })], for a text and for a date *)
Definition text_param (key : jsstr) (v : option jsstr) : params := if truthy_opt v then [(key, JStr (v ?? []))] else [].
Definition date_param (key : jsstr) (v : option number) : params := match v with Some x => [(key, JNum x)] | None => [] end.

Definition buildSearchParams (filters : LogFilters) (logCategory : LogCategory) : params :=
  let baseParams := date_param (u "startTime") (startTime filters) ++ date_param (u "endTime") (endTime filters) ++
                    text_param (u "channel") (channel filters) in
  baseParams ++
  match logCategory with
  | common => text_param (u "model") (model filters) ++ text_param (u "token") (token filters) ++ text_param (u "group") (group filters) ++
              text_param (u "username") (username filters) ++ text_param (u "requestId") (requestId filters) ++
              text_param (u "upstreamRequestId") (upstreamRequestId filters)
  | drawing => text_param (u "filter") (mjId filters)
  | task => text_param (u "filter") (taskId filters)
  end.

(** ** Queries *)

(** The properties of a request; a property may be [undefined]. *)
Definition props := list (jsstr * option json).

Definition js_truthy (j : option json) : bool := match j with Some j => json_truthy j | None => false end.

(** A value that is not [undefined], [null] or the empty text. *)
Definition present (v : option json) : option json := match v with None | Some JNull | Some (JStr []) => None | Some j => Some j end.

Definition buildQueryParams (ps : props) : list (jsstr * jsstr) :=
  omap (fun kv => (fun j => (kv.1, json_to_str j)) <$> present kv.2) (obj_entries ps).

Definition timestampToSeconds (ms : number) : number := num_floor (num_div ms (num_of_Z 1000)).

Section queries.

(** The time, and midnight before it. *)
Context (now : number) (startOfDay : number -> number).

Definition getDefaultTimeRange : number * number := (startOfDay now, num_add now (num_of_Z (3600 * 1000))).

Definition convertTimestamp (useMilliseconds : bool) (timestamp : json) : json :=
  if useMilliseconds then timestamp else JNum (timestampToSeconds (json_to_num (Some timestamp))).

Definition getTimestamp (useMilliseconds : bool) (paramTime : option json) (defaultTime : option number) : option json :=
  let time := if js_truthy paramTime then paramTime else JNum <$> defaultTime in
  if js_truthy time then convertTimestamp useMilliseconds <$> time else None.

Definition buildTimeRangeParams (searchParams : params) (useMilliseconds : bool) : props :=
  let start := map_get (u "startTime") searchParams in
  let stop := map_get (u "endTime") searchParams in
  let hasTimeParams := match start with None | Some JNull => stop | _ => start end in
  let defaultTimeRange := if negb (js_truthy hasTimeParams) then Some getDefaultTimeRange else None in
  [(u "start_timestamp", getTimestamp useMilliseconds start (fst <$> defaultTimeRange));
   (u "end_timestamp", getTimestamp useMilliseconds stop (snd <$> defaultTimeRange))].

Definition num_param (z : Z) : option json := Some (JNum (num_of_Z z)).

(** [...(condition ? { key: value } : {})] *)
Definition prop (condition : bool) (key : jsstr) (value : option json) : props := if condition then [(key, value)] else [].

Definition text_of (v : option json) : option json := (fun j => JStr (json_to_str j)) <$> v.

Definition buildBaseParams (page pageSize : Z) (searchParams : params) (useMilliseconds : bool) : props :=
  let channel := map_get (u "channel") searchParams in
  [(u "p", num_param page); (u "page_size", num_param pageSize)] ++
  prop (js_truthy channel) (u "channel_id") (text_of channel) ++ buildTimeRangeParams searchParams useMilliseconds.

Definition parseType (raw : json) : option json :=
  let type := json_to_num (Some raw) in if is_finite type then Some (JNum type) else None.

Definition processType (value : json) : option json :=
  match value with
  | JArr [x] => parseType x
  | JStr (_ :: _) => parseType value
  | _ => None
  end.

(** [Number(value) || 0] *)
Definition channel_number (value : option json) : option json := Some (JNum (or_zero (json_to_num value))).

(** A filter of a column of the table. *)
Definition apply_filter (isAdmin : bool) (ps : props) (filter : jsstr * option json) : props :=
  match present filter.2 with
  | None => ps
  | Some value =>
      let id := filter.1 in
      if bool_decide (id = u "type") then map_set (u "type") (processType value) ps
      else if bool_decide (id = u "model_name") then map_set (u "model_name") (text_of (Some value)) ps
      else if bool_decide (id = u "token_name") then map_set (u "token_name") (text_of (Some value)) ps
      else if bool_decide (id = u "group") then map_set (u "group") (text_of (Some value)) ps
      else if bool_decide (id = u "channel") then if isAdmin then map_set (u "channel") (channel_number (Some value)) ps else ps
      else if bool_decide (id = u "username") then if isAdmin then map_set (u "username") (text_of (Some value)) ps else ps
      else ps
  end.

Definition buildApiParams (page pageSize : Z) (searchParams : params) (columnFilters : list (jsstr * option json)) (isAdmin : bool) : props :=
  let get k := map_get k searchParams in
  let text k name := prop (js_truthy (get k)) name (text_of (get k)) in
  let ps :=
    [(u "p", num_param page); (u "page_size", num_param pageSize)] ++
    prop (js_truthy (get (u "type"))) (u "type") (get (u "type") ≫= processType) ++
    text (u "model") (u "model_name") ++ text (u "token") (u "token_name") ++ text (u "group") (u "group") ++
    prop (isAdmin && js_truthy (get (u "channel"))) (u "channel") (channel_number (get (u "channel"))) ++
    prop (isAdmin && js_truthy (get (u "username"))) (u "username") (text_of (get (u "username"))) ++
    text (u "requestId") (u "request_id") ++ text (u "upstreamRequestId") (u "upstream_request_id") ++
    buildTimeRangeParams searchParams false in
  foldl (apply_filter isAdmin) ps columnFilters.

Definition buildApiPath (endpoint : jsstr) (isAdmin : bool) : jsstr := if isAdmin then endpoint else endpoint ++ u "/self".

(** [{ p: params.p || 1, page_size: params.page_size || 20, ...params }] *)
Definition fetchLogs_params (ps : props) : props :=
  let or_num k d := match map_get k ps with Some v => if js_truthy v then v else num_param d | None => num_param d end in
  foldl (fun o kv => map_set kv.1 kv.2 o) [(u "p", or_num (u "p") 1%Z); (u "page_size", or_num (u "page_size") 20%Z)] ps.

(** The path and the parameters of a request. *)
Definition fetchLogs (endpoint : jsstr) (ps : props) (isAdmin : bool) : jsstr * list (jsstr * jsstr) :=
  (buildApiPath endpoint isAdmin, buildQueryParams (fetchLogs_params ps)).

Definition fetchLogStats (endpoint : jsstr) (ps : props) (isAdmin : bool) : jsstr * list (jsstr * jsstr) :=
  (buildApiPath endpoint isAdmin ++ u "/stat", buildQueryParams ps).

Definition fetchLogsByCategory (logCategory : LogCategory) (isAdmin : bool) (page pageSize : Z) (searchParams : params)
    (columnFilters : list (jsstr * option json)) : jsstr * list (jsstr * jsstr) :=
  let filter := map_get (u "filter") searchParams in
  match logCategory with
  | common => fetchLogs (u "/api/log") (buildApiParams page pageSize searchParams columnFilters isAdmin) isAdmin
  | drawing => fetchLogs (u "/api/mj") (buildBaseParams page pageSize searchParams true ++ [(u "mj_id", filter)]) isAdmin
  | task => fetchLogs (u "/api/task") (buildBaseParams page pageSize searchParams false ++ [(u "task_id", filter)]) isAdmin
  end.

End queries.

(** ** Dates *)

(** [n] with at least [w] digits *)
Definition pad (w : nat) (n : Z) : jsstr := let s := Z_to_str n in repeat 48 (w - length s) ++ s.

(** Year, month and day of a day after 1 January 1970. *)
Definition civil (days : Z) : Z * Z * Z :=
  (let z := days + 719468 in
   let era := z / 146097 in
   let doe := z mod 146097 in
   let yoe := (doe - doe / 1460 + doe / 36524 - doe / 146096) / 365 in
   let doy := doe - (365 * yoe + yoe / 4 - yoe / 100) in
   let mp := (5 * doy + 2) / 153 in
   let m := if mp <? 10 then mp + 3 else mp - 9 in
   (yoe + era * 400 + (if m <=? 2 then 1 else 0), m, doy - (153 * mp + 2) / 5 + 1))%Z.

Definition year_text (y : Z) : jsstr :=
  if (0 <=? y)%Z && (y <=? 9999)%Z then pad 4 y else (if (y <? 0)%Z then u "-" else u "+") ++ pad 6 (Z.abs y).

(** [new Date(ms).toISOString()], which throws for a time out of range *)
Definition toISOString (ms : Z) : option jsstr :=
  if (8640000000000000 <? Z.abs ms)%Z then None
  else
    let '(y, m, d) := civil (ms / 86400000)%Z in
    let r := (ms mod 86400000)%Z in
    Some (year_text y ++ u "-" ++ pad 2 m ++ u "-" ++ pad 2 d ++ u "T" ++ pad 2 (r / 3600000)%Z ++ u ":" ++
          pad 2 (r / 60000 mod 60)%Z ++ u ":" ++ pad 2 (r / 1000 mod 60)%Z ++ u "." ++ pad 3 (r mod 1000)%Z ++ u "Z").

(** ** The CSV file *)

(** A quotation mark, a comma or a line break. *)
Definition needs_quotes (c : N) : bool := (c =? 34) || (c =? 44) || (c =? 10) || (c =? 13).

Definition double_quotes (s : jsstr) : jsstr := concat (map (fun c => if c =? 34 then [34; 34] else [c]) s).

Definition csvEscape (s : jsstr) : jsstr := if existsb needs_quotes s then [34] ++ double_quotes s ++ [34] else s.

Definition toCsv (rows : list (list jsstr)) : jsstr := join [13; 10] (map (fun row => join [44] (map csvEscape row)) rows).

(** ** The export *)

Record UsageLog := mkLog {
  log_id : Z; created_at : Z; type : Z; log_username : jsstr; token_name : jsstr; model_name : jsstr; quota : Z;
  prompt_tokens : Z; completion_tokens : Z; use_time : Z; log_channel : Z; channel_name : option jsstr;
  log_group : jsstr; other : jsstr; request_id : jsstr;
}.

(** An answer: [success], and [data] with its items and total. *)
Record GetLogsResponse := mkResponse { success : bool; data : option (option (list UsageLog) * option Z) }.

Record ExportLogsResult := mkExport { exported : nat; total : Z; truncated : bool }.

Definition EXPORT_PAGE_SIZE : nat := 100.
Definition MAX_EXPORT_ROWS : nat := N.to_nat 10000.

Definition csv_header : list jsstr :=
  [u "time"; u "type"; u "model"; u "token"; u "user"; u "channel"; u "prompt_tokens"; u "completion_tokens"; u "total_tokens";
   u "use_time_s"; u "quota"; u "group"; u "request_id"].

Definition log_row (log : UsageLog) : option (list jsstr) :=
  (fun time =>
   [time; Z_to_str (type log); model_name log; token_name log; log_username log;
    or_str (channel_name log ?? []) (if bool_decide (log_channel log = 0%Z) then [] else Z_to_str (log_channel log));
    Z_to_str (prompt_tokens log); Z_to_str (completion_tokens log); Z_to_str (prompt_tokens log + completion_tokens log);
    Z_to_str (use_time log); Z_to_str (quota log); log_group log; request_id log])
  <$> toISOString (created_at log * 1000).

Record ExportLogsConfig := mkConfig { isAdmin : bool; searchParams : params; columnFilters : list (jsstr * option json) }.

Section export.

(** The clock and the gateway, by the number of the request. *)
Context (clock : nat -> number) (startOfDay : number -> number).
Context (api_get : nat -> jsstr -> list (jsstr * jsstr) -> option GetLogsResponse).
Context (config : ExportLogsConfig).

Definition fetch_page (page : nat) : option GetLogsResponse :=
  let '(path, query) := fetchLogsByCategory (clock page) startOfDay common (isAdmin config) (Z.of_nat page) (Z.of_nat EXPORT_PAGE_SIZE)
                          (searchParams config) (columnFilters config) in
  api_get page path query.

(** How the loop ends: a request failed, or with the items, the total and the
    number of the requests made. *)
Inductive Paging := Rejected | Paged (items : list UsageLog) (total : Z) (requests : nat).

(** The loop over the pages; nothing when the fuel is used up. *)
Fixpoint fetch_pages (fuel : nat) (page : nat) (items : list UsageLog) (total : Z) : option Paging :=
  if (length items <? MAX_EXPORT_ROWS)%nat then
    match fuel with
    | 0%nat => None
    | S fuel =>
        match fetch_page page with
        | None => Some Rejected
        | Some res =>
            if negb (success res) then Some (Paged items total page)
            else
              let total := (data res ≫= snd) ?? 0%Z in
              let batch := (data res ≫= fst) ?? [] in
              let items := items ++ batch in
              if (length batch <? EXPORT_PAGE_SIZE)%nat then Some (Paged items total page)
              else if (total <=? Z.of_nat (length items))%Z then Some (Paged items total page)
              else fetch_pages fuel (S page) items total
        end
    end
  else Some (Paged items total (page - 1)).

(** A file with its name and its text, or a rejection. *)
Inductive Export := Failed | Downloaded (filename csv : jsstr) (result : ExportLogsResult).

(** [.slice(0, 19).replace(/[:T]/g, '-')] *)
Definition file_stamp (iso : jsstr) : jsstr := map (fun c => if (c =? 58) || (c =? 84) then 45 else c) (take 19 iso).

Definition exportCommonLogsCsv (stop_ms : Z) : option Export :=
  (fun paging =>
   match paging with
   | Rejected => Failed
   | Paged items total _ =>
       let exported := Nat.min (length items) MAX_EXPORT_ROWS in
       match mapM log_row (take MAX_EXPORT_ROWS items), toISOString stop_ms with
       | Some rows, Some now => Downloaded (u "usage-logs-" ++ file_stamp now ++ u ".csv") (toCsv (csv_header :: rows))
                                  (mkExport exported total (Z.of_nat exported <? total)%Z)
       | _, _ => Failed
       end
   end) <$> fetch_pages 100 1 [] 0.

(** What the button says then. *)
Inductive Notice := NoLogs | Capped (exported : nat) (total : Z) | Exported (count : nat) | ExportFailed.

Definition handleExport (e : Export) : Notice :=
  match e with
  | Failed => ExportFailed
  | Downloaded _ _ r => if bool_decide (exported r = 0%nat) then NoLogs else if truncated r then Capped (exported r) (total r) else Exported (exported r)
  end.

End export.

(** ** What is shown of a log *)

Definition PARAM_OVERRIDE_ACTION_MAP : list (jsstr * jsstr) :=
  [(u "set", u "Set"); (u "delete", u "Delete"); (u "copy", u "Copy"); (u "move", u "Move"); (u "append", u "Append");
   (u "prepend", u "Prepend"); (u "trim_prefix", u "Trim Prefix"); (u "trim_suffix", u "Trim Suffix");
   (u "ensure_prefix", u "Ensure Prefix"); (u "ensure_suffix", u "Ensure Suffix"); (u "trim_space", u "Trim Space");
   (u "to_lower", u "To Lower"); (u "to_upper", u "To Upper"); (u "replace", u "Replace"); (u "regex_replace", u "Regex Replace");
   (u "set_header", u "Set Header"); (u "delete_header", u "Delete Header"); (u "copy_header", u "Copy Header");
   (u "move_header", u "Move Header"); (u "pass_headers", u "Pass Headers"); (u "sync_fields", u "Sync Fields");
   (u "return_error", u "Return Error")].

(** [t] is the identity. *)
Definition getParamOverrideActionLabel `{!Locale} (action : jsstr) : jsstr :=
  map_get (toLowerCase action) PARAM_OVERRIDE_ACTION_MAP ?? action.

(** The pair of [action] and [content]. *)
Definition parseAuditLine (line : jsstr) : jsstr * jsstr :=
  match index_of (u " ") line with
  | Some (S n) => (take (S n) line, drop (S (S n)) line)
  | _ => (line, line)
  end.

Definition other_get (k : jsstr) (o : option json) : option json := o ≫= json_get k.

Definition isViolationFeeLog (other : option json) : bool :=
  match other_get (u "violation_fee") other with Some (JBool true) => true | _ => false end ||
  js_truthy (other_get (u "violation_fee_code") other) || js_truthy (other_get (u "violation_fee_marker") other).

Definition parseLogOther (other : jsstr) : option json := if negb (truthy other) then None else JSON_parse other.

Inductive Health := success_ | warning | danger.

Definition getTimeColor (seconds : number) : Health :=
  if num_lt seconds (num_of_Z 10) then success_ else if num_lt seconds (num_of_Z 30) then warning else danger.
Definition getFirstResponseTimeColor (seconds : number) : Health :=
  if num_lt seconds (num_of_Z 5) then success_ else if num_lt seconds (num_of_Z 10) then warning else danger.
Definition getThroughputColor (tokensPerSecond : number) : Health :=
  if num_ge tokensPerSecond (num_of_Z 30) then success_ else if num_ge tokensPerSecond (num_of_Z 15) then warning else danger.
Definition getResponseTimeColor (seconds completionTokens : number) : Health :=
  if num_lt completionTokens (num_of_Z 100) || num_le seconds (num_of_Z 0) then getTimeColor seconds
  else getThroughputColor (num_div completionTokens seconds).

(** The name, whether it is mapped, and the model that was called. *)
Definition formatModelName (log : UsageLog) : jsstr * bool * option json :=
  let other := parseLogOther (other log) in
  let actual := other_get (u "upstream_model_name") other in
  let isMapped := js_truthy (other_get (u "is_model_mapped") other) && js_truthy actual in
  (model_name log, isMapped, if isMapped then actual else None).

(** [atob] with [TextDecoder]: nothing when the text is not Base64. *)
Class Base64Text := { decode_base64 : jsstr -> option jsstr }.

Section tiers.
Context `{!Locale} `{!Base64Text}.

Definition decodeBillingExprB64 (exprB64 : option jsstr) : jsstr :=
  if negb (truthy_opt exprB64) then [] else decode_base64 (exprB64 ?? []) ?? [].

Definition same_label (matchedLabel : jsstr) (t : ParsedTier) : bool :=
  let l1 := normalizeTierLabel (Some (pt_label t)) in
  bool_decide (l1 = normalizeTierLabel (Some matchedLabel)) && negb (bool_decide (l1 = [])).

Definition resolveMatchedTier (tiers : list ParsedTier) (matchedLabel : option jsstr) : option ParsedTier :=
  if negb (truthy_opt matchedLabel) then None else List.find (same_label (matchedLabel ?? [])) tiers.

(** [(other[k] || 0) > 0] *)
Definition positive_field (other : option json) (k : jsstr) : bool :=
  let v := other_get k other in num_gt (if js_truthy v then json_to_num v else num_of_Z 0) (num_of_Z 0).

Definition hasAnyCacheTokens (other : option json) : bool :=
  existsb (positive_field other) [u "cache_tokens"; u "cache_creation_tokens"; u "cache_creation_tokens_5m"; u "cache_creation_tokens_1h"].

Record TieredBillingSummary := mkTiered { tb_tiers : list ParsedTier; tb_tier : ParsedTier; priceEntries : list (jsstr * jsstr * number) }.

(** The entry of a variable: [field], [shortLabel] and [price]. *)
Definition tier_entry (cacheTokensPresent : bool) (tier : ParsedTier) (v : BillingVar) : option (jsstr * jsstr * number) :=
  match bv_field v with
  | None | Some [] => None
  | Some field =>
      if bool_decide (bv_group v = Some (u "cache")) && negb cacheTokensPresent then None
      else
        let price := map_get field (pt_prices tier) ?? NaN in
        if is_finite price && num_gt price (num_of_Z 0) then Some (field, bv_shortLabel v, price) else None
  end.

(** The texts of the fields that are texts. *)
Definition text_field (k : jsstr) (other : option json) : option jsstr := other_get k other ≫= as_string.

Definition getTieredBillingSummary (other : option json) : option TieredBillingSummary :=
  if negb (bool_decide (text_field (u "billing_mode") other = Some (u "tiered_expr"))) then None
  else
    let exprStr := decodeBillingExprB64 (text_field (u "expr_b64") other) in
    if negb (truthy exprStr) then None
    else
      let tiers := parseTiersFromExpr exprStr in
      (fun tier => mkTiered tiers tier (omap (tier_entry (hasAnyCacheTokens other) tier) BILLING_PRICING_VARS))
      <$> resolveMatchedTier tiers (text_field (u "matched_tier") other).

End tiers.

(** The seconds and whether they are too many. *)
Definition formatDuration (submitTime finishTime : option number) (milliseconds : bool) : option (number * bool) :=
  match submitTime, finishTime with
  | Some a, Some b =>
      if negb (num_truthy a) || negb (num_truthy b) then None
      else
        let durationSec := if milliseconds then num_div (num_sub b a) (num_of_Z 1000) else num_sub b a in
        Some (durationSec, num_gt durationSec (num_of_Z 60))
  | _, _ => None
  end.

(** ** Examples *)

Example iso_samples :
  toISOString 0 = Some (u "1970-01-01T00:00:00.000Z") /\ toISOString 951825599999 = Some (u "2000-02-29T11:59:59.999Z") /\
  toISOString (-1) = Some (u "1969-12-31T23:59:59.999Z") /\ toISOString 253402300800000 = Some (u "+010000-01-01T00:00:00.000Z").
Proof. vm_compute. done. Qed.

Example csv_sample : toCsv [[u "a,b"; u "c"]; [uj "say 'x'"; []]] = uj "'a,b',c" ++ [13; 10] ++ uj "'say ''x''',".
Proof. vm_compute. reflexivity. Qed.

End Logs.
