(* ===== verification/UsageLogsTheory.v ===== *)
(** * What holds of the usage logs

    The CSV file is read back by an RFC 4180 reader, the export makes at most a
    hundred requests and has all rows of a consistent gateway up to the cap,
    users without administration rights never ask for channels or other users,
    filters arrive in the query, and the tier that a log names is shown with
    the prices of the table it was charged with. *)

From S2P Require Import Prelude JsString JsNumber JsJson JsRegex PricingModels BillingExpr TierExpr TierRoundtrip TierVisual TierDisplay UsageLogs.

Import Billing Tier TierText Visual Display Logs.
Open Scope N_scope.

Module LogsTheory.

(** ** Reading a CSV file *)

Inductive csv_mode := AtStart | Plain | Quoted | AfterQuote.

(** The rows of a text, from within a field. *)
Fixpoint read_csv (m : csv_mode) (field : jsstr) (row : list jsstr) (s : jsstr) : list (list jsstr) :=
  let plain c s :=
    if c =? 44 then read_csv AtStart [] (row ++ [field]) s
    else
      match s with
      | x :: s' => if (c =? 13) && (x =? 10) then (row ++ [field]) :: read_csv AtStart [] [] s' else read_csv Plain (field ++ [c]) row s
      | [] => read_csv Plain (field ++ [c]) row s
      end in
  match s with
  | [] => [row ++ [field]]
  | c :: s' =>
      match m with
      | Quoted => if c =? 34 then read_csv AfterQuote field row s' else read_csv Quoted (field ++ [c]) row s'
      | AfterQuote => if c =? 34 then read_csv Quoted (field ++ [34]) row s' else plain c s'
      | AtStart => if c =? 34 then read_csv Quoted [] row s' else plain c s'
      | Plain => plain c s'
      end
  end.

(** What follows a field: nothing, a comma or the end of the row. *)
Definition field_end (t : jsstr) : Prop := t = [] \/ (exists t', t = 44 :: t') \/ (exists t', t = 13 :: 10 :: t').

Lemma read_end m field row t : field_end t -> m <> Quoted -> read_csv m field row t = read_csv Plain field row t.
Proof. intros [->|[[t' ->]|[t' ->]]] Hm; by destruct m. Qed.

Lemma read_plain s : forall field row t,
  existsb needs_quotes s = false -> read_csv Plain field row (s ++ t) = read_csv Plain (field ++ s) row t.
Proof.
  induction s as [|c s IH]; intros field row t Hs; [by rewrite app_nil_r|]. cbn [existsb] in Hs. apply orb_false_iff in Hs as [Hc Hs].
  unfold needs_quotes in Hc. rewrite !orb_false_iff in Hc. destruct Hc as [[[_ H44] _] H13].
  cbn [app read_csv]. rewrite H44, H13.
  transitivity (read_csv Plain (field ++ [c]) row (s ++ t)); [by destruct (s ++ t)|].
  rewrite IH by done. by rewrite <-app_assoc.
Qed.

Lemma read_quoted s : forall field row t,
  read_csv Quoted field row (double_quotes s ++ [34] ++ t) = read_csv AfterQuote (field ++ s) row t.
Proof.
  induction s as [|c s IH]; intros field row t; [by rewrite app_nil_r|]. unfold double_quotes. cbn [map concat].
  change (concat _) with (double_quotes s). destruct (N.eqb_spec c 34) as [->|Hc].
  - change (read_csv Quoted field row (([34; 34] ++ double_quotes s) ++ [34] ++ t)) with
      (read_csv Quoted (field ++ [34]) row (double_quotes s ++ [34] ++ t)). by rewrite IH, <-app_assoc.
  - cbn [app read_csv]. rewrite (proj2 (N.eqb_neq c 34)) by done. change (34 :: t) with ([34] ++ t). by rewrite IH, <-app_assoc.
Qed.

Lemma read_field s row t : field_end t -> read_csv AtStart [] row (csvEscape s ++ t) = read_csv Plain s row t.
Proof.
  intros Ht. unfold csvEscape. destruct (existsb needs_quotes s) eqn:E.
  - rewrite <-app_assoc. cbn [app read_csv]. change (34 =? 34) with true. cbn iota.
    rewrite <-app_assoc, read_quoted. by apply read_end.
  - destruct s as [|c s]; [by apply read_end|]. pose proof E as E'. cbn [existsb] in E'. apply orb_false_iff in E' as [Hc _].
    unfold needs_quotes in Hc. rewrite !orb_false_iff in Hc. destruct Hc as [[[H34 _] _] _].
    transitivity (read_csv Plain [] row ((c :: s) ++ t)); [cbn [app read_csv]; by rewrite H34|by apply read_plain].
Qed.

Lemma last_cons_default {A} (l : list A) x : last (x :: l) = Some (last l ?? x).
Proof. rewrite last_cons. by destruct (last l). Qed.

Lemma read_row fields : forall f row t,
  (t = [] \/ exists t', t = 13 :: 10 :: t') ->
  read_csv AtStart [] row (join [44] (map csvEscape (f :: fields)) ++ t) = read_csv Plain (last fields ?? f) (row ++ removelast (f :: fields)) t.
Proof.
  induction fields as [|f' fields IH]; intros f row t Ht.
  - cbn [map join]. rewrite app_nil_r. apply read_field. unfold field_end. destruct Ht as [->|Ht]; eauto.
  - change (join [44] (map csvEscape (f :: f' :: fields))) with (csvEscape f ++ [44] ++ join [44] (map csvEscape (f' :: fields))).
    rewrite <-!app_assoc. rewrite read_field by (right; left; by eexists). cbn [app read_csv]. change (44 =? 44) with true. cbn iota.
    rewrite IH by done. by rewrite <-app_assoc, last_cons_default.
Qed.

Lemma removelast_last_app {A} (l : list A) x : removelast (x :: l) ++ [last l ?? x] = x :: l.
Proof.
  revert x. induction l as [|y l IH]; intros x; [done|]. change (removelast (x :: y :: l)) with (x :: removelast (y :: l)).
  rewrite last_cons_default. change (default x (Some ?a)) with a. cbn [app]. by rewrite IH.
Qed.

Lemma read_rows rows : forall r,
  r <> [] -> Forall (fun row => row <> []) rows -> read_csv AtStart [] [] (toCsv (r :: rows)) = r :: rows.
Proof.
  induction rows as [|r' rows IH]; intros r Hr Hall; destruct r as [|f fields]; try done.
  - change (toCsv [f :: fields]) with (join [44] (map csvEscape (f :: fields))). rewrite <-(app_nil_r (join _ _)), read_row by (by left). cbn [app read_csv].
    by rewrite removelast_last_app.
  - apply Forall_cons in Hall as [Hr' Hall].
    change (toCsv ((f :: fields) :: r' :: rows)) with (join [44] (map csvEscape (f :: fields)) ++ [13; 10] ++ toCsv (r' :: rows)).
    rewrite read_row by (right; by eexists). cbn [app read_csv]. change (13 =? 44) with false. change (13 =? 13) with true. cbn iota.
    rewrite removelast_last_app. f_equal. by apply IH.
Qed.

(** C23. A CSV file made of rows with at least one field each is read back by an
    RFC 4180 reader as the same rows, whatever commas, quotation marks and
    line breaks the names of models, users and tokens contain. *)
Theorem csv_roundtrip rows :
  rows <> [] -> Forall (fun row => row <> []) rows -> read_csv AtStart [] [] (toCsv rows) = rows.
Proof. destruct rows as [|r rows]; [done|]. intros _ [Hr Hall]%Forall_cons. by apply read_rows. Qed.

Lemma csv_roundtrip_witness :
  read_csv AtStart [] [] (toCsv [[u "a,b"; u "c"]; [uj "say 'x'"; []]]) = [[u "a,b"; u "c"]; [uj "say 'x'"; []]].
Proof. apply csv_roundtrip; [discriminate|]. repeat constructor; discriminate. Defined.

(** ** Queries *)

Lemma map_get_app {V} (k : jsstr) (a b : list (jsstr * V)) :
  map_get k (a ++ b) = match map_get k a with Some v => Some v | None => map_get k b end.
Proof. induction a as [|[k' v] a IH]; [done|]. cbn [app map_get]. by case_decide. Qed.

(** The text of a property in the query. *)
Definition query_text (v : option (option json)) : option jsstr := json_to_str <$> (v ≫= present).

Lemma query_get ps k : NoDup ps.*1 -> map_get k (buildQueryParams ps) = query_text (map_get k ps).
Proof.
  intros Hnd. unfold buildQueryParams. rewrite <-(map_get_entries k ps Hnd).
  pose proof (obj_entries_NoDup ps Hnd) as Hnd'. change (obj_keys ps) with (obj_entries ps).*1 in Hnd'.
  generalize dependent (obj_entries ps). clear. intros l. induction l as [|[k' v] l IH]; [done|].
  cbn [fmap list_fmap]. intros [Hk Hl]%NoDup_cons. cbn [omap list_omap map_get fst snd].
  assert (map_get k' (omap (fun kv : jsstr * option json => (fun j => (kv.1, json_to_str j)) <$> present kv.2) l) = None) as Hnone.
  { apply map_get_None. intros Hin. apply Hk. apply list_elem_of_fmap in Hin as ([k1 t] & -> & Hin).
    apply list_elem_of_omap in Hin as ([k2 v2] & Hin & Hv). cbn [fst snd] in Hv. destruct (present v2); [|done]. injection Hv as <- _.
    apply list_elem_of_fmap. by exists (k2, v2). }
  destruct (decide (k' = k)) as [<-|Hne].
  - destruct (present v) eqn:E; cbn [fmap option_fmap option_map].
    + cbn [map_get fst]. rewrite decide_True by done. unfold query_text. cbn. by rewrite E.
    + change (map_get k' (omap (fun kv : jsstr * option json => (fun j => (kv.1, json_to_str j)) <$> present kv.2) l) = query_text (Some v)).
      rewrite Hnone. unfold query_text. cbn. by rewrite E.
  - rewrite <-IH by done. destruct (present v); [|done]. cbn [fmap option_fmap option_map map_get fst]. by rewrite decide_False.
Qed.

Lemma fold_set_get ps k : forall o : props,
  NoDup ps.*1 -> map_get k (foldl (fun o kv => map_set kv.1 kv.2 o) o ps) = match map_get k ps with Some v => Some v | None => map_get k o end.
Proof.
  induction ps as [|[k' v] ps IH]; intros o; [done|]. cbn [fmap list_fmap foldl fst snd map_get]. intros [Hk Hps]%NoDup_cons.
  rewrite IH by done. rewrite map_get_set. case_decide; [subst|done]. apply map_get_None in Hk. cbn in Hk. by rewrite Hk.
Qed.

Lemma fold_set_NoDup (ps : props) : forall o : props, NoDup o.*1 -> NoDup (foldl (fun o kv => map_set kv.1 kv.2 o) o ps).*1.
Proof. induction ps as [|[k v] ps IH]; intros o Ho; [done|]. cbn [foldl]. by apply IH, map_set_NoDup. Qed.

(** A property of the parameters arrives in the query as its text. *)
Lemma fetch_get endpoint ps adm k :
  NoDup ps.*1 -> u "p" ∈ ps.*1 -> u "page_size" ∈ ps.*1 -> map_get k (fetchLogs endpoint ps adm).2 = query_text (map_get k ps).
Proof.
  intros Hnd Hp Hs. unfold fetchLogs. cbn [snd]. unfold fetchLogs_params.
  rewrite query_get by (apply fold_set_NoDup; apply (bool_decide_unpack _); vm_compute; exact I). f_equal.
  rewrite fold_set_get by done. destruct (map_get k ps) eqn:E; [done|]. apply map_get_None in E.
  apply map_get_None. intros Hk. cbn [fmap list_fmap fst] in Hk. rewrite !elem_of_cons, elem_of_nil in Hk. by destruct Hk as [->|[->|[]]].
Qed.

Lemma prop_get k c k' v : map_get k (prop c k' v) = if bool_decide (k' = k) && c then Some v else None.
Proof. unfold prop. destruct c; [|by rewrite andb_false_r]. cbn [map_get]. rewrite andb_true_r. by case_decide; case_bool_decide. Qed.

Lemma text_param_get k k' v : map_get k (text_param k' v) = if bool_decide (k' = k) && truthy_opt v then Some (JStr (v ?? [])) else None.
Proof. unfold text_param. destruct (truthy_opt v); [|by rewrite andb_false_r]. cbn [map_get]. rewrite andb_true_r. by case_decide; case_bool_decide. Qed.

Lemma cons_get {V} (k k' : jsstr) (v : V) l : map_get k ((k', v) :: l) = if bool_decide (k' = k) then Some v else map_get k l.
Proof. cbn [map_get]. by case_decide; case_bool_decide. Qed.

Lemma match_same {A} (o : option A) : match o with Some v => Some v | None => None end = o.
Proof. by destruct o. Qed.

Lemma date_param_get k k' v : map_get k (date_param k' v) = if bool_decide (k' = k) then JNum <$> v else None.
Proof. destruct v; cbn; by repeat (case_decide || case_bool_decide). Qed.

(** Evaluate the comparisons of two keys. *)
Ltac eval_keys :=
  repeat match goal with
  | |- context [bool_decide (u ?a = u ?b)] =>
      let r := eval vm_compute in (bool_decide (u a = u b)) in change (bool_decide (u a = u b)) with r
  end; cbn [andb].

(** The keys of a request for common logs, before the filters of the columns. *)
Definition api_keys : list jsstr :=
  [u "p"; u "page_size"; u "type"; u "model_name"; u "token_name"; u "group"; u "channel"; u "username"; u "request_id";
   u "upstream_request_id"; u "start_timestamp"; u "end_timestamp"].

Lemma prop_keys c k v l l' : l.*1 `sublist_of` l' -> (prop c k v ++ l : props).*1 `sublist_of` k :: l'.
Proof. intros Hl. unfold prop. destruct c; cbn [app fmap list_fmap fst]; [by apply sublist_skip|by apply sublist_cons]. Qed.

Section common.
Context (now : number) (startOfDay : number -> number).

Lemma api_NoDup page pageSize sp cf adm : NoDup (buildApiParams now startOfDay page pageSize sp cf adm).*1.
Proof.
  unfold buildApiParams. set (ps := _ ++ prop _ (u "type") _ ++ _).
  assert (NoDup ps.*1) as Hps.
  { eapply sublist_NoDup; [apply (bool_decide_unpack (NoDup api_keys)); vm_compute; exact I|]. unfold ps, api_keys.
    cbn [app fmap list_fmap fst]. do 2 apply sublist_skip. do 8 apply prop_keys. unfold buildTimeRangeParams. done. }
  clearbody ps. revert ps Hps. induction cf as [|f cf IH]; intros ps Hps; [done|]. cbn [foldl]. apply IH.
  unfold apply_filter. destruct (present f.2); [|done]. repeat case_bool_decide; try (by apply map_set_NoDup); try done; by destruct adm; [apply map_set_NoDup|].
Qed.

(** The properties the filters of the columns can set. *)
Definition filter_keys (adm : bool) : list jsstr :=
  [u "type"; u "model_name"; u "token_name"; u "group"] ++ if adm then [u "channel"; u "username"] else [].

Lemma filters_get adm k cf : forall ps, k ∉ filter_keys adm -> map_get k (foldl (apply_filter adm) ps cf) = map_get k ps.
Proof.
  induction cf as [|f cf IH]; intros ps Hk; [done|]. cbn [foldl]. rewrite IH by done. unfold filter_keys in Hk. unfold apply_filter.
  destruct (present f.2); [|done].
  repeat case_bool_decide; try destruct adm; try done; rewrite map_get_set_ne; try done; intros <-; apply Hk; cbn [app]; rewrite !elem_of_cons; tauto.
Qed.

Lemma api_page page pageSize sp cf adm :
  map_get (u "p") (buildApiParams now startOfDay page pageSize sp cf adm) = Some (num_param page) /\
  map_get (u "page_size") (buildApiParams now startOfDay page pageSize sp cf adm) = Some (num_param pageSize).
Proof.
  unfold buildApiParams. rewrite !filters_get; [done|..];
    apply (bool_decide_unpack _); destruct adm; vm_compute; exact I.
Qed.

Lemma common_get page pageSize sp cf adm k :
  map_get k (fetchLogsByCategory now startOfDay common adm page pageSize sp cf).2 =
  query_text (map_get k (buildApiParams now startOfDay page pageSize sp cf adm)).
Proof.
  unfold fetchLogsByCategory. destruct (api_page page pageSize sp cf adm) as [Hp Hs]. apply fetch_get; [apply api_NoDup|..].
  - apply map_get_elem in Hp; [|apply api_NoDup]. apply list_elem_of_fmap. by eexists (_, _).
  - apply map_get_elem in Hs; [|apply api_NoDup]. apply list_elem_of_fmap. by eexists (_, _).
Qed.

(** The parameters of the drawing and task logs; [id] names the search by id. *)
Definition base_params (id : jsstr) (ms : bool) (page pageSize : Z) (sp : params) : props :=
  buildBaseParams now startOfDay page pageSize sp ms ++ [(id, map_get (u "filter") sp)].

Lemma base_get endpoint id ms page pageSize sp adm k :
  id ∈ [u "mj_id"; u "task_id"] ->
  map_get k (fetchLogs endpoint (base_params id ms page pageSize sp) adm).2 = query_text (map_get k (base_params id ms page pageSize sp)).
Proof.
  intros Hid. assert (NoDup [u "p"; u "page_size"; u "channel_id"; u "start_timestamp"; u "end_timestamp"; id]) as Hnd.
  { rewrite !elem_of_cons, elem_of_nil in Hid. destruct Hid as [->|[->|[]]]; apply (bool_decide_unpack _); vm_compute; exact I. }
  apply fetch_get.
  - eapply sublist_NoDup; [exact Hnd|]. unfold base_params, buildBaseParams. rewrite <-!app_assoc. cbn [app fmap list_fmap fst].
    do 2 apply sublist_skip. apply prop_keys. done.
  - unfold base_params, buildBaseParams. cbn. left.
  - unfold base_params, buildBaseParams. cbn. right. left.
Qed.

(** The endpoint for own logs. *)
Definition own_path (cat : LogCategory) : jsstr :=
  match cat with common => u "/api/log/self" | drawing => u "/api/mj/self" | task => u "/api/task/self" end.

(** C22. In every category of logs a user without administration rights asks the
    endpoint for own logs, and neither the address bar nor a filter of a column
    puts a user name or the parameter [channel] in the query.  A channel of the
    address bar is sent as [channel_id] with drawing and task logs, and with
    no others. *)
Theorem users_stay_in_scope cat page pageSize sp cf :
  let '(path, query) := fetchLogsByCategory now startOfDay cat false page pageSize sp cf in
  path = own_path cat /\ (u "channel" ∉ query.*1) /\ (u "username" ∉ query.*1) /\
  map_get (u "channel_id") query =
    match cat with
    | common => None
    | drawing | task => query_text (if js_truthy (map_get (u "channel") sp) then Some (text_of (map_get (u "channel") sp)) else None)
    end.
Proof.
  assert (forall k, map_get k (fetchLogsByCategory now startOfDay cat false page pageSize sp cf).2 =
    query_text (map_get k (match cat with common => buildApiParams now startOfDay page pageSize sp cf false
      | drawing => base_params (u "mj_id") true page pageSize sp | task => base_params (u "task_id") false page pageSize sp end))) as Hget.
  { intros k. destruct cat; [apply common_get|apply base_get; set_solver..]. }
  assert ((fetchLogsByCategory now startOfDay cat false page pageSize sp cf).1 = own_path cat) as Hpath by (by destruct cat).
  destruct (fetchLogsByCategory now startOfDay cat false page pageSize sp cf) as [path query]. cbn [fst snd] in *.
  split; [done|]. rewrite <-!map_get_None, !Hget. clear Hget Hpath. destruct cat.
  - unfold buildApiParams. rewrite !filters_get by (apply (bool_decide_unpack _); vm_compute; exact I).
    rewrite !map_get_app, !prop_get. unfold buildTimeRangeParams. eval_keys. split_and!; reflexivity.
  - unfold base_params, buildBaseParams. rewrite !map_get_app, !prop_get. unfold buildTimeRangeParams. eval_keys. rewrite !cons_get. eval_keys.
    split_and!; [reflexivity..|]. by destruct (js_truthy _).
  - unfold base_params, buildBaseParams. rewrite !map_get_app, !prop_get. unfold buildTimeRangeParams. eval_keys. rewrite !cons_get. eval_keys.
    split_and!; [reflexivity..|]. by destruct (js_truthy _).
Qed.

(** A text in the address bar. *)
Definition text_value (v : option jsstr) : option json := if truthy_opt v then Some (JStr (v ?? [])) else None.

Lemma search_texts f :
  Forall (fun kv => map_get kv.1 (buildSearchParams f common) = text_value kv.2)
    [(u "model", model f); (u "token", token f); (u "group", group f); (u "username", username f); (u "requestId", requestId f);
     (u "upstreamRequestId", upstreamRequestId f); (u "channel", channel f)].
Proof.
  unfold buildSearchParams. repeat rewrite Forall_cons. cbn [fst snd]. split_and!; [..|by constructor];
    rewrite !map_get_app, !date_param_get, !text_param_get; eval_keys; unfold text_value; cbn iota;
    by destruct (truthy_opt _).
Qed.

Lemma search_times f :
  map_get (u "startTime") (buildSearchParams f common) = JNum <$> startTime f /\
  map_get (u "endTime") (buildSearchParams f common) = JNum <$> endTime f.
Proof.
  unfold buildSearchParams. split; rewrite !map_get_app, !date_param_get, !text_param_get; eval_keys; cbn iota;
    [by destruct (startTime f)|by destruct (endTime f)].
Qed.

Lemma text_arrives v x : x = text_value v -> query_text (if js_truthy x then Some (text_of x) else None) = if truthy_opt v then v else None.
Proof. intros ->. by destruct v as [[|c s]|]. Qed.

(** The filters that are texts, by the names of the query. *)
Definition text_filters (f : LogFilters) (adm : bool) : list (jsstr * option jsstr) :=
  [(u "model_name", model f); (u "token_name", token f); (u "group", group f); (u "request_id", requestId f);
   (u "upstream_request_id", upstreamRequestId f); (u "username", if adm then username f else None)].

(** What is filled in the form arrives: every text that is not empty is in the
    query under the name of the gateway, every empty one is left out, and the
    bounds of the time are given in seconds. *)
Theorem filters_arrive f page pageSize adm t1 t2 :
  startTime f = Some t1 -> endTime f = Some t2 -> num_truthy t1 = true -> num_truthy t2 = true ->
  let query := (fetchLogsByCategory now startOfDay common adm page pageSize (buildSearchParams f common) []).2 in
  Forall (fun kv => map_get kv.1 query = if truthy_opt kv.2 then kv.2 else None) (text_filters f adm) /\
  map_get (u "start_timestamp") query = Some (num_to_str (timestampToSeconds t1)) /\
  map_get (u "end_timestamp") query = Some (num_to_str (timestampToSeconds t2)).
Proof.
  intros Hs He Ht1 Ht2 query. pose proof (search_texts f) as Hsp. repeat rewrite Forall_cons in Hsp. cbn [fst snd] in Hsp.
  destruct Hsp as (Hm & Ht & Hg & Hu & Hr & Hur & Hc & _). destruct (search_times f) as [Hst Het]. rewrite Hs in Hst. rewrite He in Het.
  set (sp := buildSearchParams f common) in *. unfold query, text_filters. repeat rewrite Forall_cons. cbn [fst snd].
  rewrite !common_get. unfold buildApiParams, buildTimeRangeParams. cbn [foldl]. rewrite !map_get_app, !prop_get, !cons_get.
  rewrite Hst, Het. eval_keys. cbn iota. rewrite !match_same. cbn [fmap option_fmap option_map js_truthy json_truthy]. rewrite Ht1.
  split; [|split].
  - split_and!; [by apply text_arrives..| |constructor]. destruct adm; [by apply text_arrives|done].
  - unfold getTimestamp. cbn [js_truthy json_truthy]. rewrite Ht1. cbn [js_truthy json_truthy]. by rewrite Ht1.
  - unfold getTimestamp. cbn [js_truthy json_truthy]. rewrite Ht2. cbn [js_truthy json_truthy]. by rewrite Ht2.
Qed.

End common.

Lemma filters_arrive_witness :
  let f := mkFilters (Some (num_of_Z 1700000000000)) (Some (num_of_Z 1700086400000)) None (Some (u "gpt-4")) None None (Some (u "root")) None None None None in
  let query := (fetchLogsByCategory (num_of_Z 0) id common true 1 20 (buildSearchParams f common) []).2 in
  Forall (fun kv => map_get kv.1 query = if truthy_opt kv.2 then kv.2 else None) (text_filters f true) /\
  map_get (u "start_timestamp") query = Some (num_to_str (timestampToSeconds (num_of_Z 1700000000000))) /\
  map_get (u "end_timestamp") query = Some (num_to_str (timestampToSeconds (num_of_Z 1700086400000))).
Proof. apply filters_arrive; vm_compute; reflexivity. Defined.

(** ** The export *)

Section export_theory.
Context (clock : nat -> number) (startOfDay : number -> number).
Context (api_get : nat -> jsstr -> list (jsstr * jsstr) -> option GetLogsResponse).
Context (config : ExportLogsConfig).

Local Notation pages := (fetch_pages clock startOfDay api_get config).
Local Notation export := (exportCommonLogsCsv clock startOfDay api_get config).

Lemma max_rows : MAX_EXPORT_ROWS = (100 * 100)%nat.
Proof. vm_compute. reflexivity. Qed.

(** Every page but the last has a hundred items. *)
Lemma pages_end fuel : forall page items total,
  (MAX_EXPORT_ROWS <= length items + 100 * fuel)%nat ->
  exists r, pages fuel (S page) items total = Some r /\ (forall l t n, r = Paged l t n -> (n <= page + fuel)%nat).
Proof.
  induction fuel as [|fuel IH]; intros page items total Hf; unfold fetch_pages; fold fetch_pages.
  - destruct (Nat.ltb_spec (length items) MAX_EXPORT_ROWS); [lia|]. eexists. split; [done|]. intros l t n H1. injection H1 as <- <- <-. lia.
  - destruct (length items <? MAX_EXPORT_ROWS)%nat; [|eexists; split; [done|]; intros l t n H1; injection H1 as <- <- <-; lia].
    destruct (fetch_page _ _ _ _ _) as [res|]; [|by eexists].
    destruct (negb (success res)); [eexists; split; [done|]; intros l t n H1; injection H1 as <- <- <-; lia|].
    set (batch := _ ?? []). set (tot := _ ?? 0%Z).
    destruct (Nat.ltb_spec (length batch) EXPORT_PAGE_SIZE) as [Hb|Hb]; [eexists; split; [done|]; intros l t n H1; injection H1 as <- <- <-; lia|].
    destruct (tot <=? _)%Z; [eexists; split; [done|]; intros l t n H1; injection H1 as <- <- <-; lia|].
    unfold EXPORT_PAGE_SIZE in Hb. destruct (IH (S page) (items ++ batch) tot) as (r & Hr & Hn); [rewrite length_app; lia|].
    exists r. split; [done|]. intros l t n H1%Hn. lia.
Qed.

(** Rows of logs have fields. *)
Lemma rows_ok logs rows : mapM log_row logs = Some rows -> length rows = length logs /\ Forall (fun row => row <> []) rows.
Proof.
  intros H%mapM_Some_1. split; [symmetry; by eapply Forall2_length|]. induction H as [|x row l rows Hx _ IH]; constructor; [|done].
  unfold log_row in Hx. destruct (toISOString _); [|done]. cbn in Hx. by injection Hx as <-.
Qed.

(** C24. Whatever the gateway answers, the export ends after at most a hundred
    requests.  A file that is offered has one line per exported log after the
    header, and no more than ten thousand. *)
Theorem export_ends stop :
  (exists r, pages 100 1 [] 0 = Some r /\ forall l t n, r = Paged l t n -> (n <= 100)%nat) /\
  exists e, export stop = Some e /\
    forall name csv r, e = Downloaded name csv r ->
      (exported r <= MAX_EXPORT_ROWS)%nat /\
      exists rows, read_csv AtStart [] [] csv = csv_header :: rows /\ length rows = exported r.
Proof.
  destruct (pages_end 100 0 [] 0) as (r & Hr & Hn); [by rewrite max_rows|]. split; [by exists r|].
  unfold exportCommonLogsCsv. rewrite Hr. cbn [fmap option_fmap option_map]. eexists. split; [done|]. intros name csv res He.
  destruct r as [|items t n]; [done|]. destruct (mapM log_row _) as [rows|] eqn:Em; [|done]. destruct (toISOString stop); [|done].
  injection He as <- <- <-. cbn [exported]. apply rows_ok in Em as [Hl Hrows]. rewrite length_take in Hl. split; [lia|].
  exists rows. split; [by apply read_rows|lia].
Qed.

(** A gateway with the logs [all], in pages of a hundred; the first page is
    there when there are no logs. *)
Definition serves (all : list UsageLog) : Prop :=
  forall n page path query, page = 0%nat \/ (100 * page < length all)%nat ->
    map_get (u "p") query = Some (num_to_str (num_of_Z (Z.of_nat (S page)))) -> map_get (u "page_size") query = Some (u "100") ->
    api_get n path query = Some (mkResponse true (Some (Some (take 100 (drop (100 * page) all)), Some (Z.of_nat (length all))))).

Lemma fetch_served all page :
  serves all -> page = 0%nat \/ (100 * page < length all)%nat ->
  fetch_page clock startOfDay api_get config (S page) =
  Some (mkResponse true (Some (Some (take 100 (drop (100 * page) all)), Some (Z.of_nat (length all))))).
Proof.
  intros Hs Hpage. unfold fetch_page.
  pose proof (common_get (clock (S page)) startOfDay (Z.of_nat (S page)) (Z.of_nat EXPORT_PAGE_SIZE) (searchParams config) (columnFilters config) (isAdmin config)) as Hg.
  destruct (api_page (clock (S page)) startOfDay (Z.of_nat (S page)) (Z.of_nat EXPORT_PAGE_SIZE) (searchParams config) (columnFilters config) (isAdmin config)) as [H1 H2].
  pose proof (Hg (u "p")) as Hg1. pose proof (Hg (u "page_size")) as Hg2. rewrite H1 in Hg1. rewrite H2 in Hg2. clear Hg H1 H2.
  destruct (fetchLogsByCategory _ _ _ _ _ _ _ _) as [path query]. cbn [snd] in *. apply Hs; [done|..].
  - exact Hg1.
  - rewrite Hg2. vm_compute. reflexivity.
Qed.

Lemma pages_served all : serves all -> forall fuel page total,
  (page + fuel = 100)%nat -> page = 0%nat \/ (100 * page < length all)%nat -> (0 < page -> total = Z.of_nat (length all))%nat ->
  exists n, pages fuel (S page) (take (100 * page) all) total = Some (Paged (take MAX_EXPORT_ROWS all) (Z.of_nat (length all)) n).
Proof.
  intros Hs. induction fuel as [|fuel IH]; intros page total Hf Hl Ht; unfold fetch_pages; fold fetch_pages; rewrite length_take, max_rows.
  - assert (page = 100%nat) as -> by lia. rewrite (proj2 (Nat.ltb_ge _ _)) by lia. rewrite Ht by lia. by eexists.
  - rewrite (proj2 (Nat.ltb_lt _ _)) by lia. rewrite (fetch_served all) by done. cbn [success negb data mbind option_bind fst snd default from_option id].
    change (Some ?x ?? _) with x. rewrite take_take_drop, length_take, length_drop, length_take.
    replace (100 * page + 100)%nat with (100 * S page)%nat by lia. unfold EXPORT_PAGE_SIZE.
    destruct (Nat.ltb_spec (100 `min` (length all - 100 * page)) 100).
    + eexists. by rewrite !take_ge by lia.
    + destruct (Z.leb_spec (Z.of_nat (length all)) (Z.of_nat ((100 * S page) `min` length all))).
      * eexists. by rewrite !take_ge by lia.
      * rewrite <-max_rows. apply IH; lia.
Qed.

(** C16. Against a gateway that serves the pages of a list of logs, the file has
    exactly those logs in order, up to ten thousand, and the export says how
    many there are and whether some are missing, for whatever filters. *)
Theorem export_complete all rows stop name :
  serves all -> mapM log_row (take MAX_EXPORT_ROWS all) = Some rows -> toISOString stop = Some name ->
  exists e, export stop = Some e /\
    e = Downloaded (u "usage-logs-" ++ file_stamp name ++ u ".csv") (toCsv (csv_header :: rows))
          (mkExport (length rows) (Z.of_nat (length all)) (Z.of_nat MAX_EXPORT_ROWS <? Z.of_nat (length all))%Z).
Proof.
  intros Hs Hr Hn. unfold exportCommonLogsCsv. destruct (pages_served all Hs 100 0 0) as (n & Hp); [lia|by left|lia|].
  change (take (100 * 0) all) with ([] : list UsageLog) in Hp. rewrite Hp. cbn [fmap option_fmap option_map]. eexists. split; [done|].
  rewrite take_idemp, Hr, Hn. destruct (rows_ok _ _ Hr) as [Hl _]. rewrite length_take in *. f_equal. f_equal; [lia|].
  destruct (Z.ltb_spec (Z.of_nat MAX_EXPORT_ROWS) (Z.of_nat (length all))); [apply Z.ltb_lt|apply Z.ltb_ge]; lia.
Qed.

Lemma fetch_refused page :
  (forall n path query, api_get n path query = Some (mkResponse false None)) ->
  fetch_page clock startOfDay api_get config page = Some (mkResponse false None).
Proof. intros H. unfold fetch_page. destruct (fetchLogsByCategory _ _ _ _ _ _ _ _). apply H. Qed.

Lemma pages_refused fuel page :
  (forall n path query, api_get n path query = Some (mkResponse false None)) -> pages (S fuel) page [] 0 = Some (Paged [] 0 page).
Proof. intros H. unfold fetch_pages. by rewrite fetch_refused. Qed.

(** When the gateway refuses the first request, an empty file is offered and
    the button says that there are no logs, as if there were none. *)
Theorem refused_export_looks_empty stop name :
  (forall n path query, api_get n path query = Some (mkResponse false None)) -> toISOString stop = Some name ->
  exists e, export stop = Some e /\ handleExport e = NoLogs /\
    exists f r, e = Downloaded f (toCsv [csv_header]) r /\ truncated r = false.
Proof.
  intros Hapi Hn. unfold exportCommonLogsCsv.
  rewrite pages_refused by done.
  cbn [fmap option_fmap option_map]. eexists. split; [done|]. rewrite take_nil. change (mapM log_row []) with (Some ([] : list (list jsstr))). rewrite Hn.
  split; [done|]. by do 2 eexists.
Qed.

End export_theory.

(** ** The tier of a log *)

Lemma pricing_fields_NoDup : NoDup (map (fun v => bv_field v ?? []) BILLING_PRICING_VARS).
Proof. refine (bool_decide_eq_true_1 (NoDup (map (fun v => bv_field v ?? []) BILLING_PRICING_VARS)) _). vm_compute. reflexivity. Qed.

Lemma display_price t v :
  v ∈ BILLING_PRICING_VARS -> map_get (bv_field v ?? []) (pt_prices (display_tier t)) = Some (tier_price t v).
Proof.
  intros Hv. cbn [display_tier pt_prices]. apply map_get_elem.
  - pose proof pricing_fields_NoDup as H. rewrite <-list_fmap_compose. exact H.
  - apply list_elem_of_fmap. by exists v.
Qed.

Section tier_theory.
Context `{!Locale} `{!Base64Text}.

Lemma find_split {A} (p : A -> bool) before x after :
  forallb (fun y => negb (p y)) before = true -> p x = true -> List.find p (before ++ x :: after) = Some x.
Proof.
  intros Hb Hx. induction before as [|y l IH]; cbn [app List.find]; [by rewrite Hx|].
  cbn [forallb] in Hb. apply andb_true_iff in Hb as [Hy%negb_true_iff Hl]. rewrite Hy. by apply IH.
Qed.

(** C17. A log that was charged with the expression of an editor's table and
    names a tier of it by its label is shown with that tier, the first one of
    this label: the tier is the one of the table as the editor reads it
    ([as_read]), and there is one entry for every price of the tier that is
    finite and positive, with that price, except that the prices of the cache
    are left out when the request used no cache.  It holds for tables as in
    [display_reads_editor], and labels that are not blank once normalised. *)
Theorem log_shows_tier cfg other e before t after :
  canonical_config (as_read cfg) = true -> tiers (as_read cfg) = before ++ t :: after ->
  text_field (u "billing_mode") other = Some (u "tiered_expr") -> text_field (u "expr_b64") other = Some e -> e <> [] ->
  decode_base64 e = Some (generateExprFromVisualConfig (Some cfg)) ->
  text_field (u "matched_tier") other = Some (label t) -> normalizeTierLabel (Some (label t)) <> [] ->
  forallb (fun t' => negb (same_label (label t) (display_tier t'))) before = true ->
  exists s, getTieredBillingSummary other = Some s /\ tb_tier s = display_tier t /\ tb_tiers s = map display_tier (tiers (as_read cfg)) /\
    forall field short price, (field, short, price) ∈ priceEntries s <->
      exists v, v ∈ BILLING_PRICING_VARS /\ bv_field v = Some field /\ field <> [] /\ bv_shortLabel v = short /\ tier_price t v = price /\
        is_finite price = true /\ num_gt price (num_of_Z 0) = true /\ (bv_group v = Some (u "cache") -> hasAnyCacheTokens other = true).
Proof.
  intros Hcfg Hts Hmode Hb64 He Hdec Hmatch Hlab Hbefore. rewrite generate_as_read in Hdec by done.
  generalize dependent (as_read cfg). clear cfg. intros cfg Hcfg Hts Hdec. unfold getTieredBillingSummary.
  rewrite Hmode, bool_decide_eq_true_2 by done. cbn [negb]. rewrite Hb64. unfold decodeBillingExprB64. cbn [truthy_opt].
  change (Some e ?? []) with e. assert (truthy e = true) as -> by (by destruct e). cbn [negb]. rewrite Hdec.
  change (Some ?x ?? []) with x.
  assert (truthy (generateExprFromVisualConfig (Some cfg)) = true) as ->.
  { pose proof (parse_generated cfg Hcfg) as Hp. unfold tryParseVisualConfig in Hp. by destruct (generateExprFromVisualConfig (Some cfg)). }
  cbn [negb]. rewrite editor_shown by done. rewrite Hmatch. unfold resolveMatchedTier. cbn [truthy_opt]. change (Some (label t) ?? []) with (label t).
  assert (truthy (label t) = true) as -> by (by destruct (label t)). cbn [negb]. rewrite Hts, map_app. cbn [map]. rewrite find_split.
  - cbn [fmap option_fmap option_map]. eexists. split; [done|]. cbn [tb_tier tb_tiers priceEntries]. split; [done|]. split; [done|].
    intros field short price. rewrite list_elem_of_omap. split.
    + intros (v & Hv & Hent). exists v. unfold tier_entry in Hent. destruct (bv_field v) as [f|] eqn:Hf; [|done]. destruct f as [|c f]; [done|].
      destruct (bool_decide _ && negb _) eqn:Hcache; [done|]. pose proof (display_price t v Hv) as Hprice. rewrite Hf in Hprice.
      change (Some (c :: f) ?? []) with (c :: f) in Hprice. rewrite Hprice in Hent. change (Some (tier_price t v) ?? NaN) with (tier_price t v) in Hent.
      destruct (is_finite _ && num_gt _ _) eqn:Hpos; [|done]. apply andb_true_iff in Hpos as [H1 H2]. injection Hent as <- <- <-. split_and!; try done.
      intros Hg. rewrite Hg, bool_decide_eq_true_2 in Hcache by done. cbn [andb] in Hcache. by apply negb_false_iff in Hcache.
    + intros (v & Hv & Hf & Hne & <- & <- & H1 & H2 & Hc). exists v. split; [done|]. unfold tier_entry. rewrite Hf. destruct field as [|c f]; [done|].
      pose proof (display_price t v Hv) as Hprice. rewrite Hf in Hprice. change (Some (c :: f) ?? []) with (c :: f) in Hprice. rewrite Hprice.
      change (Some (tier_price t v) ?? NaN) with (tier_price t v). rewrite H1, H2. cbn [andb].
      destruct (bool_decide _ && negb _) eqn:Hcache; [|done]. apply andb_true_iff in Hcache as [Hg%bool_decide_eq_true Hn]. by rewrite Hc in Hn.
  - clear -Hbefore. induction before as [|y l IH]; [done|]. cbn [map forallb] in *. apply andb_true_iff in Hbefore as [-> Hl]. by apply IH.
  - unfold same_label. cbn [display_tier pt_label]. by rewrite bool_decide_eq_true_2, bool_decide_eq_false_2.
Qed.

End tier_theory.

(** ** Examples *)

Definition sample_log : UsageLog :=
  mkLog 1 1700000000 2 (u "root") (u "key, main") (u "gpt-4") 500 10 20 3 7 None (u "default") [] (u "req-1").

(** A gateway that reads the page in the query. *)
Definition sample_gateway (all : list UsageLog) (n : nat) (path : jsstr) (query : list (jsstr * jsstr)) : option GetLogsResponse :=
  (fun text =>
   let page := Z.to_nat (num_int (str_to_num text) ?? 1%Z) in
   mkResponse true (Some (Some (take 100 (drop (100 * (page - 1)) all)), Some (Z.of_nat (length all)))))
  <$> map_get (u "p") query.

Definition sample_config_of : ExportLogsConfig := mkConfig true [] [(u "model_name", Some (JStr (u "gpt-4")))].

Example sample_export :
  exportCommonLogsCsv (fun _ => num_of_Z 0) id (sample_gateway [sample_log]) sample_config_of 1700000000000 =
  Some (Downloaded (u "usage-logs-2023-11-14-22-13-20.csv")
    (toCsv [csv_header; [u "2023-11-14T22:13:20.000Z"; u "2"; u "gpt-4"; u "key, main"; u "root"; u "7"; u "10"; u "20"; u "30"; u "3"; u "500"; u "default"; u "req-1"]])
    (mkExport 1 1 false)).
Proof. vm_compute. reflexivity. Qed.

Lemma sample_serves : serves (sample_gateway [sample_log]) [sample_log].
Proof.
  intros n page path query Hpage Hp _. assert (page = 0%nat) as -> by (cbn [length] in Hpage; lia).
  unfold sample_gateway. rewrite Hp. vm_compute. reflexivity.
Qed.

Lemma export_complete_witness :
  exists e, exportCommonLogsCsv (fun _ => num_of_Z 0) id (sample_gateway [sample_log]) sample_config_of 1700000000000 = Some e /\
    e = Downloaded (u "usage-logs-" ++ file_stamp (u "2023-11-14T22:13:20.000Z") ++ u ".csv")
          (toCsv [csv_header; log_row sample_log ?? []]) (mkExport 1 1 false).
Proof.
  apply (export_complete (fun _ => num_of_Z 0) id (sample_gateway [sample_log]) sample_config_of [sample_log] [log_row sample_log ?? []]).
  - exact sample_serves.
  - vm_compute. reflexivity.
  - vm_compute. reflexivity.
Defined.

Lemma refused_export_looks_empty_witness :
  exists e, exportCommonLogsCsv (fun _ => num_of_Z 0) id (fun _ _ _ => Some (mkResponse false None)) sample_config_of 0 = Some e /\
    handleExport e = NoLogs /\ exists f r, e = Downloaded f (toCsv [csv_header]) r /\ truncated r = false.
Proof. by apply (refused_export_looks_empty _ _ _ _ 0 (u "1970-01-01T00:00:00.000Z")). Defined.

(** A decoder that knows one text. *)
Definition one_text : Base64Text :=
  {| decode_base64 s := if bool_decide (s = u "x") then Some (generateExprFromVisualConfig (Some rough_config)) else None |}.

Definition same_case : Locale := {| toLowerCase s := s; localeCompare := str_cmp |}.

Definition sample_other : option json :=
  Some (JObj [(u "billing_mode", JStr (u "tiered_expr")); (u "expr_b64", JStr (u "x")); (u "matched_tier", JStr (u "tier_2"))]).

Definition rough_tiers : list VisualTier := Eval vm_compute in tiers (as_read rough_config).

Definition rough_tier (i : nat) : VisualTier := Eval cbv in (rough_tiers !! i ?? mkVT [] [] NaN NaN CACHE_MODE_GENERIC []).

Lemma log_shows_tier_witness :
  exists s, @getTieredBillingSummary same_case one_text sample_other = Some s /\ tb_tier s = display_tier (rough_tier 1) /\
    tb_tiers s = map display_tier (tiers (as_read rough_config)).
Proof.
  destruct (@log_shows_tier same_case one_text rough_config sample_other (u "x") [rough_tier 0] (rough_tier 1) []) as (s & H1 & H2 & H3 & _);
    [vm_compute; reflexivity..|discriminate|vm_compute; reflexivity|vm_compute; reflexivity|vm_compute; discriminate|vm_compute; reflexivity|].
  exists s. exact (conj H1 (conj H2 H3)).
Defined.

End LogsTheory.
