(* ===== verification/ApiKeys.v ===== *)
(** * API keys and the wallet
    (web/default/src/features/keys/lib/api-key-form.ts, features/keys/constants.ts,
    features/wallet/lib)

    The form of an API key, from and to the key that the gateway keeps, and the
    helpers of the payment page.  A date of the form is its time in
    milliseconds; the two empty values of a nullable field are one. *)

From S2P Require Import Prelude JsString JsNumber JsJson Currency Format.

Import Currency Format.
Open Scope N_scope.

Module Keys.

(** ** Constants *)

Inductive ApiKeyStatus := ENABLED | DISABLED | EXPIRED | EXHAUSTED.

Definition API_KEY_STATUS (s : ApiKeyStatus) : Z := match s with ENABLED => 1 | DISABLED => 2 | EXPIRED => 3 | EXHAUSTED => 4 end.

(** [label], [variant] and [value] *)
Definition API_KEY_STATUSES : list (jsstr * jsstr * Z) :=
  [(u "Enabled", u "success", API_KEY_STATUS ENABLED); (u "Disabled", u "neutral", API_KEY_STATUS DISABLED);
   (u "Expired", u "warning", API_KEY_STATUS EXPIRED); (u "Exhausted", u "danger", API_KEY_STATUS EXHAUSTED)].

Definition API_KEY_STATUS_OPTIONS : list (jsstr * jsstr) := map (fun c => (c.1.1, Z_to_str c.2)) API_KEY_STATUSES.

Definition DEFAULT_GROUP : jsstr := [].

(** ** The key and its form *)

Record ApiKey := mkKey {
  k_id : number; k_name : jsstr; k_key : jsstr; k_status : number; k_remain_quota : number; k_used_quota : number;
  k_unlimited_quota : bool; k_expired_time : number; k_created_time : number; k_accessed_time : number; k_group : option jsstr;
  k_cross_group_retry : bool; k_model_limits_enabled : bool; k_model_limits : option jsstr; k_allow_ips : option jsstr;
  k_spend_limit : option number; k_reset_period : option jsstr; k_next_reset_time : option number;
}.

Record ApiKeyFormValues := mkForm {
  f_name : jsstr; remain_quota_dollars : option number; f_expired_time : option number; f_unlimited_quota : bool;
  f_model_limits : list jsstr; f_allow_ips : option jsstr; f_group : option jsstr; f_cross_group_retry : option bool;
  f_reset_period : option jsstr; tokenCount : option number;
}.

Record ApiKeyFormData := mkData {
  d_name : jsstr; d_remain_quota : number; d_expired_time : number; d_unlimited_quota : bool; d_model_limits_enabled : bool;
  d_model_limits : jsstr; d_allow_ips : jsstr; d_group : jsstr; d_cross_group_retry : bool; d_spend_limit : number;
  d_reset_period : jsstr; d_next_reset_time : number;
}.

Definition none_period : jsstr := u "none".

(** The schema: a name, a count of at least one, and a quota of zero or more
    for a limited key. *)
Definition getApiKeyFormSchema (data : ApiKeyFormValues) : bool :=
  truthy (f_name data) &&
  match tokenCount data with Some n => num_ge n (num_of_Z 1) | None => true end &&
  (f_unlimited_quota data || match remain_quota_dollars data with Some q => negb (num_lt q (num_of_Z 0)) | None => false end).

Definition API_KEY_FORM_DEFAULT_VALUES : ApiKeyFormValues :=
  mkForm [] (Some (num_of_Z 10)) None true [] (Some []) (Some DEFAULT_GROUP) (Some true) (Some none_period) (Some (num_of_Z 1)).

Definition getApiKeyFormDefaultValues (defaultUseAutoGroup : bool) : ApiKeyFormValues :=
  let d := API_KEY_FORM_DEFAULT_VALUES in
  mkForm (f_name d) (remain_quota_dollars d) (f_expired_time d) (f_unlimited_quota d) (f_model_limits d) (f_allow_ips d)
    (Some (if defaultUseAutoGroup then u "auto" else DEFAULT_GROUP)) (Some defaultUseAutoGroup) (f_reset_period d) (tokenCount d).

(** [x || 0] *)
Definition or_0 (x : option number) : number := match x with Some v => if num_truthy v then v else num_of_Z 0 | None => num_of_Z 0 end.

Section form.

(** The currency settings, for amounts. *)
Context (stored : option StoredCurrency).

Definition positive_limit (key : ApiKey) : bool := num_gt (k_spend_limit key ?? num_of_Z 0) (num_of_Z 0).

Definition transformFormDataToPayload (data : ApiKeyFormValues) (original : option ApiKey) : ApiKeyFormData :=
  let remainQuota := if f_unlimited_quota data then num_of_Z 0 else parseQuotaFromDollars stored (or_0 (remain_quota_dollars data)) in
  let recurring :=
    negb (f_unlimited_quota data) &&
    match f_reset_period data with Some p => negb (bool_decide (p = none_period)) | None => false end &&
    num_gt remainQuota (num_of_Z 0) in
  let remainToSend :=
    match original with
    | Some key =>
        if recurring && negb (bool_decide ((k_reset_period key ?? none_period) = none_period)) && positive_limit key &&
           num_eq remainQuota (k_spend_limit key ?? num_of_Z 0)
        then k_remain_quota key else remainQuota
    | None => remainQuota
    end in
  mkData (f_name data) remainToSend
    (match f_expired_time data with Some t => num_floor (num_div t (num_of_Z 1000)) | None => num_of_Z (-1) end)
    (f_unlimited_quota data) (truthy_list (f_model_limits data)) (join (u ",") (f_model_limits data))
    (or_str (f_allow_ips data ?? []) []) (or_str (f_group data ?? []) [])
    (if bool_decide (f_group data = Some (u "auto")) then f_cross_group_retry data ?? false else false)
    (if recurring then remainQuota else num_of_Z 0)
    (if recurring then f_reset_period data ?? none_period else none_period)
    (num_of_Z 0).

(** Whether the budget of a key is refilled. *)
Definition recurring_key (key : ApiKey) : bool :=
  negb (bool_decide (or_str (k_reset_period key ?? []) none_period = none_period)) && positive_limit key.

Definition transformApiKeyToFormDefaults (key : ApiKey) : ApiKeyFormValues :=
  let resetPeriod := or_str (k_reset_period key ?? []) none_period in
  let recurring := recurring_key key in
  let creditDollars :=
    if k_unlimited_quota key then num_of_Z 0
    else quotaUnitsToDollars stored (if recurring then k_spend_limit key ?? num_of_Z 0 else k_remain_quota key) in
  mkForm (k_name key) (Some creditDollars)
    (if num_gt (k_expired_time key) (num_of_Z 0) then Some (num_mul (k_expired_time key) (num_of_Z 1000)) else None)
    (k_unlimited_quota key)
    (if truthy_opt (k_model_limits key) then bfilter truthy (split_on 44 (k_model_limits key ?? [])) else [])
    (Some (or_str (k_allow_ips key ?? []) [])) (Some (or_str (k_group key ?? []) DEFAULT_GROUP)) (Some (k_cross_group_retry key))
    (Some (if recurring then resetPeriod else none_period)) (Some (num_of_Z 1)).

(** ** What holds *)

(** Amounts that the form shows exactly. *)
Definition shown_exactly (units : number) : Prop := parseQuotaFromDollars stored (or_0 (Some (quotaUnitsToDollars stored units))) = units.

Lemma recurring_period key :
  recurring_key key = true ->
  positive_limit key = true /\ or_str (k_reset_period key ?? []) none_period <> none_period /\ (k_reset_period key ?? none_period) <> none_period.
Proof.
  unfold recurring_key. rewrite andb_true_iff, negb_true_iff, bool_decide_eq_false. intros [Hp Hl]. split; [done|]. split; [done|].
  destruct (k_reset_period key) as [[|c p]|]; done.
Qed.

Lemma num_eq_refl x : num_gt x (num_of_Z 0) = true -> num_eq x x = true.
Proof.
  unfold num_gt, num_eq, SFltb, SFeqb. destruct x as [s|s| |s m e]; try done; [by destruct s|]. intros _.
  cbn. destruct s; by rewrite Z.compare_refl, Pos.compare_refl.
Qed.

Lemma kept_quota data key :
  f_unlimited_quota data = false -> recurring_key key = true -> shown_exactly (k_spend_limit key ?? num_of_Z 0) ->
  remain_quota_dollars data = Some (quotaUnitsToDollars stored (k_spend_limit key ?? num_of_Z 0)) ->
  (exists p, f_reset_period data = Some p /\ p <> none_period) ->
  let d := transformFormDataToPayload data (Some key) in
  d_remain_quota d = k_remain_quota key /\ d_spend_limit d = k_spend_limit key ?? num_of_Z 0 /\ Some (d_reset_period d) = f_reset_period data.
Proof.
  intros Hu Hrec Hex Hq (p & Hp & Hne). destruct (recurring_period _ Hrec) as (Hl & _ & Hper). unfold transformFormDataToPayload.
  rewrite Hu, Hq, Hp. unfold shown_exactly in Hex. rewrite Hex. cbn [negb andb]. rewrite (bool_decide_eq_false_2 (p = none_period)) by done.
  cbn [negb andb]. pose proof Hl as Hl'. unfold positive_limit in Hl'. rewrite Hl'.
  rewrite (bool_decide_eq_false_2 ((k_reset_period key ?? none_period) = none_period)) by done. rewrite Hl, num_eq_refl by done. done.
Qed.

(** An edit of a key whose budget is refilled does not give back what was
    spent in the running period: as long as the budget shown is not changed
    and the budget stays recurring, the quota that is left is sent as it was,
    whatever else of the form is edited.  The budget is one that the form shows
    exactly. *)
Theorem unrelated_edit_keeps_quota data key :
  f_unlimited_quota data = false -> recurring_key key = true -> shown_exactly (k_spend_limit key ?? num_of_Z 0) ->
  k_unlimited_quota key = false -> remain_quota_dollars data = remain_quota_dollars (transformApiKeyToFormDefaults key) ->
  (exists p, f_reset_period data = Some p /\ p <> none_period) ->
  d_remain_quota (transformFormDataToPayload data (Some key)) = k_remain_quota key.
Proof.
  intros Hu Hrec Hex Hk Hq Hp. apply kept_quota; try done. rewrite Hq. cbn [transformApiKeyToFormDefaults remain_quota_dollars].
  by rewrite Hk, Hrec.
Qed.

(** A list of names as the gateway stores it. *)
Definition clean_names (s : option jsstr) : Prop :=
  exists l, s ?? [] = join (u ",") l /\ Forall (fun n => truthy n = true /\ (44 ∉ n)) l.

Lemma or_str_empty s : or_str s [] = s.
Proof. by destruct s. Qed.

Lemma names_roundtrip s :
  clean_names s ->
  let l := if truthy_opt s then bfilter truthy (split_on 44 (s ?? [])) else [] in
  join (u ",") l = s ?? [] /\ truthy_list l = truthy_opt s.
Proof.
  intros (l & Hs & Hl). destruct s as [[|c s]|]; [done| |done]. cbn [truthy_opt truthy]. cbn zeta.
  assert (bfilter truthy (split_on 44 (Some (c :: s) ?? [])) = l) as ->.
  { rewrite Hs. change (u ",") with [44]. rewrite split_join.
    - apply bfilter_all. intros x Hx. rewrite Forall_forall in Hl. by apply Hl.
    - destruct l; done.
    - eapply Forall_impl; [exact Hl|]. by intros x [_ Hx]. }
  split; [by rewrite Hs|]. by destruct l.
Qed.

(** The quota, the budget and the period of a form that is not edited. *)
Lemma form_quota key :
  shown_exactly (k_remain_quota key) -> shown_exactly (k_spend_limit key ?? num_of_Z 0) ->
  let d := transformFormDataToPayload (transformApiKeyToFormDefaults key) (Some key) in
  let recurring := negb (k_unlimited_quota key) && recurring_key key in
  d_remain_quota d = (if k_unlimited_quota key then num_of_Z 0 else k_remain_quota key) /\
  d_spend_limit d = (if recurring then k_spend_limit key ?? num_of_Z 0 else num_of_Z 0) /\
  d_reset_period d = (if recurring then k_reset_period key ?? none_period else none_period).
Proof.
  intros Hr Hs d recurring. unfold d, recurring. destruct (k_unlimited_quota key) eqn:Hu.
  - unfold transformFormDataToPayload. cbn [transformApiKeyToFormDefaults f_unlimited_quota]. rewrite Hu. done.
  - cbn [negb andb]. destruct (recurring_key key) eqn:Hrec.
    + destruct (recurring_period _ Hrec) as (_ & Hp1 & Hp2).
      destruct (kept_quota (transformApiKeyToFormDefaults key) key) as (H1 & H2 & H3); try done.
      * unfold transformApiKeyToFormDefaults. cbn [remain_quota_dollars]. by rewrite Hu, Hrec.
      * unfold transformApiKeyToFormDefaults. cbn [f_reset_period]. rewrite Hrec. eauto.
      * split_and!; [done|done|]. unfold transformApiKeyToFormDefaults in H3 at 2. cbn [f_reset_period] in H3. rewrite Hrec in H3.
        apply (inj Some) in H3. rewrite H3. by destruct (k_reset_period key) as [[|c r]|].
    + unfold transformFormDataToPayload. cbn [transformApiKeyToFormDefaults f_unlimited_quota f_reset_period remain_quota_dollars]. rewrite Hu, Hrec.
      rewrite (bool_decide_eq_true_2 (none_period = none_period)) by done. cbn [negb andb]. unfold shown_exactly in Hr. by rewrite Hr.
Qed.

(** What opening a key and saving the form unchanged sends: the name, the end,
    the models, the addresses and the group as they were, the quota of a limited
    key and the budget of a recurring one with its period.  An unlimited key
    is sent with a quota and a budget of 0, the group retry only with the
    automatic group, the switch for the models follows from the list, and the
    time of the next reset is 0, which the gateway's scheduler replaces.  The
    amounts and the end are ones that the form shows exactly, and no name of a
    model has a comma. *)
Theorem key_form_roundtrip key :
  shown_exactly (k_remain_quota key) -> shown_exactly (k_spend_limit key ?? num_of_Z 0) -> clean_names (k_model_limits key) ->
  num_floor (num_div (num_mul (k_expired_time key) (num_of_Z 1000)) (num_of_Z 1000)) = k_expired_time key ->
  let d := transformFormDataToPayload (transformApiKeyToFormDefaults key) (Some key) in
  let recurring := negb (k_unlimited_quota key) && recurring_key key in
  d_name d = k_name key /\ d_unlimited_quota d = k_unlimited_quota key /\
  d_remain_quota d = (if k_unlimited_quota key then num_of_Z 0 else k_remain_quota key) /\
  d_expired_time d = (if num_gt (k_expired_time key) (num_of_Z 0) then k_expired_time key else num_of_Z (-1)) /\
  d_model_limits d = k_model_limits key ?? [] /\ d_model_limits_enabled d = truthy_opt (k_model_limits key) /\
  d_allow_ips d = k_allow_ips key ?? [] /\ d_group d = k_group key ?? [] /\
  d_cross_group_retry d = (bool_decide (k_group key = Some (u "auto")) && k_cross_group_retry key) /\
  d_spend_limit d = (if recurring then k_spend_limit key ?? num_of_Z 0 else num_of_Z 0) /\
  d_reset_period d = (if recurring then k_reset_period key ?? none_period else none_period) /\ d_next_reset_time d = num_of_Z 0.
Proof.
  intros Hr Hs Hm Ht d recurring. destruct (names_roundtrip _ Hm) as [Hm1 Hm2]. pose proof (form_quota key Hr Hs) as (Hq1 & Hq2 & Hq3).
  fold d in Hq1, Hq2, Hq3. split_and!; try done.
  - unfold d. cbn [transformApiKeyToFormDefaults transformFormDataToPayload d_expired_time f_expired_time].
    by destruct (num_gt _ _).
  - unfold d. cbn [transformApiKeyToFormDefaults transformFormDataToPayload d_allow_ips f_allow_ips default from_option id]. by rewrite !or_str_empty.
  - unfold d. cbn [transformApiKeyToFormDefaults transformFormDataToPayload d_group f_group default from_option id]. unfold DEFAULT_GROUP. by rewrite !or_str_empty.
  - unfold d. cbn [transformApiKeyToFormDefaults transformFormDataToPayload d_cross_group_retry f_group f_cross_group_retry default from_option id].
    unfold DEFAULT_GROUP. rewrite or_str_empty. destruct (k_group key) as [g|].
    + change (Some g ?? []) with g. by destruct (bool_decide (Some g = Some (u "auto"))).
    + by rewrite !bool_decide_eq_false_2.
Qed.

End form.

(** A key with a daily budget of one dollar, a quarter of it left. *)
Definition sample_key : ApiKey :=
  mkKey (num_of_Z 1) (u "main") (u "abc") (num_of_Z 1) (num_of_Z 123456) (num_of_Z 376544) false (num_of_Z 1700000000) (num_of_Z 1690000000)
    (num_of_Z 1690000001) (Some (u "auto")) true true (Some (u "gpt-4,gpt-5")) None (Some (num_of_Z 500000)) (Some (u "daily")) (Some (num_of_Z 0)).

Lemma unrelated_edit_keeps_quota_witness :
  d_remain_quota (transformFormDataToPayload None
    (mkForm (u "renamed") (Some (num_of_Z 1)) None false [] None None None (Some (u "daily")) None) (Some sample_key)) = num_of_Z 123456.
Proof.
  apply (unrelated_edit_keeps_quota None (mkForm (u "renamed") (Some (num_of_Z 1)) None false [] None None None (Some (u "daily")) None) sample_key).
  - reflexivity.
  - vm_compute. reflexivity.
  - unfold shown_exactly. vm_compute. reflexivity.
  - reflexivity.
  - vm_compute. reflexivity.
  - exists (u "daily"). split; [reflexivity|discriminate].
Defined.

Lemma key_form_roundtrip_witness :
  d_spend_limit (transformFormDataToPayload None (transformApiKeyToFormDefaults None sample_key) (Some sample_key)) = num_of_Z 500000 /\
  d_model_limits (transformFormDataToPayload None (transformApiKeyToFormDefaults None sample_key) (Some sample_key)) = u "gpt-4,gpt-5".
Proof.
  destruct (key_form_roundtrip None sample_key) as (_ & _ & _ & _ & Hm & _ & _ & _ & _ & Hs & _).
  - unfold shown_exactly. vm_compute. reflexivity.
  - unfold shown_exactly. vm_compute. reflexivity.
  - exists [u "gpt-4"; u "gpt-5"]. split; [vm_compute; reflexivity|]. apply (bool_decide_unpack _). vm_compute. exact I.
  - vm_compute. reflexivity.
  - rewrite Hs, Hm. split; vm_compute; reflexivity.
Defined.

(** Making a recurring budget one-off fills it up again. *)
Example one_off_refills :
  d_remain_quota (transformFormDataToPayload None
    (mkForm (u "main") (Some (num_of_Z 1)) None false [] None None None (Some none_period) None) (Some sample_key)) = num_of_Z 500000.
Proof. vm_compute. reflexivity. Qed.

End Keys.

(** ** The wallet *)

Module Wallet.

Definition DEFAULT_PRESET_MULTIPLIERS : list Z := [1; 5; 10; 30; 50; 100; 300; 500]%Z.

Inductive PaymentType := ALIPAY | WECHAT | STRIPE | CREEM | WAFFO | WAFFO_PANCAKE.
Definition PAYMENT_TYPES (p : PaymentType) : jsstr :=
  match p with
  | ALIPAY => u "alipay" | WECHAT => u "wxpay" | STRIPE => u "stripe" | CREEM => u "creem" | WAFFO => u "waffo"
  | WAFFO_PANCAKE => u "waffo_pancake"
  end.
Definition DEFAULT_PAYMENT_TYPE : jsstr := PAYMENT_TYPES ALIPAY.
Definition DEFAULT_DISCOUNT_RATE : number := num_of_Z 1.
Definition DEFAULT_MIN_TOPUP : number := num_of_Z 1.

(** The fields that the helpers read; a method by its type. *)
Record TopupInfo := mkTopup {
  pay_methods : list jsstr; enable_online_topup : bool; enable_stripe_topup : bool; enable_waffo_topup : bool;
  enable_waffo_pancake_topup : bool; min_topup : number; stripe_min_topup : number; waffo_min_topup : option number;
  waffo_pancake_min_topup : option number;
}.

(** The hidden inputs of the payment form. *)
Definition payment_inputs (params : list (jsstr * json)) : list (jsstr * jsstr) :=
  map (fun kv => (kv.1, json_to_str kv.2)) (obj_entries params).

Definition isStripePayment (paymentType : jsstr) : bool := bool_decide (paymentType = PAYMENT_TYPES STRIPE).
Definition isWaffoPancakePayment (paymentType : jsstr) : bool := bool_decide (paymentType = PAYMENT_TYPES WAFFO_PANCAKE).

(** The methods by their types. *)
Definition getDefaultPaymentType (topupInfo : option TopupInfo) : jsstr :=
  match topupInfo with
  | None => DEFAULT_PAYMENT_TYPE
  | Some i =>
      match pay_methods i with
      | m :: _ => m
      | [] => if enable_stripe_topup i then PAYMENT_TYPES STRIPE
              else if enable_waffo_topup i then PAYMENT_TYPES WAFFO
              else if enable_waffo_pancake_topup i then PAYMENT_TYPES WAFFO_PANCAKE
              else DEFAULT_PAYMENT_TYPE
      end
  end.

Definition or_min (x : option number) : number :=
  match x with Some v => if num_truthy v then v else DEFAULT_MIN_TOPUP | None => DEFAULT_MIN_TOPUP end.

Definition getMinTopupAmount (topupInfo : option TopupInfo) : number :=
  match topupInfo with
  | None => DEFAULT_MIN_TOPUP
  | Some i => if enable_online_topup i then min_topup i
              else if enable_stripe_topup i then stripe_min_topup i
              else if enable_waffo_topup i then or_min (waffo_min_topup i)
              else if enable_waffo_pancake_topup i then or_min (waffo_pancake_min_topup i)
              else DEFAULT_MIN_TOPUP
  end.

Record PresetAmount := mkPreset { p_value : number; p_discount : option number }.

Definition generatePresetAmounts (minAmount : number) : list PresetAmount :=
  map (fun m => mkPreset (num_mul minAmount (num_of_Z m)) None) DEFAULT_PRESET_MULTIPLIERS.

(** The discounts by the texts of their amounts. *)
Definition mergePresetAmounts (amountOptions : list number) (discounts : list (jsstr * number)) : list PresetAmount :=
  map (fun amount => mkPreset amount (Some (match map_get (num_to_str amount) discounts with
                                            | Some d => if num_truthy d then d else num_of_Z 1
                                            | None => num_of_Z 1
                                            end))) amountOptions.

(** [variant] and [label] *)
Definition STATUS_CONFIG : list (jsstr * (jsstr * jsstr)) :=
  [(u "success", (u "success", u "Success")); (u "pending", (u "warning", u "Pending")); (u "expired", (u "danger", u "Expired"))].

Definition getStatusConfig (status : jsstr) : jsstr * jsstr := map_get status STATUS_CONFIG ?? (u "warning", u "Pending").

Definition PAYMENT_METHOD_NAMES : list (jsstr * jsstr) :=
  [(u "stripe", u "Stripe"); (u "alipay", u "Alipay"); (u "wxpay", u "WeChat Pay"); (u "waffo", u "Waffo")].

Definition getPaymentMethodName (method : jsstr) : jsstr := map_get method PAYMENT_METHOD_NAMES ?? method.

Definition formatCreemPrice (price : number) (euro : bool) : jsstr := (if euro then u "€" else u "$") ++ to_fixed 2 price.

Definition formatQuotaShort (quota : number) : jsstr :=
  if num_ge quota (num_of_Z 1000000) then to_fixed 1 (num_div quota (num_of_Z 1000000)) ++ u "M"
  else if num_ge quota (num_of_Z 1000) then to_fixed 1 (num_div quota (num_of_Z 1000)) ++ u "K"
  else num_to_str quota.

(** An amount as a number or a text. *)
Definition formatCurrency `{Intl} (amount : number + jsstr) : jsstr :=
  let numeric := match amount with inl x => x | inr s => parse_float s end in
  if negb (is_finite numeric) then u "-"
  else intl_format (mkIntl None None None None (Some 0%Z) (if num_ge (num_abs numeric) (num_of_Z 1) then 2 else 4)) numeric.

Definition getDiscountLabel (discount : number) : jsstr :=
  if num_ge discount DEFAULT_DISCOUNT_RATE then []
  else num_to_str (num_round (num_mul (num_sub (num_of_Z 1) discount) (num_of_Z 100))) ++ u "% OFF".

Record PresetPricing := mkPricing { displayValue : number; originalPrice : number; actualPrice : number; savedAmount : number; hasDiscount : bool }.

Definition calculatePresetPricing (presetValue priceRatio discount usdExchangeRate : number) : PresetPricing :=
  let original := num_mul presetValue priceRatio in
  let actual := num_mul original discount in
  mkPricing (num_mul presetValue usdExchangeRate) original actual (num_sub original actual) (num_lt discount (num_of_Z 1)).

(** A positive discount only names a preset amount that is offered. *)
Lemma merged_values amounts discounts : map p_value (mergePresetAmounts amounts discounts) = amounts.
Proof. unfold mergePresetAmounts. rewrite map_map. by rewrite map_id. Qed.

(** A discount of less than half a percent is announced as nothing off. *)
Example tiny_discount : getDiscountLabel (num_of_decimal 999 (-3)) = u "0% OFF".
Proof. vm_compute. reflexivity. Qed.

End Wallet.
