(* ===== verification/ChatLinks.v ===== *)
(** * Links to chat applications
    (web/default/src/features/chat/lib/chat-links.ts, send-to-fluent.ts)

    The administrator lists applications with templates of links; a link is
    completed with the address of the gateway and a key.  Some applications
    take both as a JSON object in Base64.  [btoa] throws for units above 255
    and [encodeURIComponent] for lone surrogates: nothing then. *)

From S2P Require Import Prelude JsString JsNumber JsJson JsPrint PricingModels ApiKeys.

Import Print.
Open Scope N_scope.

Module ChatLinks.

(** ** Base64 and percent encoding *)

Definition b64_char (v : N) : N :=
  if v <? 26 then 65 + v else if v <? 52 then 71 + v else if v <? 62 then v - 4 else if v =? 62 then 43 else 47.

Fixpoint b64_encode (s : jsstr) : jsstr :=
  match s with
  | a :: b :: c :: s' =>
      b64_char (a / 4) :: b64_char (a mod 4 * 16 + b / 16) :: b64_char (b mod 16 * 4 + c / 64) :: b64_char (c mod 64) :: b64_encode s'
  | [a; b] => [b64_char (a / 4); b64_char (a mod 4 * 16 + b / 16); b64_char (b mod 16 * 4); 61]
  | [a] => [b64_char (a / 4); b64_char (a mod 4 * 16); 61; 61]
  | [] => []
  end.

Definition is_byte (c : N) : bool := c <? 256.

Definition btoa (s : jsstr) : option jsstr := if forallb is_byte s then Some (b64_encode s) else None.

Definition hex_upper (n : N) : N := if n <? 10 then 48 + n else 55 + n.

Definition percent (byte : N) : jsstr := [37; hex_upper (byte / 16); hex_upper (byte mod 16)].

Definition is_letter (c : N) : bool := ((65 <=? c) && (c <=? 90)) || ((97 <=? c) && (c <=? 122)).

(** The characters that stay as they are. *)
Definition is_unreserved (c : N) : bool := is_letter c || is_digit c || bool_decide (c ∈ u "-_.!~*'()").

Definition utf8 (c : N) : list N :=
  if c <? 128 then [c]
  else if c <? 2048 then [192 + c / 64; 128 + c mod 64]
  else if c <? 65536 then [224 + c / 4096; 128 + c / 64 mod 64; 128 + c mod 64]
  else [240 + c / 262144; 128 + c / 4096 mod 64; 128 + c / 64 mod 64; 128 + c mod 64].

Fixpoint encodeURIComponent (s : jsstr) : option jsstr :=
  match s with
  | [] => Some []
  | c :: s' =>
      if is_low c then None
      else if is_high c then
        match s' with
        | d :: s'' =>
            if is_low d then app (concat (map percent (utf8 (65536 + (c - 55296) * 1024 + (d - 56320))))) <$> encodeURIComponent s''
            else None
        | [] => None
        end
      else app (if is_unreserved c then [c] else concat (map percent (utf8 c))) <$> encodeURIComponent s'
  end.

(** ** Links *)

Inductive ChatLinkType := web | custom_protocol | fluent.

Record ChatPreset := mkPreset { id : jsstr; name : jsstr; url : jsstr; type : ChatLinkType }.

Section links.
Context `{!Locale}.

(** [/^https?:\/\//i] *)
Definition is_http (s : jsstr) : bool :=
  let lower c := if (65 <=? c) && (c <=? 90) then c + 32 else c in
  starts_with (u "http://") (map lower (take 7 s)) || starts_with (u "https://") (map lower (take 8 s)).

Definition detectChatLinkType (url : jsstr) : ChatLinkType :=
  if is_http url then web else if starts_with (u "fluent") (toLowerCase url) then fluent else custom_protocol.

Definition chatLinkRequiresApiKey (url : jsstr) : bool :=
  str_includes url (u "{key}") || str_includes url (u "{cherryConfig}") || str_includes url (u "{aionuiConfig}") ||
  str_includes url (u "{deepchatConfig}").

(** An entry of the list, with its position. *)
Definition preset_of (index : nat) (entry : json) : option ChatPreset :=
  match entry with
  | JObj [(n, JStr v)] =>
      let url := trim v in
      if negb (truthy url) then None else Some (mkPreset (N_to_str (N.of_nat index)) n url (detectChatLinkType url))
  | _ => None
  end.

Definition parseChatConfig (raw : option json) : list ChatPreset :=
  let parsed := match raw with Some (JStr s) => JSON_parse s | _ => raw end in
  match parsed with
  | Some (JArr entries) => omap (fun o => o) (imap preset_of entries)
  | _ => []
  end.

(** [source.split(token).join(value)], for a token that is not empty; [skip]
    units of an occurrence are left. *)
Fixpoint replaceToken (token value : jsstr) (skip : nat) (source : jsstr) : jsstr :=
  match source with
  | [] => []
  | c :: s =>
      match skip with
      | S n => replaceToken token value n s
      | 0%nat => if starts_with token source then value ++ replaceToken token value (length token - 1) s
                 else c :: replaceToken token value 0 s
      end
  end.

Definition normalizeApiKey (apiKey : jsstr) : jsstr :=
  let trimmed := trim apiKey in
  if negb (truthy trimmed) then [] else if starts_with (u "sk-") trimmed then trimmed else u "sk-" ++ trimmed.

(** The object an application gets, [first] being the name of its first
    property. *)
Definition config_payload (first address key : jsstr) : json :=
  JObj [(first, JStr (u "new-api")); (u "baseUrl", JStr address); (u "apiKey", JStr key)].

Definition config_text (first address key : jsstr) : option jsstr :=
  btoa (stringify [] [] (config_payload first address key)) ≫= encodeURIComponent.

Definition resolveChatUrl (template : jsstr) (apiKey : option jsstr) (serverAddress : jsstr) : option jsstr :=
  let safeApiKey := normalizeApiKey (apiKey ?? []) in
  let with_config token first := (fun encoded => replaceToken token encoded 0 template) <$> config_text first serverAddress safeApiKey in
  if str_includes template (u "{cherryConfig}") then with_config (u "{cherryConfig}") (u "id")
  else if str_includes template (u "{aionuiConfig}") then with_config (u "{aionuiConfig}") (u "platform")
  else if str_includes template (u "{deepchatConfig}") then with_config (u "{deepchatConfig}") (u "id")
  else
    let address := if truthy serverAddress then (fun a => replaceToken (u "{address}") a 0 template) <$> encodeURIComponent serverAddress
                   else Some template in
    (fun url => if truthy safeApiKey then replaceToken (u "{key}") safeApiKey 0 url else url) <$> address.

(** The keys by their text and status. *)
Definition getFirstActiveKey (keys : list (jsstr * Z)) : option (jsstr * Z) :=
  List.find (fun k => bool_decide (k.2 = Keys.API_KEY_STATUS Keys.ENABLED)) keys.

(** The detail of the event for an extension that is present. *)
Definition sendToFluent (present : bool) (origin apiKey : jsstr) (serverAddress : option jsstr) : option json :=
  if negb present then None
  else Some (config_payload (u "id") (or_str (serverAddress ?? []) origin) (u "sk-" ++ apiKey)).

(** The key that the table of keys resolves and passes on. *)
Definition full_key (key : jsstr) : jsstr := u "sk-" ++ key.

End links.

(** ** What an application reads *)

Definition b64_val (c : N) : option N :=
  if (65 <=? c) && (c <=? 90) then Some (c - 65) else if (97 <=? c) && (c <=? 122) then Some (c - 71)
  else if (48 <=? c) && (c <=? 57) then Some (c + 4) else if c =? 43 then Some 62 else if c =? 47 then Some 63 else None.

(** The bytes of a Base64 text. *)
Fixpoint b64_decode (s : jsstr) : option jsstr :=
  match s with
  | [] => Some []
  | c1 :: c2 :: c3 :: c4 :: s' =>
      v1 ← b64_val c1; v2 ← b64_val c2;
      if (c3 =? 61) then Some [v1 * 4 + v2 / 16]
      else
        v3 ← b64_val c3;
        if (c4 =? 61) then Some [v1 * 4 + v2 / 16; v2 mod 16 * 16 + v3 / 4]
        else
          v4 ← b64_val c4; rest ← b64_decode s';
          Some (v1 * 4 + v2 / 16 :: v2 mod 16 * 16 + v3 / 4 :: v3 mod 4 * 64 + v4 :: rest)
  | _ => None
  end.

Definition hex_of (c : N) : option N := if is_digit c then Some (c - 48) else if (65 <=? c) && (c <=? 70) then Some (c - 55) else None.

(** The bytes of a percent-encoded text. *)
Fixpoint percent_decode (s : jsstr) : option jsstr :=
  match s with
  | [] => Some []
  | 37 :: h :: l :: s' => a ← hex_of h; b ← hex_of l; rest ← percent_decode s'; Some (a * 16 + b :: rest)
  | c :: s' => cons c <$> percent_decode s'
  end.

(** ** Round trips *)

Lemma b64_char_val v : v < 64 -> b64_val (b64_char v) = Some v.
Proof.
  intros Hv. assert (forallb (fun n => bool_decide (b64_val (b64_char (N.of_nat n)) = Some (N.of_nat n))) (seq 0 64) = true) as H by reflexivity.
  rewrite forallb_forall in H. specialize (H (N.to_nat v)). rewrite N2Nat.id in H. eapply bool_decide_eq_true, H, in_seq. lia.
Qed.

Lemma b64_char_not_pad v : v < 64 -> (b64_char v =? 61) = false.
Proof.
  intros Hv. assert (forallb (fun n => negb (b64_char (N.of_nat n) =? 61)) (seq 0 64) = true) as H by reflexivity.
  rewrite forallb_forall in H. specialize (H (N.to_nat v)). rewrite N2Nat.id in H. apply negb_true_iff, H, in_seq. lia.
Qed.

Lemma b64_values a b c :
  a < 256 -> b < 256 -> c < 256 ->
  a / 4 < 64 /\ a mod 4 * 16 + b / 16 < 64 /\ b mod 16 * 4 + c / 64 < 64 /\ c mod 64 < 64 /\
  a / 4 * 4 + (a mod 4 * 16 + b / 16) / 16 = a /\ (a mod 4 * 16 + b / 16) mod 16 * 16 + (b mod 16 * 4 + c / 64) / 4 = b /\
  (b mod 16 * 4 + c / 64) mod 4 * 64 + c mod 64 = c.
Proof.
  intros Ha Hb Hc.
  assert (a / 4 < 64) by (apply N.Div0.div_lt_upper_bound; lia). assert (b / 16 < 16) by (apply N.Div0.div_lt_upper_bound; lia).
  assert (c / 64 < 4) by (apply N.Div0.div_lt_upper_bound; lia).
  pose proof (N.mod_lt a 4). pose proof (N.mod_lt b 16). pose proof (N.mod_lt c 64).
  pose proof (N.div_mod a 4). pose proof (N.div_mod b 16). pose proof (N.div_mod c 64).
  assert ((a mod 4 * 16 + b / 16) / 16 = a mod 4) as E1 by (rewrite N.div_add_l by lia; rewrite (N.div_small (b / 16)) by lia; lia).
  assert ((a mod 4 * 16 + b / 16) mod 16 = b / 16) as E2 by (rewrite N.add_comm, N.Div0.mod_add, N.mod_small by lia; lia).
  assert ((b mod 16 * 4 + c / 64) / 4 = b mod 16) as E3 by (rewrite N.div_add_l by lia; rewrite (N.div_small (c / 64)) by lia; lia).
  assert ((b mod 16 * 4 + c / 64) mod 4 = c / 64) as E4 by (rewrite N.add_comm, N.Div0.mod_add, N.mod_small by lia; lia).
  rewrite E1, E2, E3, E4. split_and!; lia.
Qed.

Lemma b64_roundtrip s : forallb is_byte s = true -> b64_decode (b64_encode s) = Some s.
Proof.
  revert s. fix IH 1. intros [|a [|b [|c s]]]; cbn [forallb b64_encode]; rewrite ?andb_true_iff.
  - done.
  - intros [Ha%N.ltb_lt _]. destruct (b64_values a 0 0) as (H1 & H2 & _ & _ & E1 & _); [lia..|]. change (0 / 16) with 0 in *. rewrite N.add_0_r in *.
    cbn [b64_decode]. rewrite !b64_char_val by done. cbn [mbind option_bind]. change (61 =? 61) with true. cbn iota. by rewrite E1.
  - intros [Ha%N.ltb_lt [Hb%N.ltb_lt _]]. destruct (b64_values a b 0) as (H1 & H2 & H3 & _ & E1 & E2 & _); [lia..|].
    change (0 / 64) with 0 in *. rewrite N.add_0_r in *.
    cbn [b64_decode]. rewrite !b64_char_val by done. cbn [mbind option_bind]. rewrite b64_char_not_pad by done. change (61 =? 61) with true. cbn iota.
    by rewrite E1, E2.
  - intros [Ha%N.ltb_lt [Hb%N.ltb_lt [Hc%N.ltb_lt Hs]]].
    destruct (b64_values a b c) as (H1 & H2 & H3 & H4 & E1 & E2 & E3); [done..|].
    cbn [b64_decode]. rewrite !b64_char_val by done. cbn [mbind option_bind]. rewrite !b64_char_not_pad by done.
    rewrite (IH s Hs). cbn [mbind option_bind]. by rewrite E1, E2, E3.
Qed.

(** The units of a Base64 text. *)
Definition b64_unit (c : N) : Prop := c = 61 \/ exists v, v < 64 /\ c = b64_char v.

Lemma b64_units s : forallb is_byte s = true -> Forall b64_unit (b64_encode s).
Proof.
  revert s. fix IH 1. intros [|a [|b [|c s]]]; cbn [forallb b64_encode]; rewrite ?andb_true_iff.
  - intros _. constructor.
  - intros [Ha%N.ltb_lt _]. destruct (b64_values a 0 0) as (H1 & H2 & _); [lia..|]. change (0 / 16) with 0 in *. rewrite N.add_0_r in *.
    do 4 (apply Forall_cons; split; [unfold b64_unit; eauto|]). constructor.
  - intros [Ha%N.ltb_lt [Hb%N.ltb_lt _]]. destruct (b64_values a b 0) as (H1 & H2 & H3 & _); [lia..|].
    change (0 / 64) with 0 in *. rewrite N.add_0_r in *. do 4 (apply Forall_cons; split; [unfold b64_unit; eauto|]). constructor.
  - intros [Ha%N.ltb_lt [Hb%N.ltb_lt [Hc%N.ltb_lt Hs]]].
    destruct (b64_values a b c) as (H1 & H2 & H3 & H4 & _); [done..|]. do 4 (apply Forall_cons; split; [right; eauto|]). by apply IH.
Qed.

(** Percent encoding of one unit of a Base64 text. *)
Definition enc_unit (c : N) : jsstr := if is_unreserved c then [c] else concat (map percent (utf8 c)).

Definition unit_list : list N := Eval vm_compute in 61 :: map (fun n => b64_char (N.of_nat n)) (seq 0 64).

Lemma b64_unit_elem c : b64_unit c -> c ∈ unit_list.
Proof.
  change unit_list with (61 :: map (fun n => b64_char (N.of_nat n)) (seq 0 64)). intros [->|(v & Hv & ->)]; [by left|]. right.
  apply list_elem_of_fmap. exists (N.to_nat v). rewrite N2Nat.id. split; [done|]. apply elem_of_seq. lia.
Qed.

Definition decodes (c : N) : Prop :=
  is_low c = false /\ is_high c = false /\ forall s, percent_decode (enc_unit c ++ s) = cons c <$> percent_decode s.

Ltac eval_unit := match goal with |- context [enc_unit ?x] => let e := eval vm_compute in (enc_unit x) in change (enc_unit x) with e end.

Lemma enc_unit_ok c : b64_unit c -> decodes c.
Proof.
  intros Hc%b64_unit_elem. revert c Hc. apply Forall_forall. unfold unit_list.
  repeat (apply Forall_cons; split; [split; [reflexivity|split; [reflexivity|]]; intros s; eval_unit; cbn [app percent_decode]; by destruct (percent_decode s)|]).
  constructor.
Qed.

(** Base64 in a link arrives as it was. *)
Lemma encode_b64 s : Forall b64_unit s -> exists e, encodeURIComponent s = Some e /\ percent_decode e = Some s.
Proof.
  induction 1 as [|c s Hc _ (e & He & Hd)]; [by exists []|]. destruct (enc_unit_ok c Hc) as (Hl & Hh & Hdec).
  exists (enc_unit c ++ e). cbn [encodeURIComponent]. rewrite Hl, Hh, He. split; [done|]. by rewrite Hdec, Hd.
Qed.

(** JSON texts of bytes are bytes. *)
Lemma quote_unit_byte c : is_byte c = true -> forallb is_byte (quote_unit c) = true.
Proof.
  intros Hc. assert (forallb (fun n => forallb is_byte (quote_unit (N.of_nat n))) (seq 0 256) = true) as H by (vm_compute; reflexivity).
  rewrite forallb_forall in H. unfold is_byte in Hc. apply N.ltb_lt in Hc. specialize (H (N.to_nat c)). rewrite N2Nat.id in H. apply H, in_seq. lia.
Qed.

Lemma quote_body_byte s : forallb is_byte s = true -> forallb is_byte (quote_body s) = true.
Proof.
  induction s as [|c s IH]; [done|]. cbn [forallb]. intros [Hc Hs]%andb_true_iff. destruct s as [|d s]; [by apply quote_unit_byte|].
  change (forallb is_byte (if is_high c && is_low d then c :: d :: quote_body s else quote_unit c ++ quote_body (d :: s)) = true).
  assert (is_high c = false) as ->.
  { unfold is_high. apply N.ltb_lt in Hc. rewrite (proj2 (N.leb_gt 55296 c)) by lia. done. }
  cbn [andb]. rewrite forallb_app, quote_unit_byte by done. by apply IH.
Qed.

Lemma quote_byte s : forallb is_byte s = true -> forallb is_byte (json_quote s) = true.
Proof. intros Hs. unfold json_quote. rewrite !forallb_app, quote_body_byte by done. done. Qed.

(** The properties of the objects. *)
Definition first_names : list jsstr := [u "id"; u "platform"].

Lemma payload_text first address key :
  first ∈ first_names ->
  stringify [] [] (config_payload first address key) =
  u "{" ++ json_quote first ++ uj ":'new-api','baseUrl':" ++ json_quote address ++ uj ",'apiKey':" ++ json_quote key ++ u "}".
Proof.
  unfold first_names. rewrite !elem_of_cons, elem_of_nil. intros [->|[->|[]]]; cbn [config_payload stringify map fst snd].
  - change (obj_entries _) with [(u "id", json_quote (u "new-api")); (u "baseUrl", json_quote address); (u "apiKey", json_quote key)].
    cbn [map bracket truthy join fst snd app]. unfold member. cbn [fst snd truthy app].
    repeat (rewrite <-!app_assoc; cbn [app]). reflexivity.
  - change (obj_entries _) with [(u "platform", json_quote (u "new-api")); (u "baseUrl", json_quote address); (u "apiKey", json_quote key)].
    cbn [map bracket truthy join fst snd app]. unfold member. cbn [fst snd truthy app].
    repeat (rewrite <-!app_assoc; cbn [app]). reflexivity.
Qed.

Lemma payload_read first address key :
  first ∈ first_names -> JSON_parse (stringify [] [] (config_payload first address key)) = Some (config_payload first address key).
Proof.
  intros Hf. rewrite parse_stringify; [|done| |].
  - unfold first_names in Hf. rewrite !elem_of_cons, elem_of_nil in Hf. by destruct Hf as [->|[->|[]]].
  - unfold first_names in Hf. rewrite !elem_of_cons, elem_of_nil in Hf. unfold config_payload. cbn [json_wf]. split; [|done].
    destruct Hf as [->|[->|[]]]; apply (bool_decide_unpack _); vm_compute; exact I.
  - done.
Qed.

(** What an application reads from a link. *)
Definition read_config (s : jsstr) : option json := (percent_decode s ≫= b64_decode) ≫= JSON_parse.

Lemma config_roundtrip first address key :
  first ∈ first_names -> forallb is_byte address = true -> forallb is_byte key = true ->
  exists e, config_text first address key = Some e /\ read_config e = Some (config_payload first address key).
Proof.
  intros Hf Ha Hk. unfold config_text, btoa. set (t := stringify _ _ _).
  assert (forallb is_byte t = true) as Ht.
  { unfold t. rewrite payload_text by done.
    assert (forallb is_byte first = true) as Hfb
      by (unfold first_names in Hf; rewrite !elem_of_cons, elem_of_nil in Hf; by destruct Hf as [->|[->|[]]]).
    by rewrite !forallb_app, (quote_byte first), (quote_byte address), (quote_byte key). }
  rewrite Ht. cbn [mbind option_bind]. destruct (encode_b64 (b64_encode t)) as (e & He & Hd); [by apply b64_units|].
  exists e. split; [done|]. unfold read_config. rewrite Hd. cbn [mbind option_bind]. rewrite b64_roundtrip by done. cbn [mbind option_bind].
  by apply payload_read.
Qed.

(** ** Placeholders *)

Lemma replace_skip token value w : forall t, replaceToken token value (length w) (w ++ t) = replaceToken token value 0 t.
Proof. induction w as [|c w IH]; intros t; [done|]. cbn [length app replaceToken]. apply IH. Qed.

Lemma replace_pass w value a : forall t, (123 ∉ a) -> replaceToken (123 :: w) value 0 (a ++ t) = a ++ replaceToken (123 :: w) value 0 t.
Proof.
  induction a as [|c a IH]; intros t Ha; [done|]. apply not_elem_of_cons in Ha as [Hc Ha]. cbn [app replaceToken starts_with].
  rewrite (proj2 (N.eqb_neq 123 c)) by done. cbn [andb]. by rewrite IH.
Qed.

Lemma replace_one w value a b : (123 ∉ a) -> (123 ∉ b) -> replaceToken (123 :: w) value 0 (a ++ (123 :: w) ++ b) = a ++ value ++ b.
Proof.
  intros Ha Hb. rewrite replace_pass by done. f_equal. change ((123 :: w) ++ b) with (123 :: (w ++ b)). cbn [replaceToken].
  change (123 :: (w ++ b)) with ((123 :: w) ++ b). rewrite starts_with_app. cbn [length]. rewrite Nat.sub_succ, Nat.sub_0_r, replace_skip.
  f_equal. rewrite <-(app_nil_r b) at 1. rewrite replace_pass by done. cbn [replaceToken]. by rewrite app_nil_r.
Qed.

Lemma includes_none v a : (123 ∉ a) -> str_includes a (123 :: v) = false.
Proof.
  unfold str_includes. induction a as [|c a IH]; intros Ha; [done|]. apply not_elem_of_cons in Ha as [Hc Ha]. cbn [index_of starts_with].
  rewrite (proj2 (N.eqb_neq 123 c)) by done. cbn [andb]. specialize (IH Ha). by destruct (index_of (123 :: v) a).
Qed.

(** A text with one brace has the placeholder that starts there, if any. *)
Lemma includes_brace v a w : (123 ∉ a) -> (123 ∉ w) -> str_includes (a ++ 123 :: w) (123 :: v) = starts_with v w.
Proof.
  intros Ha Hw. induction a as [|c a IH].
  - unfold str_includes. cbn [app index_of starts_with]. change (123 =? 123) with true. cbn [andb]. destruct (starts_with v w); [done|].
    pose proof (includes_none v w Hw) as H. unfold str_includes in H. by destruct (index_of (123 :: v) w).
  - apply not_elem_of_cons in Ha as [Hc Ha]. rewrite <-(IH Ha). unfold str_includes. cbn [app index_of starts_with].
    rewrite (proj2 (N.eqb_neq 123 c)) by done. cbn [andb]. by destruct (index_of (123 :: v) (a ++ 123 :: w)).
Qed.

(** The placeholders and the names of the first property. *)
Definition config_tokens : list (jsstr * jsstr) :=
  [(u "{cherryConfig}", u "id"); (u "{aionuiConfig}", u "platform"); (u "{deepchatConfig}", u "id")].

(** C27. A link template with one placeholder for a configuration (of Cherry
    Studio, AionUi or DeepChat) and no other brace: the application reads from
    the completed link the address of the gateway and the key with its prefix,
    since decoding the percent signs, the Base64 text and the JSON text gives
    the object that was meant.  The address and the key are Latin-1; with
    others the link cannot be completed ([unicode_address_throws]). *)
Theorem config_arrives token first before after apiKey address :
  (token, first) ∈ config_tokens -> (123 ∉ before) -> (123 ∉ after) ->
  forallb is_byte address = true -> forallb is_byte (normalizeApiKey apiKey) = true ->
  exists e, resolveChatUrl (before ++ token ++ after) (Some apiKey) address = Some (before ++ e ++ after) /\
    read_config e = Some (config_payload first address (normalizeApiKey apiKey)).
Proof.
  intros Ht Hb Ha Haddr Hkey.
  assert (first ∈ first_names) as Hfirst.
  { unfold config_tokens in Ht. rewrite !elem_of_cons, elem_of_nil in Ht. unfold first_names.
    destruct Ht as [[= _ ->]|[[= _ ->]|[[= _ ->]|[]]]]; set_solver. }
  destruct (config_roundtrip first address (normalizeApiKey apiKey) Hfirst Haddr Hkey) as (e & He & Hread). exists e. split; [|done].
  unfold resolveChatUrl. change (Some apiKey ?? []) with apiKey.
  unfold config_tokens in Ht. rewrite !elem_of_cons, elem_of_nil in Ht.
  change (u "{cherryConfig}") with (123 :: u "cherryConfig}") in *. change (u "{aionuiConfig}") with (123 :: u "aionuiConfig}") in *.
  change (u "{deepchatConfig}") with (123 :: u "deepchatConfig}") in *.
  assert (forall v w, (123 ∉ w) -> str_includes (before ++ (123 :: w) ++ after) (123 :: v) = starts_with v (w ++ after)) as Hinc.
  { intros v w Hw. change ((123 :: w) ++ after) with (123 :: (w ++ after)). apply includes_brace; [done|]. rewrite elem_of_app. tauto. }
  destruct Ht as [[= -> ->]|[[= -> ->]|[[= -> ->]|[]]]]; rewrite !Hinc by (apply (bool_decide_unpack _); vm_compute; exact I);
    rewrite He; cbn [fmap option_fmap option_map]; by rewrite replace_one.
Qed.

Lemma N_to_str_inj m n : N_to_str m = N_to_str n -> m = n.
Proof. intros H. by rewrite <-(N_to_str_val m), H, N_to_str_val. Qed.

Lemma preset_of_spec `{!Locale} i e p :
  preset_of i e = Some p <->
  exists v, e = JObj [(name p, JStr v)] /\ truthy (trim v) = true /\ p = mkPreset (N_to_str (N.of_nat i)) (name p) (trim v) (detectChatLinkType (trim v)).
Proof.
  split.
  - destruct e as [| | | | |[|[n [| | |v| |]] [|]]]; try done. cbn [preset_of]. destruct (truthy (trim v)) eqn:E; [|done]. cbn [negb].
    intros Hs. injection Hs as <-. by exists v.
  - intros (v & -> & Hv & Hp). cbn [preset_of]. rewrite Hv. cbn [negb]. by rewrite Hp at 2.
Qed.

Lemma preset_ids `{!Locale} entries : forall k,
  NoDup (map id (omap (fun o => o) (imap (fun i => preset_of (k + i)%nat) entries))) /\
  forall x, x ∈ map id (omap (fun o => o) (imap (fun i => preset_of (k + i)%nat) entries)) -> exists j, (k <= j)%nat /\ x = N_to_str (N.of_nat j).
Proof.
  induction entries as [|e l IH]; intros k; [split; [constructor|by intros x Hx%elem_of_nil]|].
  rewrite imap_cons. destruct (IH (S k)) as [Hn Hx].
  assert (imap ((fun i => preset_of (k + i)%nat) ∘ S) l = imap (fun i => preset_of (S k + i)%nat) l) as ->.
  { apply imap_ext. intros i x _. cbn. by rewrite Nat.add_succ_r. }
  cbn [omap list_omap]. rewrite Nat.add_0_r. destruct (preset_of k e) as [p|] eqn:E.
  - apply preset_of_spec in E as (v & _ & _ & Hp). cbn [map]. split.
    + apply NoDup_cons. split; [|done]. intros (j & Hj & Hid)%Hx. rewrite Hp in Hid. cbn [id] in Hid. apply N_to_str_inj in Hid. lia.
    + intros x [->|Hin]%elem_of_cons; [exists k; split; [lia|by rewrite Hp]|]. destruct (Hx x Hin) as (j & Hj & ->). exists j. split; [lia|done].
  - split; [done|]. intros x Hin. destruct (Hx x Hin) as (j & Hj & ->). exists j. split; [lia|done].
Qed.

(** The list of applications: a preset for every entry that has one property
    with a text that is not blank, in order, named by the property, with the
    trimmed link, and identified by its position; other entries are skipped. *)
Theorem presets_spec `{!Locale} entries :
  NoDup (map id (parseChatConfig (Some (JArr entries)))) /\
  forall p, p ∈ parseChatConfig (Some (JArr entries)) <->
    exists i v, entries !! i = Some (JObj [(name p, JStr v)]) /\ truthy (trim v) = true /\
      p = mkPreset (N_to_str (N.of_nat i)) (name p) (trim v) (detectChatLinkType (trim v)).
Proof.
  unfold parseChatConfig. split; [apply (preset_ids entries 0)|]. intros p. rewrite list_elem_of_omap. split.
  - intros (o & Ho & ->). apply list_elem_of_lookup in Ho as [i Hi]. rewrite list_lookup_imap in Hi.
    destruct (entries !! i) as [e|] eqn:E; [|done]. cbn in Hi. injection Hi as Hi. apply preset_of_spec in Hi as (v & -> & Hv). by exists i, v.
  - intros (i & v & Hi & Hv & Hp). exists (Some p). split; [|done]. apply list_elem_of_lookup. exists i. rewrite list_lookup_imap, Hi. cbn [fmap option_fmap option_map].
    f_equal. apply preset_of_spec. by exists v.
Qed.

(** ** Examples *)

Lemma config_arrives_witness :
  exists e, @resolveChatUrl (u "app://x?c={cherryConfig}&y") (Some (u " abc ")) (u "https://gw.test") = Some (u "app://x?c=" ++ e ++ u "&y") /\
    read_config e = Some (config_payload (u "id") (u "https://gw.test") (u "sk-abc")).
Proof.
  apply (config_arrives (u "{cherryConfig}") (u "id") (u "app://x?c=") (u "&y") (u " abc ") (u "https://gw.test")).
  - by left.
  - apply (bool_decide_unpack _). vm_compute. exact I.
  - apply (bool_decide_unpack _). vm_compute. exact I.
  - vm_compute. reflexivity.
  - vm_compute. reflexivity.
Defined.

(** ** Where links fail *)

(** An address outside Latin-1 makes the completion of a link throw; the other
    kinds of links take it. *)
Theorem unicode_address_throws :
  resolveChatUrl (u "app://x?c={cherryConfig}") (Some (u "abc")) (u "https://例え.jp") = None /\
  resolveChatUrl (u "app://x?c={address}") (Some (u "abc")) (u "https://例え.jp") = Some (u "app://x?c=https%3A%2F%2F%E4%BE%8B%E3%81%88.jp").
Proof. vm_compute. done. Qed.

(** The key that is sent to the FluentRead extension has its prefix twice: the
    table of keys resolves the key with the prefix, and it is added again.  A
    link, in contrast, leaves a prefix that is there. *)
Theorem fluent_prefix_twice origin key address :
  sendToFluent true origin (full_key key) address = Some (config_payload (u "id") (or_str (address ?? []) origin) (u "sk-sk-" ++ key)) /\
  (trim (full_key key) = full_key key -> normalizeApiKey (full_key key) = full_key key).
Proof.
  split; [done|]. intros Ht. unfold normalizeApiKey. rewrite Ht. change (truthy (full_key key)) with true. cbn [negb].
  unfold full_key. by rewrite starts_with_app.
Qed.

(** A link with a configuration keeps its other placeholders. *)
Example mixed_placeholders :
  exists rest, resolveChatUrl (u "app://x?k={key}&c={cherryConfig}") (Some (u "abc")) (u "https://gw.test") = Some (u "app://x?k={key}&c=" ++ rest).
Proof. vm_compute. by eexists. Qed.

End ChatLinks.
