(* ===== verification/PricingSettings.v ===== *)
(** * Model prices in the system settings
    (web/default/src/features/system-settings/models/pricing-format.ts,
    model-pricing-core.ts, model-pricing-snapshots.ts,
    model-ratio-visual-editor.tsx and ../utils/json-parser.ts)

    The settings keep ten JSON objects, each from model names to a value: the
    price per request, the ratios of the token prices, the billing mode and the
    billing expression.  [buildModelSnapshots] turns them into one row per
    model; [persistPricingData] and [handleDelete] write rows back.

    The eight numeric settings are the fields of one record, [fields].  A text
    that is not a JSON object is outside the model ([None]), as the casts of
    the source are not checked; so are the names that every JavaScript object
    inherits, such as [constructor]. *)

From S2P Require Import Prelude JsString JsNumber JsJson JsRegex JsExpr JsPrint PricingModels BillingExpr BillingRules.

Import Expr Print Billing.
Open Scope N_scope.

Module Settings.

(** ** pricing-format.ts *)

(** [unknown], for the values the callers pass *)
Definition empty_value (v : value) : bool :=
  match v with VS s => negb (truthy s) | VB b => negb b | VU => true | VN _ => false end.

Definition finite_or_null (x : number) : option number := if is_finite x then Some x else None.

Definition toNumberOrNull (v : value) : option number :=
  if empty_value v then None else finite_or_null (to_num v).

Definition SNAP_EPSILON : number := num_of_decimal 1 (-12).
Definition EPSILON : number := S754_finite false 4503599627370496 (-104).

Definition roundToDecimals (x : number) (decimals : Z) : number :=
  let factor := num_of_Z (10 ^ decimals) in (num_round (x * factor) / factor)%num.

Definition snapFloatDrift (x : number) : number :=
  let tolerance := num_max SNAP_EPSILON (num_abs x * EPSILON * num_of_Z 8)%num in
  let close d := num_le (num_abs (x - roundToDecimals x d)%num) tolerance in
  match List.find close [0; 1; 2; 3; 4; 5; 6; 7; 8]%Z with
  | Some d => roundToDecimals x d
  | None => x
  end.

Definition formatPricingNumber (v : value) : jsstr :=
  match toNumberOrNull v with
  | None => []
  | Some num => num_to_str (parse_float (to_fixed 12 (snapFloatDrift num)))
  end.

Definition format_number (x : number) : jsstr := formatPricingNumber (VN x).

Example format_samples :
  format_number (num_of_decimal 1 (-1) + num_of_decimal 2 (-1))%num = u "0.3" /\
  format_number (num_of_Z 10 / num_of_Z 3)%num = u "3.333333333333" /\
  format_number (num_of_decimal 1 (-13)) = u "0" /\ formatPricingNumber (VS (u "2.50")) = u "2.5" /\
  num_to_str (EPSILON * num_of_Z 4503599627370496)%num = u "1".
Proof. vm_compute. done. Qed.

(** ** The eight numeric settings *)

Inductive Field :=
| Price | Ratio | CacheRatio | CreateCacheRatio | CompletionRatio | ImageRatio | AudioRatio | AudioCompletionRatio.

#[export] Instance Field_eq_dec : EqDecision Field.
Proof. solve_decision. Defined.

(** In the order in which [buildModelSnapshots] lists them. *)
Definition FIELDS : list Field :=
  [Price; Ratio; CacheRatio; CreateCacheRatio; CompletionRatio; ImageRatio; AudioRatio; AudioCompletionRatio].

Record fields (A : Type) := mkFields {
  f_price : A; f_ratio : A; f_cache : A; f_createCache : A;
  f_completion : A; f_image : A; f_audio : A; f_audioCompletion : A;
}.
Arguments mkFields {A}.
Arguments f_price {A}.
Arguments f_ratio {A}.
Arguments f_cache {A}.
Arguments f_createCache {A}.
Arguments f_completion {A}.
Arguments f_image {A}.
Arguments f_audio {A}.
Arguments f_audioCompletion {A}.

#[export] Instance fields_eq_dec {A} `{!EqDecision A} : EqDecision (fields A).
Proof. solve_decision. Defined.

Definition fget {A} (k : Field) (r : fields A) : A :=
  match k with
  | Price => f_price r | Ratio => f_ratio r | CacheRatio => f_cache r | CreateCacheRatio => f_createCache r
  | CompletionRatio => f_completion r | ImageRatio => f_image r | AudioRatio => f_audio r
  | AudioCompletionRatio => f_audioCompletion r
  end.

Definition fmake {A} (g : Field -> A) : fields A :=
  mkFields (g Price) (g Ratio) (g CacheRatio) (g CreateCacheRatio) (g CompletionRatio) (g ImageRatio) (g AudioRatio)
    (g AudioCompletionRatio).

Lemma fget_make {A} (g : Field -> A) k : fget k (fmake g) = g k.
Proof. by destruct k. Qed.

Lemma fields_ext {A} (a b : fields A) : (forall k, fget k a = fget k b) -> a = b.
Proof.
  intros H. destruct a, b.
  pose proof (H Price); pose proof (H Ratio); pose proof (H CacheRatio); pose proof (H CreateCacheRatio);
    pose proof (H CompletionRatio); pose proof (H ImageRatio); pose proof (H AudioRatio); pose proof (H AudioCompletionRatio).
  cbn in *. congruence.
Qed.

(** ** ../utils/json-parser.ts *)

Definition safeJsonParse (v : option jsstr) (fallback : option json) : json :=
  let text := v ?? [] in
  if negb (truthy text) || bool_decide (trim text = []) then fallback ?? JNull
  else match JSON_parse (trim text) with
       | Some j => j
       | None => fallback ?? JNull
       end.

Inductive JsonParseResult := ParseSuccess (data : json) | ParseFailure (error : option jsstr).

(** The message of the engine's [SyntaxError] is not modelled. *)
Definition tryJsonParse (v : option jsstr) : JsonParseResult :=
  let text := v ?? [] in
  if negb (truthy text) || bool_decide (trim text = []) then ParseFailure (Some (u "Empty value"))
  else match JSON_parse (trim text) with
       | Some data => ParseSuccess data
       | None => ParseFailure None
       end.

Definition safeJsonParseWithValidation (v : option jsstr) (fallback : json) (validator : json -> bool) : json :=
  let parsed := safeJsonParse v (Some fallback) in
  if negb (validator parsed) then fallback else parsed.

(** ** Settings and rows *)

(** The ten texts that the settings hold. *)
Record SettingsInput := mkInput { in_fields : fields jsstr; in_mode : jsstr; in_expr : jsstr }.

Record ModelRatioData := mkData {
  md_name : jsstr;
  md_fields : fields (option jsstr);
  md_mode : option jsstr;
  md_expr : option jsstr;
  md_rule : option jsstr;
}.

Record ModelPricingSnapshot := mkSnapshot {
  sn_name : jsstr;
  sn_fields : fields (option jsstr);
  sn_mode : option jsstr;
  sn_expr : option jsstr;
  sn_rule : option jsstr;
  hasConflict : bool;
}.

#[export] Instance ModelPricingSnapshot_eq_dec : EqDecision ModelPricingSnapshot.
Proof. solve_decision. Defined.

(** The settings as objects. *)
Definition obj := list (jsstr * json).
Record Maps := mkMaps { m_fields : fields obj; m_mode : obj; m_expr : obj }.

Definition parse_setting (text : jsstr) : option obj := as_object (safeJsonParse (Some text) (Some (JObj []))).

Definition sequence {A} (r : fields (option A)) : option (fields A) :=
  a ← f_price r; b ← f_ratio r; c ← f_cache r; d ← f_createCache r;
  e ← f_completion r; f ← f_image r; g ← f_audio r; h ← f_audioCompletion r;
  Some (mkFields a b c d e f g h).

Definition parse_settings (s : SettingsInput) : option Maps :=
  fs ← sequence (fmake (fun k => parse_setting (fget k (in_fields s))));
  mode ← parse_setting (in_mode s);
  expr ← parse_setting (in_expr s);
  Some (mkMaps fs mode expr).

(** ** model-pricing-snapshots.ts *)

Definition TIERED : jsstr := u "tiered_expr".
Definition PER_REQUEST : jsstr := u "per-request".
Definition PER_TOKEN : jsstr := u "per-token".

Definition hasPricingValue (v : option jsstr) : bool := match v with Some s => truthy s | None => false end.

(** [map[name]?.toString() || ''] *)
Definition entry_text (name : jsstr) (m : obj) : jsstr :=
  match map_get name m with
  | None | Some JNull => []
  | Some j => json_to_str j
  end.

(** [billingExprMap[name] || '']; a truthy value that is not a string makes
    the split throw. *)
Definition entry_expr (name : jsstr) (m : obj) : option jsstr :=
  match map_get name m with
  | Some (JStr s) => Some s
  | Some j => if json_truthy j then None else Some []
  | None => Some []
  end.

Definition is_tiered (name : jsstr) (m : obj) : bool :=
  match map_get name m with Some (JStr s) => bool_decide (s = TIERED) | _ => false end.

Definition snapshot_of (m : Maps) (name : jsstr) : option ModelPricingSnapshot :=
  let texts := fmake (fun k => entry_text name (fget k (m_fields m))) in
  let values := fmake (fun k => Some (fget k texts)) in
  if is_tiered name (m_mode m) then
    fullExpr ← entry_expr name (m_expr m);
    match splitBillingExprAndRequestRules fullExpr with
    | Ret (pureExpr, requestRuleExpr) =>
        Some (mkSnapshot name values (Some TIERED) (Some pureExpr) (Some requestRuleExpr) false)
    | _ => None
    end
  else
    let priced := truthy (fget Price texts) in
    Some (mkSnapshot name values (Some (if priced then PER_REQUEST else PER_TOKEN)) None None
            (priced && existsb (fun k => truthy (fget k texts))
                         [Ratio; CompletionRatio; CacheRatio; CreateCacheRatio; ImageRatio; AudioRatio; AudioCompletionRatio])).

(** The keys of all ten objects, in order, without repetitions. *)
Definition modelNames (m : Maps) : list jsstr :=
  js_set (concat (map (fun k => obj_keys (fget k (m_fields m))) FIELDS) ++ obj_keys (m_mode m) ++ obj_keys (m_expr m)).

Definition buildModelSnapshots (s : SettingsInput) : option (list ModelPricingSnapshot) :=
  m ← parse_settings s; mapM (snapshot_of m) (modelNames m).

Definition snapshot_toNumberOrNull (v : option jsstr) : option number :=
  if negb (hasPricingValue v) then None else finite_or_null (str_to_num (v ?? [])).

Definition ratioToPrice (ratio denominator : option jsstr) : jsstr :=
  let denominatorNumber := if truthy_opt denominator then snapshot_toNumberOrNull denominator else Some (num_of_Z 2) in
  match snapshot_toNumberOrNull ratio, denominatorNumber with
  | Some r, Some d => format_number (r * d)%num
  | _, _ => []
  end.

Definition getModeLabel (mode : option jsstr) : jsstr :=
  if bool_decide (mode = Some PER_REQUEST) then u "Per-request"
  else if bool_decide (mode = Some TIERED) then u "Expression" else u "Per-token".

Definition getModeVariant (mode : option jsstr) : jsstr :=
  if bool_decide (mode = Some PER_REQUEST) then u "warning"
  else if bool_decide (mode = Some TIERED) then u "info" else u "success".

Section texts.
Context (t : jsstr -> jsstr).

(** [' · '] *)
Definition middle_dot : jsstr := [32; 183; 32].

Definition getExpressionSummary (row : ModelPricingSnapshot) : jsstr :=
  let tierCount := match sn_expr row with Some e => length (exec_all (RStr (u "tier(")) e) | None => 0%nat end in
  if (0 <? tierCount)%nat
  then t (u "Tiered pricing") ++ middle_dot ++ N_to_str (N.of_nat tierCount) ++ u " " ++ t (u "tiers")
  else t (u "Expression pricing").

Definition extra_fields : list Field :=
  [CompletionRatio; CacheRatio; CreateCacheRatio; ImageRatio; AudioRatio; AudioCompletionRatio].

Definition getPriceSummary (row : ModelPricingSnapshot) : jsstr :=
  if bool_decide (sn_mode row = Some TIERED) then getExpressionSummary row
  else if bool_decide (sn_mode row = Some PER_REQUEST) then
    let price := fget Price (sn_fields row) in
    if truthy_opt price then u "$" ++ (price ?? []) ++ u " / " ++ t (u "request") else t (u "Unset price")
  else
    let inputPrice := ratioToPrice (fget Ratio (sn_fields row)) None in
    if negb (truthy inputPrice) then t (u "Unset price")
    else
      let extraCount := length (bfilter (fun k => hasPricingValue (fget k (sn_fields row))) extra_fields) in
      if (0 <? extraCount)%nat
      then t (u "Input") ++ u " $" ++ inputPrice ++ middle_dot ++ N_to_str (N.of_nat extraCount) ++ u " " ++ t (u "extras")
      else t (u "Input") ++ u " $" ++ inputPrice.

Definition price_detail (row : ModelPricingSnapshot) (inputPrice : jsstr) (kl : Field * jsstr) : option jsstr :=
  let v := fget kl.1 (sn_fields row) in
  if truthy_opt v then Some (t kl.2 ++ u " $" ++ ratioToPrice v (Some inputPrice)) else None.

Definition getPriceDetail (row : ModelPricingSnapshot) : jsstr :=
  if bool_decide (sn_mode row = Some TIERED) then
    if truthy_opt (sn_rule row) then t (u "Includes request rules") else t (u "Expression based")
  else if bool_decide (sn_mode row = Some PER_REQUEST) then t (u "Fixed request price")
  else
    let inputPrice := ratioToPrice (fget Ratio (sn_fields row)) None in
    if negb (truthy inputPrice) then t (u "No base input price")
    else
      match take 2 (omap (price_detail row inputPrice)
              [(CompletionRatio, u "Output"); (CacheRatio, u "Cache"); (CreateCacheRatio, u "Cache write")]) with
      | [] => t (u "Base input price only")
      | details => join middle_dot details
      end.

End texts.

(** The properties of the signature, in order. *)
Definition signature_fields (sn : ModelPricingSnapshot) : obj :=
  let text k := JStr (or_str (fget k (sn_fields sn) ?? []) []) in
  [(u "price", text Price); (u "ratio", text Ratio); (u "cacheRatio", text CacheRatio);
   (u "createCacheRatio", text CreateCacheRatio); (u "completionRatio", text CompletionRatio);
   (u "imageRatio", text ImageRatio); (u "audioRatio", text AudioRatio);
   (u "audioCompletionRatio", text AudioCompletionRatio);
   (u "billingMode", JStr (or_str (sn_mode sn ?? []) PER_TOKEN));
   (u "billingExpr", JStr (or_str (sn_expr sn ?? []) []));
   (u "requestRuleExpr", JStr (or_str (sn_rule sn ?? []) []))].

Definition getSnapshotSignature (sn : option ModelPricingSnapshot) : jsstr :=
  match sn with
  | None => []
  | Some sn => JSON_stringify (JObj (signature_fields sn))
  end.

(** ** model-ratio-visual-editor.tsx: rows *)

Record ModelRow := mkRow {
  displayed : ModelPricingSnapshot;
  row_saved : option ModelPricingSnapshot;
  row_draft : option ModelPricingSnapshot;
  isDraftChanged : bool;
  isDraftDeleted : bool;
  isDraftNew : bool;
}.

(** [new Map(rows.map((row) => [row.name, row]))]: a later row replaces an
    earlier one with its name. *)
Definition by_name (rows : list ModelPricingSnapshot) : list (jsstr * ModelPricingSnapshot) :=
  foldl (fun m row => map_set (sn_name row) row m) [] rows.

Definition model_row (savedByName draftByName : list (jsstr * ModelPricingSnapshot)) (name : jsstr) : option ModelRow :=
  let saved := map_get name savedByName in
  let draft := map_get name draftByName in
  shown ← coalesce_opt saved draft;
  Some (mkRow shown saved draft
          (negb (bool_decide (getSnapshotSignature saved = getSnapshotSignature draft)))
          (match saved, draft with Some _, None => true | _, _ => false end)
          (match saved, draft with None, Some _ => true | _, _ => false end)).

Definition models `{!Locale} (savedInput draftInput : SettingsInput) : option (list ModelRow) :=
  savedRows ← buildModelSnapshots savedInput;
  draftRows ← buildModelSnapshots draftInput;
  let savedByName := by_name savedRows in
  let draftByName := by_name draftRows in
  let names := js_set (savedByName.*1 ++ draftByName.*1) in
  Some (js_sort (fun a b => localeCompare (sn_name (displayed a)) (sn_name (displayed b)))
          (omap (model_row savedByName draftByName) names)).

(** The counts per token, per request and by expression. *)
Definition modeCounts (rows : list ModelRow) : nat * nat * nat :=
  foldl (fun '(tok, req, ex) row =>
           if bool_decide (sn_mode (displayed row) = Some PER_REQUEST) then (tok, S req, ex)
           else if bool_decide (sn_mode (displayed row) = Some TIERED) then (tok, req, S ex)
           else (S tok, req, ex)) (0%nat, 0%nat, 0%nat) rows.

(** The data that [handleEdit] opens. *)
Definition edit_data (model : ModelRow) : ModelRatioData :=
  let e := coalesce_opt (row_draft model) (row_saved model) ?? displayed model in
  mkData (sn_name e) (sn_fields e)
    (Some (if bool_decide (sn_mode e = Some TIERED) then TIERED
           else if truthy_opt (fget Price (sn_fields e)) then PER_REQUEST else PER_TOKEN))
    (sn_expr e) (sn_rule e).

(** ** model-ratio-visual-editor.tsx: writing *)

Definition print_settings (m : Maps) : SettingsInput :=
  let text o := JSON_stringify2 (JObj o) in
  mkInput (fmake (fun k => text (fget k (m_fields m)))) (text (m_mode m)) (text (m_expr m)).

(** [delete map[name]] in all ten objects *)
Definition delete_name (name : jsstr) (m : Maps) : Maps :=
  mkMaps (fmake (fun k => map_delete name (fget k (m_fields m)))) (map_delete name (m_mode m)) (map_delete name (m_expr m)).

Definition handleDelete (name : jsstr) (s : SettingsInput) : option SettingsInput :=
  m ← parse_settings s; Some (print_settings (delete_name name m)).

Definition setIfPresent (target : obj) (name : jsstr) (v : option jsstr) : obj :=
  if negb (truthy_opt v) then target
  else
    let parsed := parse_float (v ?? []) in
    if is_finite parsed then map_set name (JNum parsed) target else target.

(** [setIfPresent] for the fields in a list *)
Definition set_fields (ks : list Field) (data : ModelRatioData) (name : jsstr) (fs : fields obj) : fields obj :=
  fmake (fun k => if bool_decide (k ∈ ks) then setIfPresent (fget k fs) name (fget k (md_fields data)) else fget k fs).

Definition RATIO_FIELDS : list Field :=
  [Ratio; CacheRatio; CreateCacheRatio; CompletionRatio; ImageRatio; AudioRatio; AudioCompletionRatio].

(** One target of [persistPricingData]. *)
Definition persist_one (data : ModelRatioData) (m : Maps) (name : jsstr) : Maps :=
  let m := delete_name name m in
  if bool_decide (md_mode data = Some TIERED) then
    let combined := combineBillingExpr (md_expr data ?? []) (md_rule data ?? []) in
    mkMaps (set_fields FIELDS data name (m_fields m))
      (if truthy combined then map_set name (JStr TIERED) (m_mode m) else m_mode m)
      (if truthy combined then map_set name (JStr combined) (m_expr m) else m_expr m)
  else if truthy_opt (fget Price (md_fields data)) then
    mkMaps (set_fields [Price] data name (m_fields m)) (m_mode m) (m_expr m)
  else mkMaps (set_fields RATIO_FIELDS data name (m_fields m)) (m_mode m) (m_expr m).

Definition persistPricingData (data : ModelRatioData) (targetNames : list jsstr) (s : SettingsInput) : option SettingsInput :=
  m ← parse_settings s; Some (print_settings (foldl (persist_one data) m targetNames)).

(** ** Lemmas: objects and their lookups *)

Definition same_lookups (o1 o2 : obj) : Prop := forall k, map_get k o1 = ordered <$> map_get k o2.

(** What a row reads from an entry. *)
Lemma ordered_text j : json_to_str (ordered j) = json_to_str j.
Proof.
  induction j as [|b|x|s|l IH|fs IH] using json_rect'; try done.
  cbn [ordered json_to_str]. f_equal. rewrite map_map. induction IH as [|x l Hx _ IHl]; [done|]. cbn [map].
  f_equal; [|exact IHl]. by destruct x.
Qed.

Lemma ordered_truthy j : json_truthy (ordered j) = json_truthy j.
Proof. by destruct j. Qed.

Record same_maps (m1 m2 : Maps) : Prop := {
  same_field k : same_lookups (fget k (m_fields m1)) (fget k (m_fields m2));
  same_mode : same_lookups (m_mode m1) (m_mode m2);
  same_expr : same_lookups (m_expr m1) (m_expr m2);
}.

Lemma snapshot_same m1 m2 name : same_maps m1 m2 -> snapshot_of m1 name = snapshot_of m2 name.
Proof.
  intros [Hf Hm He]. unfold snapshot_of.
  assert (fmake (fun k => entry_text name (fget k (m_fields m1))) = fmake (fun k => entry_text name (fget k (m_fields m2)))) as ->.
  { apply fields_ext. intros k. rewrite !fget_make. unfold entry_text. rewrite (Hf k name).
    destruct (map_get name (fget k (m_fields m2))) as [j|]; [|done]. cbn. pose proof (ordered_text j). by destruct j. }
  assert (is_tiered name (m_mode m1) = is_tiered name (m_mode m2)) as ->.
  { unfold is_tiered. rewrite (Hm name). by destruct (map_get name (m_mode m2)) as [[]|]. }
  assert (entry_expr name (m_expr m1) = entry_expr name (m_expr m2)) as ->; [|done].
  unfold entry_expr. rewrite (He name). by destruct (map_get name (m_expr m2)) as [[]|].
Qed.

(** *** The names of the rows *)

Definition named (m : Maps) (name : jsstr) : Prop :=
  (exists k, is_Some (map_get name (fget k (m_fields m)))) \/ is_Some (map_get name (m_mode m)) \/ is_Some (map_get name (m_expr m)).

Lemma elem_of_keys (o : obj) name : name ∈ obj_keys o <-> is_Some (map_get name o).
Proof.
  unfold obj_keys. rewrite obj_entries_perm. destruct (map_get name o) as [j|] eqn:E.
  - split; [by eexists|]. intros _. destruct (decide (name ∈ o.*1)) as [H|H]; [done|]. apply map_get_None in H. congruence.
  - apply map_get_None in E. split; [done|]. intros [? [=]].
Qed.

Lemma elem_of_FIELDS k : k ∈ FIELDS.
Proof. destruct k; unfold FIELDS; set_solver. Qed.

Lemma elem_of_modelNames m name : name ∈ modelNames m <-> named m name.
Proof.
  unfold modelNames, named. rewrite elem_of_js_set, !elem_of_app, !elem_of_keys, list_elem_of_In, in_concat.
  apply or_iff_compat_r. split.
  - intros (l & Hl & Hin). apply in_map_iff in Hl as (k & <- & _). exists k. apply elem_of_keys. by apply list_elem_of_In.
  - intros (k & Hk). exists (obj_keys (fget k (m_fields m))). split.
    + apply in_map_iff. exists k. split; [done|]. apply list_elem_of_In, elem_of_FIELDS.
    + by apply list_elem_of_In, elem_of_keys.
Qed.

Lemma named_same m1 m2 name : same_maps m1 m2 -> named m1 name <-> named m2 name.
Proof.
  intros [Hf Hm He]. unfold named. rewrite (Hm name), (He name), !fmap_is_Some. apply or_iff_compat_r.
  split; intros [k Hk]; exists k; [rewrite (Hf k name), fmap_is_Some in Hk|rewrite (Hf k name), fmap_is_Some]; done.
Qed.

(** *** The row of a model *)

Definition row_named (rows : list ModelPricingSnapshot) (name : jsstr) : option ModelPricingSnapshot :=
  List.find (fun r => bool_decide (sn_name r = name)) rows.

Lemma snapshot_name m name sn : snapshot_of m name = Some sn -> sn_name sn = name.
Proof.
  unfold snapshot_of. destruct (is_tiered _ _).
  - destruct (entry_expr _ _) as [e|]; [|done]. cbn. destruct (splitBillingExprAndRequestRules e) as [[]|]; [|done].
    by intros [= <-].
  - by intros [= <-].
Qed.

Lemma row_found m names rows name :
  mapM (snapshot_of m) names = Some rows ->
  row_named rows name = if bool_decide (name ∈ names) then snapshot_of m name else None.
Proof.
  intros H%mapM_Some. unfold row_named. induction H as [|n sn names rows Hn _ IH]; [done|]. cbn [List.find].
  rewrite (snapshot_name _ _ _ Hn). destruct (decide (n = name)) as [->|Hne].
  - rewrite !bool_decide_eq_true_2; [by rewrite Hn|by left|done].
  - rewrite (bool_decide_eq_false_2 (n = name)) by done. rewrite IH.
    assert (bool_decide (name ∈ names) = bool_decide (name ∈ n :: names)) as ->; [|done].
    apply bool_decide_ext. rewrite elem_of_cons. naive_solver.
Qed.


(** *** Printing and reading the settings *)

Definition wf_obj (o : obj) : Prop := json_wf (JObj o).
Definition printable_obj (o : obj) : bool := printable (JObj o).

Definition all_objs (P : obj -> Prop) (m : Maps) : Prop := (forall k, P (fget k (m_fields m))) /\ P (m_mode m) /\ P (m_expr m).

Lemma parse_setting_print o :
  wf_obj o -> printable_obj o = true ->
  parse_setting (JSON_stringify2 (JObj o)) = Some (obj_entries (map (fun kv => (kv.1, ordered kv.2)) o)).
Proof.
  intros Hwf Hp. unfold parse_setting, safeJsonParse. change (Some ?x ?? []) with x.
  destruct (stringify_obj_ends o) as [s E]. rewrite E, trim_brackets.
  rewrite bool_decide_eq_false_2 by done. cbn [truthy negb orb]. rewrite <-E. unfold JSON_stringify2.
  by rewrite parse_stringify.
Qed.

Lemma printed_lookups o :
  NoDup o.*1 -> same_lookups (obj_entries (map (fun kv => (kv.1, ordered kv.2)) o)) o.
Proof.
  intros Hnd k. rewrite map_get_entries.
  - induction o as [|[k' v] o IH]; [done|]. cbn. case_decide; [done|]. apply IH. by apply NoDup_cons in Hnd as [_ ?].
  - replace ((map (fun kv => (kv.1, ordered kv.2)) o).*1) with o.*1; [done|]. clear. induction o; cbn; by f_equal.
Qed.

Lemma sequence_make {A} (g : Field -> A) : sequence (fmake (fun k => Some (g k))) = Some (fmake g).
Proof. done. Qed.

Lemma parse_print_settings m :
  all_objs wf_obj m -> all_objs (fun o => printable_obj o = true) m ->
  exists m', parse_settings (print_settings m) = Some m' /\ same_maps m' m.
Proof.
  intros (Hw1 & Hw2 & Hw3) (Hp1 & Hp2 & Hp3).
  set (g := fun o : obj => obj_entries (map (fun kv => (kv.1, ordered kv.2)) o)).
  exists (mkMaps (fmake (fun k => g (fget k (m_fields m)))) (g (m_mode m)) (g (m_expr m))). split.
  - unfold parse_settings, print_settings. cbn [in_fields in_mode in_expr].
    assert (fmake (fun k => parse_setting (fget k (fmake (fun k => JSON_stringify2 (JObj (fget k (m_fields m))))))) =
            fmake (fun k => Some (g (fget k (m_fields m))))) as ->.
    { apply fields_ext. intros k. rewrite !fget_make. by apply parse_setting_print. }
    rewrite sequence_make. cbn [mbind option_bind]. by rewrite !parse_setting_print.
  - split; cbn [m_fields m_mode m_expr]; [intros k; rewrite fget_make|..]; apply printed_lookups; [apply (Hw1 k)|apply Hw2|apply Hw3].
Qed.

Lemma sequence_Some {A} (r : fields (option A)) (x : fields A) : sequence r = Some x -> forall k, fget k r = Some (fget k x).
Proof.
  destruct r as [a b c d e f g h]. unfold sequence. cbn.
  destruct a, b, c, d, e, f, g, h; try done. intros [= <-] k. by destruct k.
Qed.

(** Parsed settings are objects with distinct names. *)
Lemma parse_settings_wf s m : parse_settings s = Some m -> all_objs wf_obj m.
Proof.
  assert (forall text o, parse_setting text = Some o -> wf_obj o) as H.
  { intros text o. unfold parse_setting, safeJsonParse, wf_obj. destruct (_ || _).
    - intros [= <-]. cbn. by repeat constructor.
    - destruct (JSON_parse _) as [j|] eqn:E; [|intros [= <-]; cbn; by repeat constructor].
      apply JSON_parse_wf in E. destruct j; try done. by intros [= <-]. }
  unfold parse_settings. destruct (sequence _) as [fs|] eqn:E; [|done]. cbn [mbind option_bind].
  destruct (parse_setting (in_mode s)) as [mo|] eqn:Em; [|done]. destruct (parse_setting (in_expr s)) as [ex|] eqn:Ee; [|done].
  intros [= <-]. split_and!; cbn; [|by eapply H..]. intros k. pose proof (sequence_Some _ _ E k) as Hk. rewrite fget_make in Hk.
  by eapply H.
Qed.

(** ** Lemmas: writing *)

(** An object that prints and reads back. *)
Definition good_obj (o : obj) : Prop := NoDup o.*1 /\ Forall (fun kv => json_wf kv.2 /\ printable kv.2 = true) o.

Lemma good_obj_spec o : good_obj o <-> wf_obj o /\ printable_obj o = true.
Proof.
  unfold good_obj, wf_obj, printable_obj. cbn [json_wf printable].
  assert (Forall (fun kv => json_wf kv.2 /\ printable kv.2 = true) o <->
          foldr (fun kv P => json_wf kv.2 /\ P) True o /\ forallb (fun kv => printable kv.2) o = true) as ->; [|tauto].
  induction o as [|kv o IH]; [done|]. rewrite Forall_cons, IH. cbn. rewrite andb_true_iff. tauto.
Qed.

Lemma good_delete name o : good_obj o -> good_obj (map_delete name o).
Proof.
  intros [Hnd Hf]. unfold map_delete. split; [by apply map_bfilter_NoDup|]. apply Forall_forall. rewrite Forall_forall in Hf.
  intros kv Hkv. apply elem_of_bfilter in Hkv as [Hkv _]. by apply Hf.
Qed.

Lemma good_set name v o : json_wf v -> printable v = true -> good_obj o -> good_obj (map_set name v o).
Proof.
  intros Hv Hp [Hnd Hf]. split; [by apply map_set_NoDup|]. clear Hnd. induction Hf as [|[k' v'] o Hx Hf IH]; cbn; [by constructor|].
  case_decide; by constructor.
Qed.

(** The number that a text of the form stands for. *)
Definition present (v : option jsstr) : option number :=
  if truthy_opt v then finite_or_null (parse_float (v ?? [])) else None.

Lemma setIfPresent_spec target name v :
  setIfPresent target name v = match present v with Some x => map_set name (JNum x) target | None => target end.
Proof.
  unfold setIfPresent, present, finite_or_null. destruct (truthy_opt v); [|done]. cbn [negb]. by destruct (is_finite _).
Qed.

(** The settings in which [persistPricingData] stores a number. *)
Definition written (data : ModelRatioData) : list Field :=
  if bool_decide (md_mode data = Some TIERED) then FIELDS
  else if truthy_opt (fget Price (md_fields data)) then [Price] else RATIO_FIELDS.

Definition stored (data : ModelRatioData) (k : Field) : option number :=
  if bool_decide (k ∈ written data) then present (fget k (md_fields data)) else None.

(** The expression that it stores. *)
Definition stored_expr (data : ModelRatioData) : option jsstr :=
  let combined := combineBillingExpr (md_expr data ?? []) (md_rule data ?? []) in
  if bool_decide (md_mode data = Some TIERED) && truthy combined then Some combined else None.

Definition put (name : jsstr) (v : option json) (o : obj) : obj :=
  match v with Some j => map_set name j (map_delete name o) | None => map_delete name o end.

Lemma put_get name v o name' : map_get name' (put name v o) = if decide (name = name') then v else map_get name' o.
Proof.
  unfold put. destruct v; rewrite ?map_get_set, map_get_delete; by case_decide.
Qed.

Lemma put_good name v o :
  match v with Some j => json_wf j /\ printable j = true | None => True end -> good_obj o -> good_obj (put name v o).
Proof. intros Hv Ho. unfold put. destruct v as [j|]; [destruct Hv; apply good_set; [done..|]|]; by apply good_delete. Qed.

Lemma persist_put data m name :
  persist_one data m name =
  mkMaps (fmake (fun k => put name (JNum <$> stored data k) (fget k (m_fields m))))
    (put name ((fun _ => JStr TIERED) <$> stored_expr data) (m_mode m)) (put name (JStr <$> stored_expr data) (m_expr m)).
Proof.
  assert (forall k ks, written data = ks ->
    fget k (set_fields ks data name (m_fields (delete_name name m))) = put name (JNum <$> stored data k) (fget k (m_fields m))) as Hk.
  { intros k ks <-. unfold set_fields, delete_name, stored. cbn [m_fields]. rewrite !fget_make. unfold put.
    destruct (bool_decide (k ∈ written data)); [|done]. rewrite setIfPresent_spec. by destruct (present _). }
  assert (forall ks, written data = ks -> set_fields ks data name (m_fields (delete_name name m)) =
    fmake (fun k => put name (JNum <$> stored data k) (fget k (m_fields m)))) as Hset.
  { intros ks Hks. apply fields_ext. intros k. rewrite fget_make. by apply Hk. }
  unfold persist_one, stored_expr, written in *. destruct (bool_decide (md_mode data = Some TIERED)); cbn [andb].
  - rewrite Hset by done. by destruct (truthy (combineBillingExpr _ _)).
  - destruct (truthy_opt _); by rewrite Hset.
Qed.

Definition assign {A} (names : list jsstr) (name : jsstr) (v old : A) : A := if bool_decide (name ∈ names) then v else old.

Lemma persist_get data names name : forall m,
  let m' := foldl (persist_one data) m names in
  (forall k, map_get name (fget k (m_fields m')) = assign names name (JNum <$> stored data k) (map_get name (fget k (m_fields m)))) /\
  map_get name (m_mode m') = assign names name ((fun _ => JStr TIERED) <$> stored_expr data) (map_get name (m_mode m)) /\
  map_get name (m_expr m') = assign names name (JStr <$> stored_expr data) (map_get name (m_expr m)).
Proof.
  induction names as [|n names IH]; intros m m'; subst m'; [done|]. cbn [foldl].
  assert (forall A (v old : A), assign names name v (if decide (n = name) then v else old) = assign (n :: names) name v old) as Ha.
  { intros A v old. unfold assign. destruct (decide (n = name)); repeat case_bool_decide; set_solver. }
  destruct (IH (persist_one data m n)) as (IH1 & -> & ->). split_and!.
  - intros k. rewrite IH1, persist_put. cbn [m_fields]. rewrite fget_make, put_get. apply Ha.
  - rewrite persist_put. cbn [m_mode]. rewrite put_get. apply Ha.
  - rewrite persist_put. cbn [m_expr]. rewrite put_get. apply Ha.
Qed.

Definition printable_data (data : ModelRatioData) : bool :=
  forallb (fun k => match stored data k with Some x => printable_number x | None => true end) FIELDS.

Lemma persist_good data names : forall m,
  printable_data data = true -> all_objs good_obj m -> all_objs good_obj (foldl (persist_one data) m names).
Proof.
  intros m Hp. revert m. induction names as [|n names IH]; [done|]. intros m (H1 & H2 & H3). cbn [foldl]. apply IH.
  rewrite persist_put. split_and!; cbn [m_fields m_mode m_expr].
  - intros k. rewrite fget_make. apply put_good; [|done]. unfold printable_data in Hp. rewrite forallb_forall in Hp.
    specialize (Hp k (proj1 (list_elem_of_In _ _) (elem_of_FIELDS k))). by destruct (stored data k).
  - apply put_good; [|done]. by destruct (stored_expr data).
  - apply put_good; [|done]. by destruct (stored_expr data).
Qed.

(** ** Rows of written settings *)

Definition printable_settings (s : SettingsInput) : bool :=
  match parse_settings s with
  | Some m => forallb (fun k => printable_obj (fget k (m_fields m))) FIELDS && printable_obj (m_mode m) && printable_obj (m_expr m)
  | None => false
  end.

Lemma printable_settings_good s m : printable_settings s = true -> parse_settings s = Some m -> all_objs good_obj m.
Proof.
  unfold printable_settings. intros H E. rewrite E in H. rewrite !andb_true_iff, forallb_forall in H. destruct H as [[H1 H2] H3].
  destruct (parse_settings_wf s m E) as (W1 & W2 & W3). split_and!; [intros k|..]; apply good_obj_spec; split; try done.
  apply H1, list_elem_of_In, elem_of_FIELDS.
Qed.

(** The row of a model in the settings. *)
Definition row_of (m : Maps) (name : jsstr) : option ModelPricingSnapshot :=
  if bool_decide (name ∈ modelNames m) then snapshot_of m name else None.

Lemma rows_printed m :
  all_objs good_obj m -> (forall name, named m name -> is_Some (snapshot_of m name)) ->
  exists rows, buildModelSnapshots (print_settings m) = Some rows /\ forall name, row_named rows name = row_of m name.
Proof.
  intros (G1 & G2 & G3) Hs.
  destruct (parse_print_settings m) as (m' & Hp & Hsame).
  1, 2: split_and!; [intros k|..]; apply good_obj_spec; done.
  unfold buildModelSnapshots. rewrite Hp. cbn [mbind option_bind].
  assert (is_Some (mapM (snapshot_of m') (modelNames m'))) as [rows Hrows].
  { apply mapM_is_Some, Forall_forall. intros name Hn%elem_of_modelNames.
    change (is_Some (snapshot_of m' name)). rewrite (snapshot_same m' m name Hsame).
    by apply Hs, (named_same m' m name Hsame). }
  exists rows. split; [done|]. intros name. rewrite (row_found _ _ _ _ Hrows). unfold row_of.
  rewrite (snapshot_same m' m name Hsame).
  assert (bool_decide (name ∈ modelNames m') = bool_decide (name ∈ modelNames m)) as ->; [|done].
  apply bool_decide_ext. rewrite !elem_of_modelNames. by apply named_same.
Qed.

(** The rows that the settings have. *)
Lemma rows_built s rows :
  buildModelSnapshots s = Some rows ->
  exists m, parse_settings s = Some m /\ (forall name, row_named rows name = row_of m name) /\
            (forall name, named m name -> is_Some (snapshot_of m name)).
Proof.
  unfold buildModelSnapshots. destruct (parse_settings s) as [m|]; [|done]. cbn [mbind option_bind]. intros H.
  exists m. split_and!; [done| |].
  - intros name. by apply row_found.
  - intros name Hn. apply elem_of_modelNames in Hn. assert (is_Some (mapM (snapshot_of m) (modelNames m))) as Hs by by eexists.
    apply mapM_is_Some in Hs. rewrite Forall_forall in Hs. by apply Hs.
Qed.

(** Two settings that agree on a model show the same row. *)
Lemma row_same m1 m2 name :
  (forall k, map_get name (fget k (m_fields m1)) = map_get name (fget k (m_fields m2))) ->
  map_get name (m_mode m1) = map_get name (m_mode m2) -> map_get name (m_expr m1) = map_get name (m_expr m2) ->
  snapshot_of m1 name = snapshot_of m2 name /\ (named m1 name <-> named m2 name) /\ row_of m1 name = row_of m2 name.
Proof.
  intros Hf Hm He.
  assert (snapshot_of m1 name = snapshot_of m2 name) as Hs.
  { unfold snapshot_of, is_tiered, entry_expr. rewrite Hm, He.
    assert (fmake (fun k => entry_text name (fget k (m_fields m1))) = fmake (fun k => entry_text name (fget k (m_fields m2)))) as ->;
      [|done].
    apply fields_ext. intros k. rewrite !fget_make. unfold entry_text. by rewrite Hf. }
  assert (named m1 name <-> named m2 name) as Hn.
  { unfold named. rewrite Hm, He. apply or_iff_compat_r. split; intros [k Hk]; exists k; by rewrite Hf in * || rewrite <-Hf in *. }
  split_and!; [done..|]. unfold row_of. rewrite Hs.
  assert (bool_decide (name ∈ modelNames m1) = bool_decide (name ∈ modelNames m2)) as ->; [|done].
  apply bool_decide_ext. by rewrite !elem_of_modelNames.
Qed.

(** The row that [persistPricingData] leaves for a target. *)
Definition stored_text (data : ModelRatioData) (k : Field) : jsstr :=
  match stored data k with Some x => num_to_str x | None => [] end.

Definition nothing_stored (data : ModelRatioData) : bool :=
  forallb (fun k => match stored data k with None => true | _ => false end) FIELDS &&
  match stored_expr data with None => true | _ => false end.

Definition saved_row (data : ModelRatioData) (name : jsstr) : option ModelPricingSnapshot :=
  let values := fmake (fun k => Some (stored_text data k)) in
  if nothing_stored data then None
  else
    match stored_expr data with
    | Some e =>
        match splitBillingExprAndRequestRules e with
        | Ret (pure, rule) => Some (mkSnapshot name values (Some TIERED) (Some pure) (Some rule) false)
        | Throw => None
        end
    | None =>
        let priced := truthy (stored_text data Price) in
        Some (mkSnapshot name values (Some (if priced then PER_REQUEST else PER_TOKEN)) None None
                (priced && existsb (fun k => truthy (stored_text data k)) RATIO_FIELDS))
    end.

Lemma existsb_perm {A} (p : A -> bool) l1 l2 : l1 ≡ₚ l2 -> existsb p l1 = existsb p l2.
Proof. induction 1; cbn; try congruence. destruct (p x), (p y); done. Qed.

Lemma target_row data m name :
  (forall k, map_get name (fget k (m_fields m)) = JNum <$> stored data k) ->
  map_get name (m_mode m) = (fun _ => JStr TIERED) <$> stored_expr data ->
  map_get name (m_expr m) = JStr <$> stored_expr data ->
  (forall e, stored_expr data = Some e -> exists r, splitBillingExprAndRequestRules e = Ret r) ->
  is_Some (snapshot_of m name) /\ row_of m name = saved_row data name.
Proof.
  intros Hf Hm He Hsplit.
  assert (fmake (fun k => entry_text name (fget k (m_fields m))) = fmake (stored_text data)) as Ht.
  { apply fields_ext. intros k. rewrite !fget_make. unfold entry_text, stored_text. rewrite Hf. by destruct (stored data k). }
  assert (bool_decide (name ∈ modelNames m) = negb (nothing_stored data)) as Hn.
  { apply eq_true_iff_eq. rewrite bool_decide_eq_true, elem_of_modelNames, negb_true_iff. unfold named, nothing_stored.
    rewrite andb_false_iff, Hm, He, !fmap_is_Some. setoid_rewrite Hf.
    assert ((exists k, is_Some (JNum <$> stored data k)) <->
            forallb (fun k => match stored data k with None => true | _ => false end) FIELDS = false) as ->.
    { rewrite <-not_true_iff_false, forallb_forall. setoid_rewrite fmap_is_Some. split.
      - intros [k [x Hk]] H. specialize (H k (proj1 (list_elem_of_In _ _) (elem_of_FIELDS k))). by rewrite Hk in H.
      - intros H. destruct (List.find (fun k => match stored data k with None => false | _ => true end) FIELDS) as [k|] eqn:E.
        + apply find_some in E as [_ E]. exists k. destruct (stored data k); [by eexists|done].
        + exfalso. apply H. intros k Hk. apply (find_none _ _ E) in Hk. by destruct (stored data k). }
    destruct (stored_expr data); cbn; [|]; rewrite ?is_Some_alt; naive_solver. }
  unfold row_of, saved_row, snapshot_of, is_tiered, entry_expr. rewrite Hn, Hm, He, Ht.
  destruct (stored_expr data) as [e|]; cbn [fmap option_fmap option_map].
  - rewrite bool_decide_eq_true_2 by done. cbn [mbind option_bind]. destruct (Hsplit e eq_refl) as [[pure rule] ->].
    split; [by eexists|]. by destruct (nothing_stored data).
  - split; [by eexists|]. destruct (nothing_stored data); [done|]. cbn [negb].
    f_equal. f_equal. f_equal. etransitivity; [apply (existsb_perm _ _ RATIO_FIELDS)|reflexivity].
    apply (bool_decide_unpack _). vm_compute. done.
Qed.

(** ** The signature of a row *)

Lemma parse_signature sn :
  JSON_parse (getSnapshotSignature (Some sn)) = Some (JObj (signature_fields sn)).
Proof.
  unfold getSnapshotSignature, JSON_stringify. rewrite parse_stringify; [reflexivity|done| |reflexivity].
  split; [|by repeat split]. change ((signature_fields sn).*1) with
    [u "price"; u "ratio"; u "cacheRatio"; u "createCacheRatio"; u "completionRatio"; u "imageRatio"; u "audioRatio";
     u "audioCompletionRatio"; u "billingMode"; u "billingExpr"; u "requestRuleExpr"].
  refine (bool_decide_eq_true_1 (NoDup _) _). vm_compute. reflexivity.
Qed.

(** What a row shows, with an absent text as an empty one. *)
Definition shown (sn : ModelPricingSnapshot) : fields jsstr * (jsstr * jsstr * jsstr) :=
  (fmake (fun k => fget k (sn_fields sn) ?? []), (or_str (sn_mode sn ?? []) PER_TOKEN, sn_expr sn ?? [], sn_rule sn ?? [])).

Lemma or_str_nil s : or_str s [] = s.
Proof. by destruct s. Qed.

Lemma signature_shown a b :
  getSnapshotSignature (Some a) = getSnapshotSignature (Some b) <-> shown a = shown b.
Proof.
  split.
  - intros H%(f_equal JSON_parse). rewrite !parse_signature in H. unfold signature_fields in H. rewrite !or_str_nil in H.
    injection H as H1 H2 H3 H4 H5 H6 H7 H8 H9 H10 H11. unfold shown. f_equal; [|by rewrite H9, H10, H11].
    apply fields_ext. intros k. rewrite !fget_make. by destruct k.
  - intros H. unfold getSnapshotSignature, signature_fields. rewrite !or_str_nil.
    injection H as H1 H2 H3 H4 H5 H6 H7 H8 H9 H10 H11. cbn [fget].
    by rewrite H1, H2, H3, H4, H5, H6, H7, H8, H9, H10, H11.
Qed.

(** A row is marked as changed exactly when the saved and the edited
    settings show different data for the model, or only one of them has it. *)
Theorem draft_changed_spec savedByName draftByName name r :
  model_row savedByName draftByName name = Some r ->
  (isDraftChanged r = false <->
   exists a b, map_get name savedByName = Some a /\ map_get name draftByName = Some b /\ shown a = shown b).
Proof.
  unfold model_row. destruct (coalesce_opt _ _) as [d|] eqn:E; [|done]. intros [= <-]. cbn [isDraftChanged].
  rewrite negb_false_iff, bool_decide_eq_true.
  destruct (map_get name savedByName) as [a|], (map_get name draftByName) as [b|]; try done.
  - rewrite signature_shown. split; [by exists a, b|]. intros (a' & b' & H1 & H2 & H3). congruence.
  - split; [|by intros (a' & b' & H1 & H2 & H3)]. intros H%(f_equal JSON_parse). by rewrite parse_signature in H.
  - split; [|by intros (a' & b' & H1 & H2 & H3)]. intros H%(f_equal JSON_parse). by rewrite parse_signature in H.
Qed.

(** C12. Saving prices for a list of models writes settings that read back: each
    target shows exactly the prices that its mode keeps, as numbers, and its
    expression with the request rules taken apart again, or no row when
    nothing is left; every other model shows the row it had. *)
Theorem persist_rows data names s rows :
  printable_settings s = true -> printable_data data = true -> buildModelSnapshots s = Some rows ->
  (forall e, stored_expr data = Some e -> exists r, splitBillingExprAndRequestRules e = Ret r) ->
  exists s' rows', persistPricingData data names s = Some s' /\ buildModelSnapshots s' = Some rows' /\
    forall name, row_named rows' name = if bool_decide (name ∈ names) then saved_row data name else row_named rows name.
Proof.
  intros Hp Hd (m & Hm & Hrows & Hs)%rows_built Hsplit. pose proof (printable_settings_good s m Hp Hm) as Hgood.
  set (m' := foldl (persist_one data) m names).
  assert (forall name, is_Some (snapshot_of m' name) \/ ~ named m' name) as Hs'.
  { intros name. destruct (persist_get data names name m) as (H1 & H2 & H3). fold m' in H1, H2, H3. unfold assign in *.
    case_bool_decide; [left; by eapply target_row|]. destruct (row_same m' m name H1 H2 H3) as (-> & Hn & _).
    destruct (decide (name ∈ modelNames m)) as [Hin|Hin]; rewrite elem_of_modelNames in Hin; [left; by apply Hs|right; by rewrite Hn]. }
  destruct (rows_printed m') as (rows' & Hb & Hrows').
  { by apply persist_good. }
  { intros name Hn. by destruct (Hs' name). }
  exists (print_settings m'), rows'. split_and!; [unfold persistPricingData; by rewrite Hm|done|].
  intros name. rewrite Hrows', Hrows. destruct (persist_get data names name m) as (H1 & H2 & H3). fold m' in H1, H2, H3.
  unfold assign in *. case_bool_decide; [by eapply target_row|by apply row_same].
Qed.

Definition sample_input : SettingsInput :=
  mkInput (fmake (fun k => match k with
                           | Ratio => uj "{'a': 1.5, 'b': 2}" | CompletionRatio => uj "{'a': 4}" | Price => uj "{'c': 0.25}"
                           | _ => []
                           end)) [] (u " ").

Definition sample_data : ModelRatioData :=
  mkData (u "b") (fmake (fun k => match k with Ratio => Some (u "2.5") | CacheRatio => Some (u "x") | _ => Some [] end))
    (Some TIERED) (Some (uj "tier('base', p * 3)")) None.

Definition sample_snapshot (name : jsstr) (fs : Field -> jsstr) (mode : jsstr) (e r : option jsstr) : ModelPricingSnapshot :=
  mkSnapshot name (fmake (fun k => Some (fs k))) (Some mode) e r false.

Definition sample_rows : list ModelPricingSnapshot :=
  [sample_snapshot (u "c") (fun k => match k with Price => u "0.25" | _ => [] end) PER_REQUEST None None;
   sample_snapshot (u "a") (fun k => match k with Ratio => u "1.5" | CompletionRatio => u "4" | _ => [] end) PER_TOKEN None None;
   sample_snapshot (u "b") (fun k => match k with Ratio => u "2" | _ => [] end) PER_TOKEN None None].

Example sample_rows_built : buildModelSnapshots sample_input = Some sample_rows.
Proof. vm_compute. reflexivity. Qed.

Example sample_saved :
  (persistPricingData sample_data [u "b"; u "d"] sample_input ≫= buildModelSnapshots) =
  Some [sample_snapshot (u "c") (fun k => match k with Price => u "0.25" | _ => [] end) PER_REQUEST None None;
        sample_snapshot (u "a") (fun k => match k with Ratio => u "1.5" | CompletionRatio => u "4" | _ => [] end) PER_TOKEN None None;
        sample_snapshot (u "b") (fun k => match k with Ratio => u "2.5" | _ => [] end) TIERED (Some (uj "tier('base', p * 3)")) (Some []);
        sample_snapshot (u "d") (fun k => match k with Ratio => u "2.5" | _ => [] end) TIERED (Some (uj "tier('base', p * 3)")) (Some [])].
Proof. vm_compute. reflexivity. Qed.

Lemma persist_rows_witness :
  exists s' rows', persistPricingData sample_data [u "b"; u "d"] sample_input = Some s' /\
    buildModelSnapshots s' = Some rows' /\
    forall name, row_named rows' name =
      if bool_decide (name ∈ [u "b"; u "d"]) then saved_row sample_data name else row_named sample_rows name.
Proof.
  apply (persist_rows sample_data [u "b"; u "d"] sample_input sample_rows).
  - vm_compute. reflexivity.
  - vm_compute. reflexivity.
  - vm_compute. reflexivity.
  - intros e He. change (stored_expr sample_data) with (Some (uj "tier('base', p * 3)")) in He. injection He as <-.
    eexists. vm_compute. reflexivity.
Defined.

Lemma draft_changed_spec_witness :
  let rows := by_name sample_rows in
  exists r, model_row rows rows (u "a") = Some r /\
    (isDraftChanged r = false <->
     exists a b, map_get (u "a") rows = Some a /\ map_get (u "a") rows = Some b /\ shown a = shown b).
Proof.
  intros rows. eexists. split; [vm_compute; reflexivity|]. apply (draft_changed_spec rows rows (u "a")). vm_compute. reflexivity.
Defined.

(** Deleting a model removes its row and keeps the others. *)
Theorem delete_rows name s rows :
  printable_settings s = true -> buildModelSnapshots s = Some rows ->
  exists s' rows', handleDelete name s = Some s' /\ buildModelSnapshots s' = Some rows' /\
    row_named rows' name = None /\ forall other, other <> name -> row_named rows' other = row_named rows other.
Proof.
  intros Hp (m & Hm & Hrows & Hs)%rows_built. pose proof (printable_settings_good s m Hp Hm) as (G1 & G2 & G3).
  set (m' := delete_name name m).
  assert (forall other, (forall k, map_get other (fget k (m_fields m')) =
              if decide (name = other) then None else map_get other (fget k (m_fields m))) /\
            map_get other (m_mode m') = (if decide (name = other) then None else map_get other (m_mode m)) /\
            map_get other (m_expr m') = (if decide (name = other) then None else map_get other (m_expr m))) as Hget.
  { intros other. subst m'. unfold delete_name. cbn [m_fields m_mode m_expr].
    split_and!; [intros k; rewrite fget_make|..]; apply map_get_delete. }
  assert (~ named m' name) as Hgone.
  { destruct (Hget name) as (H1 & H2 & H3). rewrite !decide_True in * by done. intros [[k [x Hk]]|[[x Hk]|[x Hk]]]; [|congruence..].
    rewrite H1, decide_True in Hk by done. done. }
  assert (forall other, other <> name -> snapshot_of m' other = snapshot_of m other /\ (named m' other <-> named m other) /\
    row_of m' other = row_of m other) as Hother.
  { intros other Hne. destruct (Hget other) as (H1 & H2 & H3). rewrite !decide_False in * by congruence.
    apply row_same; [|done..]. intros k. by rewrite H1, decide_False by congruence. }
  destruct (rows_printed m') as (rows' & Hb & Hrows').
  { split_and!; [intros k; subst m'; unfold delete_name; cbn [m_fields]; rewrite fget_make|..]; by apply good_delete. }
  { intros other Hn. destruct (decide (other = name)) as [->|Hne]; [done|]. destruct (Hother other Hne) as (-> & Hiff & _).
    by apply Hs, Hiff. }
  exists (print_settings m'), rows'. split_and!; [unfold handleDelete; by rewrite Hm|done| |].
  - rewrite Hrows'. unfold row_of. rewrite bool_decide_eq_false_2; [done|]. by rewrite elem_of_modelNames.
  - intros other Hne. rewrite Hrows', Hrows. by apply Hother.
Qed.

End Settings.
