(* ===== verification/PricingSheet.v ===== *)
(** * The editor sheet for the prices of a model
    (web/default/src/features/system-settings/models/model-pricing-core.ts
    and model-pricing-sheet.tsx)

    The sheet shows prices in dollars and keeps the ratios that the settings
    store.  Its state is a record; opening the sheet and every input is a
    function on it, and [step] lets the user act in any order.  The form's
    texts are never absent: every reset writes an empty text instead. *)

From S2P Require Import Prelude JsString JsNumber JsJson JsRegex JsExpr JsPrint PricingModels BillingExpr BillingRules PricingSettings.

Import Expr Billing Settings.
Open Scope N_scope.

Module Sheet.

(** ** model-pricing-core.ts *)

Inductive LaneKey := Completion | Cache | CreateCache | Image | AudioInput | AudioOutput.

#[export] Instance LaneKey_eq_dec : EqDecision LaneKey.
Proof. solve_decision. Defined.

Record LaneConfig := mkLaneConfig { lc_key : LaneKey; titleKey : jsstr; descriptionKey : jsstr; placeholder : jsstr }.

Definition laneConfigs : list LaneConfig :=
  [mkLaneConfig Completion (u "Completion price") (u "Output token price for generated tokens.") (u "15");
   mkLaneConfig Cache (u "Cache read price") (u "Token price for cache reads.") (u "0.3");
   mkLaneConfig CreateCache (u "Cache write price") (u "Token price for creating cache entries.") (u "3.75");
   mkLaneConfig Image (u "Image input price") (u "Token price for image input.") (u "2.5");
   mkLaneConfig AudioInput (u "Audio input price") (u "Token price for audio input.") (u "3.81");
   mkLaneConfig AudioOutput (u "Audio output price") (u "Token price for audio output.") (u "15.11")].

Definition LANES : list LaneKey := map lc_key laneConfigs.

(** [Record<LaneKey, A>] *)
Record lanes (A : Type) := mkLanes {
  l_completion : A; l_cache : A; l_createCache : A; l_image : A; l_audioInput : A; l_audioOutput : A;
}.
Arguments mkLanes {A}.
Arguments l_completion {A}.
Arguments l_cache {A}.
Arguments l_createCache {A}.
Arguments l_image {A}.
Arguments l_audioInput {A}.
Arguments l_audioOutput {A}.

Definition lget {A} (k : LaneKey) (r : lanes A) : A :=
  match k with
  | Completion => l_completion r | Cache => l_cache r | CreateCache => l_createCache r
  | Image => l_image r | AudioInput => l_audioInput r | AudioOutput => l_audioOutput r
  end.

Definition lmake {A} (g : LaneKey -> A) : lanes A :=
  mkLanes (g Completion) (g Cache) (g CreateCache) (g Image) (g AudioInput) (g AudioOutput).

(** [{ ...r, [k]: v }] *)
Definition lset {A} (k : LaneKey) (v : A) (r : lanes A) : lanes A :=
  lmake (fun k' => if decide (k = k') then v else lget k' r).

Definition EMPTY_LANE_PRICES : lanes jsstr := lmake (fun _ => []).
Definition EMPTY_LANE_ENABLED : lanes bool := lmake (fun _ => false).

Definition ratioFieldByLane (k : LaneKey) : Field :=
  match k with
  | Completion => CompletionRatio | Cache => CacheRatio | CreateCache => CreateCacheRatio
  | Image => ImageRatio | AudioInput => AudioRatio | AudioOutput => AudioCompletionRatio
  end.

(** Nothing, or an unsigned decimal numeral in which the digits after the point,
    or those before it, may still be missing. *)
Definition numericDraftRegex : re :=
  let digits := RStar (RCls is_digit) in
  rseq [RStart;
        ROpt (RAlt (RSeq (RPlus (RCls is_digit)) (ROpt (RSeq (RStr (u ".")) digits))) (RSeq (RStr (u ".")) digits));
        REnd].

(** [value !== '' && value !== null && value !== undefined && value !== false] *)
Definition hasValue (v : option jsstr) : bool := match v with Some s => truthy s | None => false end.

Definition core_toNumberOrNull (v : option jsstr) : option number :=
  if negb (hasValue v) then None else finite_or_null (str_to_num (v ?? [])).

Definition ratioToBasePrice (ratio : option jsstr) : jsstr :=
  match core_toNumberOrNull ratio with
  | None => []
  | Some num => format_number (num * num_of_Z 2)%num
  end.

Definition deriveLanePrice (ratio : option jsstr) (denominator : jsstr) : jsstr :=
  match core_toNumberOrNull ratio, core_toNumberOrNull (Some denominator) with
  | Some r, Some d => format_number (r * d)%num
  | _, _ => []
  end.

Record LaneState := mkLaneState { ls_prompt : jsstr; ls_prices : lanes jsstr; ls_enabled : lanes bool }.

Definition createInitialLaneState (data : option ModelRatioData) : LaneState :=
  match data with
  | None => mkLaneState [] EMPTY_LANE_PRICES EMPTY_LANE_ENABLED
  | Some data =>
      let ratio k := fget k (md_fields data) in
      let promptPrice := ratioToBasePrice (ratio Ratio) in
      let audioInputPrice := deriveLanePrice (ratio AudioRatio) promptPrice in
      mkLaneState promptPrice
        (mkLanes (deriveLanePrice (ratio CompletionRatio) promptPrice) (deriveLanePrice (ratio CacheRatio) promptPrice)
           (deriveLanePrice (ratio CreateCacheRatio) promptPrice) (deriveLanePrice (ratio ImageRatio) promptPrice)
           audioInputPrice (deriveLanePrice (ratio AudioCompletionRatio) audioInputPrice))
        (lmake (fun k => hasValue (ratio (ratioFieldByLane k))))
  end.

(** ** The state of the sheet *)

Record Sheet := mkSheet {
  editData : option ModelRatioData;
  pricingMode : jsstr;
  promptPrice : jsstr;
  lanePrices : lanes jsstr;
  laneEnabled : lanes bool;
  billingExpr : jsstr;
  requestRuleExpr : jsstr;
  form_name : jsstr;
  form : fields jsstr;
}.

Definition set_mode (m : jsstr) (s : Sheet) : Sheet :=
  mkSheet (editData s) m (promptPrice s) (lanePrices s) (laneEnabled s) (billingExpr s) (requestRuleExpr s) (form_name s) (form s).
Definition set_prompt (p : jsstr) (s : Sheet) : Sheet :=
  mkSheet (editData s) (pricingMode s) p (lanePrices s) (laneEnabled s) (billingExpr s) (requestRuleExpr s) (form_name s) (form s).
Definition set_prices (p : lanes jsstr) (s : Sheet) : Sheet :=
  mkSheet (editData s) (pricingMode s) (promptPrice s) p (laneEnabled s) (billingExpr s) (requestRuleExpr s) (form_name s) (form s).
Definition set_enabled (e : lanes bool) (s : Sheet) : Sheet :=
  mkSheet (editData s) (pricingMode s) (promptPrice s) (lanePrices s) e (billingExpr s) (requestRuleExpr s) (form_name s) (form s).
Definition set_expr (e : jsstr) (s : Sheet) : Sheet :=
  mkSheet (editData s) (pricingMode s) (promptPrice s) (lanePrices s) (laneEnabled s) e (requestRuleExpr s) (form_name s) (form s).
Definition set_rule (r : jsstr) (s : Sheet) : Sheet :=
  mkSheet (editData s) (pricingMode s) (promptPrice s) (lanePrices s) (laneEnabled s) (billingExpr s) r (form_name s) (form s).
Definition set_name (n : jsstr) (s : Sheet) : Sheet :=
  mkSheet (editData s) (pricingMode s) (promptPrice s) (lanePrices s) (laneEnabled s) (billingExpr s) (requestRuleExpr s) n (form s).

Definition setFormValue (k : Field) (v : jsstr) (s : Sheet) : Sheet :=
  mkSheet (editData s) (pricingMode s) (promptPrice s) (lanePrices s) (laneEnabled s) (billingExpr s) (requestRuleExpr s)
    (form_name s) (fmake (fun k' => if decide (k = k') then v else fget k' (form s))).

(** The effect that runs when the edited model changes. *)
Definition open_sheet (data : option ModelRatioData) : Sheet :=
  let next := createInitialLaneState data in
  match data with
  | Some d =>
      mkSheet data
        (if bool_decide (md_mode d = Some TIERED) then TIERED
         else if truthy_opt (fget Price (md_fields d)) then PER_REQUEST else PER_TOKEN)
        (ls_prompt next) (ls_prices next) (ls_enabled next) (or_str (md_expr d ?? []) []) (or_str (md_rule d ?? []) [])
        (md_name d) (fmake (fun k => or_str (fget k (md_fields d) ?? []) []))
  | None => mkSheet None PER_TOKEN (ls_prompt next) (ls_prices next) (ls_enabled next) [] [] [] (fmake (fun _ => []))
  end.

(** ** Inputs *)

Definition deriveLaneRatio (lane : LaneKey) (price prompt : jsstr) (prices : lanes jsstr) : jsstr :=
  match core_toNumberOrNull (Some price) with
  | None => []
  | Some priceNumber =>
      let base := if decide (lane = AudioOutput) then lget AudioInput prices else prompt in
      match core_toNumberOrNull (Some base) with
      | None => []
      | Some b => if num_eq b (num_of_Z 0) then [] else format_number (priceNumber / b)%num
      end
  end.

Definition base_ratio (prompt : jsstr) : jsstr :=
  match core_toNumberOrNull (Some prompt) with
  | Some inputPrice => format_number (inputPrice / num_of_Z 2)%num
  | None => []
  end.

(** The text that a lane stands for. *)
Definition lane_ratio (prompt : jsstr) (prices : lanes jsstr) (enabled : lanes bool) (lane : LaneKey) : jsstr :=
  if lget lane enabled then deriveLaneRatio lane (lget lane prices) prompt prices else [].

Definition syncLaneRatios (prompt : jsstr) (prices : lanes jsstr) (enabled : lanes bool) (s : Sheet) : Sheet :=
  foldl (fun s key => setFormValue (ratioFieldByLane key) (lane_ratio prompt prices enabled key) s)
    (setFormValue Ratio (base_ratio prompt) s) LANES.

Definition accepted (v : jsstr) : bool := re_test numericDraftRegex v.

Definition handlePromptPriceChange (v : jsstr) (s : Sheet) : Sheet :=
  if negb (accepted v) then s
  else syncLaneRatios v (lanePrices s) (laneEnabled s) (set_prompt v s).

Definition handleLanePriceChange (lane : LaneKey) (v : jsstr) (s : Sheet) : Sheet :=
  if negb (accepted v) then s
  else
    let next := lset lane v (lanePrices s) in
    let s1 := set_prices next s in
    let s2 := if lget lane (laneEnabled s)
              then setFormValue (ratioFieldByLane lane) (deriveLaneRatio lane v (promptPrice s) next) s1 else s1 in
    if decide (lane = AudioInput) then
      if lget AudioOutput (laneEnabled s)
      then setFormValue AudioCompletionRatio (deriveLaneRatio AudioOutput (lget AudioOutput next) (promptPrice s) next) s2
      else s2
    else s2.

Definition handleLaneToggle (lane : LaneKey) (checked : bool) (s : Sheet) : Sheet :=
  let nextEnabled := lset lane checked (laneEnabled s) in
  if checked then
    setFormValue (ratioFieldByLane lane) (deriveLaneRatio lane (lget lane (lanePrices s)) (promptPrice s) (lanePrices s))
      (set_enabled nextEnabled s)
  else
    let nextPrices := lset lane [] (lanePrices s) in
    let s1 := setFormValue (ratioFieldByLane lane) [] s in
    if decide (lane = AudioInput) then
      set_prices (lset AudioOutput [] nextPrices)
        (set_enabled (lset AudioOutput false nextEnabled) (setFormValue AudioCompletionRatio [] s1))
    else set_prices nextPrices (set_enabled nextEnabled s1).

Definition handleModeChange (mode : jsstr) (s : Sheet) : Sheet :=
  let s1 := set_mode mode s in
  if bool_decide (mode = TIERED) && negb (truthy (billingExpr s)) then set_expr (uj "tier('base', p * 0 + c * 0)") s1 else s1.

(** The input of the fixed price. *)
Definition handleFixedPriceChange (v : jsstr) (s : Sheet) : Sheet :=
  if accepted v then setFormValue Price v s else s.

(** ** Saving *)

Definition lane_needs_input (s : Sheet) : bool :=
  bool_decide (pricingMode s = PER_TOKEN) && match core_toNumberOrNull (Some (promptPrice s)) with None => true | _ => false end
  && existsb (fun k => lget k (laneEnabled s) && hasValue (Some (lget k (lanePrices s)))) LANES.

Definition audio_needs_input (s : Sheet) : bool :=
  bool_decide (pricingMode s = PER_TOKEN) && lget AudioOutput (laneEnabled s)
  && negb (hasValue (Some (lget AudioInput (lanePrices s)))).

Definition CONFLICT_WARNING : jsstr :=
  u "This model has both fixed-price and token-price settings. Saving the current mode will rewrite the conflicting fields.".
Definition INPUT_WARNING : jsstr := u "Input price is required before saving dependent prices.".
Definition AUDIO_WARNING : jsstr := u "Audio output price requires an audio input price.".

Definition warnings (t : jsstr -> jsstr) (s : Sheet) : list jsstr :=
  let hasConflict := match editData s with
                     | Some d => truthy_opt (fget Price (md_fields d)) &&
                                 existsb (fun k => hasValue (fget k (md_fields d)))
                                   [Ratio; CompletionRatio; CacheRatio; CreateCacheRatio; ImageRatio; AudioRatio;
                                    AudioCompletionRatio]
                     | None => false
                     end in
  (if hasConflict then [t CONFLICT_WARNING] else []) ++ (if lane_needs_input s then [t INPUT_WARNING] else [])
  ++ (if audio_needs_input s then [t AUDIO_WARNING] else []).

Definition validatePricingValues (s : Sheet) : bool := negb (lane_needs_input s) && negb (audio_needs_input s).

Definition buildSubmitData (s : Sheet) : ModelRatioData :=
  let tiered := bool_decide (pricingMode s = TIERED) in
  mkData (trim (form_name s)) (fmake (fun k => Some (or_str (fget k (form s)) []))) (Some (pricingMode s))
    (if tiered then Some (billingExpr s) else None) (if tiered then Some (requestRuleExpr s) else None).

(** [form.trigger()] asks for a name of at least one unit. *)
Definition commitDraft (s : Sheet) : option ModelRatioData :=
  if truthy (form_name s) && validatePricingValues s then Some (buildSubmitData s) else None.

(** ** Preview *)

Record PreviewRow := mkPreview { pr_key : jsstr; pr_label : jsstr; pr_value : jsstr; pr_multiline : bool }.

Definition buildPreviewRows (t : jsstr -> jsstr) (s : Sheet) : list PreviewRow :=
  if bool_decide (pricingMode s = TIERED) then
    [mkPreview (u "mode") (u "BillingMode") TIERED false;
     mkPreview (u "expr") (t (u "Expression")) (or_str (combineBillingExpr (billingExpr s) (requestRuleExpr s)) (t (u "Empty"))) true]
  else if bool_decide (pricingMode s = PER_REQUEST) then
    [mkPreview (u "price") (u "ModelPrice") (or_str (fget Price (form s)) (t (u "Empty"))) false]
  else
    let dollars v := u "$" ++ v in
    let lane key label k :=
      mkPreview key (t label)
        (if lget k (laneEnabled s) && truthy (lget k (lanePrices s)) then dollars (lget k (lanePrices s)) else t (u "Empty")) false in
    [mkPreview (u "inputPrice") (t (u "Input price"))
       (if truthy (promptPrice s) then dollars (promptPrice s) else t (u "Empty")) false;
     lane (u "completion") (u "Completion price") Completion; lane (u "cache") (u "Cache read price") Cache;
     lane (u "createCache") (u "Cache write price") CreateCache; lane (u "image") (u "Image input price") Image;
     lane (u "audio") (u "Audio input price") AudioInput; lane (u "audioCompletion") (u "Audio output price") AudioOutput].

(** ** The state machine *)

Inductive input :=
| InPrompt (v : jsstr)
| InLanePrice (lane : LaneKey) (v : jsstr)
| InLaneToggle (lane : LaneKey) (checked : bool)
| InMode (mode : jsstr)
| InFixedPrice (v : jsstr)
| InName (v : jsstr)
| InExpr (v : jsstr)
| InRule (v : jsstr).

Definition apply_input (i : input) (s : Sheet) : Sheet :=
  match i with
  | InPrompt v => handlePromptPriceChange v s
  | InLanePrice lane v => handleLanePriceChange lane v s
  | InLaneToggle lane checked => handleLaneToggle lane checked s
  | InMode mode => handleModeChange mode s
  | InFixedPrice v => handleFixedPriceChange v s
  | InName v => set_name v s
  | InExpr v => set_expr v s
  | InRule v => set_rule v s
  end.

(** The states of a sheet that was opened for some data. *)
Inductive reachable (data : option ModelRatioData) : Sheet -> Prop :=
| reach_open : reachable data (open_sheet data)
| reach_input i s : reachable data s -> reachable data (apply_input i s).

(** ** The form agrees with the prices *)

Definition in_sync (s : Sheet) : Prop :=
  fget Ratio (form s) = base_ratio (promptPrice s) /\
  forall lane, fget (ratioFieldByLane lane) (form s) = lane_ratio (promptPrice s) (lanePrices s) (laneEnabled s) lane.

Lemma lget_make {A} (g : LaneKey -> A) k : lget k (lmake g) = g k.
Proof. by destruct k. Qed.

Lemma lget_set {A} k k' (v : A) r : lget k' (lset k v r) = if decide (k = k') then v else lget k' r.
Proof. apply lget_make. Qed.

Lemma form_set k v s k' : fget k' (form (setFormValue k v s)) = if decide (k = k') then v else fget k' (form s).
Proof. apply fget_make. Qed.

#[export] Instance ratioFieldByLane_inj : Inj (=) (=) ratioFieldByLane.
Proof. intros [] []; done. Qed.

Lemma lane_not_ratio lane : ratioFieldByLane lane <> Ratio /\ ratioFieldByLane lane <> Price.
Proof. by destruct lane. Qed.

(** The ratio of a lane depends on its own price and switch, and for the
    audio output on the audio input. *)
Lemma lane_ratio_congr prompt p1 p2 e1 e2 lane :
  lget lane e1 = lget lane e2 -> lget lane p1 = lget lane p2 ->
  (lane = AudioOutput -> lget AudioInput p1 = lget AudioInput p2) ->
  lane_ratio prompt p1 e1 lane = lane_ratio prompt p2 e2 lane.
Proof.
  intros He Hp Ha. unfold lane_ratio, deriveLaneRatio. rewrite He, Hp. destruct (lget lane e2); [|done].
  case_decide as Hl; [|done]. by rewrite Ha.
Qed.

Lemma lane_off prompt prices enabled lane : lget lane enabled = false -> lane_ratio prompt prices enabled lane = [].
Proof. unfold lane_ratio. by intros ->. Qed.

Lemma sync_form prompt prices enabled s :
  let s' := syncLaneRatios prompt prices enabled s in
  fget Ratio (form s') = base_ratio prompt /\
  (forall lane, fget (ratioFieldByLane lane) (form s') = lane_ratio prompt prices enabled lane) /\
  promptPrice s' = promptPrice s /\ lanePrices s' = lanePrices s /\ laneEnabled s' = laneEnabled s.
Proof. split_and!; [done| |done..]. intros lane. by destruct lane. Qed.

Lemma prompt_syncs v s : accepted v = true -> in_sync (handlePromptPriceChange v s).
Proof.
  intros Hv. unfold handlePromptPriceChange. rewrite Hv. cbn [negb].
  destruct (sync_form v (lanePrices s) (laneEnabled s) (set_prompt v s)) as (H1 & H2 & H3 & H4 & H5).
  split; [by rewrite H3|]. intros lane. by rewrite H3, H4, H5.
Qed.

(** One lane is written, the others keep their ratio. *)
Lemma in_sync_lane s lane v p e :
  in_sync s -> v = lane_ratio (promptPrice s) p e lane ->
  (forall l, l <> lane -> lane_ratio (promptPrice s) p e l = lane_ratio (promptPrice s) (lanePrices s) (laneEnabled s) l) ->
  in_sync (set_prices p (set_enabled e (setFormValue (ratioFieldByLane lane) v s))).
Proof.
  intros [H1 H2] Hv Hother. split.
  - change (fget Ratio (form (setFormValue (ratioFieldByLane lane) v s)) = base_ratio (promptPrice s)).
    rewrite form_set, decide_False by apply lane_not_ratio. done.
  - intros l. change (fget (ratioFieldByLane l) (form (setFormValue (ratioFieldByLane lane) v s)) = lane_ratio (promptPrice s) p e l).
    rewrite form_set. case_decide as Hd; [apply (inj _) in Hd as <-; done|]. rewrite H2, Hother; [done|]. congruence.
Qed.

(** A change of a lane's price, seen through the form. *)
Lemma price_form lane v s l :
  accepted v = true -> in_sync s ->
  let s' := handleLanePriceChange lane v s in
  fget (ratioFieldByLane l) (form s') = lane_ratio (promptPrice s) (lset lane v (lanePrices s)) (laneEnabled s) l.
Proof.
  intros Hv [_ H2]. unfold handleLanePriceChange. rewrite Hv. cbn [negb].
  set (next := lset lane v (lanePrices s)). set (s1 := set_prices next s).
  assert (forall l, lane <> l -> ~ (lane = AudioInput /\ l = AudioOutput) ->
    fget (ratioFieldByLane l) (form s1) = lane_ratio (promptPrice s) next (laneEnabled s) l) as Hkeep.
  { intros l' Hne Hna. change (form s1) with (form s). rewrite H2. apply lane_ratio_congr; [done| |].
    - subst next. by rewrite lget_set, decide_False.
    - intros ->. subst next. rewrite lget_set, decide_False; [done|]. intros ->. by apply Hna. }
  assert (forall l, lget l (laneEnabled s) = false -> fget (ratioFieldByLane l) (form s1) = []) as Hoff.
  { intros l' Hl. change (form s1) with (form s). by rewrite H2, lane_off. }
  set (s2 := if lget lane (laneEnabled s) then _ else s1).
  assert (forall l, ~ (lane = AudioInput /\ l = AudioOutput) ->
    fget (ratioFieldByLane l) (form s2) = lane_ratio (promptPrice s) next (laneEnabled s) l) as Hs2.
  { intros l' Hna. subst s2. destruct (lget lane (laneEnabled s)) eqn:He.
    - rewrite form_set. case_decide as Hd; [|by apply Hkeep; [congruence|]]. apply (inj _) in Hd as <-.
      unfold lane_ratio. rewrite He. subst next. by rewrite lget_set, decide_True.
    - destruct (decide (lane = l')) as [<-|Hne]; [|by apply Hkeep]. by rewrite Hoff, lane_off. }
  case_decide as Ha; [subst lane|apply Hs2; naive_solver].
  destruct (lget AudioOutput (laneEnabled s)) eqn:Ho.
  - change AudioCompletionRatio with (ratioFieldByLane AudioOutput). rewrite form_set.
    case_decide as Hd; [|apply Hs2; intros [_ ->]; done]. apply (inj _) in Hd as <-. unfold lane_ratio. by rewrite Ho.
  - destruct (decide (l = AudioOutput)) as [->|Hne]; [|apply Hs2; naive_solver].
    rewrite lane_off by done. transitivity (fget (ratioFieldByLane AudioOutput) (form s1)); [|by apply Hoff].
    subst s2. by destruct (lget AudioInput (laneEnabled s)).
Qed.

Lemma price_rest lane v s :
  accepted v = true ->
  let s' := handleLanePriceChange lane v s in
  promptPrice s' = promptPrice s /\ lanePrices s' = lset lane v (lanePrices s) /\ laneEnabled s' = laneEnabled s /\
  fget Ratio (form s') = fget Ratio (form s).
Proof.
  intros Hv. unfold handleLanePriceChange. rewrite Hv. cbn [negb].
  destruct (decide (lane = AudioInput)), (lget lane (laneEnabled s)), (lget AudioOutput (laneEnabled s));
    split_and!; try done; by destruct lane.
Qed.

Lemma price_in_sync lane v s : in_sync s -> in_sync (handleLanePriceChange lane v s).
Proof.
  intros Hs. destruct (accepted v) eqn:Hv; [|unfold handleLanePriceChange; by rewrite Hv].
  destruct (price_rest lane v s Hv) as (H1 & H2 & H3 & H4). split.
  - rewrite H4, H1. apply Hs.
  - intros l. rewrite H1, H2, H3. by apply price_form.
Qed.

Lemma toggle_in_sync lane checked s : in_sync s -> in_sync (handleLaneToggle lane checked s).
Proof.
  intros Hs. unfold handleLaneToggle. destruct checked.
  - apply (in_sync_lane s lane _ (lanePrices s) (lset lane true (laneEnabled s))); [done| |].
    + unfold lane_ratio. by rewrite lget_set, decide_True.
    + intros l Hl. apply lane_ratio_congr; [|done..]. by rewrite lget_set, decide_False.
  - assert (forall l p e, l <> lane -> ~ (lane = AudioInput /\ l = AudioOutput) -> p = lset lane [] (lanePrices s) ->
      e = lset lane false (laneEnabled s) ->
      lane_ratio (promptPrice s) p e l = lane_ratio (promptPrice s) (lanePrices s) (laneEnabled s) l) as Hkeep.
    { intros l p e Hne Hna -> ->. apply lane_ratio_congr; [by rewrite lget_set, decide_False..|].
      intros ->. rewrite lget_set, decide_False; [done|]. intros ->. by apply Hna. }
    case_decide as Ha.
    + subst lane. destruct Hs as [H1 H2]. split; [done|]. intros l.
      change (fget (ratioFieldByLane l) (form (setFormValue AudioCompletionRatio [] (setFormValue AudioRatio [] s))) =
        lane_ratio (promptPrice s) (lset AudioOutput [] (lset AudioInput [] (lanePrices s)))
          (lset AudioOutput false (lset AudioInput false (laneEnabled s))) l).
      pose proof (H2 l) as Hl. rewrite !form_set.
      destruct l; try (by rewrite lane_off by done); rewrite !decide_False by done; rewrite Hl; by apply lane_ratio_congr.
    + apply (in_sync_lane s lane [] (lset lane [] (lanePrices s)) (lset lane false (laneEnabled s))); [done| |].
      * symmetry. apply lane_off. by rewrite lget_set, decide_True.
      * intros l Hl. apply Hkeep; [done|naive_solver|done..].
Qed.

Lemma input_in_sync i s : in_sync s -> in_sync (apply_input i s).
Proof.
  intros Hs. destruct i as [v|lane v|lane c|m|v|v|v|v]; cbn [apply_input]; try exact Hs.
  - destruct (accepted v) eqn:Hv; [by apply prompt_syncs|]. unfold handlePromptPriceChange. by rewrite Hv.
  - by apply price_in_sync.
  - by apply toggle_in_sync.
  - unfold handleModeChange. by destruct (_ && _).
  - unfold handleFixedPriceChange. destruct (accepted v); [|done]. destruct Hs as [H1 H2]. split; [done|].
    intros lane. rewrite form_set, decide_False; [apply H2|]. intros H. symmetry in H. by apply lane_not_ratio in H.
Qed.

Lemma new_in_sync s : reachable None s -> in_sync s.
Proof. induction 1; [split; [done|by intros []]|by apply input_in_sync]. Qed.

(** ** What is saved *)

Lemma commit_data s data :
  commitDraft s = Some data ->
  md_mode data = Some (pricingMode s) /\ forall k, fget k (md_fields data) = Some (fget k (form s)).
Proof.
  unfold commitDraft. destruct (_ && _); [|done]. intros [= <-]. split; [done|]. intros k.
  unfold buildSubmitData. cbn [md_fields]. rewrite fget_make. by destruct (fget k (form s)).
Qed.

Lemma commit_written s data :
  commitDraft s = Some data -> pricingMode s <> TIERED ->
  written data = if truthy (fget Price (form s)) then [Price] else RATIO_FIELDS.
Proof.
  intros [Hm Hf]%commit_data Hne. unfold written. rewrite Hm, Hf, bool_decide_eq_false_2 by congruence. done.
Qed.

Lemma lane_in_ratios lane : ratioFieldByLane lane ∈ RATIO_FIELDS.
Proof. destruct lane; unfold RATIO_FIELDS; set_solver. Qed.

Lemma stored_field data k v :
  k ∈ written data -> fget k (md_fields data) = Some v -> stored data k = present (Some v).
Proof. intros Hk Hv. unfold stored. by rewrite bool_decide_eq_true_2, Hv. Qed.

(** The number of a price on the sheet, and the quotient of two of them, if both
    are there and the second one is not zero. *)
Definition price_of (text : jsstr) : option number := core_toNumberOrNull (Some text).

Definition quotient (a b : option number) : option number :=
  match a, b with Some x, Some y => if num_eq y (num_of_Z 0) then None else Some (x / y)%num | _, _ => None end.

(** A ratio as the settings have it: printed for the form and read again. *)
Definition kept (ratio : option number) : option number := ratio ≫= (fun x => present (Some (format_number x))).

(** What the price of a lane is divided by. *)
Definition lane_base (s : Sheet) (lane : LaneKey) : jsstr :=
  if decide (lane = AudioOutput) then lget AudioInput (lanePrices s) else promptPrice s.

Lemma base_ratio_kept prompt : present (Some (base_ratio prompt)) = kept ((fun x => (x / num_of_Z 2)%num) <$> price_of prompt).
Proof. unfold base_ratio, kept, price_of. by destruct (core_toNumberOrNull (Some prompt)). Qed.

Lemma lane_ratio_kept s lane :
  present (Some (lane_ratio (promptPrice s) (lanePrices s) (laneEnabled s) lane)) =
  if lget lane (laneEnabled s) then kept (quotient (price_of (lget lane (lanePrices s))) (price_of (lane_base s lane))) else None.
Proof.
  unfold lane_ratio, deriveLaneRatio, kept, quotient, price_of, lane_base. destruct (lget lane (laneEnabled s)); [|done].
  destruct (core_toNumberOrNull (Some (lget lane (lanePrices s)))); [|done].
  destruct (core_toNumberOrNull _) as [b|]; [|done]. by destruct (num_eq b _).
Qed.

(** C20. What a new model that is saved in the per-token mode stores, whatever the
    user typed, switched or reverted before.  When no fixed price is left in the
    form, it is for every price on the sheet the ratio that the price stands
    for: half the input price, and for each enabled lane its price divided by
    the input price (by the audio input price for the audio output); disabled
    lanes and prices that are missing or divided by zero store nothing, nor
    does the fixed price.  When a fixed price is left in the form from the
    per-request mode, only this price is stored and no ratio. *)
Theorem new_sheet_saves s data :
  reachable None s -> commitDraft s = Some data -> pricingMode s = PER_TOKEN ->
  (fget Price (form s) = [] ->
     stored data Price = None /\ stored data Ratio = kept ((fun x => (x / num_of_Z 2)%num) <$> price_of (promptPrice s)) /\
     forall lane, stored data (ratioFieldByLane lane) =
       if lget lane (laneEnabled s) then kept (quotient (price_of (lget lane (lanePrices s))) (price_of (lane_base s lane))) else None) /\
  (fget Price (form s) <> [] ->
     stored data Price = present (Some (fget Price (form s))) /\ forall k, k <> Price -> stored data k = None).
Proof.
  intros [H1 H2]%new_in_sync Hc Hm. pose proof (commit_data s data Hc) as [_ Hf].
  assert (written data = if truthy (fget Price (form s)) then [Price] else RATIO_FIELDS) as Hw.
  { apply (commit_written s data Hc). rewrite Hm. by vm_compute. }
  split; intros Hp.
  - rewrite Hp in Hw. cbn [truthy] in Hw. split_and!.
    + unfold stored. rewrite Hw. reflexivity.
    + rewrite <-base_ratio_kept. apply stored_field; [rewrite Hw; by left|]. by rewrite Hf, H1.
    + intros lane. rewrite <-lane_ratio_kept. apply stored_field; [rewrite Hw; apply lane_in_ratios|]. by rewrite Hf, H2.
  - assert (truthy (fget Price (form s)) = true) as Ht by (by destruct (fget Price (form s))). rewrite Ht in Hw. split.
    + apply stored_field; [rewrite Hw; by left|]. apply Hf.
    + intros k Hk. unfold stored. rewrite Hw, bool_decide_eq_false_2; [done|]. set_solver.
Qed.

Definition run (data : option ModelRatioData) (l : list input) : Sheet := foldl (fun s i => apply_input i s) (open_sheet data) l.

Lemma run_reachable data l : reachable data (run data l).
Proof.
  unfold run. assert (forall s, reachable data s -> reachable data (foldl (fun s i => apply_input i s) s l)) as H.
  { induction l as [|i l IH]; [done|]. intros s Hs. cbn. apply IH. by constructor. }
  apply H. constructor.
Qed.

Definition sample_inputs : list input :=
  [InName (u " gpt "); InLaneToggle AudioInput true; InLanePrice AudioInput (u "6"); InLaneToggle AudioOutput true;
   InLanePrice AudioOutput (u "12"); InLaneToggle Completion true; InLanePrice Completion (u "15"); InPrompt (u "3.x");
   InPrompt (u "3"); InLaneToggle AudioInput false].

Example sample_saves :
  (fun d => (md_name d, fmake (stored d))) <$> commitDraft (run None sample_inputs) =
  Some (u "gpt", fmake (fun k => match k with
                                 | Ratio => Some (num_of_decimal 15 (-1)) | CompletionRatio => Some (num_of_Z 5)
                                 | _ => None
                                 end)).
Proof. vm_compute. reflexivity. Qed.

Lemma new_sheet_saves_witness :
  let s := run None sample_inputs in
  exists data, commitDraft s = Some data /\
    stored data Price = None /\ stored data Ratio = kept ((fun x => (x / num_of_Z 2)%num) <$> price_of (promptPrice s)) /\
    forall lane, stored data (ratioFieldByLane lane) =
      if lget lane (laneEnabled s) then kept (quotient (price_of (lget lane (lanePrices s))) (price_of (lane_base s lane))) else None.
Proof.
  intros s. eexists. split; [vm_compute; reflexivity|].
  apply (new_sheet_saves s); [apply run_reachable|vm_compute; reflexivity..].
Defined.

(** A fixed price that is left in the form wins over the token prices on
    the sheet: saved in the per-token mode, the model is stored with its
    price per request only, and every ratio is lost. *)
Theorem token_prices_lost s data name x :
  commitDraft s = Some data -> pricingMode s = PER_TOKEN ->
  present (Some (fget Price (form s))) = Some x ->
  saved_row data name =
  Some (mkSnapshot name (fmake (fun k => Some (if decide (k = Price) then num_to_str x else []))) (Some PER_REQUEST) None None false).
Proof.
  intros Hc Hm Hx. pose proof (commit_data s data Hc) as [Hmode Hf].
  assert (truthy (fget Price (form s)) = true) as Ht.
  { unfold present in Hx. cbn in Hx. by destruct (truthy _). }
  assert (pricingMode s <> TIERED) as Hne by (rewrite Hm; by vm_compute).
  assert (written data = [Price]) as Hw by (by rewrite (commit_written s data Hc Hne), Ht).
  assert (forall k, stored data k = if decide (k = Price) then Some x else None) as Hst.
  { intros k. unfold stored. rewrite Hw, Hf. destruct (decide (k = Price)) as [->|Hk]; [done|].
    by rewrite bool_decide_eq_false_2 by set_solver. }
  assert (stored_expr data = None) as He by (unfold stored_expr; by rewrite Hmode, bool_decide_eq_false_2 by congruence).
  assert (truthy (num_to_str x) = true) as Htx by (pose proof (num_to_str_ne x); by destruct (num_to_str x)).
  unfold saved_row, nothing_stored. rewrite He. unfold stored_text.
  assert (forallb (fun k => match stored data k with None => true | _ => false end) FIELDS = false) as ->.
  { cbn [forallb FIELDS]. by rewrite Hst. }
  cbn [andb]. rewrite (Hst Price), decide_True by done. rewrite Htx. cbn [andb existsb RATIO_FIELDS]. rewrite !Hst.
  repeat rewrite decide_False by done. cbn [truthy orb].
  assert (fmake (fun k => Some match stored data k with Some x => num_to_str x | None => [] end) =
          fmake (fun k => Some (if decide (k = Price) then num_to_str x else []))) as ->; [|done].
  apply fields_ext. intros k. rewrite !fget_make, Hst. by case_decide.
Qed.

Definition request_data : ModelRatioData :=
  mkData (u "img") (fmake (fun k => match k with Price => Some (u "0.5") | _ => Some [] end)) (Some PER_REQUEST) None None.

Lemma token_prices_lost_witness :
  let s := run (Some request_data) [InMode PER_TOKEN; InPrompt (u "3")] in
  exists data, commitDraft s = Some data /\ promptPrice s = u "3" /\
    saved_row data (u "img") =
    Some (mkSnapshot (u "img") (fmake (fun k => Some (if decide (k = Price) then num_to_str (num_of_decimal 5 (-1)) else [])))
            (Some PER_REQUEST) None None false).
Proof.
  intros s. eexists. split; [vm_compute; reflexivity|]. split; [vm_compute; reflexivity|].
  apply (token_prices_lost s); vm_compute; reflexivity.
Defined.

End Sheet.
