(* ===== verification/PgCost.v ===== *)
(** * Costs and capabilities of chat models
    (web/default/src/features/playground/lib/cost.ts, lib/model-capabilities.ts)

    What a reply costs, how the cost is shown, which models the chat offers,
    which of them reason, and the group a model is called through. *)

From S2P Require Import Prelude JsString JsNumber JsJson PgTypes PricingModels.

Import Pg.
Open Scope Z_scope.

Module Cost.

Record ModelPricing := mkPricing {
  quotaType : Z;
  modelRatio : number;
  completionRatio : number;
  modelPrice : option number;
  cacheRatio : option number;
  supportedEndpointTypes : option (list jsstr);
  p_tags : option jsstr;
  enableGroups : option (list jsstr);
  audioRatio : option number;
  audioCompletionRatio : option number;
}.

Definition effective_ratio (groupRatio : number) : number :=
  if is_finite groupRatio && num_gt groupRatio (num_of_Z 0) then groupRatio else num_of_Z 1.

Definition effective_cache (c : option number) : number :=
  match c with
  | Some r => if is_finite r then r else num_of_Z 1
  | None => num_of_Z 1
  end.

Definition million : number := num_of_Z 1000000.

Definition computeCostUsd (usage : option TokenUsage) (pricing : option ModelPricing)
    (groupRatio : number) : option number :=
  match pricing with
  | None => None
  | Some pricing =>
      let ratio := effective_ratio groupRatio in
      if quotaType pricing =? 1 then
        match modelPrice pricing with
        | None => None
        | Some p => Some (p * ratio)%num
        end
      else
        match usage with
        | None => None
        | Some usage =>
            let inputPerM := (modelRatio pricing * num_of_Z 2 * ratio)%num in
            let outputPerM := (inputPerM * completionRatio pricing)%num in
            let cached := cached_tokens usage ?? num_of_Z 0 in
            let nonCached := num_max (num_of_Z 0) (prompt_tokens usage - cached)%num in
            let cacheRatio := effective_cache (cacheRatio pricing) in
            let inputCost :=
              ((nonCached * inputPerM + cached * inputPerM * cacheRatio) / million)%num in
            let outputCost := ((completion_tokens usage * outputPerM) / million)%num in
            Some (inputCost + outputCost)%num
        end
  end.

Definition cost_digits (cost : number) : Z :=
  let abs := num_abs cost in
  if num_lt abs (num_of_decimal 1 (-4)) then 7
  else if num_lt abs (num_of_decimal 1 (-3)) then 6
  else if num_lt abs (num_of_decimal 1 (-2)) then 5
  else if num_lt abs (num_of_Z 1) then 4
  else 2.

Definition formatCostUsd (cost : option number) : jsstr :=
  match cost with
  | None => u "—"
  | Some c =>
      if negb (is_finite c) then u "—"
      else if num_eq c (num_of_Z 0) then u "$0"
      else u "$" ++ to_fixed (cost_digits c) c
  end.

(** ** Model capabilities *)

(** Case-insensitive matching of ASCII letters: without the [u] flag a regular
    expression folds no other code unit onto an ASCII letter. *)
Definition fold_case (s : jsstr) : jsstr :=
  map (fun c => if (65 <=? c)%N && (c <=? 90)%N then (c + 32)%N else c) s.

Definition matches_any (words : list jsstr) (s : jsstr) : bool :=
  existsb (fun w => str_includes (fold_case s) w) words.

Definition SPECIALTY_NAME_RE (s : jsstr) : bool :=
  matches_any
    [u "tts"; u "whisper"; u "transcribe"; u "speech"; u "audio"; u "eleven_"; u "scribe";
     u "embedding"; u "embed-"; u "rerank"; u "dall-e"; u "flux"; u "stable-diffusion";
     u "midjourney"; u "sora"; u "veo"; u "suno"; u "udio"; u "music"; u "sfx"; u "sound-effect"] s.

(** [o[1-4]([.-]|$)] at the start of [s] *)
Definition o_series (s : jsstr) : bool :=
  match s with
  | 111%N :: d :: rest =>
      ((49 <=? d)%N && (d <=? 52)%N) &&
      match rest with
      | [] => true
      | c :: _ => (c =? 46)%N || (c =? 45)%N
      end
  | _ => false
  end.

(** [[/:]o[1-4]([.-]|$)] somewhere in [s] *)
Fixpoint o_series_after (s : jsstr) : bool :=
  match s with
  | [] => false
  | c :: s' => (((c =? 47)%N || (c =? 58)%N) && o_series s') || o_series_after s'
  end.

Definition is_line_end (c : N) : bool :=
  (c =? 10)%N || (c =? 13)%N || (c =? 8232)%N || (c =? 8233)%N.

Fixpoint line (s : jsstr) : jsstr :=
  match s with
  | [] => []
  | c :: s' => if is_line_end c then [] else c :: line s'
  end.

(** [claude-.*(?:thinking|4)] somewhere in [s] *)
Fixpoint claude_series (s : jsstr) : bool :=
  (if starts_with (u "claude-") s
   then let l := line (drop 7 s) in str_includes l (u "thinking") || str_includes l (u "4")
   else false) ||
  match s with [] => false | _ :: s' => claude_series s' end.

Definition REASONING_NAME_RE (s : jsstr) : bool :=
  let s := fold_case s in
  o_series s || o_series_after s ||
  matches_any [u "gpt-5"; u "deepseek-r"; u "qwq"; u "reasoning"; u "thinking"; u "glm-z";
               u "grok-3"; u "grok-4"; u "gemini-2.5"] s ||
  claude_series s.

Definition REASONING_TAG_RE (s : jsstr) : bool := matches_any [u "reasoning"; u "thinking"] s.

Definition toPricingModel (name : jsstr) (row : ModelPricing) : Pricing.PricingModel :=
  {| Pricing.pm_id := 0; Pricing.model_name := name;
     Pricing.description := None; Pricing.description_key := None; Pricing.pm_icon := None;
     Pricing.vendor_id := None; Pricing.vendor_name := None; Pricing.vendor_icon := None;
     Pricing.vendor_description := None; Pricing.vendor_description_key := None;
     Pricing.quota_type := quotaType row;
     Pricing.model_ratio := modelRatio row;
     Pricing.completion_ratio := completionRatio row;
     Pricing.model_price := modelPrice row;
     Pricing.cache_ratio := cacheRatio row;
     Pricing.create_cache_ratio := None; Pricing.image_ratio := None;
     Pricing.audio_ratio := audioRatio row;
     Pricing.audio_completion_ratio := audioCompletionRatio row;
     Pricing.enable_groups := enableGroups row ?? [];
     Pricing.tags := p_tags row;
     Pricing.supported_endpoint_types := supportedEndpointTypes row;
     Pricing.pm_key := None; Pricing.group_ratio := None; Pricing.billing_mode := None;
     Pricing.billing_expr := None; Pricing.pricing_version := None |}.

Definition isChatModel (name : jsstr) (row : option ModelPricing) : bool :=
  match row with
  | Some r =>
      match supportedEndpointTypes r with
      | Some (_ :: _) => includes (Pricing.deriveModelTypes (toPricingModel name r)) Pricing.CHAT
      | _ => negb (SPECIALTY_NAME_RE name)
      end
  | None => negb (SPECIALTY_NAME_RE name)
  end.

Definition supportsReasoning (name : jsstr) (row : option ModelPricing) : bool :=
  match row with
  | Some r => if truthy_opt (p_tags r) && REASONING_TAG_RE (p_tags r ?? []) then true
              else REASONING_NAME_RE name
  | None => REASONING_NAME_RE name
  end.

Definition filterChatModels (models : list ModelOption)
    (pricingMap : option (list (jsstr * ModelPricing))) : list ModelOption :=
  bfilter (fun m => isChatModel (mo_value m) (map_get (mo_value m) (pricingMap ?? []))) models.

Definition group_ratio_of (userGroups : list GroupOption) (g : jsstr) : number :=
  match bfilter (fun o => bool_decide (go_value o = g)) userGroups with
  | o :: _ => go_ratio o
  | [] => num_of_Z 1
  end.

Definition by_ratio (userGroups : list GroupOption) (a b : jsstr) : Z :=
  Pricing.num_sign (group_ratio_of userGroups a - group_ratio_of userGroups b)%num.

Definition group_candidates (enableGroups : option (list jsstr)) (userValues : list jsstr) : list jsstr :=
  match enableGroups with
  | Some ((_ :: _) as l) =>
      let allowed := js_set l in
      let intersection := bfilter (fun g => includes allowed g) userValues in
      if truthy_list intersection then intersection else userValues
  | _ => userValues
  end.

Definition pickGroupForModel (current : jsstr) (enableGroups : option (list jsstr))
    (userGroups : list GroupOption) : jsstr :=
  let userValues := map go_value userGroups in
  if negb (truthy_list userValues) then or_str current (u "default")
  else
    let candidates := group_candidates enableGroups userValues in
    if truthy current && includes candidates current then current
    else if includes candidates (u "default") then u "default"
    else match js_sort (by_ratio userGroups) candidates with
         | g :: _ => g
         | [] => or_str current (u "default")
         end.

(** ** Lemmas *)

Lemma effective_ratio_nonneg g : nonneg (effective_ratio g) = true.
Proof.
  unfold effective_ratio. destruct (is_finite g); cbn [andb]; [|done].
  destruct (num_gt g (num_of_Z 0)) eqn:H; [by apply num_gt_nonneg|done].
Qed.

Lemma effective_ratio_finite g : is_finite (effective_ratio g) = true.
Proof. unfold effective_ratio. by destruct (is_finite g) eqn:H; cbn; [case_match|]. Qed.

Lemma group_candidates_ne eg vs : vs <> [] -> group_candidates eg vs <> [].
Proof.
  intros Hvs. unfold group_candidates. destruct eg as [[|x l]|]; try done.
  cbn zeta. case_match eqn:Hi; [|done]. intros He. by rewrite He in Hi.
Qed.

Lemma group_candidates_sub eg vs g : g ∈ group_candidates eg vs -> g ∈ vs.
Proof.
  unfold group_candidates. destruct eg as [[|x l]|]; try done. cbn zeta. case_match; [|done].
  by intros [? _]%elem_of_bfilter.
Qed.

Lemma group_candidates_allowed eg vs g :
  eg <> [] -> (exists x, x ∈ vs /\ x ∈ eg) -> g ∈ group_candidates (Some eg) vs -> g ∈ eg.
Proof.
  intros Hne (x & Hx & Hxe). unfold group_candidates. destruct eg as [|e l]; [done|]. cbn zeta.
  set (inter := bfilter _ vs).
  assert (x ∈ inter) as Hin.
  { apply elem_of_bfilter. split; [done|]. by rewrite includes_true, elem_of_js_set. }
  destruct inter as [|y i] eqn:Hi; [by apply not_elem_of_nil in Hin|]. cbn [truthy_list].
  rewrite <-Hi. intros [_ Hg]%elem_of_bfilter. by rewrite includes_true, elem_of_js_set in Hg.
Qed.

Lemma pick_in_candidates current eg userGroups :
  userGroups <> [] ->
  pickGroupForModel current eg userGroups ∈ group_candidates eg (map go_value userGroups).
Proof.
  intros Hne. unfold pickGroupForModel. destruct userGroups as [|g0 gs]; [done|].
  set (vs := map go_value (g0 :: gs)). change (truthy_list vs) with true. cbn [negb].
  pose proof (group_candidates_ne eg vs ltac:(done)) as Hc.
  destruct (truthy current && includes (group_candidates eg vs) current) eqn:H1.
  { apply andb_true_iff in H1 as [_ H1]. by apply includes_true. }
  destruct (includes (group_candidates eg vs) (u "default")) eqn:H2; [by apply includes_true|].
  destruct (js_sort (by_ratio (g0 :: gs)) (group_candidates eg vs)) as [|g l] eqn:Hs.
  - pose proof (js_sort_perm (by_ratio (g0 :: gs)) (group_candidates eg vs)) as Hp.
    rewrite Hs in Hp. by apply Permutation_nil_l in Hp.
  - rewrite <-(elem_of_js_sort (by_ratio (g0 :: gs))), Hs. by left.
Qed.

(** ** Theorems *)

(** A cost is never negative when the prices and token counts are
    not: cached tokens beyond the prompt do not turn it negative, and an
    invalid group ratio counts as 1. *)
Theorem computeCostUsd_nonneg us pricing groupRatio cost :
  (forall p, modelPrice pricing = Some p -> nonneg p = true) ->
  nonneg (modelRatio pricing) = true -> nonneg (completionRatio pricing) = true ->
  nonneg (effective_cache (cacheRatio pricing)) = true ->
  nonneg (completion_tokens us) = true -> nonneg (cached_tokens us ?? num_of_Z 0) = true ->
  computeCostUsd (Some us) (Some pricing) groupRatio = Some cost ->
  num_lt cost (num_of_Z 0) = false.
Proof.
  intros Hp Hr Hc Hca Ht Hk. unfold computeCostUsd. pose proof (effective_ratio_nonneg groupRatio) as Hg.
  rewrite <-nonneg_not_lt. destruct (quotaType pricing =? 1).
  - destruct (modelPrice pricing) as [p|]; [|done]. intros [= <-].
    apply num_mul_nonneg; [by apply Hp|done].
  - intros [= <-]. apply num_add_nonneg; apply num_div_nonneg; try done.
    + apply num_add_nonneg; repeat apply num_mul_nonneg; try done. apply num_max_nonneg.
    + by repeat apply num_mul_nonneg.
Qed.

(** The group a model is called through is one the user has, is one
    the model allows whenever they share any, and stays the current group when
    that is possible. *)
Theorem pickGroupForModel_spec current eg userGroups :
  userGroups <> [] ->
  let g := pickGroupForModel current (Some eg) userGroups in
  g ∈ map go_value userGroups /\
  ((exists x, x ∈ map go_value userGroups /\ x ∈ eg) -> g ∈ eg) /\
  (current <> [] -> current ∈ map go_value userGroups -> current ∈ eg -> g = current).
Proof.
  intros Hne g. pose proof (pick_in_candidates current (Some eg) userGroups Hne) as Hin. fold g in Hin.
  split; [by eapply group_candidates_sub|]. split.
  - intros Hx. destruct eg as [|e l]; [destruct Hx as (x & _ & Hx); by apply not_elem_of_nil in Hx|].
    by eapply group_candidates_allowed.
  - intros Hc Hu He. subst g. unfold pickGroupForModel.
    destruct userGroups as [|g0 gs]; [done|]. cbn [map truthy_list negb].
    destruct current as [|c cs]; [done|]. cbn [truthy andb].
    replace (includes _ (c :: cs)) with true; [done|]. symmetry. apply includes_true.
    destruct eg as [|e l]; [by apply not_elem_of_nil in He|]. unfold group_candidates. cbn zeta.
    assert (Hi : (c :: cs) ∈ bfilter (fun g => includes (js_set (e :: l)) g) (go_value g0 :: map go_value gs)).
    { apply elem_of_bfilter. split; [done|]. by rewrite includes_true, elem_of_js_set. }
    case_match; [done|exact Hu].
Qed.

(** ** Examples *)

Definition sample_pricing : ModelPricing :=
  mkPricing 0 (num_of_decimal 125 (-2)) (num_of_Z 4) None (Some (num_of_decimal 5 (-1))) None None None None None.

Definition sample_usage : TokenUsage :=
  mkUsage (num_of_Z 1000) (num_of_Z 500) (num_of_Z 1500) (Some (num_of_Z 400)).

Definition sample_cost : number := computeCostUsd (Some sample_usage) (Some sample_pricing) (num_of_Z 1) ?? NaN.

Lemma computeCostUsd_nonneg_witness : num_lt sample_cost (num_of_Z 0) = false.
Proof.
  apply (computeCostUsd_nonneg sample_usage sample_pricing (num_of_Z 1)); try reflexivity.
  discriminate.
Defined.

Example sample_cost_shown : formatCostUsd (Some sample_cost) = u "$0.00700".
Proof. vm_compute. reflexivity. Qed.

Definition sample_groups : list GroupOption :=
  [mkGroupOption (u "VIP") (u "vip") (num_of_Z 2) None;
   mkGroupOption (u "Cheap") (u "cheap") (num_of_decimal 5 (-1)) None;
   mkGroupOption (u "Test") (u "test") (num_of_decimal 1 (-1)) None].

Lemma pickGroupForModel_spec_witness :
  pickGroupForModel (u "test") (Some [u "vip"; u "cheap"]) sample_groups = u "cheap" /\
  pickGroupForModel (u "test") (Some [u "vip"; u "cheap"]) sample_groups ∈ map go_value sample_groups.
Proof.
  split; [vm_compute; reflexivity|].
  apply (pickGroupForModel_spec (u "test") [u "vip"; u "cheap"] sample_groups). discriminate.
Defined.

Example reasoning_names :
  map (fun s => supportsReasoning s None)
    [u "o1-mini"; u "openai/O3"; u "gpt-4o"; u "claude-sonnet-4"; u "claude-3-opus"; u "deepseek-r1"; u "foo1"]
  = [true; true; false; true; false; true; false].
Proof. vm_compute. reflexivity. Qed.

End Cost.
