(* ===== verification/PgSession.v ===== *)
(** * The chat session
    (web/default/src/features/playground: hooks/use-stream-request.ts,
    hooks/use-chat-handler.ts, index.tsx)

    The state that the hooks keep in refs and React state is one record; each
    callback and handler is a function on it.  The network is the environment:
    it delivers server-sent events, errors and responses in any order, to any
    request, also to one that was closed; of [sse.js] only the [readyState] 2
    of a source after [close()] is used, in any other case the state it reports
    is the environment's choice.  React applies updater functions in order, so an update is
    a function on the list of messages; a handler that reads the rendered
    messages reads the current ones. *)

From S2P Require Import Prelude JsString JsNumber JsJson PgTypes PgMessages PgStreamParser PgPayload PricingModels PgCost.

Import Pg Messages Sse Payload Cost.
Open Scope nat_scope.

Module Session.

(** ** State *)

Record ChatTarget := mkTarget { t_key : jsstr; t_model : jsstr }.

(** One [SSE] source with the variables its listeners close over. *)
Record Request := mkReq {
  streamId : jsstr;
  target_model : jsstr;
  payload : ChatCompletionRequest;
  pendingUsage : option TokenUsage;
  finishReason : nullable jsstr;
  toolAcc : ToolCallAccumulator;
  closed : bool;                         (** [close()] was called *)
}.

Definition set_pendingUsage x r := mkReq (streamId r) (target_model r) (payload r) x (finishReason r) (toolAcc r) (closed r).
Definition set_rq_finish x r := mkReq (streamId r) (target_model r) (payload r) (pendingUsage r) x (toolAcc r) (closed r).
Definition set_toolAcc x r := mkReq (streamId r) (target_model r) (payload r) (pendingUsage r) (finishReason r) x (closed r).
Definition set_closed x r := mkReq (streamId r) (target_model r) (payload r) (pendingUsage r) (finishReason r) (toolAcc r) x.

(** A non-streaming request in flight. *)
Record Inflight := mkInflight {
  if_target : ChatTarget;
  if_startedAt : Z;
  if_payload : ChatCompletionRequest;
}.

Record State := mkState {
  messages : list Message;
  requests : list Request;               (** every source created, by identity *)
  sourcesRef : list (jsstr * nat);       (** [Map<streamId, source>] *)
  completedRef : list jsstr;             (** [Set<streamId>] *)
  activeCount : nat;
  requestStart : list (jsstr * Z);       (** [Map<key, start time>] *)
  pendingCount : Z;
  inflight : list Inflight;
  editingMessageKey : option jsstr;      (** the message whose editor is open *)
  ids : nat;                             (** ids drawn from [nanoid] *)
}.

Definition set_messages x s := mkState x (requests s) (sourcesRef s) (completedRef s) (activeCount s) (requestStart s) (pendingCount s) (inflight s) (editingMessageKey s) (ids s).
Definition set_requests x s := mkState (messages s) x (sourcesRef s) (completedRef s) (activeCount s) (requestStart s) (pendingCount s) (inflight s) (editingMessageKey s) (ids s).
Definition set_sourcesRef x s := mkState (messages s) (requests s) x (completedRef s) (activeCount s) (requestStart s) (pendingCount s) (inflight s) (editingMessageKey s) (ids s).
Definition set_completedRef x s := mkState (messages s) (requests s) (sourcesRef s) x (activeCount s) (requestStart s) (pendingCount s) (inflight s) (editingMessageKey s) (ids s).
Definition set_activeCount x s := mkState (messages s) (requests s) (sourcesRef s) (completedRef s) x (requestStart s) (pendingCount s) (inflight s) (editingMessageKey s) (ids s).
Definition set_requestStart x s := mkState (messages s) (requests s) (sourcesRef s) (completedRef s) (activeCount s) x (pendingCount s) (inflight s) (editingMessageKey s) (ids s).
Definition set_pendingCount x s := mkState (messages s) (requests s) (sourcesRef s) (completedRef s) (activeCount s) (requestStart s) x (inflight s) (editingMessageKey s) (ids s).
Definition set_inflight x s := mkState (messages s) (requests s) (sourcesRef s) (completedRef s) (activeCount s) (requestStart s) (pendingCount s) x (editingMessageKey s) (ids s).
Definition set_editingMessageKey x s := mkState (messages s) (requests s) (sourcesRef s) (completedRef s) (activeCount s) (requestStart s) (pendingCount s) (inflight s) x (ids s).
Definition set_ids x s := mkState (messages s) (requests s) (sourcesRef s) (completedRef s) (activeCount s) (requestStart s) (pendingCount s) (inflight s) (editingMessageKey s) x.

Definition empty_state : State := mkState [] [] [] [] 0 [] 0 [] None 0.

(** An array argument is the constant function; the draft that is saved to
    [localStorage] is not part of the state. *)
Definition updateMessages (f : list Message -> list Message) (s : State) : State :=
  set_messages (f (messages s)) s.

Definition updateRequest (src : nat) (f : Request -> Request) (s : State) : State :=
  match requests s !! src with
  | Some r => set_requests (<[ src := f r ]> (requests s)) s
  | None => s
  end.

(** Run an id-drawing computation on the state's supply. *)
Definition draw {A} (c : fresh A) (s : State) : A * State :=
  let '(a, n) := c (ids s) in (a, set_ids n s).

Section session.
Context {P : Platform}.
Context (pricingMap : option (list (jsstr * ModelPricing))) (groupRatio : number).

(** ** Message updates of the stream callbacks (use-chat-handler.ts) *)

Definition is_citation (a : UrlCitationAnnotation) : bool :=
  bool_decide (ann_type a = u "url_citation") && truthy (ann_url a).

(** the filter with its [seen] set *)
Fixpoint unseen (seen : list jsstr) (l : list Source) : list Source :=
  match l with
  | [] => []
  | s :: l' => if includes seen (href s) then unseen seen l'
               else s :: unseen (set_add seen (href s)) l'
  end.

Definition mergeSources (m : Message) (annotations : list UrlCitationAnnotation) : option (list Source) :=
  let existing := sources m ?? [] in
  let additions :=
    unseen (js_set (map href existing))
      (map (fun a => mkSource (ann_url a) (or_str (ann_title a ?? []) (ann_url a)))
         (bfilter is_citation annotations)) in
  Some (if truthy_list additions then existing ++ additions else existing).

Definition costFor (mdl : jsstr) (us : option TokenUsage) : option number :=
  computeCostUsd us (map_get mdl (pricingMap ?? [])) groupRatio.

Inductive UpdateType := upd_reasoning | upd_content | upd_refusal.

Definition on_update (type : UpdateType) (chunk : jsstr) (m : Message) : Message :=
  if bool_decide (status m = Some ERROR) then m
  else match type with
       | upd_reasoning =>
           set_status (Some STREAMING) (set_isReasoningStreaming (Some true)
             (set_reasoning (Some (mkReasoning (((r_content <$> reasoning m) ?? []) ++ chunk) 0)) m))
       | upd_refusal =>
           set_status (Some STREAMING) (set_refusal (Some ((refusal m ?? []) ++ chunk)) m)
       | upd_content =>
           set_status (Some STREAMING) (processStreamingContent m (Some chunk))
       end.

Definition on_tool_calls (tcs : list ToolCall) (m : Message) : Message :=
  set_status (Some STREAMING) (set_toolCalls (Some tcs) m).

Definition on_annotations (annotations : list UrlCitationAnnotation) (m : Message) : Message :=
  set_sources (mergeSources m annotations) m.

Definition is_terminal (st : option MessageStatus) : bool :=
  match st with Some COMPLETE | Some ERROR | Some TRUNCATED => true | _ => false end.

Definition on_complete (mdl : jsstr) (us : option TokenUsage) (finish : nullable jsstr)
    (tcs : option (list ToolCall)) (latency : option Z) (m : Message) : Message :=
  if is_terminal (status m) then m
  else set_latencyMs latency (set_costUsd (costFor mdl us) (set_usage us
         (set_status (Some COMPLETE) (finalizeMessage m None (mkFinal tcs finish None false))))).

(** ** Sources (use-stream-request.ts) *)

Definition closeSource (src : nat) (s : State) : State := updateRequest src (set_closed true) s.

Definition closeStream (sid : jsstr) (s : State) : State :=
  match map_get sid (sourcesRef s) with
  | Some src =>
      let s := closeSource src s in
      let refs := map_delete sid (sourcesRef s) in
      set_activeCount (length refs) (set_sourcesRef refs s)
  | None => s
  end.

(** [onError], then the toast, which leaves the state alone *)
Definition onError (sid : jsstr) (error : jsstr) (code : option jsstr) (s : State) : State :=
  updateMessages (fun prev => setMessageErrorByKey prev sid error code)
    (set_requestStart (map_delete sid (requestStart s)) s).

Definition handleError (sid : jsstr) (error : jsstr) (code : option jsstr) (s : State) : State :=
  if includes (completedRef s) sid then s
  else closeStream sid (onError sid error code s).

Definition onComplete (now : Z) (sid mdl : jsstr) (us : option TokenUsage) (finish : nullable jsstr)
    (tcs : option (list ToolCall)) (s : State) : State :=
  let latency := (fun t => (now - t)%Z) <$> map_get sid (requestStart s) in
  updateMessages (fun prev => updateMessageByKey prev sid (on_complete mdl us finish tcs latency))
    (set_requestStart (map_delete sid (requestStart s)) s).

Definition onMessageKey (sid : jsstr) (f : Message -> Message) (s : State) : State :=
  updateMessages (fun prev => updateMessageByKey prev sid f) s.

(** One event of the listener's loop; the flag says whether the loop goes on. *)
Definition handle_event (now : Z) (src : nat) (r : Request) (event : ParsedStreamEvent) (s : State)
  : State * bool :=
  match event with
  | EvDone =>
      let s := set_completedRef (set_add (completedRef s) (streamId r)) s in
      let s := closeStream (streamId r) s in
      let tcs := finalizeToolCalls (toolAcc r) in
      (onComplete now (streamId r) (target_model r) (pendingUsage r) (nullish (finishReason r) Null)
         (if truthy_list tcs then Some tcs else None) s, false)
  | EvParseError _ => (handleError (streamId r) (i18n_t PARSE_ERROR) None s, false)
  | EvUsage us => (updateRequest src (set_pendingUsage (Some us)) s, true)
  | EvFinish f => (updateRequest src (set_rq_finish (Val f)) s, true)
  | EvReasoning text => (onMessageKey (streamId r) (on_update upd_reasoning text) s, true)
  | EvContent text => (onMessageKey (streamId r) (on_update upd_content text) s, true)
  | EvRefusal text => (onMessageKey (streamId r) (on_update upd_refusal text) s, true)
  | EvAnnotations l => (onMessageKey (streamId r) (on_annotations l) s, true)
  | EvToolCall ev =>
      let acc := applyToolCallDelta (toolAcc r) ev in
      (onMessageKey (streamId r) (on_tool_calls (finalizeToolCalls acc))
         (updateRequest src (set_toolAcc acc) s), true)
  end.

Fixpoint handle_events (now : Z) (src : nat) (events : list ParsedStreamEvent) (s : State) : State :=
  match events with
  | [] => s
  | event :: rest =>
      match requests s !! src with
      | None => s
      | Some r =>
          let '(s', go_on) := handle_event now src r event s in
          if go_on then handle_events now src rest s' else s'
      end
  end.

(** The [message] listener; [None] when the payload is not of the declared type. *)
Definition onMessageEvent (now : Z) (src : nat) (data : jsstr) (s : State) : option State :=
  match parseSseData data with
  | Events evs => Some (handle_events now src evs s)
  | ThrowsTypeError => Some s
  | Untyped => None
  end.

(** A string property of a parsed error object: absent or falsy is empty;
    [None] for a truthy value that is no string. *)
Definition error_field (k : jsstr) (e : json) : option jsstr :=
  match json_get k e with
  | None => Some []
  | Some (JStr x) => Some x
  | Some v => if json_truthy v then None else Some []
  end.

(** The message and code of an [error] event. *)
Definition error_details (data : option jsstr) : option (jsstr * option jsstr) :=
  let fallback := or_opt data (i18n_t API_REQUEST_ERROR) in
  match data with
  | None => Some (fallback, None)
  | Some d =>
      if negb (truthy d) then Some (fallback, None)
      else match JSON_parse d with
           | None => Some (fallback, None)
           | Some parsed =>
               match json_get (u "error") parsed with
               | None => Some (fallback, None)
               | Some e =>
                   if negb (json_truthy e) then Some (fallback, None)
                   else
                     message ← error_field (u "message") e;
                     code ← error_field (u "code") e;
                     Some (or_str message fallback, if truthy code then Some code else None)
               end
           end
  end.

(** [source.readyState]: the library's, and 2 once this code closed the source. *)
Definition source_state (r : Request) (libState : Z) : Z := if closed r then 2%Z else libState.

Definition onErrorEvent (src : nat) (libState : Z) (data : option jsstr) (s : State) : option State :=
  match requests s !! src with
  | None => Some s
  | Some r =>
      if (source_state r libState =? 2)%Z then Some s
      else '(message, code) ← error_details data; Some (handleError (streamId r) message code s)
  end.

Definition onReadyState (src : nat) (readyState : option Z) (httpStatus : option Z) (s : State) : State :=
  match requests s !! src, readyState, httpStatus with
  | Some r, Some rs, Some st =>
      if (2 <=? rs)%Z && negb (st =? 200)%Z
      then handleError (streamId r) (u "HTTP " ++ Z_to_str st ++ u ": " ++ i18n_t CONNECTION_CLOSED) None s
      else s
  | _, _, _ => s
  end.

(** [starts] is whether [source.stream()] returns normally. *)
Definition sendStreamRequest (starts : bool) (sid mdl : jsstr) (pl : ChatCompletionRequest) (s : State)
  : State :=
  let src := length (requests s) in
  let s := set_requests (requests s ++ [mkReq sid mdl pl None Undef [] false]) s in
  let s := match map_get sid (sourcesRef s) with Some old => closeSource old s | None => s end in
  let refs := map_set sid src (sourcesRef s) in
  let s := set_sourcesRef refs s in
  let s := set_completedRef (bfilter (fun k => negb (bool_decide (k = sid))) (completedRef s)) s in
  let s := set_activeCount (length refs) s in
  if starts then s else closeStream sid (onError sid (i18n_t STREAM_START_ERROR) None s).

(** the branch without a stream id, which the chat handler takes *)
Definition stop_all (s : State) : State :=
  set_sourcesRef [] (foldl (fun s '(_, src) => closeSource src s) s (sourcesRef s)).

Definition stop_one (sid : jsstr) (s : State) : State :=
  let s := match map_get sid (sourcesRef s) with Some src => closeSource src s | None => s end in
  set_sourcesRef (map_delete sid (sourcesRef s)) s.

Definition stopStream (sid : option jsstr) (s : State) : State :=
  let s := if truthy_opt sid then stop_one (sid ?? []) s else stop_all s in
  set_activeCount (length (sourcesRef s)) s.

Definition isStreaming (s : State) : bool := 0 <? activeCount s.

(** ** Sending (use-chat-handler.ts) *)

Section sending.
Context (config : PlaygroundConfig) (parameterEnabled : ParameterEnabled).

Definition target_payload (msgs : list Message) (target : ChatTarget) : ChatCompletionRequest :=
  buildChatCompletionPayload msgs config parameterEnabled (Some (mkBuild (t_model target) (Some true))).

Definition sendStreamingTo (now : Z) (starts : bool) (msgs : list Message) (target : ChatTarget)
    (s : State) : State :=
  sendStreamRequest starts (t_key target) (t_model target) (target_payload msgs target)
    (set_requestStart (map_set (t_key target) now (requestStart s)) s).

Definition sendNonStreamingTo (now : Z) (msgs : list Message) (target : ChatTarget) (s : State) : State :=
  set_inflight (inflight s ++ [mkInflight target now (target_payload msgs target)])
    (set_pendingCount (pendingCount s + 1)%Z s).

Definition sendChat (now : Z) (starts : jsstr -> bool) (msgs : list Message)
    (targets : list ChatTarget) (s : State) : State :=
  foldl (fun s target =>
           if stream config then sendStreamingTo now (starts (t_key target)) msgs target s
           else sendNonStreamingTo now msgs target s) s targets.

End sending.

Definition getActiveIdx (m : Message) : nat :=
  match activeVersionIndex m with
  | Some i => if in_range i (length (versions m)) then Z.to_nat i else length (versions m) - 1
  | None => length (versions m) - 1
  end.

(** The update with the first choice of a response. *)
Definition response_text (choice : ResponseChoice) : jsstr :=
  match rch_message choice with
  | Some x => match rm_content x with Val c => c | _ => [] end
  | None => []
  end.

(** [withContent]: the active version alone, with the response's content *)
Definition with_response (choice : ResponseChoice) (m : Message) : Message :=
  let tcs := rch_message choice ≫= rm_tool_calls in
  let old := versions m !! getActiveIdx m ?? default_version in
  let version := mkVersion (v_id old) (response_text choice) tcs (v_reasoning old) (v_refusal old)
                   (v_finishReason old) in
  set_refusal (rch_message choice ≫= rm_refusal) (set_toolCalls tcs (set_versions [version] m)).

Definition response_options (choice : ResponseChoice) : FinalizeOptions :=
  mkFinal (rch_message choice ≫= rm_tool_calls) (Val (rch_finish_reason choice))
    (rch_message choice ≫= rm_refusal) false.

Definition on_response (mdl : jsstr) (us : option TokenUsage) (choice : ResponseChoice) (latency : Z)
    (m : Message) : Message :=
  set_sources (match rch_message choice ≫= rm_annotations with
               | Some ((_ :: _) as l) => mergeSources m l
               | _ => sources m
               end)
    (set_latencyMs (Some latency) (set_costUsd (costFor mdl us) (set_usage us
      (set_status (Some COMPLETE)
        (finalizeMessage (with_response choice m) (rch_message choice ≫= rm_reasoning_content)
           (response_options choice)))))).

(** The outcome of [sendChatCompletion]. *)
Inductive Outcome :=
| Responded (response : ChatCompletionResponse)
| Failed (serverMessage errMessage code : option jsstr).

(** The code after [await], with its [finally]. *)
Definition settle (now : Z) (req : Inflight) (outcome : Outcome) (s : State) : State :=
  let target := if_target req in
  let s :=
    match outcome with
    | Responded response =>
        match rs_choices response with
        | Some (choice :: _) =>
            onMessageKey (t_key target)
              (on_response (t_model target) (rs_usage response) choice (now - if_startedAt req)%Z) s
        | _ => s
        end
    | Failed serverMessage errMessage code =>
        let errorMessage := or_opt serverMessage (or_opt errMessage API_REQUEST_ERROR) in
        updateMessages (fun prev => setMessageErrorByKey prev (t_key target) errorMessage
                                      (if truthy_opt code then code else None)) s
    end in
  set_pendingCount (Z.max 0 (pendingCount s - 1)) s.

(** The [i]-th request in flight is answered. *)
Definition onOutcome (now : Z) (i : nat) (outcome : Outcome) (s : State) : State :=
  match inflight s !! i with
  | None => s
  | Some req => settle now req outcome (set_inflight (delete i (inflight s)) s)
  end.

Definition truncate_message (m : Message) : Message :=
  if bool_decide (from m = role_assistant) && is_pending (status m)
  then set_status (Some TRUNCATED) (finalizeMessage m None (mkFinal None Undef None true))
  else m.

Definition stopGeneration (s : State) : State :=
  let s := stopStream None s in
  let s := set_pendingCount 0%Z (set_requestStart [] s) in
  updateMessages (map truncate_message) s.

Definition isGenerating (s : State) : bool := isStreaming s || (0 <? pendingCount s)%Z.

(** ** Handlers of the page (index.tsx) *)

Section handlers.
Context (config : PlaygroundConfig) (parameterEnabled : ParameterEnabled).

Definition zip_targets (ms : list Message) (models : list jsstr) : list ChatTarget :=
  zip_with (fun m mdl => mkTarget (key m) mdl) ms models.

Definition handleSendMessage (now : Z) (starts : jsstr -> bool) (text : jsstr) (imgs : list jsstr)
    (s : State) : State :=
  let '(userMessage, s) := draw (createUserMessage text imgs) s in
  let activeModels := getActiveModels config in
  let '(assistantMessages, s) :=
    draw (fresh_map (fun mdl => createLoadingAssistantMessage (Some mdl)) activeModels) s in
  let targets := zip_targets assistantMessages activeModels in
  let newMessages := messages s ++ [userMessage] ++ assistantMessages in
  sendChat config parameterEnabled now starts newMessages targets (set_messages newMessages s).

(** [for (let i = n - 1; i >= 0; i--)] *)
Fixpoint last_user (n : nat) (ms : list Message) : option nat :=
  match n with
  | 0 => None
  | S i => match ms !! i with
           | Some m => if bool_decide (from m = role_user) then Some i else last_user i ms
           | None => last_user i ms
           end
  end.

(** [message.model || config.model] *)
Definition model_or (m : Message) : jsstr := or_opt (model m) (c_model config).

Definition handleRegenerateMessage (now : Z) (starts : jsstr -> bool) (message : Message) (s : State) : State :=
  match find_index (fun m => bool_decide (key m = key message)) (messages s) with
  | None => s
  | Some messageIndex =>
      let mdl := model_or message in
      let userIndex := last_user messageIndex (messages s) in
      let '(branched, s) := draw (pushAssistantVersion message) s in
      let newMessages := map (fun m => if bool_decide (key m = key message) then branched else m) (messages s) in
      let history := take (match userIndex with Some i => S i | None => 0 end) newMessages in
      sendChat config parameterEnabled now starts history [mkTarget (key message) mdl] (set_messages newMessages s)
  end.

Definition handleSubmitToolResults (now : Z) (starts : jsstr -> bool) (assistantMessage : Message)
    (results : list (jsstr * jsstr * jsstr)) (s : State) : State :=
  let '(toolMessages, s) :=
    draw (fresh_map (fun '(cid, name, res) => createToolResultMessage cid name res) results) s in
  let mdl := model_or assistantMessage in
  let '(loading, s) := draw (createLoadingAssistantMessage (Some mdl)) s in
  let base := messages s ++ toolMessages ++ [loading] in
  sendChat config parameterEnabled now starts base [mkTarget (key loading) mdl] (set_messages base s).

Definition handleActiveVersionChange (messageKey : jsstr) (index : Z) (s : State) : State :=
  updateMessages (map (fun m => if bool_decide (key m = messageKey)
                                then set_activeVersionIndex (Some index) m else m)) s.

Definition edit_message (newContent : jsstr) (m : Message) : Message :=
  let at_ := activeVersionIndex m ?? (Z.of_nat (length (versions m)) - 1)%Z in
  set_versions (imap (fun i v => if (Z.of_nat i =? at_)%Z then set_v_content newContent v else v)
                     (versions m)) m.

Definition handleEditMessage (message : Message) (s : State) : State :=
  set_editingMessageKey (Some (key message)) s.

Definition handleEditOpenChange (open : bool) (s : State) : State :=
  if negb open then set_editingMessageKey None s else s.

Definition applyEdit (now : Z) (starts : jsstr -> bool) (newContent : jsstr) (submit : bool) (s : State)
  : State :=
  if negb (truthy_opt (editingMessageKey s)) then s
  else
  let is_edited := fun m => bool_decide (Some (key m) = editingMessageKey s) in
  match find_index is_edited (messages s) with
  | None => s
  | Some index =>
      let updated := map (fun m => if is_edited m then edit_message newContent m else m) (messages s) in
      let s := set_editingMessageKey None s in
      let is_user := match updated !! index with
                     | Some m => bool_decide (from m = role_user)
                     | None => false
                     end in
      if negb submit || negb is_user then set_messages updated s
      else
        let activeModels := getActiveModels config in
        let '(assistantMessages, s) :=
          draw (fresh_map (fun mdl => createLoadingAssistantMessage (Some mdl)) activeModels) s in
        let targets := zip_targets assistantMessages activeModels in
        let toSubmit := take (S index) updated ++ assistantMessages in
        sendChat config parameterEnabled now starts toSubmit targets (set_messages toSubmit s)
  end.

Definition handleDeleteMessage (message : Message) (s : State) : State :=
  updateMessages (bfilter (fun m => negb (bool_decide (key m = key message)))) s.

Definition clearMessages (s : State) : State := set_messages [] s.

End handlers.

(** ** Transitions *)

(** The user acts, or the environment delivers something; every handler may
    run at any time. *)
Inductive step : State -> State -> Prop :=
| step_message now src data s s' : onMessageEvent now src data s = Some s' -> step s s'
| step_error src rs data s s' : onErrorEvent src rs data s = Some s' -> step s s'
| step_ready src rs st s : step s (onReadyState src rs st s)
| step_outcome now i outcome s : step s (onOutcome now i outcome s)
| step_stop s : step s (stopGeneration s)
| step_send config en now starts text imgs s :
    step s (handleSendMessage config en now starts text imgs s)
| step_regenerate config en now starts m s :
    m ∈ messages s -> step s (handleRegenerateMessage config en now starts m s)
| step_tools config en now starts m results s :
    step s (handleSubmitToolResults config en now starts m results s)
| step_version k i s : step s (handleActiveVersionChange k i s)
| step_edit_start m s : step s (handleEditMessage m s)
| step_edit_close open s : step s (handleEditOpenChange open s)
| step_edit config en now starts c submit s :
    step s (applyEdit config en now starts c submit s)
| step_delete m s : step s (handleDeleteMessage m s)
| step_clear s : step s (clearMessages s).

Inductive reachable : State -> Prop :=
| reach_init : reachable empty_state
| reach_step s s' : reachable s -> step s s' -> reachable s'.

(** ** Invariants *)

(** The connections this code has not closed are exactly the registered ones, one per stream id,
    and the counter behind [isStreaming] counts them. *)
Record conn_ok (s : State) : Prop := {
  conn_keys : NoDup (sourcesRef s).*1;
  conn_live : forall sid src, map_get sid (sourcesRef s) = Some src ->
    exists r, requests s !! src = Some r /\ streamId r = sid /\ closed r = false;
  conn_open : forall src r, requests s !! src = Some r -> closed r = false ->
    map_get (streamId r) (sourcesRef s) = Some src;
  conn_count : activeCount s = length (sourcesRef s);
}.

(** Keys are distinct ids drawn from the supply, and no message is without a
    version. *)
Definition msgs_ok (n : nat) (ms : list Message) : Prop :=
  NoDup (map key ms) /\
  Forall (fun m => (exists j, j < n /\ key m = nanoid_at j) /\ versions m <> []) ms.

(** ** Lemmas: connections *)

(** Connections do not see changes of the other fields. *)
Lemma conn_ok_ext s s' :
  requests s' = requests s -> sourcesRef s' = sourcesRef s -> activeCount s' = activeCount s ->
  conn_ok s -> conn_ok s'.
Proof. intros H1 H2 H3 [K L O C]. split; rewrite ?H1, ?H2, ?H3; done. Qed.

Lemma updateRequest_frame src f s :
  sourcesRef (updateRequest src f s) = sourcesRef s /\
  activeCount (updateRequest src f s) = activeCount s /\
  messages (updateRequest src f s) = messages s /\
  ids (updateRequest src f s) = ids s.
Proof. unfold updateRequest. by destruct (requests s !! src). Qed.

Lemma updateRequest_lookup src f s i :
  requests (updateRequest src f s) !! i =
  if bool_decide (i = src) then f <$> requests s !! i else requests s !! i.
Proof.
  unfold updateRequest. case_bool_decide as Hi.
  - subst i. destruct (requests s !! src) eqn:Hs; [|by rewrite Hs].
    cbn. rewrite list_lookup_insert_eq; [done|]. by eapply lookup_lt_Some.
  - destruct (requests s !! src); [|done]. cbn. by rewrite list_lookup_insert_ne.
Qed.

Lemma conn_ok_updateRequest src f s :
  (forall r, streamId (f r) = streamId r /\ closed (f r) = closed r) ->
  conn_ok s -> conn_ok (updateRequest src f s).
Proof.
  intros Hf [K L O C]. destruct (updateRequest_frame src f s) as (H1 & H2 & _ & _).
  split; rewrite ?H1, ?H2; [done| | |done].
  - intros sid i Hin. destruct (L _ _ Hin) as (r & Hr & Hs & Hc).
    rewrite updateRequest_lookup, Hr. case_bool_decide; [|by exists r].
    exists (f r). destruct (Hf r). cbn. naive_solver congruence.
  - intros i r. rewrite updateRequest_lookup. case_bool_decide; [|by apply O].
    destruct (requests s !! i) as [r0|] eqn:Hr; [|done]. cbn. intros [= <-].
    destruct (Hf r0) as [-> ->]. by apply O.
Qed.

Lemma conn_ok_closeStream sid s : conn_ok s -> conn_ok (closeStream sid s).
Proof.
  intros Hok. unfold closeStream. destruct (map_get sid (sourcesRef s)) as [src|] eqn:Hg; [|done].
  destruct Hok as [K L O C]. destruct (L _ _ Hg) as (r0 & Hr0 & Hs0 & Hc0).
  destruct (updateRequest_frame src (set_closed true) s) as (F1 & _).
  split; cbn [sourcesRef requests activeCount set_activeCount set_sourcesRef]; unfold closeSource; rewrite ?F1.
  - unfold map_delete. by apply map_bfilter_NoDup.
  - intros sid' src'. rewrite map_get_delete. case_decide as Hne; [done|]. intros Hg'.
    destruct (L _ _ Hg') as (r & Hr & Hs & Hc). exists r. rewrite updateRequest_lookup.
    case_bool_decide; [|done]. subst src'. congruence.
  - intros i r. rewrite updateRequest_lookup. case_bool_decide as Hi.
    + subst i. rewrite Hr0. cbn. by intros [= <-].
    + intros Hr Hc. specialize (O _ _ Hr Hc). rewrite map_get_delete.
      case_decide as Hne; [congruence|done].
  - done.
Qed.

(** Registering a new open source after closing the one it replaces. *)
Lemma conn_ok_register sid mdl pl s s' :
  conn_ok s ->
  requests s' = requests (match map_get sid (sourcesRef s) with
                          | Some old => closeSource old (set_requests (requests s ++ [mkReq sid mdl pl None Undef [] false]) s)
                          | None => set_requests (requests s ++ [mkReq sid mdl pl None Undef [] false]) s
                          end) ->
  sourcesRef s' = map_set sid (length (requests s)) (sourcesRef s) ->
  activeCount s' = length (sourcesRef s') -> conn_ok s'.
Proof.
  intros [K L O C] Hrq Hrefs Hcnt. set (new := mkReq sid mdl pl None Undef [] false) in *.
  set (s1 := set_requests (requests s ++ [new]) s) in *.
  assert (Hlook : forall i, requests s' !! i =
    match map_get sid (sourcesRef s) with
    | Some old => if bool_decide (i = old) then set_closed true <$> (requests s ++ [new]) !! i
                  else (requests s ++ [new]) !! i
    | None => (requests s ++ [new]) !! i
    end).
  { intros i. rewrite Hrq. destruct (map_get sid (sourcesRef s)); [|done].
    unfold closeSource. by rewrite updateRequest_lookup. }
  assert (Hnew : requests s' !! length (requests s) = Some new).
  { rewrite Hlook, list_lookup_middle by done. destruct (map_get sid (sourcesRef s)) as [old|] eqn:Hg; [|done].
    case_bool_decide as Ho; [|done]. destruct (L _ _ Hg) as (r & Hr & _). apply lookup_lt_Some in Hr. lia. }
  split; rewrite ?Hrefs; [by apply map_set_NoDup| | |congruence].
  - intros sid' src'. rewrite map_get_set. case_decide as Hs.
    + intros [= <-]. exists new. by subst.
    + intros Hg. destruct (L _ _ Hg) as (r & Hr & Hsid & Hc). exists r. split; [|done].
      rewrite Hlook, lookup_app_l by by eapply lookup_lt_Some.
      destruct (map_get sid (sourcesRef s)) as [old|] eqn:Ho; [|done].
      case_bool_decide; [|done]. subst old. destruct (L _ _ Ho) as (r' & Hr' & Hs' & _). congruence.
  - intros i r Hr Hc. rewrite map_get_set.
    destruct (decide (i = length (requests s))) as [->|Hi].
    + rewrite Hnew in Hr. injection Hr as <-. by rewrite decide_True.
    + rewrite Hlook in Hr.
      assert (Hin : requests s !! i = Some r /\ map_get sid (sourcesRef s) <> Some i).
      { destruct (map_get sid (sourcesRef s)) as [old|] eqn:Ho; [case_bool_decide as Hold|].
        - exfalso. destruct ((requests s ++ [new]) !! i); [|done]. cbn in Hr. injection Hr as <-. done.
        - split; [|congruence]. apply lookup_snoc_Some in Hr as [[_ Hr]|[Hr _]]; [done|congruence].
        - split; [|done]. apply lookup_snoc_Some in Hr as [[_ Hr]|[Hr _]]; [done|congruence]. }
      destruct Hin as [Hin Hne]. specialize (O _ _ Hin Hc). case_decide as Hs; [|done].
      subst sid. done.
Qed.

Lemma closeStream_frame sid s :
  messages (closeStream sid s) = messages s /\ ids (closeStream sid s) = ids s /\
  pendingCount (closeStream sid s) = pendingCount s /\ inflight (closeStream sid s) = inflight s /\
  requestStart (closeStream sid s) = requestStart s /\ completedRef (closeStream sid s) = completedRef s.
Proof.
  unfold closeStream, closeSource, updateRequest. destruct (map_get _ _); [|done].
  by destruct (requests s !! n).
Qed.

Lemma conn_ok_onError sid e c s : conn_ok s -> conn_ok (onError sid e c s).
Proof. by apply conn_ok_ext. Qed.

Lemma conn_ok_handleError sid e c s : conn_ok s -> conn_ok (handleError sid e c s).
Proof.
  intros H. unfold handleError. case_match; [done|]. by apply conn_ok_closeStream, conn_ok_onError.
Qed.

Lemma conn_ok_onComplete now sid mdl us f tcs s : conn_ok s -> conn_ok (onComplete now sid mdl us f tcs s).
Proof. by apply conn_ok_ext. Qed.

Lemma conn_ok_updateMessages f s : conn_ok s -> conn_ok (updateMessages f s).
Proof. by apply conn_ok_ext. Qed.

Lemma conn_ok_set_messages ms s : conn_ok s -> conn_ok (set_messages ms s).
Proof. by apply conn_ok_ext. Qed.

Lemma conn_ok_set_completedRef c s : conn_ok s -> conn_ok (set_completedRef c s).
Proof. by apply conn_ok_ext. Qed.

Lemma conn_ok_handle_event now src r ev s : conn_ok s -> conn_ok (handle_event now src r ev s).1.
Proof.
  intros H. destruct ev; cbn [handle_event fst]; try (by apply conn_ok_updateMessages).
  - by apply conn_ok_onComplete, conn_ok_closeStream, conn_ok_set_completedRef.
  - by apply conn_ok_updateRequest.
  - by apply conn_ok_updateRequest.
  - by apply conn_ok_updateMessages, conn_ok_updateRequest.
  - by apply conn_ok_handleError.
Qed.

Lemma handle_events_ind (Q : State -> Prop) now src :
  (forall r ev s, requests s !! src = Some r -> Q s -> Q (handle_event now src r ev s).1) ->
  forall evs s, Q s -> Q (handle_events now src evs s).
Proof.
  intros Hstep. induction evs as [|ev evs IH]; intros s Hs; cbn [handle_events]; [done|].
  destruct (requests s !! src) as [r|] eqn:Hr; [|done].
  specialize (Hstep r ev s Hr Hs). destruct (handle_event now src r ev s) as [s' []]; [by apply IH|done].
Qed.

Lemma conn_ok_sendStreamRequest starts sid mdl pl s :
  conn_ok s -> conn_ok (sendStreamRequest starts sid mdl pl s).
Proof.
  intros H. unfold sendStreamRequest. cbn zeta.
  set (s1 := set_requests (requests s ++ [mkReq sid mdl pl None Undef [] false]) s).
  set (s2 := match map_get sid (sourcesRef s1) with Some old => closeSource old s1 | None => s1 end).
  assert (Hf : sourcesRef s2 = sourcesRef s).
  { subst s2. destruct (map_get sid (sourcesRef s1)); [|done].
    unfold closeSource. by rewrite (proj1 (updateRequest_frame n (set_closed true) s1)). }
  set (s3 := set_activeCount _ _).
  assert (Hok : conn_ok s3).
  { apply (conn_ok_register sid mdl pl s); [done|done| |].
    - subst s3. cbn. by rewrite Hf.
    - done. }
  destruct starts; [done|]. by apply conn_ok_closeStream, conn_ok_onError.
Qed.

Lemma close_all_lookup (refs : list (jsstr * nat)) : forall s i,
  requests (foldl (fun s '(_, src) => closeSource src s) s refs) !! i =
  if bool_decide (i ∈ refs.*2) then set_closed true <$> requests s !! i else requests s !! i.
Proof.
  induction refs as [|[k src] refs IH]; intros s i; [by cbn|].
  cbn [foldl]. rewrite IH. unfold closeSource at 1 2. rewrite updateRequest_lookup.
  cbn [fmap list_fmap snd]. repeat case_bool_decide; subst; try done; try set_solver.
  by destruct (requests s !! src).
Qed.

Lemma conn_ok_stop_one sid s :
  conn_ok s -> conn_ok (set_activeCount (length (sourcesRef (stop_one sid s))) (stop_one sid s)).
Proof.
  intros H. pose proof (conn_ok_closeStream sid s H) as Hc. revert Hc. unfold closeStream, stop_one.
  destruct (map_get sid (sourcesRef s)) eqn:Hg; cbn zeta; [done|]. intros _.
  apply (conn_ok_ext s); [done| | |done]; cbn; rewrite (map_delete_absent _ _ Hg); [done|].
  symmetry. apply conn_count, H.
Qed.

Lemma conn_ok_stop_all s : conn_ok s -> conn_ok (stopStream None s).
Proof.
  intros [K L O C]. unfold stopStream, stop_all. cbn [truthy_opt].
  split; cbn [sourcesRef requests activeCount set_activeCount set_sourcesRef].
  - apply NoDup_nil_2.
  - done.
  - intros i r. rewrite close_all_lookup. case_bool_decide as Hin.
    + destruct (requests s !! i); [|done]. cbn. by intros [= <-].
    + intros Hr Hc. destruct Hin. specialize (O _ _ Hr Hc). apply map_get_elem in O; [|done].
      apply list_elem_of_fmap. by exists (streamId r, i).
  - done.
Qed.

Lemma conn_ok_stopStream sid s : conn_ok s -> conn_ok (stopStream sid s).
Proof.
  intros H. unfold stopStream. destruct (truthy_opt sid); [by apply conn_ok_stop_one|].
  by apply conn_ok_stop_all.
Qed.

Lemma close_all_frame (refs : list (jsstr * nat)) : forall s,
  let s' := foldl (fun s '(_, src) => closeSource src s) s refs in
  messages s' = messages s /\ ids s' = ids s /\ pendingCount s' = pendingCount s /\ inflight s' = inflight s.
Proof.
  induction refs as [|[k src] refs IH]; intros s; [done|]. cbn [foldl].
  destruct (IH (closeSource src s)) as (-> & -> & -> & ->).
  unfold closeSource, updateRequest. by destruct (requests s !! src).
Qed.

Lemma stopStream_frame s :
  messages (stopStream None s) = messages s /\ ids (stopStream None s) = ids s /\
  pendingCount (stopStream None s) = pendingCount s /\ inflight (stopStream None s) = inflight s.
Proof. apply (close_all_frame (sourcesRef s) s). Qed.

Lemma sendChat_ind (Q : State -> Prop) config en now starts msgs :
  (forall t b s, Q s -> Q (sendStreamingTo config en now b msgs t s)) ->
  (forall t s, Q s -> Q (sendNonStreamingTo config en now msgs t s)) ->
  forall targets s, Q s -> Q (sendChat config en now starts msgs targets s).
Proof.
  intros H1 H2. unfold sendChat. induction targets as [|t l IH]; intros s Hs; [done|].
  cbn [foldl]. apply IH. destruct (stream config); auto.
Qed.

Lemma conn_ok_sendChat config en now starts msgs targets s :
  conn_ok s -> conn_ok (sendChat config en now starts msgs targets s).
Proof.
  apply sendChat_ind.
  - intros t b s' H. apply conn_ok_sendStreamRequest. by apply (conn_ok_ext s').
  - intros t s' H. by apply (conn_ok_ext s').
Qed.

(** ** Lemmas: messages *)

(** Updates that keep the key and do not drop all versions. *)
Definition key_safe (f : Message -> Message) : Prop :=
  forall m, key (f m) = key m /\ (versions m <> [] -> versions (f m) <> []).

Lemma key_safe_update type chunk : key_safe (on_update type chunk).
Proof.
  intros m. unfold on_update. case_match; [done|]. destruct type; try done.
  split; [done|]. intros Hm. apply (versions_nonempty_length m); [|done]. apply (process_current m chunk Hm).
Qed.

Lemma key_safe_tools tcs : key_safe (on_tool_calls tcs).
Proof. done. Qed.

Lemma key_safe_annotations l : key_safe (on_annotations l).
Proof. done. Qed.

Lemma key_safe_finalize r o : key_safe (fun m => finalizeMessage m r o).
Proof.
  intros m. split; [done|]. intros Hm. apply (versions_nonempty_length m); [|done].
  apply (finalize_versions m r o Hm).
Qed.

Lemma key_safe_complete mdl us f tcs l : key_safe (on_complete mdl us f tcs l).
Proof.
  intros m. unfold on_complete. case_match; [done|]. exact (key_safe_finalize None (mkFinal tcs f None false) m).
Qed.

Lemma key_safe_fail e c : key_safe (fail_message e c).
Proof.
  intros m. split; [done|]. intros Hm. apply (versions_nonempty_length m); [|done].
  exact (proj1 (proj2 (proj2 (update_current m _ Hm)))).
Qed.

(** The response replaces all versions by one. *)
Lemma response_versions_length mdl us ch l m : length (versions (on_response mdl us ch l m)) = 1.
Proof. reflexivity. Qed.

Lemma key_safe_response mdl us ch l : key_safe (on_response mdl us ch l).
Proof.
  intros m. split; [reflexivity|]. intros _ H.
  pose proof (response_versions_length mdl us ch l m) as Hl. rewrite H in Hl. discriminate Hl.
Qed.

Lemma key_safe_truncate : key_safe truncate_message.
Proof.
  intros m. unfold truncate_message. case_match; [|done].
  exact (key_safe_finalize None (mkFinal None Undef None true) m).
Qed.

Lemma edit_versions c m :
  versions (edit_message c m) =
  imap (fun i v => if (Z.of_nat i =? (activeVersionIndex m ?? (Z.of_nat (length (versions m)) - 1)))%Z
                   then set_v_content c v else v) (versions m).
Proof. reflexivity. Qed.

Lemma key_safe_edit c : key_safe (edit_message c).
Proof.
  intros m. split; [done|]. intros Hm. apply (versions_nonempty_length m); [|done].
  apply length_imap.
Qed.

Lemma key_safe_if (p : Message -> bool) f : key_safe f -> key_safe (fun m => if p m then f m else m).
Proof. intros Hf m. by destruct (p m). Qed.

Lemma msgs_ok_map n ms f : key_safe f -> msgs_ok n ms -> msgs_ok n (map f ms).
Proof.
  intros Hf [Hnd Hall]. split.
  - rewrite map_map, (map_ext _ key); [done|]. intros m. apply Hf.
  - apply Forall_map. eapply List.Forall_impl; [|exact Hall]. cbn. intros m [Hk Hv].
    destruct (Hf m) as [-> Hv']. auto.
Qed.

Lemma updateMessageByKey_map ms k f :
  NoDup (map key ms) ->
  updateMessageByKey ms k f = map (fun m => if bool_decide (key m = k) then f m else m) ms.
Proof.
  intros Hnd. apply list_eq. intros i. change (map ?g ms) with (g <$> ms). rewrite list_lookup_fmap.
  destruct (ms !! i) as [m|] eqn:Hm; cbn.
  - case_bool_decide as Hk.
    + rewrite (updateMessageByKey_hit ms k f i m) by done.
      rewrite list_lookup_insert_eq; [done|]. by eapply lookup_lt_Some.
    + by apply updateMessageByKey_other.
  - apply lookup_ge_None. rewrite updateMessageByKey_length. by apply lookup_ge_None.
Qed.

Lemma msgs_ok_updateKey n ms k f : key_safe f -> msgs_ok n ms -> msgs_ok n (updateMessageByKey ms k f).
Proof.
  intros Hf Hok. rewrite updateMessageByKey_map by apply Hok. by apply msgs_ok_map, Hok; apply key_safe_if.
Qed.

Lemma msgs_ok_mono n n' ms : n <= n' -> msgs_ok n ms -> msgs_ok n' ms.
Proof.
  intros Hn [Hnd Hall]. split; [done|]. eapply List.Forall_impl; [|exact Hall]. cbn.
  intros m [(j & Hj & Hk) Hv]. split; [exists j; split; [lia|done]|done].
Qed.

Lemma msgs_ok_sublist n ms ms' : ms' `sublist_of` ms -> msgs_ok n ms -> msgs_ok n ms'.
Proof.
  intros Hs [Hnd Hall]. split.
  - eapply sublist_NoDup; [exact Hnd|]. by apply (fmap_sublist key).
  - apply Forall_forall. intros m Hm. apply (proj1 (Forall_forall _ _) Hall).
    by eapply elem_of_sublist.
Qed.

(** A computation that makes a message whose key is the first id it draws. *)
Definition makes_message (c : fresh Message) : Prop :=
  forall n, key (c n).1 = nanoid_at n /\ versions (c n).1 <> [] /\ n < (c n).2.

Lemma makes_user text imgs : makes_message (createUserMessage text imgs).
Proof. intros n. cbn. split; [done|split; [done|lia]]. Qed.

Lemma makes_loading mdl : makes_message (createLoadingAssistantMessage mdl).
Proof. intros n. cbn. split; [done|split; [done|lia]]. Qed.

Lemma makes_tool cid name res : makes_message (createToolResultMessage cid name res).
Proof. intros n. cbn. split; [done|split; [done|lia]]. Qed.

(** ** Lemmas: the message part of the state *)

Definition msg_ok (s : State) : Prop := msgs_ok (ids s) (messages s) /\ (0 <= pendingCount s)%Z.

Lemma msg_ok_ext s s' :
  messages s' = messages s -> ids s' = ids s -> pendingCount s' = pendingCount s ->
  msg_ok s -> msg_ok s'.
Proof. unfold msg_ok. by intros -> -> ->. Qed.

Lemma msg_ok_onMessageKey k f s : key_safe f -> msg_ok s -> msg_ok (onMessageKey k f s).
Proof. intros Hf [Hm Hp]. split; [|done]. by apply msgs_ok_updateKey. Qed.

Lemma msg_ok_closeStream sid s : msg_ok s -> msg_ok (closeStream sid s).
Proof. destruct (closeStream_frame sid s) as (H1 & H2 & H3 & _). by apply msg_ok_ext. Qed.

Lemma msg_ok_updateRequest src f s : msg_ok s -> msg_ok (updateRequest src f s).
Proof. unfold updateRequest. case_match; [|done]. by apply msg_ok_ext. Qed.

Lemma msg_ok_onError sid e c s : msg_ok s -> msg_ok (onError sid e c s).
Proof. intros [Hm Hp]. split; [|done]. apply msgs_ok_updateKey; [apply key_safe_fail|done]. Qed.

Lemma msg_ok_handleError sid e c s : msg_ok s -> msg_ok (handleError sid e c s).
Proof. intros H. unfold handleError. case_match; [done|]. by apply msg_ok_closeStream, msg_ok_onError. Qed.

Lemma msg_ok_handle_event now src r ev s : msg_ok s -> msg_ok (handle_event now src r ev s).1.
Proof.
  intros H. destruct ev; cbn [handle_event fst].
  - apply (msg_ok_onMessageKey (streamId r) (on_complete _ _ _ _ _)
      (set_requestStart _ (closeStream (streamId r) (set_completedRef (set_add (completedRef s) (streamId r)) s))));
      [apply key_safe_complete|].
    eapply (msg_ok_ext (closeStream (streamId r) (set_completedRef (set_add (completedRef s) (streamId r)) s)));
      [reflexivity..|]. apply msg_ok_closeStream. by apply (msg_ok_ext s).
  - apply msg_ok_onMessageKey; [apply key_safe_update|done].
  - apply msg_ok_onMessageKey; [apply key_safe_update|done].
  - apply msg_ok_onMessageKey; [apply key_safe_update|done].
  - apply msg_ok_onMessageKey; [apply key_safe_annotations|done].
  - by apply msg_ok_updateRequest.
  - by apply msg_ok_updateRequest.
  - apply msg_ok_onMessageKey; [apply key_safe_tools|]. by apply msg_ok_updateRequest.
  - by apply msg_ok_handleError.
Qed.

Lemma msg_ok_sendStreamRequest starts sid mdl pl s :
  msg_ok s -> msg_ok (sendStreamRequest starts sid mdl pl s).
Proof.
  intros H. unfold sendStreamRequest. cbn zeta.
  set (s1 := set_requests (requests s ++ [mkReq sid mdl pl None Undef [] false]) s).
  set (s2 := match map_get sid (sourcesRef s1) with Some old => closeSource old s1 | None => s1 end).
  assert (H2 : msg_ok s2).
  { subst s2. destruct (map_get sid (sourcesRef s1)); [apply msg_ok_updateRequest|]; by apply (msg_ok_ext s). }
  set (s3 := set_activeCount _ _). assert (H3 : msg_ok s3) by by apply (msg_ok_ext s2).
  destruct starts; [done|]. by apply msg_ok_closeStream, msg_ok_onError.
Qed.

Lemma msg_ok_sendChat config en now starts msgs targets s :
  msg_ok s -> msg_ok (sendChat config en now starts msgs targets s).
Proof.
  apply sendChat_ind.
  - intros t b s' H. apply msg_ok_sendStreamRequest. by apply (msg_ok_ext s').
  - intros t s' [Hm Hp]. split; [done|]. cbn. lia.
Qed.

Lemma msg_ok_settle now req outcome s : msg_ok s -> msg_ok (settle now req outcome s).
Proof.
  intros H. unfold settle. cbn zeta.
  assert (Hu : forall s', msg_ok s' -> msg_ok (set_pendingCount (Z.max 0 (pendingCount s' - 1)) s')).
  { intros s' [Hm _]. split; [done|]. cbn. lia. }
  apply Hu. destruct outcome as [resp|sm em c].
  - destruct (rs_choices resp) as [[|ch l]|]; try done.
    apply msg_ok_onMessageKey; [apply key_safe_response|done].
  - destruct H as [Hm Hp]. split; [|done]. apply msgs_ok_updateKey; [apply key_safe_fail|done].
Qed.

Lemma msg_ok_stop s : msg_ok s -> msg_ok (stopGeneration s).
Proof.
  intros [Hm Hp]. destruct (stopStream_frame s) as (F1 & F2 & _). unfold stopGeneration, updateMessages, msg_ok.
  cbn [messages ids pendingCount set_messages set_pendingCount set_requestStart]. rewrite F1, F2.
  split; [|done]. apply msgs_ok_map; [apply key_safe_truncate|done].
Qed.

Section fresh_keys.
Context `{!PlatformLaws P}.

Lemma msgs_ok_snoc c n ms :
  makes_message c -> msgs_ok n ms -> msgs_ok (c n).2 (ms ++ [(c n).1]).
Proof.
  intros Hc [Hnd Hall]. destruct (Hc n) as (Hk & Hv & Hn). split.
  - rewrite map_app. apply NoDup_app. split; [done|]. split; [|apply NoDup_singleton].
    cbn. intros k Hin ->%list_elem_of_singleton. apply list_elem_of_fmap in Hin as (m & Heq & Hm).
    destruct (proj1 (Forall_forall _ _) Hall m Hm) as [(j & Hj & Hkj) _].
    rewrite Hk in Heq. rewrite Hkj in Heq. apply nanoid_inj in Heq. lia.
  - apply Forall_app. split.
    + apply (msgs_ok_mono n (c n).2 ms); [lia|done].
    + repeat constructor; [|done]. by exists n.
Qed.

Lemma msgs_ok_fresh_map {A} (f : A -> fresh Message) l : (forall a, makes_message (f a)) ->
  forall n ms, msgs_ok n ms -> msgs_ok (fresh_map f l n).2 (ms ++ (fresh_map f l n).1).
Proof.
  intros Hf. induction l as [|a l IH]; intros n ms Hok; cbn [fresh_map].
  - cbn. by rewrite app_nil_r.
  - unfold fresh_bind, fresh_ret. pose proof (msgs_ok_snoc (f a) n ms (Hf a) Hok) as H1.
    destruct (f a n) as [m n1]. cbn in H1. specialize (IH n1 (ms ++ [m]) H1).
    destruct (fresh_map f l n1) as [ms' n2]. cbn in IH |- *. by rewrite <-app_assoc in IH.
Qed.

Lemma msg_ok_handleSendMessage config en now starts text imgs s :
  msg_ok s -> msg_ok (handleSendMessage config en now starts text imgs s).
Proof.
  intros [Hm Hp]. unfold handleSendMessage, draw.
  pose proof (msgs_ok_snoc (createUserMessage text imgs) (ids s) (messages s) (makes_user _ _) Hm) as H1.
  destruct (createUserMessage text imgs (ids s)) as [um n1]. cbn [ids set_ids fst snd] in *.
  pose proof (msgs_ok_fresh_map (fun mdl => createLoadingAssistantMessage (Some mdl)) (getActiveModels config)
    (fun mdl => makes_loading _) n1 _ H1) as H2.
  destruct (fresh_map _ _ n1) as [ams n2]. cbn [fst snd] in H2.
  apply msg_ok_sendChat. split; [|done]. cbn. by rewrite <-app_assoc in H2.
Qed.

Lemma msg_ok_handleRegenerate config en now starts m s :
  versions m <> [] -> msg_ok s -> msg_ok (handleRegenerateMessage config en now starts m s).
Proof.
  intros Hv [Hm Hp]. unfold handleRegenerateMessage, draw.
  destruct (find_index _ (messages s)); [|done].
  change (pushAssistantVersion m (ids s)) with ((pushAssistantVersion m (ids s)).1, S (ids s)).
  set (branched := (pushAssistantVersion m (ids s)).1).
  apply msg_ok_sendChat. split; [|done]. cbn [ids messages set_messages set_ids].
  apply (msgs_ok_mono (ids s)); [lia|].
  assert (Hb : key branched = key m /\ versions branched <> []).
  { split; [reflexivity|]. intros He. apply (f_equal length) in He.
    change (versions branched) with (versions m ++ [mkVersion (nanoid_at (ids s)) [] None None None Undef]) in He.
    rewrite length_app in He. cbn in He. lia. }
  clearbody branched. apply (msgs_ok_map _ _ (fun m0 => if bool_decide (key m0 = key m) then branched else m0)); [|done].
  intros m0. case_bool_decide as Hk; [|done]. destruct Hb as [-> ?]. by rewrite Hk.
Qed.

Lemma msg_ok_handleTools config en now starts m results s :
  msg_ok s -> msg_ok (handleSubmitToolResults config en now starts m results s).
Proof.
  intros [Hm Hp]. unfold handleSubmitToolResults, draw.
  pose proof (msgs_ok_fresh_map (fun '(cid, name, res) => createToolResultMessage cid name res) results
    (fun a => match a with (cid, name, res) => makes_tool cid name res end) (ids s) (messages s) Hm) as H1.
  destruct (fresh_map _ results (ids s)) as [tms n1]. cbn [fst snd ids set_ids] in *.
  pose proof (msgs_ok_snoc (createLoadingAssistantMessage (Some (model_or config m))) n1 _ (makes_loading _) H1) as H2.
  destruct (createLoadingAssistantMessage _ n1) as [lm n2]. cbn [fst snd] in H2.
  apply msg_ok_sendChat. split; [|done]. cbn. by rewrite <-app_assoc in H2.
Qed.

Lemma msg_ok_applyEdit config en now starts c submit s :
  msg_ok s -> msg_ok (applyEdit config en now starts c submit s).
Proof.
  intros [Hm Hp]. unfold applyEdit. destruct (negb (truthy_opt _)); [done|].
  destruct (find_index _ (messages s)) as [index|]; [|done]. cbn zeta.
  set (updated := map _ (messages s)).
  assert (Hu : msgs_ok (ids s) updated) by (apply msgs_ok_map; [apply key_safe_if, key_safe_edit|done]).
  clearbody updated. destruct (negb submit || _); [done|]. unfold draw. cbn [ids set_editingMessageKey].
  pose proof (msgs_ok_fresh_map (fun mdl => createLoadingAssistantMessage (Some mdl)) (getActiveModels config)
    (fun mdl => makes_loading _) (ids s) (take (S index) updated)
    (msgs_ok_sublist _ _ _ (sublist_take updated (S index)) Hu)) as H2.
  destruct (fresh_map _ _ (ids s)) as [ams n2]. cbn [fst snd] in H2.
  by apply msg_ok_sendChat.
Qed.

End fresh_keys.

(** ** Lemmas: steps *)

Lemma conn_ok_handleSendMessage config en now starts text imgs s :
  conn_ok s -> conn_ok (handleSendMessage config en now starts text imgs s).
Proof.
  intros H. unfold handleSendMessage, draw. destruct (createUserMessage text imgs (ids s)) as [um n1].
  cbn [ids set_ids]. destruct (fresh_map _ _ n1) as [ams n2].
  apply conn_ok_sendChat. by apply (conn_ok_ext s).
Qed.

Lemma conn_ok_handleRegenerate config en now starts m s :
  conn_ok s -> conn_ok (handleRegenerateMessage config en now starts m s).
Proof.
  intros H. unfold handleRegenerateMessage, draw. destruct (find_index _ _); [|done].
  destruct (pushAssistantVersion m (ids s)) as [br n1]. apply conn_ok_sendChat. by apply (conn_ok_ext s).
Qed.

Lemma conn_ok_handleTools config en now starts m results s :
  conn_ok s -> conn_ok (handleSubmitToolResults config en now starts m results s).
Proof.
  intros H. unfold handleSubmitToolResults, draw. destruct (fresh_map _ results (ids s)) as [tms n1].
  cbn [ids set_ids]. destruct (createLoadingAssistantMessage _ n1) as [lm n2].
  apply conn_ok_sendChat. by apply (conn_ok_ext s).
Qed.

Lemma conn_ok_applyEdit config en now starts c submit s :
  conn_ok s -> conn_ok (applyEdit config en now starts c submit s).
Proof.
  intros H. unfold applyEdit, draw. destruct (negb (truthy_opt _)); [done|].
  destruct (find_index _ _); [|done]. cbn zeta.
  destruct (negb submit || _); [by apply (conn_ok_ext s)|].
  cbn [ids set_editingMessageKey].
  destruct (fresh_map _ _ (ids s)) as [ams n2]. apply conn_ok_sendChat. by apply (conn_ok_ext s).
Qed.

Lemma step_conn_ok s s' : step s s' -> conn_ok s -> conn_ok s'.
Proof.
  intros Hs Hok. destruct Hs as [now src data s s' He|src lst data s s' He|src rs st s|now i o s|s|?|?|?|k i s|m s|open s|?|m s|s].
  - unfold onMessageEvent in He. destruct (parseSseData data); [|by simplify_eq|done].
    injection He as <-. apply handle_events_ind; [|done]. intros. by apply conn_ok_handle_event.
  - unfold onErrorEvent in He. destruct (requests s !! src) as [r|]; [|by simplify_eq].
    destruct (source_state r _ =? 2)%Z; [by simplify_eq|]. destruct (error_details data) as [[e c]|]; [|done].
    injection He as <-. by apply conn_ok_handleError.
  - unfold onReadyState. repeat case_match; try done. by apply conn_ok_handleError.
  - unfold onOutcome. destruct (inflight s !! i); [|done]. unfold settle. repeat case_match; by apply (conn_ok_ext s).
  - eapply conn_ok_ext; [..|exact (conn_ok_stopStream None s Hok)]; reflexivity.
  - by apply conn_ok_handleSendMessage.
  - by apply conn_ok_handleRegenerate.
  - by apply conn_ok_handleTools.
  - by apply (conn_ok_ext s).
  - by apply (conn_ok_ext s).
  - unfold handleEditOpenChange. destruct open; [done|]. by apply (conn_ok_ext s).
  - by apply conn_ok_applyEdit.
  - by apply (conn_ok_ext s).
  - by apply (conn_ok_ext s).
Qed.

Lemma step_msg_ok `{!PlatformLaws P} s s' : step s s' -> msg_ok s -> msg_ok s'.
Proof.
  intros Hs Hok. destruct Hs as [now src data s s' He|src lst data s s' He|src rs st s|now i o s|s|?|? ? ? ? m s Hin|?|k i s|m s|open s|?|m s|s].
  - unfold onMessageEvent in He. destruct (parseSseData data); [|by simplify_eq|done].
    injection He as <-. apply handle_events_ind; [|done]. intros. by apply msg_ok_handle_event.
  - unfold onErrorEvent in He. destruct (requests s !! src) as [r|]; [|by simplify_eq].
    destruct (source_state r _ =? 2)%Z; [by simplify_eq|]. destruct (error_details data) as [[e c]|]; [|done].
    injection He as <-. by apply msg_ok_handleError.
  - unfold onReadyState. repeat case_match; try done. by apply msg_ok_handleError.
  - unfold onOutcome. destruct (inflight s !! i); [|done]. apply msg_ok_settle. by apply (msg_ok_ext s).
  - by apply msg_ok_stop.
  - by apply msg_ok_handleSendMessage.
  - apply msg_ok_handleRegenerate; [|done]. apply (proj1 (Forall_forall _ _) (proj2 (proj1 Hok)) m Hin).
  - by apply msg_ok_handleTools.
  - destruct Hok as [Hm Hp]. split; [|done]. apply msgs_ok_map; [|done]. by apply key_safe_if.
  - exact Hok.
  - unfold handleEditOpenChange. by destruct open.
  - by apply msg_ok_applyEdit.
  - destruct Hok as [Hm Hp]. split; [|done]. eapply msgs_ok_sublist; [apply bfilter_sublist|done].
  - destruct Hok as [Hm Hp]. split; [|done]. split; [apply NoDup_nil_2|constructor].
Qed.

(** ** Lemmas: one stream *)

Lemma setMessageErrorByKey_other ms k e c i m :
  ms !! i = Some m -> key m <> k -> setMessageErrorByKey ms k e c !! i = Some m.
Proof. apply updateMessageByKey_other. Qed.

Lemma handleError_other sid e c s i m :
  messages s !! i = Some m -> key m <> sid -> messages (handleError sid e c s) !! i = Some m.
Proof.
  intros Hm Hk. unfold handleError. case_match; [done|].
  rewrite (proj1 (closeStream_frame sid (onError sid e c s))). by apply setMessageErrorByKey_other.
Qed.

Lemma handle_event_other now src r ev s i m :
  messages s !! i = Some m -> key m <> streamId r ->
  messages (handle_event now src r ev s).1 !! i = Some m.
Proof.
  intros Hm Hk. destruct ev; cbn [handle_event fst];
    try (apply updateMessageByKey_other; [|done]; cbn [messages set_requestStart];
         rewrite ?(proj1 (closeStream_frame _ _)), ?(proj1 (proj2 (proj2 (updateRequest_frame _ _ _)))); done).
  - by rewrite (proj1 (proj2 (proj2 (updateRequest_frame _ _ _)))).
  - by rewrite (proj1 (proj2 (proj2 (updateRequest_frame _ _ _)))).
  - by apply handleError_other.
Qed.

Lemma closeStream_streamId sid s src r :
  requests s !! src = Some r ->
  exists r', requests (closeStream sid s) !! src = Some r' /\ streamId r' = streamId r.
Proof.
  intros Hr. unfold closeStream. case_match; [|by exists r]. cbn [requests set_activeCount set_sourcesRef].
  unfold closeSource. rewrite updateRequest_lookup, Hr. case_bool_decide; cbn; by eexists.
Qed.

Lemma handle_event_streamId now src r ev s src' r' :
  requests s !! src' = Some r' ->
  exists r2, requests (handle_event now src r ev s).1 !! src' = Some r2 /\ streamId r2 = streamId r'.
Proof.
  intros Hr. destruct ev; cbn [handle_event fst]; try (by exists r').
  - by apply (closeStream_streamId (streamId r) (set_completedRef (set_add (completedRef s) (streamId r)) s)).
  - rewrite updateRequest_lookup, Hr. case_bool_decide; cbn; by eexists.
  - rewrite updateRequest_lookup, Hr. case_bool_decide; cbn; by eexists.
  - cbn [onMessageKey updateMessages requests set_messages]. rewrite updateRequest_lookup, Hr.
    case_bool_decide; cbn; by eexists.
  - unfold handleError. case_match; [by exists r'|]. by apply closeStream_streamId.
Qed.

Lemma onMessageKey_hit k f s i m :
  NoDup (map key (messages s)) -> messages s !! i = Some m -> key m = k ->
  onMessageKey k f s = set_messages (<[ i := f m ]> (messages s)) s.
Proof. intros Hnd Hm Hk. unfold onMessageKey, updateMessages. by rewrite (updateMessageByKey_hit _ _ _ i m). Qed.

Lemma insert_keys (ms : list Message) i m m' :
  ms !! i = Some m -> key m' = key m -> map key (<[ i := m' ]> ms) = map key ms.
Proof.
  intros Hm Hk. change (key <$> <[ i := m' ]> ms = key <$> ms). rewrite list_fmap_insert, Hk.
  apply list_insert_id. by rewrite list_lookup_fmap, Hm.
Qed.

(** *** A reply, event by event *)

(** The listener's loop goes on after every event but the end and a chunk that is no JSON. *)
Definition goes_on (ev : ParsedStreamEvent) : bool :=
  match ev with EvDone | EvParseError _ => false | _ => true end.

Definition content_of (ev : ParsedStreamEvent) : jsstr := match ev with EvContent text => text | _ => [] end.
Definition usage_of (ev : ParsedStreamEvent) : option TokenUsage := match ev with EvUsage us => Some us | _ => None end.
Definition finish_of (ev : ParsedStreamEvent) : option jsstr := match ev with EvFinish f => Some f | _ => None end.
Definition call_of (ev : ParsedStreamEvent) : option ToolCallEvent := match ev with EvToolCall e => Some e | _ => None end.

(** What an event leaves in the record of its request. *)
Definition note_event (r : Request) (ev : ParsedStreamEvent) : Request :=
  match ev with
  | EvUsage us => set_pendingUsage (Some us) r
  | EvFinish f => set_rq_finish (Val f) r
  | EvToolCall e => set_toolAcc (applyToolCallDelta (toolAcc r) e) r
  | _ => r
  end.

(** The message of a running reply after the text [c] was added to it. *)
Definition grows (c : jsstr) (m m' : Message) : Prop :=
  key m' = key m /\ is_pending (status m') = true /\
  v_content (getCurrentVersion m') = v_content (getCurrentVersion m) ++ c /\
  getActiveVersionIndex m' = getActiveVersionIndex m /\ length (versions m') = length (versions m) /\
  forall j, j <> getActiveVersionIndex m -> versions m' !! j = versions m !! j.

Lemma grows_trans c c' m1 m2 m3 : grows c m1 m2 -> grows c' m2 m3 -> grows (c ++ c') m1 m3.
Proof.
  intros (K1 & P1 & C1 & A1 & L1 & O1) (K2 & P2 & C2 & A2 & L2 & O2).
  split_and!; try congruence.
  - by rewrite C2, C1, <-app_assoc.
  - intros j Hj. rewrite O2, O1 by congruence. done.
Qed.

(** A change that leaves the versions alone adds no text. *)
Lemma grows_same m m' :
  key m' = key m -> is_pending (status m') = true -> versions m' = versions m ->
  activeVersionIndex m' = activeVersionIndex m -> grows [] m m'.
Proof.
  intros K Hp V A.
  assert (getActiveVersionIndex m' = getActiveVersionIndex m) as HA by (unfold getActiveVersionIndex; by rewrite V, A).
  split_and!; try done.
  - unfold getCurrentVersion. by rewrite HA, V, app_nil_r.
  - by rewrite V.
  - intros j _. by rewrite V.
Qed.

Lemma pending_not_error m : is_pending (status m) = true -> bool_decide (status m = Some ERROR) = false.
Proof. intros Hp. apply bool_decide_eq_false_2. intros Hs. by rewrite Hs in Hp. Qed.

Lemma grows_content c m :
  is_pending (status m) = true -> versions m <> [] -> grows c m (on_update upd_content c m).
Proof.
  intros Hp Hv. unfold on_update. rewrite pending_not_error by done.
  destruct (process_current m c Hv) as (P1 & P2 & P3 & P4). split_and!; try done.
Qed.

Lemma updateRequest_hit src f s r :
  requests s !! src = Some r -> updateRequest src f s = set_requests (<[ src := f r ]> (requests s)) s.
Proof. intros Hr. unfold updateRequest. by rewrite Hr. Qed.

(** The state in which the request [src] and the message at [i] were replaced. *)
Definition noted (src : nat) (r : Request) (i : nat) (m : Message) (s : State) : State :=
  set_requests (<[ src := r ]> (requests s)) (set_messages (<[ i := m ]> (messages s)) s).

Lemma noted_same src r i m s : requests s !! src = Some r -> messages s !! i = Some m -> noted src r i m s = s.
Proof. intros Hr Hm. unfold noted. rewrite !list_insert_id by done. by destruct s. Qed.

Lemma noted_messages src r i m s :
  requests s !! src = Some r -> noted src r i m s = set_messages (<[ i := m ]> (messages s)) s.
Proof. intros Hr. unfold noted. rewrite (list_insert_id (requests s)) by done. by destruct s. Qed.

Lemma noted_requests src r i m s :
  messages s !! i = Some m -> noted src r i m s = set_requests (<[ src := r ]> (requests s)) s.
Proof. intros Hm. unfold noted. rewrite (list_insert_id (messages s)) by done. by destruct s. Qed.

(** One event of a running reply. *)
Lemma live_event now src r i m ev s :
  goes_on ev = true -> NoDup (map key (messages s)) -> requests s !! src = Some r ->
  messages s !! i = Some m -> key m = streamId r -> is_pending (status m) = true -> versions m <> [] ->
  exists m', handle_event now src r ev s = (noted src (note_event r ev) i m' s, true) /\ grows (content_of ev) m m'.
Proof.
  intros Hgo Hnd Hr Hm Hk Hp Hv.
  assert (forall f, onMessageKey (streamId r) f s = noted src r i (f m) s) as Hmsg.
  { intros f. rewrite (onMessageKey_hit _ _ s i m), noted_messages by done. done. }
  assert (forall f, updateRequest src f s = noted src (f r) i m s) as Hreq.
  { intros f. rewrite (updateRequest_hit _ _ _ r), noted_requests by done. done. }
  pose proof (pending_not_error m Hp) as Hne. pose proof (grows_same m m eq_refl Hp eq_refl eq_refl) as Hsame.
  destruct ev as [|text|text|text|l|us|f|e|raw]; try done; cbn [handle_event note_event content_of].
  - rewrite Hmsg. eexists. split; [reflexivity|by apply grows_content].
  - rewrite Hmsg. eexists. split; [reflexivity|]. unfold on_update. rewrite Hne. by apply grows_same.
  - rewrite Hmsg. eexists. split; [reflexivity|]. unfold on_update. rewrite Hne. by apply grows_same.
  - rewrite Hmsg. eexists. split; [reflexivity|]. by apply grows_same.
  - rewrite Hreq. by exists m.
  - rewrite Hreq. by exists m.
  - exists (on_tool_calls (finalizeToolCalls (applyToolCallDelta (toolAcc r) e)) m). split; [|by apply grows_same].
    rewrite (updateRequest_hit _ _ _ r), (onMessageKey_hit _ _ _ i m) by done. done.
Qed.

(** The events of a running reply up to its end. *)
Lemma live_events now src i rest evs : forall r s m,
  forallb goes_on evs = true -> NoDup (map key (messages s)) -> requests s !! src = Some r ->
  messages s !! i = Some m -> key m = streamId r -> is_pending (status m) = true -> versions m <> [] ->
  exists m', handle_events now src (evs ++ rest) s = handle_events now src rest (noted src (foldl note_event r evs) i m' s) /\
    grows (concat (map content_of evs)) m m'.
Proof.
  induction evs as [|ev evs IH]; intros r s m Hgo Hnd Hr Hm Hk Hp Hv.
  - exists m. cbn [app foldl map concat]. rewrite noted_same by done. split; [done|by apply grows_same].
  - cbn [forallb] in Hgo. apply andb_true_iff in Hgo as [He Hgo].
    destruct (live_event now src r i m ev s) as (m1 & H1 & G1); [done..|].
    pose proof G1 as (K1 & P1 & _ & _ & L1 & _).
    destruct (IH (note_event r ev) (noted src (note_event r ev) i m1 s) m1) as (m2 & H2 & G2).
    + done.
    + unfold noted. cbn [messages set_messages set_requests]. by rewrite (insert_keys _ _ m).
    + unfold noted. cbn [requests set_requests]. apply list_lookup_insert_eq. by eapply lookup_lt_Some.
    + unfold noted. cbn [messages set_messages set_requests]. apply list_lookup_insert_eq. by eapply lookup_lt_Some.
    + rewrite K1, Hk. by destruct ev.
    + done.
    + by apply (versions_nonempty_length m).
    + exists m2. split; [|by apply (grows_trans _ _ _ m1)].
      cbn [app handle_events foldl]. rewrite Hr, H1, H2. f_equal. unfold noted.
      cbn [messages requests set_messages set_requests]. by rewrite !list_insert_insert_eq.
Qed.

(** What the request has noted at the end: the last usage, the last finish
    reason and the tool calls put together from all fragments. *)
Lemma noted_events r evs :
  let r' := foldl note_event r evs in
  streamId r' = streamId r /\ target_model r' = target_model r /\
  pendingUsage r' = (match last (omap usage_of evs) with Some us => Some us | None => pendingUsage r end) /\
  finishReason r' = (match last (omap finish_of evs) with Some f => Val f | None => finishReason r end) /\
  toolAcc r' = foldl applyToolCallDelta (toolAcc r) (omap call_of evs).
Proof.
  induction evs as [|ev evs IH] using rev_ind; [done|]. cbv zeta in *.
  rewrite foldl_snoc, !omap_app. destruct IH as (I1 & I2 & I3 & I4 & I5). set (r' := foldl note_event r evs) in *.
  destruct ev; cbn [omap list_omap usage_of finish_of call_of note_event]; rewrite ?app_nil_r, ?last_snoc, ?foldl_snoc; split_and!; try done.
  cbn [set_toolAcc toolAcc]. by rewrite I5.
Qed.

Lemma closeStream_get sid s : map_get sid (sourcesRef (closeStream sid s)) = None.
Proof.
  unfold closeStream. destruct (map_get sid (sourcesRef s)) eqn:Hg; [|done].
  cbn [sourcesRef set_activeCount set_sourcesRef]. by rewrite map_get_delete, decide_True.
Qed.

Lemma closed_after sid src s r :
  map_get sid (sourcesRef s) = Some src -> requests s !! src = Some r ->
  closed <$> requests (closeStream sid s) !! src = Some true.
Proof.
  intros Hg Hr. unfold closeStream. rewrite Hg. cbn [requests set_activeCount set_sourcesRef].
  unfold closeSource. rewrite updateRequest_lookup, bool_decide_eq_true_2, Hr by done. done.
Qed.

Lemma pending_not_terminal m : is_pending (status m) = true -> is_terminal (status m) = false.
Proof. by destruct (status m) as [[]|]. Qed.

Lemma truncate_settles m :
  from (truncate_message m) = role_assistant -> is_pending (status (truncate_message m)) = false.
Proof.
  unfold truncate_message. destruct (bool_decide (from m = role_assistant)) eqn:Hf; cbn [andb].
  - destruct (is_pending (status m)) eqn:Hp; [done|]. by rewrite Hp.
  - intros H. by apply bool_decide_eq_false in Hf.
Qed.

Lemma reachable_ok `{!PlatformLaws P} s : reachable s -> conn_ok s /\ msg_ok s.
Proof.
  induction 1 as [|s s' _ [IH1 IH2] Hs].
  - split.
    + split; [apply NoDup_nil_2|done..].
    + split; [split; [apply NoDup_nil_2|constructor]|done].
  - split; [by eapply step_conn_ok|by eapply step_msg_ok].
Qed.

Lemma unseen_elem l : forall seen x, x ∈ unseen seen l -> x ∈ l /\ href x ∉ seen.
Proof.
  induction l as [|a l IH]; intros seen x; cbn [unseen]; [by intros ?%not_elem_of_nil|].
  destruct (includes seen (href a)) eqn:Hi.
  - intros [H1 H2]%IH. split; [by right|done].
  - intros [->|Hx]%elem_of_cons.
    + split; [by left|]. rewrite <-includes_true. by rewrite Hi.
    + apply IH in Hx as [H1 H2]. split; [by right|]. intros H. apply H2.
      unfold set_add. case_match; [done|]. apply elem_of_app. by left.
Qed.

Lemma unseen_NoDup l : forall seen, NoDup (map href (unseen seen l)).
Proof.
  induction l as [|a l IH]; intros seen; cbn [unseen map]; [apply NoDup_nil_2|].
  destruct (includes seen (href a)) eqn:Hi; [apply IH|]. cbn [map]. apply NoDup_cons. split; [|apply IH].
  intros Hin. apply list_elem_of_fmap in Hin as (x & Heq & [_ Hn]%unseen_elem). apply Hn. rewrite <-Heq.
  unfold set_add. case_match eqn:Hd; [by apply bool_decide_eq_true in Hd || done|set_solver].
Qed.

(** ** Theorems *)

(** C1. In every state the page can reach from an empty conversation, in any
    interleaving of user actions and network events: message keys are distinct, every message has a
    version, the connections not closed by the page are exactly the registered
    ones (at most one per message), and the counters behind the busy indicator
    are right or at least never negative. *)
Theorem session_invariant `{!PlatformLaws P} s :
  reachable s ->
  NoDup (map key (messages s)) /\ Forall (fun m => versions m <> []) (messages s) /\
  NoDup (sourcesRef s).*1 /\
  (forall src r, requests s !! src = Some r ->
     closed r = false <-> map_get (streamId r) (sourcesRef s) = Some src) /\
  activeCount s = length (sourcesRef s) /\ (0 <= pendingCount s)%Z.
Proof.
  intros [[K L O C] [[Hnd Hall] Hp]]%reachable_ok. split; [done|]. split.
  { eapply List.Forall_impl; [|exact Hall]. by intros m [_ Hv]. }
  split; [done|]. split; [|done]. intros src r Hr. split; [by apply O|].
  intros Hg. destruct (L _ _ Hg) as (r' & Hr' & _ & Hc). congruence.
Qed.

(** C28. Streams do not interfere: whatever a stream delivers, messages
    other than its own stay where and as they are. *)
Theorem stream_isolation now src evs s r i m :
  requests s !! src = Some r -> messages s !! i = Some m -> key m <> streamId r ->
  messages (handle_events now src evs s) !! i = Some m.
Proof.
  intros Hr Hm Hk.
  cut (messages (handle_events now src evs s) !! i = Some m /\
       exists r', requests (handle_events now src evs s) !! src = Some r' /\ streamId r' = streamId r);
    [by intros [? _]|].
  apply handle_events_ind; [|by split; [|exists r]].
  intros r' ev s' Hr' [Hm' (r2 & Hr2 & Hs2)]. assert (r' = r2) as -> by congruence. split.
  - apply handle_event_other; [done|congruence].
  - destruct (handle_event_streamId now src r2 ev s' src r2 Hr2) as (r3 & ? & ?). exists r3. split; [done|congruence].
Qed.

(** C2. A reply that streams to its end is complete and whole.  The run is any
    sequence of text, reasoning, refusals, annotations, usage reports, finish
    reasons and fragments of tool calls, followed by the end marker.  The message
    then is complete, its text is the visible part of the text it had and the
    chunks in their order, its usage is the last one that was reported (that
    of the request before the run where none is), its finish reason is the last
    one that was sent and its tool calls are those put together from all
    fragments; its other versions are untouched.  The stream is no longer
    registered, and the connection that was registered for it is closed. *)
Theorem stream_run_complete now src r i m evs s :
  NoDup (map key (messages s)) -> requests s !! src = Some r ->
  messages s !! i = Some m -> key m = streamId r -> is_pending (status m) = true -> versions m <> [] ->
  forallb goes_on evs = true ->
  let s' := handle_events now src (evs ++ [EvDone]) s in
  let calls := finalizeToolCalls (foldl applyToolCallDelta (toolAcc r) (omap call_of evs)) in
  map_get (streamId r) (sourcesRef s') = None /\
  (map_get (streamId r) (sourcesRef s) = Some src -> closed <$> requests s' !! src = Some true) /\
  exists m', messages s' !! i = Some m' /\ status m' = Some COMPLETE /\
    usage m' = (match last (omap usage_of evs) with Some us => Some us | None => pendingUsage r end) /\
    v_content (getCurrentVersion m') =
      visibleContent (parseThinkTags (v_content (getCurrentVersion m) ++ concat (map content_of evs))) /\
    (forall f, last (omap finish_of evs) = Some f -> Pg.finishReason m' = Val f) /\
    (calls <> [] -> toolCalls m' = Some calls) /\
    forall j, j <> getActiveVersionIndex m -> versions m' !! j = versions m !! j.
Proof.
  intros Hnd Hr Hm Hk Hp Hv Hgo. cbn zeta.
  destruct (live_events now src i [EvDone] evs r s m) as (m1 & -> & G); [done..|].
  destruct (noted_events r evs) as (N1 & N2 & N3 & N4 & N5). set (r' := foldl note_event r evs) in *.
  set (s1 := noted src r' i m1 s).
  assert (requests s1 !! src = Some r') as Hr1 by (apply list_lookup_insert_eq; by eapply lookup_lt_Some).
  assert (messages s1 = <[ i := m1 ]> (messages s)) as Hms1 by done.
  cbn [handle_events]. rewrite Hr1. cbn [handle_event]. rewrite N1, <-N5, <-N3. set (tcs := finalizeToolCalls (toolAcc r')).
  split; [apply closeStream_get|]. split; [intros Hg; by apply (closed_after _ _ (set_completedRef _ s1) r')|].
  destruct G as (K & Pe & Co & Ac & Le & Ot). unfold onComplete. cbn zeta.
  set (s2 := closeStream _ _). set (f := on_complete _ _ _ _ _). exists (f m1). split.
  { assert (messages s2 = <[ i := m1 ]> (messages s)) as Hms by apply closeStream_frame.
    cbn [messages updateMessages set_messages set_requestStart]. rewrite Hms, (updateMessageByKey_hit _ _ _ i m1).
    - apply list_lookup_insert_eq. rewrite length_insert. by eapply lookup_lt_Some.
    - by rewrite (insert_keys _ _ m).
    - apply list_lookup_insert_eq. by eapply lookup_lt_Some.
    - congruence. }
  unfold f, on_complete. rewrite pending_not_terminal by done.
  split; [done|]. split; [done|]. set (o := mkFinal _ _ _ _).
  destruct (finalize_versions m1 None o) as (F1 & F2 & F3 & F4); [by apply (versions_nonempty_length m)|]. split_and!.
  - rewrite <-Co, <-F1. reflexivity.
  - intros g Hg. rewrite Hg in N4. unfold o. by rewrite N4.
  - intros Hne. unfold o. by destruct tcs.
  - intros j Hj. rewrite <-(Ot j Hj), <-(F4 j) by congruence. reflexivity.
Qed.

(** C29. Stopping settles everything: no assistant message is left
    pending, every connection is closed and the page is no longer busy. *)
Theorem stopGeneration_settles `{!PlatformLaws P} s :
  reachable s ->
  let s' := stopGeneration s in
  isGenerating s' = false /\
  Forall (fun m => from m = role_assistant -> is_pending (status m) = false) (messages s') /\
  (forall src r, requests s' !! src = Some r -> closed r = true) /\
  map key (messages s') = map key (messages s).
Proof.
  intros [Hc _]%reachable_ok. cbn zeta. destruct (stopStream_frame s) as (F1 & _).
  split; [done|]. split; [|split].
  - apply Forall_map, Forall_forall. intros m _. apply truncate_settles.
  - intros src r Hr. destruct (closed r) eqn:Hcl; [done|].
    pose proof (conn_open _ (conn_ok_stopStream None s Hc) src r Hr Hcl) as Habs. done.
  - change (messages (stopGeneration s)) with (map truncate_message (messages (stopStream None s))).
    rewrite F1, map_map. apply map_ext. intros m. apply key_safe_truncate.
Qed.

(** Citations are collected without repetition: known sources keep
    their place, and a link is added once. *)
Theorem mergeSources_spec m annotations :
  exists added, mergeSources m annotations = Some ((sources m ?? []) ++ added) /\
    NoDup (map href added) /\
    (forall x, x ∈ added -> (href x ∉ map href (sources m ?? [])) /\
       exists a, a ∈ annotations /\ is_citation a = true /\ href x = ann_url a).
Proof.
  unfold mergeSources. cbn zeta. set (new := map _ (bfilter is_citation annotations)).
  exists (unseen (js_set (map href (sources m ?? []))) new). split; [|split].
  - destruct (unseen _ new); cbn [truthy_list]; [by rewrite app_nil_r|done].
  - apply unseen_NoDup.
  - intros x [Hx Hn]%unseen_elem. rewrite elem_of_js_set in Hn. split; [done|].
    apply list_elem_of_fmap in Hx as (a & -> & [Ha Hc]%elem_of_bfilter). by exists a.
Qed.

(** A second failure report replaces the first: the error shown for
    a message is the last one, although the stream was already closed by the
    first. *)
Theorem second_error_overwrites sid e1 c1 e2 c2 s i m :
  NoDup (map key (messages s)) -> messages s !! i = Some m -> key m = sid -> versions m <> [] ->
  includes (completedRef s) sid = false ->
  exists m', messages (handleError sid e2 c2 (handleError sid e1 c1 s)) !! i = Some m' /\
    v_content (getCurrentVersion m') = i18n_t API_REQUEST_ERROR ++ u ": " ++ e2 /\
    errorCode m' = error_code c2.
Proof.
  intros Hnd Hm Hk Hv Hc.
  set (m1 := fail_message e1 c1 m). set (s1 := handleError sid e1 c1 s).
  assert (Hms : messages s1 = <[ i := m1 ]> (messages s)).
  { unfold s1, handleError. rewrite Hc. rewrite (proj1 (closeStream_frame sid (onError sid e1 c1 s))).
    unfold onError, updateMessages, setMessageErrorByKey. cbn [messages set_messages set_requestStart].
    by rewrite (updateMessageByKey_hit _ _ _ i m). }
  assert (Hc1 : includes (completedRef s1) sid = false).
  { unfold s1, handleError. rewrite Hc.
    destruct (closeStream_frame sid (onError sid e1 c1 s)) as (_ & _ & _ & _ & _ & ->). done. }
  destruct (key_safe_fail e1 c1 m) as [K1 V1]. specialize (V1 Hv).
  exists (fail_message e2 c2 m1). split; [|split].
  - unfold handleError at 1. rewrite Hc1, (proj1 (closeStream_frame sid (onError sid e2 c2 s1))).
    unfold onError, updateMessages, setMessageErrorByKey. cbn [messages set_messages set_requestStart].
    rewrite Hms. assert (Hl : i < length (messages s)) by by eapply lookup_lt_Some.
    rewrite (updateMessageByKey_hit _ _ _ i m1).
    + apply list_lookup_insert_eq. by rewrite length_insert.
    + by rewrite (insert_keys _ _ m).
    + by apply list_lookup_insert_eq.
    + by unfold m1; rewrite K1.
  - exact (proj1 (update_current m1 _ V1)).
  - reflexivity.
Qed.

(** Regenerating without streaming drops the earlier versions of a
    reply and leaves the active index beyond the only version that is left, so
    that editing the message afterwards changes nothing. *)
Theorem nonstreaming_regenerate_loses_versions mdl us choice latency m n c :
  versions m <> [] ->
  let m' := on_response mdl us choice latency (pushAssistantVersion m n).1 in
  length (versions m') = 1 /\
  activeVersionIndex m' = Some (Z.of_nat (length (versions m))) /\
  versions (edit_message c m') = versions m'.
Proof.
  intros Hv. cbn zeta. set (m' := on_response mdl us choice latency (pushAssistantVersion m n).1).
  assert (Hl : length (versions m') = 1) by reflexivity.
  assert (Ha : activeVersionIndex m' = Some (Z.of_nat (length (versions m)))).
  { change (activeVersionIndex m') with
      (Some (Z.of_nat (length (versions m ++ [mkVersion (nanoid_at n) [] None None None Undef])) - 1)%Z).
    rewrite length_app. cbn [length]. f_equal. lia. }
  split; [exact Hl|]. split; [exact Ha|]. clearbody m'. rewrite edit_versions, Ha.
  destruct (versions m') as [|v [|]]; [discriminate Hl| |discriminate Hl].
  destruct (versions m) as [|w ws]; [done|]. reflexivity.
Qed.

(** A tool-call fragment that arrives after a stream failed puts the
    failed message back into the streaming state, although the code ignores
    late text for failed messages. *)
Theorem late_tool_call_revives now src r s i m ev :
  NoDup (map key (messages s)) -> requests s !! src = Some r -> messages s !! i = Some m ->
  key m = streamId r -> status m = Some ERROR ->
  (forall text, messages (handle_events now src [EvContent text] s) !! i = Some m) /\
  exists m', messages (handle_events now src [EvToolCall ev] s) !! i = Some m' /\
    status m' = Some STREAMING.
Proof.
  intros Hnd Hr Hm Hk Hs. assert (Hi : i < length (messages s)) by by eapply lookup_lt_Some.
  split.
  - intros text. cbn [handle_events]. rewrite Hr. cbn [handle_event].
    rewrite (onMessageKey_hit _ _ s i m) by done. cbn [messages set_messages].
    rewrite list_lookup_insert_eq by done. unfold on_update. by rewrite Hs.
  - cbn [handle_events]. rewrite Hr. cbn [handle_event].
    exists (on_tool_calls (finalizeToolCalls (applyToolCallDelta (toolAcc r) ev)) m). split; [|reflexivity].
    unfold onMessageKey, updateMessages. cbn [messages set_messages].
    rewrite (proj1 (proj2 (proj2 (updateRequest_frame _ _ _)))).
    rewrite (updateMessageByKey_hit _ _ _ i m) by done. by apply list_lookup_insert_eq.
Qed.

End session.

(** ** Examples *)

Definition plain_config (streaming : bool) : PlaygroundConfig :=
  mkConfig [] (u "gpt-4o") [] DEFAULT_GROUP (num_of_decimal 7 (-1)) (num_of_Z 1)
    (num_of_Z 4096) (num_of_Z 0) (num_of_Z 0) None streaming effort_off (num_of_Z 0) false []
    choice_auto format_text.

Definition say (streaming : bool) (text : jsstr) (s : State) : State :=
  handleSendMessage (P := plain_platform) (plain_config streaming) DEFAULT_PARAMETER_ENABLED 0
    (fun _ => true) text [] s.

Definition one_question : State := say true (u "Hi") empty_state.

Lemma one_question_reachable : reachable (P := plain_platform) None (num_of_Z 1) one_question.
Proof. eapply reach_step; [apply reach_init|]. apply step_send. Defined.

Lemma session_invariant_witness :
  NoDup (map key (messages one_question)) /\ activeCount one_question = 1.
Proof.
  destruct (session_invariant (P := plain_platform) None (num_of_Z 1) one_question one_question_reachable)
    as (H & _).
  split; [exact H|vm_compute; reflexivity].
Defined.

Definition first_request : Request :=
  match requests one_question with r :: _ => r | [] => mkReq [] [] (target_payload (plain_config true) DEFAULT_PARAMETER_ENABLED [] (mkTarget [] [])) None Undef [] false end.

Definition first_reply : Message :=
  match messages one_question with _ :: m :: _ => m | _ => sample_reply end.

Definition first_user : Message :=
  match messages one_question with m :: _ => m | _ => sample_reply end.

Lemma stream_isolation_witness :
  messages (handle_events (P := plain_platform) None (num_of_Z 1) 5 0 [EvContent (u "Hello"); EvDone] one_question) !! 0
  = Some first_user.
Proof.
  apply (stream_isolation (P := plain_platform) None (num_of_Z 1) 5 0 [EvContent (u "Hello"); EvDone]
           one_question first_request 0 first_user).
  - reflexivity.
  - reflexivity.
  - vm_compute. discriminate.
Defined.

Lemma keys_distinct_one_question : NoDup (map key (messages one_question)).
Proof. apply (bool_decide_unpack _). vm_compute. exact I. Qed.

Definition sample_run : list ParsedStreamEvent :=
  [EvContent (u "<think>hm</think>Hel"); EvReasoning (u "so"); EvContent (u "lo"); EvFinish (u "stop"); EvUsage sample_usage].

Lemma stream_run_complete_witness :
  exists m', messages (handle_events (P := plain_platform) None (num_of_Z 1) 5 0 (sample_run ++ [EvDone]) one_question) !! 1 = Some m' /\
    status m' = Some COMPLETE /\ usage m' = Some sample_usage /\ Pg.finishReason m' = Val (u "stop").
Proof.
  destruct (stream_run_complete (P := plain_platform) None (num_of_Z 1) 5 0 first_request 1 first_reply
    sample_run one_question) as (_ & _ & m' & Hm & Hs & Hu & _ & Hf & _).
  - apply keys_distinct_one_question.
  - reflexivity.
  - reflexivity.
  - vm_compute. reflexivity.
  - vm_compute. reflexivity.
  - discriminate.
  - reflexivity.
  - exists m'. split; [exact Hm|]. split; [exact Hs|]. split; [exact Hu|]. by apply Hf.
Defined.

Lemma stopGeneration_settles_witness : isGenerating (stopGeneration one_question) = false.
Proof.
  exact (proj1 (stopGeneration_settles (P := plain_platform) None (num_of_Z 1) one_question one_question_reachable)).
Defined.

Lemma second_error_overwrites_witness :
  exists m', messages (handleError (P := plain_platform) (u "id-2") (u "HTTP 400: Connection closed") None
      (handleError (P := plain_platform) (u "id-2") (u "Invalid model") (Some (u "bad_model")) one_question)) !! 1 = Some m' /\
    v_content (getCurrentVersion m') = u "Request error occurred: HTTP 400: Connection closed" /\
    errorCode m' = Null.
Proof.
  destruct (second_error_overwrites (P := plain_platform) (u "id-2") (u "Invalid model") (Some (u "bad_model"))
    (u "HTTP 400: Connection closed") None one_question 1 first_reply) as (m' & Hm & Hc & He).
  - apply keys_distinct_one_question.
  - reflexivity.
  - vm_compute. reflexivity.
  - discriminate.
  - vm_compute. reflexivity.
  - exists m'. split; [exact Hm|]. split; [|exact He].
    refine (eq_trans Hc _). vm_compute. reflexivity.
Defined.

Definition plain_choice (text : jsstr) : ResponseChoice :=
  mkRespChoice (Some (mkRespMsg (Val text) None None None None)) (u "stop").

Lemma nonstreaming_regenerate_loses_versions_witness :
  length (versions (on_response None (num_of_Z 1) (u "gpt-4o") None (plain_choice (u "B")) 1
    (pushAssistantVersion (P := plain_platform) first_reply 7).1)) = 1.
Proof.
  apply (nonstreaming_regenerate_loses_versions (P := plain_platform) None (num_of_Z 1) (u "gpt-4o") None
    (plain_choice (u "B")) 1 first_reply 7 (u "edited")). discriminate.
Defined.

Definition failed_question : State :=
  handleError (P := plain_platform) (u "id-2") (u "Error parsing response data") None one_question.

Lemma late_tool_call_revives_witness :
  exists m', messages (handle_events (P := plain_platform) None (num_of_Z 1) 5 0
      [EvToolCall (fragment 0 (u "f") (u "{}"))] failed_question) !! 1 = Some m' /\ status m' = Some STREAMING.
Proof.
  apply (late_tool_call_revives (P := plain_platform) None (num_of_Z 1) 5 0
    (set_closed true first_request) failed_question 1
    (fail_message (P := plain_platform) (u "Error parsing response data") None first_reply)
    (fragment 0 (u "f") (u "{}"))).
  - apply (bool_decide_unpack _). vm_compute. exact I.
  - vm_compute. reflexivity.
  - vm_compute. reflexivity.
  - vm_compute. reflexivity.
  - reflexivity.
Defined.

Definition answer (text : jsstr) : Outcome := Responded (mkResponse (Some [plain_choice text]) None).

(** Without streaming, stopping does not detach a request: its late
    answer completes the stopped message, and it also counts down the requests
    in flight, so that the page shows no activity while the next question is
    still waiting for its reply. *)
Theorem late_answer_after_stop :
  let s1 := say false (u "first") empty_state in
  let s2 := stopGeneration s1 in
  let s3 := say false (u "second") s2 in
  let s4 := onOutcome (P := plain_platform) None (num_of_Z 1) 9 0 (answer (u "late")) s3 in
  map status (messages s3) = [None; Some TRUNCATED; None; Some LOADING] /\
  map status (messages s4) = [None; Some COMPLETE; None; Some LOADING] /\
  length (inflight s4) = 1 /\ isGenerating s3 = true /\ isGenerating s4 = false.
Proof. vm_compute. done. Qed.

(** A response without choices leaves its message loading for good:
    nothing is in flight any more and the page is not busy. *)
Theorem empty_response_keeps_loading :
  let s1 := say false (u "first") empty_state in
  let s2 := onOutcome (P := plain_platform) None (num_of_Z 1) 9 0 (Responded (mkResponse (Some []) None)) s1 in
  map status (messages s2) = [None; Some LOADING] /\ inflight s2 = [] /\ isGenerating s2 = false.
Proof. vm_compute. done. Qed.

End Session.
