(* ===== verification/PgRegistry.v ===== *)
(** * The chat session as a connection registry

    An abstract view of the session of [PgSession]: a finite map from stream
    ids to connections, with three moves (open, close, close all).  Every step
    of the session is a sequence of such moves, and the session can always come
    to rest: when the network answers every open request, the page is idle. *)

From S2P Require Import Prelude JsString JsNumber JsJson PgTypes PgMessages PgStreamParser PgPayload PricingModels PgCost PgSession.

Import Pg Messages Sse Payload Cost Session.
Open Scope nat_scope.

Module Registry.

(** ** The specification *)

(** The live connection of each stream id, and the number of connections made. *)
Record registry := mkRegistry { live : gmap jsstr nat; made : nat }.

Inductive move : registry -> registry -> Prop :=
| move_open sid a : move a (mkRegistry (<[sid := made a]> (live a)) (S (made a)))
| move_close sid a : move a (mkRegistry (delete sid (live a)) (made a))
| move_close_all a : move a (mkRegistry ∅ (made a)).

Definition busy (a : registry) : bool := negb (bool_decide (live a = ∅)).

(** ** The view of a session *)

Definition view (s : State) : registry := mkRegistry (list_to_map (sourcesRef s)) (length (requests s)).

Lemma view_lookup (l : list (jsstr * nat)) k : (list_to_map l : gmap jsstr nat) !! k = map_get k l.
Proof.
  induction l as [|[k' v] l IH]; [apply lookup_empty|]. rewrite list_to_map_cons. cbn [map_get].
  destruct (decide (k' = k)) as [->|Hne]; [by rewrite lookup_insert_eq|]. by rewrite lookup_insert_ne.
Qed.

Lemma view_set (l : list (jsstr * nat)) k v : list_to_map (map_set k v l) = <[k := v]> (list_to_map l : gmap jsstr nat).
Proof.
  apply map_eq. intros k'. rewrite view_lookup, map_get_set, lookup_insert, view_lookup. done.
Qed.

Lemma view_delete (l : list (jsstr * nat)) k : list_to_map (map_delete k l) = delete k (list_to_map l : gmap jsstr nat).
Proof.
  apply map_eq. intros k'. rewrite view_lookup, map_get_delete, lookup_delete, view_lookup. done.
Qed.

Lemma updateRequest_length src f s : length (requests (updateRequest src f s)) = length (requests s).
Proof. unfold updateRequest. destruct (requests s !! src); [|done]. cbn. apply length_insert. Qed.

Section steps.
Context {P : Platform} (pricingMap : option (list (jsstr * ModelPricing))) (groupRatio : number).

Abbreviation step := (step pricingMap groupRatio).

(** ** What the steps are made of

    A property of connections and pending requests is preserved by every step
    when it is preserved by these operations. *)

Section primitive.
Context (Q : State -> Prop).

Record primitive : Prop := {
  prim_ext : forall s s', requests s' = requests s -> sourcesRef s' = sourcesRef s -> activeCount s' = activeCount s ->
    pendingCount s' = pendingCount s -> inflight s' = inflight s -> Q s -> Q s';
  prim_update : forall src f s, Q s -> Q (updateRequest src f s);
  prim_close : forall sid s, Q s -> Q (closeStream sid s);
  prim_open : forall sid mdl pl s, Q s -> Q (sendStreamRequest true sid mdl pl s);
  prim_stop : forall s, Q s -> Q (set_pendingCount 0%Z (stopStream None s));
  prim_send : forall x s, Q s -> Q (set_inflight (inflight s ++ [x]) (set_pendingCount (pendingCount s + 1)%Z s));
  prim_settle : forall i s, i < length (inflight s) -> Q s ->
    Q (set_pendingCount (Z.max 0 (pendingCount s - 1)) (set_inflight (delete i (inflight s)) s));
}.

Hypothesis HQ : primitive.

Ltac same s := apply (prim_ext HQ s); [reflexivity..|].

Lemma prim_handleError sid e c s : Q s -> Q (handleError sid e c s).
Proof. intros H. unfold handleError. case_match; [done|]. apply (prim_close HQ). by same s. Qed.

Lemma prim_event now src r ev s : Q s -> Q (handle_event pricingMap groupRatio now src r ev s).1.
Proof.
  intros H. destruct ev; cbn [handle_event fst]; try (by same s).
  - match goal with |- Q (onComplete _ _ _ _ _ _ _ _ ?s1) => same s1 end. apply (prim_close HQ). by same s.
  - by apply (prim_update HQ).
  - by apply (prim_update HQ).
  - match goal with |- Q (onMessageKey _ _ ?s1) => same s1 end. by apply (prim_update HQ).
  - by apply prim_handleError.
Qed.

Lemma prim_sendChat config en now starts msgs targets s :
  Q s -> Q (sendChat config en now starts msgs targets s).
Proof.
  apply sendChat_ind.
  - intros t b s' H. unfold sendStreamingTo.
    assert (Q (sendStreamRequest true (t_key t) (t_model t) (target_payload config en msgs t)
                 (set_requestStart (map_set (t_key t) now (requestStart s')) s'))) as Ho.
    { apply (prim_open HQ). by same s'. }
    destruct b; [done|]. apply (prim_close HQ).
    match type of Ho with Q ?s1 => same s1 end. exact Ho.
  - intros t s' H. by apply (prim_send HQ).
Qed.

Lemma prim_step s s' : step s s' -> Q s -> Q s'.
Proof.
  intros Hs H. destruct Hs as [now src data s s' He|src lst data s s' He|src rs st s|now i o s|s|? ? ? ? ? ? s|? ? ? ? m s|? ? ? ? m results s|k i s|m s|open s|? ? ? ? c submit s|m s|s].
  - unfold onMessageEvent in He. destruct (parseSseData data); [|by simplify_eq|done].
    injection He as <-. apply handle_events_ind; [|done]. intros. by apply prim_event.
  - unfold onErrorEvent in He. destruct (requests s !! src) as [r|]; [|by simplify_eq].
    destruct (source_state r _ =? 2)%Z; [by simplify_eq|]. destruct (error_details data) as [[e c]|]; [|done].
    injection He as <-. by apply prim_handleError.
  - unfold onReadyState. repeat case_match; try done. by apply prim_handleError.
  - unfold onOutcome. destruct (inflight s !! i) as [x|] eqn:Hi; [|done].
    apply lookup_lt_Some in Hi. pose proof (prim_settle HQ i s Hi H) as Hq. unfold settle.
    match type of Hq with Q ?s1 => repeat case_match; same s1; exact Hq end.
  - same (set_pendingCount 0%Z (stopStream None s)). exact (prim_stop HQ s H).
  - unfold handleSendMessage, draw. destruct (createUserMessage _ _ (ids s)) as [um n1].
    cbn [ids set_ids]. destruct (fresh_map _ _ n1) as [ams n2]. apply prim_sendChat. by same s.
  - unfold handleRegenerateMessage, draw. destruct (find_index _ _); [|done].
    destruct (pushAssistantVersion m (ids s)) as [br n1]. apply prim_sendChat. by same s.
  - unfold handleSubmitToolResults, draw. destruct (fresh_map _ results (ids s)) as [tms n1].
    cbn [ids set_ids]. destruct (createLoadingAssistantMessage _ n1) as [lm n2]. apply prim_sendChat. by same s.
  - by same s.
  - by same s.
  - unfold handleEditOpenChange. destruct open; [done|]. by same s.
  - unfold applyEdit, draw. destruct (negb (truthy_opt _)); [done|].
    destruct (find_index _ _); [|done]. cbn zeta. destruct (negb submit || _); [by same s|].
    cbn [ids set_editingMessageKey]. destruct (fresh_map _ _ (ids s)) as [ams n2]. apply prim_sendChat. by same s.
  - by same s.
  - by same s.
Qed.

End primitive.

(** ** Refinement *)

Lemma view_open sid mdl pl s : view (sendStreamRequest true sid mdl pl s) =
  mkRegistry (<[sid := length (requests s)]> (live (view s))) (S (length (requests s))).
Proof.
  unfold sendStreamRequest. cbn zeta. unfold view. cbn [sourcesRef requests set_activeCount set_completedRef set_sourcesRef live].
  set (s1 := set_requests _ s). destruct (map_get sid (sourcesRef s1)) as [old|]; unfold closeSource;
    rewrite ?(proj1 (updateRequest_frame old (set_closed true) s1)), ?updateRequest_length, view_set;
    unfold s1; cbn [sourcesRef requests set_requests]; rewrite length_app, Nat.add_1_r; done.
Qed.

Lemma view_close sid s : view (closeStream sid s) = view s \/ view (closeStream sid s) = mkRegistry (delete sid (live (view s))) (made (view s)).
Proof.
  unfold closeStream. destruct (map_get sid (sourcesRef s)) as [src|]; [right|by left]. cbn zeta.
  unfold view, closeSource. cbn [sourcesRef requests set_activeCount set_sourcesRef live made].
  by rewrite (proj1 (updateRequest_frame src (set_closed true) s)), updateRequest_length, view_delete.
Qed.

Lemma close_all_length (refs : list (jsstr * nat)) : forall s,
  length (requests (foldl (fun s '(_, src) => closeSource src s) s refs)) = length (requests s).
Proof.
  induction refs as [|[k src] refs IH]; intros s; [done|]. cbn [foldl]. rewrite IH. apply updateRequest_length.
Qed.

Lemma moves_primitive a : primitive (fun s => rtc move a (view s)).
Proof.
  split.
  - intros s s' H1 H2 _ _ _ H. unfold view. by rewrite H1, H2.
  - intros src f s H. unfold view. by rewrite (proj1 (updateRequest_frame src f s)), updateRequest_length.
  - intros sid s H. destruct (view_close sid s) as [->| ->]; [done|]. eapply rtc_r; [exact H|]. apply move_close.
  - intros sid mdl pl s H. rewrite view_open. eapply rtc_r; [exact H|]. apply (move_open sid (view s)).
  - intros s H. eapply rtc_r; [exact H|]. unfold view at 2. cbn [sourcesRef requests set_pendingCount stopStream truthy_opt set_activeCount].
    unfold stop_all. cbn [sourcesRef requests set_sourcesRef]. rewrite close_all_length. apply (move_close_all (view s)).
  - intros x s H. exact H.
  - intros i s _ H. exact H.
Qed.

(** C4. The session implements a connection registry: from any reachable state
    every step, of the user or of the network, is a sequence of openings and
    closings of the abstract registry; afterwards exactly the registered
    connections are open, and the page shows itself as streaming exactly when
    the registry is not empty. *)
Theorem session_refines_registry `{!PlatformLaws P} s s' :
  reachable pricingMap groupRatio s -> step s s' ->
  rtc move (view s) (view s') /\
  (forall src r, requests s' !! src = Some r -> closed r = false <-> live (view s') !! streamId r = Some src) /\
  isStreaming s' = busy (view s').
Proof.
  intros Hr Hs. split; [by apply (prim_step _ (moves_primitive (view s)) s s' Hs)|].
  assert (reachable pricingMap groupRatio s') as Hr' by (by eapply reach_step).
  destruct (reachable_ok pricingMap groupRatio s' Hr') as [[K L O C] _]. split.
  - intros src r Hreq. cbn [live view]. rewrite view_lookup. split; [by apply O|].
    intros Hg. destruct (L _ _ Hg) as (r' & Hreq' & _ & Hc). congruence.
  - unfold isStreaming, busy. rewrite C. cbn [live view]. destruct (sourcesRef s') as [|[k v] l]; [done|].
    cbn [length]. rewrite bool_decide_eq_false_2; [done|]. rewrite list_to_map_cons. apply insert_non_empty.
Qed.

(** ** Coming to rest *)

(** No more requests are counted as pending than are in flight. *)
Definition pend_ok (s : State) : Prop := (0 <= pendingCount s <= Z.of_nat (length (inflight s)))%Z.

Lemma closeStream_pending sid s : pendingCount (closeStream sid s) = pendingCount s /\ inflight (closeStream sid s) = inflight s.
Proof. destruct (closeStream_frame sid s) as (_ & _ & H1 & H2 & _). done. Qed.

Lemma updateRequest_pending src f s :
  pendingCount (updateRequest src f s) = pendingCount s /\ inflight (updateRequest src f s) = inflight s.
Proof. unfold updateRequest. by destruct (requests s !! src). Qed.

Lemma pend_primitive : primitive pend_ok.
Proof.
  split; unfold pend_ok.
  - intros s s' _ _ _ -> ->. done.
  - intros src f s H. by destruct (updateRequest_pending src f s) as [-> ->].
  - intros sid s H. by destruct (closeStream_pending sid s) as [-> ->].
  - intros sid mdl pl s H. unfold sendStreamRequest. cbn zeta. cbn [pendingCount inflight set_activeCount set_completedRef set_sourcesRef].
    destruct (map_get _ _) as [old|]; [|done]. unfold closeSource.
    by destruct (updateRequest_pending old (set_closed true) (set_requests (requests s ++ [mkReq sid mdl pl None Undef [] false]) s)) as [-> ->].
  - intros s H. destruct (stopStream_frame s) as (_ & _ & _ & E). cbn [pendingCount inflight set_pendingCount].
    rewrite E. lia.
  - intros x s H. cbn [pendingCount inflight set_pendingCount set_inflight]. rewrite length_app. cbn. lia.
  - intros i s Hi H. cbn [pendingCount inflight set_pendingCount set_inflight].
    rewrite length_delete by (by apply lookup_lt_is_Some_2). lia.
Qed.

Lemma reachable_pend s : reachable pricingMap groupRatio s -> pend_ok s.
Proof. induction 1 as [|s s' _ IH Hs]; [done|]. by apply (prim_step _ pend_primitive s s' Hs). Qed.

(** The moves of the network alone: data of a stream, or the answer to a request. *)
Inductive net_step : State -> State -> Prop :=
| net_message now src data s s' : onMessageEvent pricingMap groupRatio now src data s = Some s' -> net_step s s'
| net_outcome now i outcome s : net_step s (onOutcome pricingMap groupRatio now i outcome s).

Lemma net_step_step s s' : net_step s s' -> step s s'.
Proof. intros [now src data t t' H|now i o t]; [by eapply step_message|apply step_outcome]. Qed.

Definition END_MARKER : jsstr := u "[DONE]".

Lemma end_marker_closes now src r s :
  requests s !! src = Some r ->
  exists s', onMessageEvent pricingMap groupRatio now src END_MARKER s = Some s' /\
    sourcesRef s' = sourcesRef (closeStream (streamId r) s) /\
    pendingCount s' = pendingCount s /\ inflight s' = inflight s.
Proof.
  intros Hr. unfold onMessageEvent. change (parseSseData END_MARKER) with (Events [EvDone]). eexists. split; [reflexivity|].
  cbn [handle_events]. rewrite Hr. cbn [handle_event onComplete updateMessages set_messages sourcesRef pendingCount inflight set_requestStart].
  set (s1 := set_completedRef _ s). destruct (closeStream_pending (streamId r) s1) as [-> ->].
  split; [|done]. unfold closeStream. change (sourcesRef s1) with (sourcesRef s).
  destruct (map_get _ _) as [x|]; [|done]. cbn [sourcesRef set_activeCount set_sourcesRef]. unfold closeSource.
  by rewrite (proj1 (updateRequest_frame x (set_closed true) s1)), (proj1 (updateRequest_frame x (set_closed true) s)).
Qed.

Lemma delete_shorter sid src (l : list (jsstr * nat)) : length (map_delete sid ((sid, src) :: l)) <= length l.
Proof. unfold map_delete. cbn [List.filter fst]. rewrite bool_decide_eq_true_2 by done. cbn [negb]. apply filter_length_le. Qed.

(** Every open stream ends. *)
Lemma streams_end n : forall s,
  conn_ok s -> length (sourcesRef s) <= n ->
  exists s', rtc net_step s s' /\ sourcesRef s' = [] /\ conn_ok s' /\ pendingCount s' = pendingCount s /\ inflight s' = inflight s.
Proof.
  induction n as [|n IH]; intros s Hok Hn.
  - exists s. split; [apply rtc_refl|]. by destruct (sourcesRef s); [|cbn in Hn; lia].
  - destruct (sourcesRef s) as [|[sid src] l] eqn:El; [exists s; by split; [apply rtc_refl|]|].
    destruct (conn_live s Hok sid src) as (r & Hr & Hsid & _); [rewrite El; cbn; by rewrite decide_True|].
    destruct (end_marker_closes 0 src r s Hr) as (s1 & Hs1 & Hrefs & Hp & Hi).
    assert (net_step s s1) as Hnet by (by eapply net_message).
    assert (conn_ok s1) as Hok1 by (eapply step_conn_ok; [apply net_step_step, Hnet|done]).
    destruct (IH s1 Hok1) as (s2 & Hs2 & H1 & H2 & H3 & H4).
    { rewrite Hrefs. unfold closeStream. rewrite El, Hsid. cbn [map_get]. rewrite decide_True by done.
      cbn [sourcesRef set_activeCount set_sourcesRef]. unfold closeSource.
      rewrite (proj1 (updateRequest_frame src (set_closed true) s)), El.
      pose proof (delete_shorter sid src l). cbn in Hn. lia. }
    exists s2. split; [by eapply rtc_l|]. rewrite H3, H4. done.
Qed.

(** Every request in flight is answered. *)
Lemma requests_answered n : forall s,
  length (inflight s) <= n -> sourcesRef s = [] -> conn_ok s -> pend_ok s ->
  exists s', rtc net_step s s' /\ isGenerating s' = false /\ sourcesRef s' = [] /\ inflight s' = [].
Proof.
  induction n as [|n IH]; intros s Hn Hs Hok Hp.
  - exists s. split; [apply rtc_refl|]. destruct (inflight s) as [|x l] eqn:E; [|cbn in Hn; lia]. split; [|done].
    unfold isGenerating, isStreaming. rewrite (conn_count s Hok), Hs. cbn. unfold pend_ok in Hp. rewrite E in Hp. cbn in Hp.
    apply Z.ltb_ge. lia.
  - destruct (inflight s) as [|x l] eqn:E; [apply IH; [rewrite E; cbn; lia|done..]|].
    set (s1 := onOutcome pricingMap groupRatio 0 0 (Failed None None None) s).
    assert (net_step s s1) as Hnet by apply net_outcome.
    assert (step s s1) as Hst by (by apply net_step_step).
    assert (inflight s1 = l /\ sourcesRef s1 = sourcesRef s) as [H1 H2].
    { unfold s1, onOutcome. rewrite E. done. }
    destruct (IH s1) as (s2 & Hs2 & Hrest).
    + rewrite H1. cbn in Hn. lia.
    + by rewrite H2.
    + by eapply step_conn_ok.
    + by apply (prim_step _ pend_primitive s s1 Hst).
    + exists s2. split; [by eapply rtc_l|done].
Qed.

(** C21. The session can always come to rest: from every reachable state the
    network alone, by ending the open streams and answering the requests in
    flight, brings the page to a state that is not generating, with no open
    connection and no request in flight.  No lost counter or leaked connection
    can keep the page busy for ever. *)
Theorem session_comes_to_rest `{!PlatformLaws P} s :
  reachable pricingMap groupRatio s ->
  exists s', rtc net_step s s' /\ reachable pricingMap groupRatio s' /\
    isGenerating s' = false /\ live (view s') = ∅ /\ inflight s' = [].
Proof.
  intros Hr. destruct (reachable_ok pricingMap groupRatio s Hr) as [Hok _]. pose proof (reachable_pend s Hr) as Hp.
  destruct (streams_end (length (sourcesRef s)) s Hok ltac:(lia)) as (s1 & H1 & Hs1 & Hok1 & Hp1 & Hi1).
  destruct (requests_answered (length (inflight s1)) s1) as (s2 & H2 & Hg & Hs2 & Hi2); [lia|done|done| |].
  { unfold pend_ok. by rewrite Hp1, Hi1. }
  assert (rtc net_step s s2) as Hrun by (by transitivity s1).
  exists s2. split; [done|]. split; [|split; [done|]; split; [by cbn; rewrite Hs2|done]].
  clear -Hr Hrun. induction Hrun as [|s s1 s2 Hn _ IH]; [done|]. apply IH. eapply reach_step; [done|]. by apply net_step_step.
Qed.

End steps.

(** ** Witnesses *)

Lemma session_refines_registry_witness :
  rtc move (view empty_state) (view one_question).
Proof.
  apply (session_refines_registry (P := plain_platform) None (num_of_Z 1) empty_state one_question).
  - apply reach_init.
  - apply step_send.
Defined.

Lemma session_comes_to_rest_witness :
  exists s', rtc (net_step (P := plain_platform) None (num_of_Z 1)) one_question s' /\ isGenerating s' = false.
Proof.
  destruct (session_comes_to_rest (P := plain_platform) None (num_of_Z 1) one_question) as (s' & H1 & _ & H2 & _).
  - apply one_question_reachable.
  - exists s'. split; [exact H1|exact H2].
Defined.

End Registry.
