(* ===== verification/HttpStatusRules.v ===== *)
(** * HTTP status-code rules  (web/default/src/lib/http-status-code-rules.ts)

    The administrator writes rules such as [401, 500-503]; the module parses
    them, reports the tokens it cannot read, merges overlapping and adjacent
    ranges and prints the normal form.  Codes are small non-negative integers,
    so they are [Z]; [parseInt] of a digit string longer than a double can
    hold is rounded by JavaScript but stays above 599, so the range test gives
    the same verdict as on the exact value. *)

From S2P Require Import Prelude JsString.
From Stdlib Require Import Sorted.

Open Scope Z_scope.

Module HttpStatus.

Record StatusCodeRange := mkRange { start : Z; end_ : Z }.

Record ParsedHttpStatusCodeRules := mkParsed {
  ok : bool;
  ranges : list StatusCodeRange;
  tokens : list jsstr;
  normalized : jsstr;
  invalidTokens : list jsstr;
}.

#[export] Instance range_eq_dec : EqDecision StatusCodeRange.
Proof. solve_decision. Defined.

(** [isNumber] *)
Definition isNumber (s : jsstr) : bool := all_digits s.

Definition parse_int (s : jsstr) : Z := Z.of_N (digits_val s).

(** the [isValidCode] closure of [parseToken] *)
Definition isValidCode (code : Z) : bool := (100 <=? code) && (code <=? 599).

Definition comma : N := 44%N.
Definition fullwidth_comma : N := 65292%N.
Definition dash : N := 45%N.

Definition parseToken (token : jsstr) : option StatusCodeRange :=
  let cleaned := remove_class is_ws (trim token) in
  if negb (truthy cleaned) then None
  else if bool_decide (dash ∈ cleaned) then
    match split_on dash cleaned with
    | a :: b :: _ =>
        if negb (isNumber a) || negb (isNumber b) then None
        else
          let s := parse_int a in
          let e := parse_int b in
          if negb (isValidCode s) || negb (isValidCode e) || (e <? s) then None
          else Some (mkRange s e)
    | _ => None
    end
  else if negb (isNumber cleaned) then None
  else
    let code := parse_int cleaned in
    if negb (isValidCode code) then None else Some (mkRange code code).

(** the comparator of [mergeRanges] *)
Definition cmp_range (a b : StatusCodeRange) : Z :=
  if start a =? start b then end_ a - end_ b else start a - start b.

(** one step of the [reduce]: [last.end] is updated in place *)
Definition merge_step (merged : list StatusCodeRange) (current : StatusCodeRange)
  : list StatusCodeRange :=
  match last merged with
  | None => merged ++ [current]
  | Some l =>
      if end_ l + 1 <? start current then merged ++ [current]
      else <[ pred (length merged) :=
                mkRange (start l) (Z.max (end_ l) (end_ current)) ]> merged
  end.

Definition mergeRanges (rs : list StatusCodeRange) : list StatusCodeRange :=
  match rs with
  | [] => []
  | _ => foldl merge_step [] (js_sort cmp_range rs)
  end.

Definition token_of (r : StatusCodeRange) : jsstr :=
  if start r =? end_ r then Z_to_str (start r)
  else Z_to_str (start r) ++ [dash] ++ Z_to_str (end_ r).

(** the [segments] of the input: sanitised, split, trimmed, empties dropped *)
Definition segments (raw : jsstr) : list jsstr :=
  let sanitized := map (fun c => if (c =? fullwidth_comma)%N then comma else c) raw in
  bfilter truthy (map trim (split_on comma sanitized)).

Definition parseHttpStatusCodeRules (input : option jsstr) : ParsedHttpStatusCodeRules :=
  let raw := trim (input ?? []) in
  if negb (truthy raw) then mkParsed true [] [] [] []
  else
    let segs := segments raw in
    let rs := omap parseToken segs in
    let invalid := bfilter (fun s => bool_decide (parseToken s = None)) segs in
    if truthy_list invalid then mkParsed false [] [] raw invalid
    else
      let merged := mergeRanges rs in
      let toks := map token_of merged in
      mkParsed true merged toks (join [comma] toks) [].

(** ** Meaning *)

(** The set of codes a list of ranges stands for. *)
Definition covers (rs : list StatusCodeRange) (c : Z) : Prop :=
  exists r, r ∈ rs /\ start r <= c <= end_ r.

Definition valid_range (r : StatusCodeRange) : Prop :=
  100 <= start r /\ start r <= end_ r /\ end_ r <= 599.

(** Increasing, disjoint, and not even adjacent. *)
Definition before (a b : StatusCodeRange) : Prop := end_ a + 1 < start b.

Definition canonical (rs : list StatusCodeRange) : Prop :=
  Forall valid_range rs /\ StronglySorted before rs.

(** ** Lemmas: reading one token *)

Lemma isValidCode_spec c : isValidCode c = true <-> 100 <= c <= 599.
Proof. unfold isValidCode. rewrite andb_true_iff, !Z.leb_le. lia. Qed.

Lemma parseToken_valid t r : parseToken t = Some r -> valid_range r.
Proof.
  unfold parseToken. intros H.
  repeat (case_match; try discriminate); injection H as <-; bool_to_prop; cbn in *;
    repeat match goal with
           | H : isValidCode _ = true |- _ => apply isValidCode_spec in H
           end; unfold valid_range; cbn; lia.
Qed.

(** ** Lemmas: merging *)

Lemma covers_nil c : ~ covers [] c.
Proof. intros (r & Hr & _). set_solver. Qed.

Lemma covers_cons r rs c : covers (r :: rs) c <-> (start r <= c <= end_ r) \/ covers rs c.
Proof.
  split.
  - intros (x & [->|Hx]%elem_of_cons & Hc); [by left|]. right. by exists x.
  - intros [H|(x & Hx & Hc)]; [exists r|exists x]; split; try done; set_solver.
Qed.

Lemma covers_app rs qs c : covers (rs ++ qs) c <-> covers rs c \/ covers qs c.
Proof.
  induction rs as [|r rs IH]; cbn [app]; [|rewrite !covers_cons, IH; tauto].
  split; [by right|]. intros [[]%covers_nil|]; done.
Qed.

Lemma covers_perm rs qs c : rs ≡ₚ qs -> covers rs c <-> covers qs c.
Proof. intros H. unfold covers. by setoid_rewrite H. Qed.

Lemma merge_step_snoc pre l r :
  merge_step (pre ++ [l]) r =
    if end_ l + 1 <? start r then pre ++ [l; r]
    else pre ++ [mkRange (start l) (Z.max (end_ l) (end_ r))].
Proof.
  unfold merge_step. rewrite last_snoc. destruct (_ <? _); [by rewrite <- app_assoc|].
  rewrite length_app, Nat.add_1_r. cbn [pred length].
  replace (length pre) with (length pre + 0)%nat by lia.
  by rewrite insert_app_r.
Qed.

(** Ranges are ordered by their start. *)
Definition start_le (a b : StatusCodeRange) : Prop :=
  start a < start b \/ (start a = start b /\ end_ a <= end_ b).

#[export] Instance cmp_range_sorts : SortsBy cmp_range start_le.
Proof.
  split; [intros x y z; unfold start_le; lia| |]; intros x y; unfold cmp_range, start_le;
    destruct (Z.eqb_spec (start x) (start y)); lia.
Qed.

Lemma canonical_snoc pre l :
  canonical (pre ++ [l]) <->
  canonical pre /\ valid_range l /\ Forall (fun r => before r l) pre.
Proof.
  unfold canonical. rewrite Forall_app, Forall_singleton.
  split.
  - intros [[Hp Hl] Hs]. split_and!; try done.
    + by apply StronglySorted_app_1_l in Hs.
    + apply Forall_forall. intros r Hr. eapply StronglySorted_app_1_elem_of; [done..|by left].
  - intros ([Hp Hs] & Hl & Hb). split_and!; try done.
    apply StronglySorted_app_2; [|done|repeat constructor].
    intros x y Hx ->%list_elem_of_singleton. by eapply Forall_forall in Hb.
Qed.

Lemma merge_fold rs : forall pre l,
  canonical (pre ++ [l]) -> Forall valid_range rs ->
  Forall (fun r => start l <= start r) rs -> StronglySorted start_le rs ->
  canonical (foldl merge_step (pre ++ [l]) rs) /\
  forall c, covers (foldl merge_step (pre ++ [l]) rs) c <-> covers (pre ++ [l]) c \/ covers rs c.
Proof.
  induction rs as [|r rs IH]; intros pre l Hcan Hval Hlo Hsort; cbn [foldl].
  { split; [done|]. intros c. pose proof (covers_nil c). tauto. }
  inversion Hval as [|? ? Hr Hrs]; inversion Hlo as [|? ? Hlr Hlrs];
    inversion Hsort as [|? ? Hs Hf]; subst.
  pose proof Hcan as (Hpre & Hl & Hb)%canonical_snoc.
  rewrite merge_step_snoc. destruct (Z.ltb_spec (end_ l + 1) (start r)) as [Hlt|Hge].
  - replace (pre ++ [l; r]) with ((pre ++ [l]) ++ [r]) by (by rewrite <- app_assoc).
    destruct (IH (pre ++ [l]) r) as [IH1 IH2]; try done.
    + apply canonical_snoc. split_and!; [done|done|].
      apply Forall_app. split; [|by rewrite Forall_singleton].
      eapply Forall_impl; [exact Hb|]. intros x. unfold before, valid_range in *. lia.
    + eapply Forall_impl; [exact Hf|]. intros x. unfold start_le. lia.
    + split; [done|]. intros c. rewrite IH2, covers_app, !covers_cons.
      pose proof (covers_nil c). tauto.
  - set (m := mkRange (start l) (Z.max (end_ l) (end_ r))).
    destruct (IH pre m) as [IH1 IH2]; try done.
    + apply canonical_snoc. split_and!; [done| |done].
      unfold valid_range, m in *. cbn. lia.
    + split; [done|]. intros c. rewrite IH2, !covers_app, !covers_cons.
      unfold m, valid_range in *. cbn. pose proof (covers_nil c).
      assert (start l <= c <= Z.max (end_ l) (end_ r) <->
              start l <= c <= end_ l \/ start r <= c <= end_ r) by lia.
      tauto.
Qed.

Lemma mergeRanges_spec rs :
  Forall valid_range rs ->
  canonical (mergeRanges rs) /\ forall c, covers (mergeRanges rs) c <-> covers rs c.
Proof.
  intros Hval. destruct rs as [|r0 rs0]; [by repeat constructor|].
  unfold mergeRanges. set (rs := r0 :: rs0) in *.
  pose proof (js_sort_sorted cmp_range start_le rs) as Hs.
  pose proof (js_sort_perm cmp_range rs) as Hp.
  assert (Forall valid_range (js_sort cmp_range rs)) as Hv by (by rewrite Hp).
  setoid_rewrite <- (covers_perm _ _ _ Hp).
  destruct (js_sort cmp_range rs) as [|a l]; [by apply Permutation_nil_cons in Hp|].
  inversion Hv; inversion Hs as [|? ? Hs' Hf]; subst. cbn [foldl]. change (merge_step [] a) with ([] ++ [a]).
  destruct (merge_fold l [] a) as [H1' H2']; try done.
  - split; [by apply Forall_singleton|]. constructor; [constructor|done].
  - eapply Forall_impl; [exact Hf|]. intros x. unfold start_le. lia.
  - split; [done|]. intros c. rewrite H2'. cbn [app]. rewrite !covers_cons.
    pose proof (covers_nil c). tauto.
Qed.

(** ** Lemmas: the normal form is unique *)

Lemma canonical_cons r rs :
  canonical (r :: rs) -> valid_range r /\ canonical rs /\ forall c, covers rs c -> end_ r + 1 < c.
Proof.
  intros [Hv Hs]. inversion Hv; inversion Hs as [|? ? Hs' Hf]; subst. split_and!; try done.
  intros c (x & Hx & Hc). eapply Forall_forall in Hf; [|done]. unfold before in Hf. lia.
Qed.

Lemma canonical_unique rs : forall qs,
  canonical rs -> canonical qs -> (forall c, covers rs c <-> covers qs c) -> rs = qs.
Proof.
  induction rs as [|r rs IH]; intros [|q qs] Hr Hq Heq; [done| | |].
  - apply canonical_cons in Hq as ((? & ? & ?) & _). destruct (covers_nil (start q)).
    apply Heq, covers_cons. lia.
  - apply canonical_cons in Hr as ((? & ? & ?) & _). destruct (covers_nil (start r)).
    apply Heq, covers_cons. lia.
  - pose proof Hr as ((? & ? & ?) & Hcr & Hlr)%canonical_cons.
    pose proof Hq as ((? & ? & ?) & Hcq & Hlq)%canonical_cons.
    setoid_rewrite covers_cons in Heq.
    assert (start r = start q) as Hst.
    { destruct (proj1 (Heq (start r))) as [|?%Hlq]; [lia| |];
        destruct (proj2 (Heq (start q))) as [|?%Hlr]; lia. }
    assert (end_ r = end_ q) as Hen.
    { destruct (Z.lt_trichotomy (end_ r) (end_ q)) as [?|[?|?]]; [|done|].
      - destruct (proj2 (Heq (end_ r + 1))) as [|?%Hlr]; lia.
      - destruct (proj1 (Heq (end_ q + 1))) as [|?%Hlq]; lia. }
    destruct r as [sr er], q as [sq eq]; cbn in *; subst. f_equal.
    apply IH; [done..|]. intros c. split; intros Hc.
    + pose proof (Hlr _ Hc). destruct (proj1 (Heq c)); [by right|lia|done].
    + pose proof (Hlq _ Hc). destruct (proj2 (Heq c)); [by right|lia|done].
Qed.

Lemma mergeRanges_canonical_id rs : canonical rs -> mergeRanges rs = rs.
Proof.
  intros H. destruct (mergeRanges_spec rs) as [H1 H2]; [apply H|].
  by apply canonical_unique.
Qed.

(** ** Lemmas: printing and reading back a token *)

Lemma Z_to_str_nonneg z : 0 <= z -> Z_to_str z = N_to_str (Z.to_N z).
Proof. destruct z; [done..|lia]. Qed.

Lemma digits_no_dash s : all_digits s = true -> dash ∉ s.
Proof. intros H Hin. by specialize (all_digits_elem s dash H Hin). Qed.

Lemma remove_class_id p s : (forall c, c ∈ s -> p c = false) -> remove_class p s = s.
Proof. intros H. apply bfilter_all. intros c Hc. by rewrite (H c Hc). Qed.

Lemma token_of_chars r c :
  valid_range r -> c ∈ token_of r -> is_digit c = true \/ c = dash.
Proof.
  intros (? & ? & ?). unfold token_of. rewrite !Z_to_str_nonneg by lia.
  assert (forall n, c ∈ N_to_str n -> is_digit c = true) as Hd.
  { intros n. apply all_digits_elem, N_to_str_digits. }
  case_match; [eauto|]. rewrite !elem_of_app, list_elem_of_singleton.
  intros [?|[->|?]]; eauto.
Qed.

Lemma dash_not_ws : is_ws dash = false.
Proof. reflexivity. Qed.

Lemma token_of_no_ws r c : valid_range r -> c ∈ token_of r -> is_ws c = false.
Proof.
  intros Hr [Hc| ->]%token_of_chars; [by apply is_digit_not_ws|apply dash_not_ws|done].
Qed.

Lemma token_of_no_comma r : valid_range r -> comma ∉ token_of r.
Proof. intros Hr [Hc|Hc]%token_of_chars; done. Qed.

Lemma no_ws_trim s : (forall c, c ∈ s -> is_ws c = false) -> trim s = s.
Proof.
  intros H. apply trim_id, ws_free_no_ws, forallb_forall.
  intros c Hc%list_elem_of_In. by rewrite H.
Qed.

Lemma token_of_truthy r : valid_range r -> truthy (token_of r) = true.
Proof.
  intros (? & ? & ?). unfold token_of. rewrite !Z_to_str_nonneg by lia.
  pose proof (N_to_str_ne (Z.to_N (start r))).
  case_match; destruct (N_to_str (Z.to_N (start r))); done.
Qed.

Lemma parse_int_print z : 0 <= z -> parse_int (N_to_str (Z.to_N z)) = z.
Proof. intros. unfold parse_int. rewrite N_to_str_val. lia. Qed.

Lemma parseToken_token_of r : valid_range r -> parseToken (token_of r) = Some r.
Proof.
  intros Hr. unfold parseToken.
  assert (remove_class is_ws (trim (token_of r)) = token_of r) as ->.
  { rewrite no_ws_trim by (intros; by eapply token_of_no_ws).
    apply remove_class_id. intros. by eapply token_of_no_ws. }
  rewrite token_of_truthy by done. cbn [negb].
  destruct r as [s e], Hr as (? & ? & ?); cbn in *.
  assert (isValidCode s = true) as Hs by (apply isValidCode_spec; lia).
  assert (isValidCode e = true) as He by (apply isValidCode_spec; lia).
  unfold token_of; cbn. rewrite !Z_to_str_nonneg by lia.
  pose proof (N_to_str_digits (Z.to_N s)) as Ds. pose proof (N_to_str_digits (Z.to_N e)) as De.
  destruct (Z.eqb_spec s e) as [->|Hne].
  - rewrite bool_decide_false by (by apply digits_no_dash). unfold isNumber. rewrite Ds.
    cbn [negb]. rewrite parse_int_print by lia. by rewrite Hs.
  - rewrite bool_decide_true by (rewrite elem_of_app; right; by left).
    rewrite split_on_app by (by apply digits_no_dash).
    rewrite split_on_no_sep by (by apply digits_no_dash).
    unfold isNumber. rewrite Ds, De. cbn [negb orb].
    rewrite !parse_int_print by lia. rewrite Hs, He. cbn [negb orb].
    by rewrite (proj2 (Z.ltb_ge e s)) by lia.
Qed.

Lemma sanitize_id s :
  (forall c, c ∈ s -> c <> fullwidth_comma) ->
  map (fun c => if (c =? fullwidth_comma)%N then comma else c) s = s.
Proof.
  induction s as [|x s IH]; intros H; [done|]. cbn [map].
  rewrite (proj2 (N.eqb_neq _ _)) by (apply H; by left).
  f_equal. apply IH. intros c Hc. apply H. by right.
Qed.

Lemma segments_tokens rs :
  rs <> [] -> Forall valid_range rs ->
  segments (join [comma] (map token_of rs)) = map token_of rs.
Proof.
  intros Hne Hv. unfold segments.
  assert (forall c, c ∈ join [comma] (map token_of rs) -> c <> fullwidth_comma) as Hfw.
  { intros c [->%list_elem_of_singleton|(t & Ht & Hc)]%join_elem; [done|].
    apply list_elem_of_In, in_map_iff in Ht as (r & <- & Hr%list_elem_of_In).
    eapply Forall_forall in Hv; [|done].
    apply token_of_chars in Hc as [Hc| ->]; [|done|done]. by intros ->. }
  rewrite sanitize_id by done.
  rewrite split_join.
  - rewrite map_map. rewrite (map_ext_in _ token_of).
    + apply bfilter_all. intros t Ht.
      apply list_elem_of_In, in_map_iff in Ht as (r & <- & Hr%list_elem_of_In).
      eapply Forall_forall in Hv; [|done]. by apply token_of_truthy.
    + intros r Hr%list_elem_of_In. eapply Forall_forall in Hv; [|done].
      apply no_ws_trim. intros. by eapply token_of_no_ws.
  - by destruct rs.
  - apply Forall_forall. intros t Ht.
    apply list_elem_of_In, in_map_iff in Ht as (r & <- & Hr%list_elem_of_In).
    eapply Forall_forall in Hv; [|done]. by apply token_of_no_comma.
Qed.

Lemma omap_parse_tokens rs :
  Forall valid_range rs -> omap parseToken (map token_of rs) = rs.
Proof.
  induction 1 as [|r rs Hr Hrs IH]; cbn; [done|]. rewrite parseToken_token_of by done.
  by f_equal.
Qed.

(** The segments of an input and the ranges they denote. *)
Definition input_segments (input : option jsstr) : list jsstr :=
  let raw := trim (input ?? []) in
  if truthy raw then segments raw else [].

Lemma parse_unfold input :
  let p := parseHttpStatusCodeRules input in
  let segs := input_segments input in
  (ok p = true /\ Forall (fun s => parseToken s <> None) segs /\
   ranges p = mergeRanges (omap parseToken segs) /\ tokens p = map token_of (ranges p) /\
   normalized p = join [comma] (tokens p) /\ invalidTokens p = [])
  \/ (ok p = false /\ ranges p = [] /\ tokens p = [] /\ invalidTokens p <> [] /\
      normalized p = trim (input ?? []) /\
      invalidTokens p = bfilter (fun s => bool_decide (parseToken s = None)) segs).
Proof.
  cbn zeta. unfold parseHttpStatusCodeRules, input_segments.
  destruct (truthy (trim (input ?? []))) eqn:Ht; cbn [negb]; [|left; split_and!; done].
  set (segs := segments _).
  destruct (bfilter _ segs) as [|x inv] eqn:Hinv; cbn [truthy_list]; [left|right; by split_and!].
  split_and!; try done. apply Forall_forall. intros s Hs Hn.
  assert (s ∈ bfilter (fun s => bool_decide (parseToken s = None)) segs) as Hin.
  { apply elem_of_bfilter. by rewrite bool_decide_true. }
  rewrite Hinv in Hin. set_solver.
Qed.

Lemma omap_parse_valid segs : Forall valid_range (omap parseToken segs).
Proof.
  apply Forall_forall. intros r (s & _ & Hs)%list_elem_of_omap. by eapply parseToken_valid.
Qed.

Lemma covers_omap segs c :
  covers (omap parseToken segs) c <->
  exists s r, s ∈ segs /\ parseToken s = Some r /\ start r <= c <= end_ r.
Proof.
  unfold covers. setoid_rewrite list_elem_of_omap. naive_solver.
Qed.

(** ** Theorems *)

(** C34. A successful parse returns ranges inside 100..599 that are increasing,
    pairwise disjoint and not adjacent, and prints exactly them. *)
Theorem parse_ok_canonical input :
  ok (parseHttpStatusCodeRules input) = true ->
  canonical (ranges (parseHttpStatusCodeRules input)) /\
  tokens (parseHttpStatusCodeRules input) =
    map token_of (ranges (parseHttpStatusCodeRules input)) /\
  normalized (parseHttpStatusCodeRules input) =
    join [comma] (tokens (parseHttpStatusCodeRules input)).
Proof.
  intros Hok. destruct (parse_unfold input) as [(_ & _ & Hr & Ht & Hn & _)|[Hf _]]; [|congruence].
  split_and!; [|done|done]. rewrite Hr. apply mergeRanges_spec, omap_parse_valid.
Qed.

(** Merging loses no code and adds none: a code is in a returned range
    exactly when some segment of the input denotes it. *)
Theorem parse_ok_covers input c :
  ok (parseHttpStatusCodeRules input) = true ->
  covers (ranges (parseHttpStatusCodeRules input)) c <->
  exists s r, s ∈ input_segments input /\ parseToken s = Some r /\ start r <= c <= end_ r.
Proof.
  intros Hok. destruct (parse_unfold input) as [(_ & _ & Hr & _)|[Hf _]]; [|congruence].
  rewrite Hr. rewrite <- covers_omap. apply mergeRanges_spec, omap_parse_valid.
Qed.


Lemma join_tokens_truthy rs :
  Forall valid_range rs -> rs <> [] -> truthy (join [comma] (map token_of rs)) = true.
Proof.
  destruct 1 as [|r rs Hr Hrs]; [done|]. intros _. cbn [map].
  pose proof (token_of_truthy r Hr). destruct rs; cbn [map join]; [done|].
  by destruct (token_of r).
Qed.

Lemma join_tokens_trim rs :
  Forall valid_range rs ->
  trim (join [comma] (map token_of rs)) = join [comma] (map token_of rs).
Proof.
  intros Hv. apply no_ws_trim.
  intros c [->%list_elem_of_singleton|(t & Ht & Hc)]%join_elem; [reflexivity|].
  apply list_elem_of_In, in_map_iff in Ht as (r & <- & Hr%list_elem_of_In).
  eapply Forall_forall in Hv; [|done]. by eapply token_of_no_ws.
Qed.

(** Parsing the normalised text of a successful parse gives that parse
    back: the settings form can store the normal form. *)
Theorem parse_normalized_roundtrip input :
  ok (parseHttpStatusCodeRules input) = true ->
  parseHttpStatusCodeRules (Some (normalized (parseHttpStatusCodeRules input))) =
  parseHttpStatusCodeRules input.
Proof.
  intros Hok.
  destruct (parse_unfold input) as [(_ & _ & Hr & Ht & Hn & Hi)|[Hf _]]; [|congruence].
  pose proof (proj1 (mergeRanges_spec _ (omap_parse_valid (input_segments input)))) as Hcan.
  rewrite <- Hr in Hcan. pose proof Hcan as [Hv _].
  set (p := parseHttpStatusCodeRules input) in *. rewrite Hn, Ht.
  unfold parseHttpStatusCodeRules at 1. unfold coalesce, from_option, id.
  rewrite join_tokens_trim by done.
  destruct (decide (ranges p = [])) as [He|Hne].
  { rewrite He in *. rewrite Ht in Hn. clearbody p. destruct p; cbn in *. by subst. }
  rewrite join_tokens_truthy by done. cbn [negb].
  rewrite segments_tokens by done. rewrite omap_parse_tokens by done.
  rewrite bfilter_none.
  - cbn [truthy_list]. rewrite mergeRanges_canonical_id by done.
    clearbody p. destruct p; cbn in *. by subst.
  - intros t Hin. apply list_elem_of_In, in_map_iff in Hin as (r & <- & Hr'%list_elem_of_In).
    eapply Forall_forall in Hv; [|done]. rewrite parseToken_token_of by done.
    by apply bool_decide_false.
Qed.

(** The parse fails exactly when a segment cannot be read; then it returns
    no range, keeps the raw text and lists the unreadable segments in order. *)
Theorem parse_error_spec input :
  ok (parseHttpStatusCodeRules input) = false <->
  (exists s, s ∈ input_segments input /\ parseToken s = None) /\
  ranges (parseHttpStatusCodeRules input) = [] /\
  normalized (parseHttpStatusCodeRules input) = trim (input ?? []) /\
  invalidTokens (parseHttpStatusCodeRules input) =
    bfilter (fun s => bool_decide (parseToken s = None)) (input_segments input).
Proof.
  destruct (parse_unfold input) as [(Hok & Hall & _)|(Hok & Hr & _ & Hne & Hn & Hi)];
    rewrite Hok; (split; [try done|try done]).
  - intros ((s & Hs & Hp) & _). eapply Forall_forall in Hall; done.
  - intros _. split_and!; [|done..].
    destruct (invalidTokens _) as [|t ts] eqn:E; [done|]. exists t.
    assert (t ∈ t :: ts) as Hin by (by left). rewrite Hi in Hin.
    apply elem_of_bfilter in Hin as [Hin Hd]. split; [done|]. by apply bool_decide_eq_true in Hd.
Qed.

(** A token with more than one dash is accepted and everything after the
    second number is dropped: [100-200-300] is read as 100..200. *)
Theorem parseToken_ignores_extra_dash a b rest :
  100 <= a <= b -> b <= 599 ->
  (forall c, c ∈ rest -> is_ws c = false) ->
  parseToken (token_of (mkRange a b) ++ (if a =? b then [dash] ++ Z_to_str b else []) ++ [dash] ++ rest)
  = Some (mkRange a b).
Proof.
  intros Ha Hb Hrest.
  replace (token_of (mkRange a b) ++ (if a =? b then [dash] ++ Z_to_str b else []) ++ [dash] ++ rest)
    with (N_to_str (Z.to_N a) ++ dash :: (N_to_str (Z.to_N b) ++ dash :: rest)).
  2:{ unfold token_of; cbn. rewrite !Z_to_str_nonneg by lia.
      destruct (Z.eqb_spec a b) as [->|_]; cbn; by rewrite <- ?app_assoc. }
  set (s := _ ++ _). assert (forall c, c ∈ s -> is_ws c = false) as Hws.
  { assert (forall n c, c ∈ N_to_str n -> is_ws c = false) as Hn.
    { intros n c Hc. apply is_digit_not_ws. eapply all_digits_elem; [apply N_to_str_digits|done]. }
    intros c. unfold s. rewrite elem_of_app, elem_of_cons, elem_of_app, elem_of_cons.
    intros [?|[->|[?|[->|?]]]]; eauto using dash_not_ws. }
  unfold parseToken. rewrite no_ws_trim by done. rewrite remove_class_id by done.
  assert (truthy s = true) as ->.
  { unfold s. pose proof (N_to_str_ne (Z.to_N a)). by destruct (N_to_str (Z.to_N a)). }
  rewrite bool_decide_true by (unfold s; rewrite elem_of_app; right; by left).
  unfold s. rewrite !split_on_app by (apply digits_no_dash, N_to_str_digits). cbn [negb].
  unfold isNumber. rewrite !N_to_str_digits. cbn [negb orb]. rewrite !parse_int_print by lia.
  rewrite !(proj2 (isValidCode_spec _)) by lia. cbn [negb orb].
  by rewrite (proj2 (Z.ltb_ge b a)) by lia.
Qed.

(** ** Witnesses *)

Lemma parse_ok_canonical_witness :
  canonical (ranges (parseHttpStatusCodeRules (Some (u "500-503, 401，504")))).
Proof. apply (parse_ok_canonical (Some (u "500-503, 401，504"))). reflexivity. Defined.

Lemma parse_ok_covers_witness :
  covers (ranges (parseHttpStatusCodeRules (Some (u "500-503,401")))) 502.
Proof.
  apply (parse_ok_covers (Some (u "500-503,401")) 502); [reflexivity|].
  exists (u "500-503"), (mkRange 500 503).
  split; [by left|]. split; [reflexivity|]. cbn. lia.
Defined.


Lemma parse_normalized_roundtrip_witness :
  parseHttpStatusCodeRules (Some (u "401,500-504")) =
  parseHttpStatusCodeRules (Some (u "500-503, 401，504")).
Proof. apply (parse_normalized_roundtrip (Some (u "500-503, 401，504"))). reflexivity. Defined.

Lemma parseToken_ignores_extra_dash_witness :
  parseToken (u "100-200-300") = Some (mkRange 100 200).
Proof.
  apply (parseToken_ignores_extra_dash 100 200 (u "300")); [lia|lia|].
  intros c Hc. cut (forallb (fun c => negb (is_ws c)) (u "300") = true); [|reflexivity].
  rewrite forallb_forall. intros H. apply negb_true_iff, H, list_elem_of_In, Hc.
Defined.

End HttpStatus.
