(* ===== verification/StatusCodeRisk.v ===== *)
(** * Status-code redirect guard
      (web/default/src/features/channels/lib/status-code-risk-guard.ts)

    A channel may rewrite the status codes of its upstream with a JSON object.
    The guard lists the entries it cannot read and the ones that rewrite a
    code that must reach the client unchanged (504 and 524). *)

From S2P Require Import Prelude JsString JsNumber JsJson.

Open Scope Z_scope.

Module StatusRisk.

Definition NON_REDIRECTABLE_STATUS_CODES : list Z := [504; 524].

(** [/^[1-5]\d{2}$/] *)
Definition three_digit_code (s : jsstr) : bool :=
  match s with
  | [a; b; c] => ((49 <=? a) && (a <=? 53))%N && is_digit b && is_digit c
  | _ => false
  end.

Definition parseStatusCodeKey (rawKey : jsstr) : option Z :=
  let normalized := trim rawKey in
  if negb (three_digit_code normalized) then None
  else Some (Z.of_N (digits_val normalized)).

Definition in_code_range (z : Z) : bool := (100 <=? z) && (z <=? 599).

Definition parseStatusCodeMappingTarget (rawValue : json) : option Z :=
  match rawValue with
  | JNum n =>
      match num_int n with
      | Some z => if in_code_range z then Some z else None
      | None => None
      end
  | JStr s =>
      let normalized := trim s in
      if negb (three_digit_code normalized) then None
      else
        let code := Z.of_N (digits_val normalized) in
        if in_code_range code then Some code else None
  | _ => None
  end.

(** The common prologue: a blank text, a syntax error and a value that is not
    a plain object all give no entries. *)
Definition mapping_entries (str : jsstr) : list (jsstr * json) :=
  if negb (truthy (trim str)) then []
  else match JSON_parse str with
       | None => []
       | Some parsed =>
           match as_object parsed with
           | None => []
           | Some fs => obj_entries fs
           end
       end.

Definition invalid_entry (kv : jsstr * json) : option jsstr :=
  match parseStatusCodeKey kv.1, parseStatusCodeMappingTarget kv.2 with
  | Some _, Some _ => None
  | _, _ => Some (kv.1 ++ u " → " ++ json_to_str kv.2)
  end.

Definition collectInvalidStatusCodeEntries (statusCodeMappingStr : jsstr) : list jsstr :=
  omap invalid_entry (mapping_entries statusCodeMappingStr).

Definition print_redirect (from to : Z) : jsstr := Z_to_str from ++ u " -> " ++ Z_to_str to.

Definition risky_entry (kv : jsstr * json) : option jsstr :=
  match parseStatusCodeKey kv.1, parseStatusCodeMappingTarget kv.2 with
  | Some fromCode, Some toCode =>
      if negb (includes NON_REDIRECTABLE_STATUS_CODES fromCode) then None
      else if fromCode =? toCode then None
      else Some (print_redirect fromCode toCode)
  | _, _ => None
  end.

Definition collectDisallowedStatusCodeRedirects (statusCodeMappingStr : jsstr) : list jsstr :=
  js_sort str_cmp (js_set (omap risky_entry (mapping_entries statusCodeMappingStr))).

Definition collectNewDisallowedStatusCodeRedirects (originalStr currentStr : jsstr)
  : list jsstr :=
  let currentRisky := collectDisallowedStatusCodeRedirects currentStr in
  if negb (truthy_list currentRisky) then []
  else
    let originalRiskySet := js_set (collectDisallowedStatusCodeRedirects originalStr) in
    bfilter (fun mapping => negb (includes originalRiskySet mapping)) currentRisky.

(** ** Lemmas *)

Lemma three_digit_code_val s :
  three_digit_code s = true -> 100 <= Z.of_N (digits_val s) <= 599.
Proof.
  destruct s as [|a [|b [|c [|]]]]; cbn; try done.
  rewrite !andb_true_iff, !N.leb_le, !is_digit_range. unfold digits_val. cbn. lia.
Qed.

Lemma parseStatusCodeKey_range k z : parseStatusCodeKey k = Some z -> 100 <= z <= 599.
Proof.
  unfold parseStatusCodeKey. intros H. repeat (case_match; simplify_eq; try done).
  bool_to_prop. by apply three_digit_code_val.
Qed.

Lemma parseStatusCodeMappingTarget_range v z :
  parseStatusCodeMappingTarget v = Some z -> 100 <= z <= 599.
Proof.
  unfold parseStatusCodeMappingTarget, in_code_range. intros H.
  repeat (case_match; simplify_eq; try done); bool_to_prop; lia.
Qed.

(** For a string target the range test after the pattern never fails. *)
Lemma string_target_range_redundant s :
  three_digit_code (trim s) = true ->
  parseStatusCodeMappingTarget (JStr s) = Some (Z.of_N (digits_val (trim s))).
Proof.
  intros H. cbn. rewrite H. cbn [negb]. apply three_digit_code_val in H.
  unfold in_code_range. by rewrite !(proj2 (Z.leb_le _ _)) by lia.
Qed.

Definition str_lt (a b : jsstr) : Prop := str_compare a b = Lt.

Lemma sorted_NoDup_strict l : StronglySorted str_le l -> NoDup l -> StronglySorted str_lt l.
Proof.
  induction 1 as [|x l Hl IH Hx]; intros Hn; constructor; inversion Hn; subst; [auto|].
  apply Forall_forall. intros y Hy. eapply Forall_forall in Hx; [|done].
  unfold str_le, str_lt in *. destruct (str_compare x y) eqn:E; [|done|done].
  apply str_compare_eq in E. by subst.
Qed.

(** ** Theorems *)

(** The guard reports exactly the readable entries that rewrite 504 or
    524 to another code, each once and in the order of the printed text. *)
Theorem disallowed_redirects_spec str :
  StronglySorted str_lt (collectDisallowedStatusCodeRedirects str) /\
  forall m, m ∈ collectDisallowedStatusCodeRedirects str <->
    exists k v f t, (k, v) ∈ mapping_entries str /\
      parseStatusCodeKey k = Some f /\ parseStatusCodeMappingTarget v = Some t /\
      (f = 504 \/ f = 524) /\ f <> t /\ m = print_redirect f t.
Proof.
  split.
  - apply sorted_NoDup_strict; [apply js_sort_sorted, _|].
    unfold collectDisallowedStatusCodeRedirects. rewrite js_sort_perm. auto with jsdb.
  - intros m. unfold collectDisallowedStatusCodeRedirects.
    rewrite elem_of_js_sort, elem_of_js_set, list_elem_of_omap. split.
    + intros ([k v] & Hin & H). unfold risky_entry in H; cbn in H.
      repeat (case_match; simplify_eq; try done). bool_to_prop.
      exists k, v, z, z0. split_and!; try done.
      apply includes_true in H2. unfold NON_REDIRECTABLE_STATUS_CODES in H2. set_solver.
    + intros (k & v & f & t & Hin & Hf & Ht & Hc & Hne & ->).
      exists (k, v). split; [done|]. unfold risky_entry; cbn. rewrite Hf, Ht.
      assert (includes NON_REDIRECTABLE_STATUS_CODES f = true) as ->.
      { apply includes_true. unfold NON_REDIRECTABLE_STATUS_CODES. set_solver. }
      cbn [negb]. by rewrite (proj2 (Z.eqb_neq f t)).
Qed.

(** The confirmation dialog is asked about a redirect exactly when the
    edited mapping has it and the saved mapping had not. *)
Theorem new_disallowed_redirects_spec orig cur m :
  m ∈ collectNewDisallowedStatusCodeRedirects orig cur <->
  m ∈ collectDisallowedStatusCodeRedirects cur /\
  m ∉ collectDisallowedStatusCodeRedirects orig.
Proof.
  unfold collectNewDisallowedStatusCodeRedirects.
  destruct (collectDisallowedStatusCodeRedirects cur) as [|x l] eqn:E; cbn [truthy_list negb].
  { split; [intros []%not_elem_of_nil|intros [[]%not_elem_of_nil _]]. }
  rewrite elem_of_bfilter, negb_true_iff. unfold includes.
  rewrite bool_decide_eq_false, elem_of_js_set. done.
Qed.

(** Every entry of a readable mapping is either reported as invalid or
    has a source and a target code in 100..599; no entry is both reported as
    invalid and as a risky redirect. *)
Theorem entries_invalid_or_in_range str k v :
  (k, v) ∈ mapping_entries str ->
  (k ++ u " → " ++ json_to_str v ∈ collectInvalidStatusCodeEntries str /\
   risky_entry (k, v) = None) \/
  (exists f t, parseStatusCodeKey k = Some f /\ parseStatusCodeMappingTarget v = Some t /\
     100 <= f <= 599 /\ 100 <= t <= 599 /\ invalid_entry (k, v) = None).
Proof.
  intros Hin. unfold collectInvalidStatusCodeEntries. rewrite list_elem_of_omap.
  unfold risky_entry, invalid_entry; cbn.
  destruct (parseStatusCodeKey k) as [f|] eqn:Hf;
    [destruct (parseStatusCodeMappingTarget v) as [t|] eqn:Ht|].
  - right. exists f, t. split_and!; try done; try by eapply parseStatusCodeKey_range.
    all: by eapply parseStatusCodeMappingTarget_range.
  - left. split; [|done]. exists (k, v). split; [done|]. cbn. by rewrite Hf, Ht.
  - left. split; [|done]. exists (k, v). split; [done|]. cbn. by rewrite Hf.
Qed.

(** ** Witnesses *)

Lemma entries_invalid_or_in_range_witness :
  (u "504", JNum (num_of_Z 200)) ∈ mapping_entries (uj "{'504': 200}") /\
  exists f t, parseStatusCodeKey (u "504") = Some f /\
    parseStatusCodeMappingTarget (JNum (num_of_Z 200)) = Some t /\ 100 <= f <= 599.
Proof.
  assert ((u "504", JNum (num_of_Z 200)) ∈ mapping_entries (uj "{'504': 200}")) as Hin.
  { vm_compute. by left. }
  split; [exact Hin|].
  destruct (entries_invalid_or_in_range (uj "{'504': 200}") (u "504") (JNum (num_of_Z 200)) Hin)
    as [[_ H]|(f & t & Hf & Ht & Hr & _)].
  - vm_compute in H. discriminate.
  - by exists f, t.
Defined.

End StatusRisk.
