(* ===== verification/ModelMapping.v ===== *)
(** * Model lists and model redirects of a channel
      (web/default/src/features/channels/lib/model-mapping-validation.ts)

    A channel has a comma-separated list of models and a JSON object that maps
    a requested model to the upstream's name for it.  The module parses both,
    finds the mapped models that are missing from the list and the redirect
    targets that the list exposes. *)

From S2P Require Import Prelude JsString JsNumber JsJson.

Open Scope N_scope.

Module Mapping.

Definition comma : N := 44.

Definition parseModelsString (modelsStr : jsstr) : list jsstr :=
  if truthy modelsStr then bfilter truthy (map trim (split_on comma modelsStr)) else [].

Definition formatModelsArray (models : list jsstr) : jsstr := join [comma] (js_set models).

(** [typeof model === 'string'] holds of every argument of this type. *)
Definition normalizeModelName (model : jsstr) : jsstr := trim model.

(** [JSON.parse] and the test for a plain object; [None] is either failure. *)
Definition parse_object (text : jsstr) : option (list (jsstr * json)) :=
  match JSON_parse text with
  | Some j => as_object j
  | None => None
  end.

Definition extractMappingSourceModels (modelMapping : jsstr) : list jsstr :=
  let trimmed := trim modelMapping in
  if negb (truthy trimmed) then []
  else match parse_object trimmed with
       | None => []
       | Some parsed => js_set (bfilter truthy (map trim (obj_keys parsed)))
       end.

Definition extractRedirectModels (modelMapping : jsstr) : list jsstr :=
  let trimmed := trim modelMapping in
  if negb (truthy trimmed) then []
  else match parse_object trimmed with
       | None => []
       | Some parsed =>
           js_set (bfilter truthy (omap (fun v => trim <$> as_string v) (obj_values parsed)))
       end.

Fixpoint same_models (a b : list jsstr) : bool :=
  match a, b with
  | x :: a', y :: b' => bool_decide (x = y) && same_models a' b'
  | _, _ => true
  end.

Definition hasModelConfigChanged (currentModels : list jsstr) (currentModelMapping : jsstr)
    (initialModels : list jsstr) (initialModelMapping : jsstr) : bool :=
  if negb (truthy_list initialModels) && negb (truthy initialModelMapping) then true
  else if negb (Nat.eqb (length currentModels) (length initialModels)) then true
  else if negb (same_models currentModels initialModels) then true
  else negb (bool_decide (trim currentModelMapping = trim initialModelMapping)).

Definition findMissingModelsInMapping (modelMapping : jsstr) (currentModels : list jsstr)
  : list jsstr :=
  if negb (truthy modelMapping) || negb (truthy (trim modelMapping)) then []
  else match parse_object modelMapping with
       | None => []
       | Some parsedMapping =>
           let modelSet := js_set (map normalizeModelName currentModels) in
           js_set (bfilter (fun key => truthy key && negb (includes modelSet key))
                           (map normalizeModelName (obj_keys parsedMapping)))
       end.

Record ValidationResult := mkValidation { valid : bool; error : option jsstr }.

Definition validateModelMappingJson (modelMapping : jsstr) : ValidationResult :=
  if negb (truthy modelMapping) || negb (truthy (trim modelMapping)) then
    mkValidation true None
  else match JSON_parse modelMapping with
       | None => mkValidation false (Some (u "Model mapping must be valid JSON format"))
       | Some parsed =>
           match as_object parsed with
           | None => mkValidation false (Some (u "Model mapping must be a valid JSON object"))
           | Some fs =>
               if existsb (fun v => match as_string v with Some _ => false | None => true end)
                          (obj_values fs)
               then mkValidation false (Some (u "Model mapping values must be strings"))
               else mkValidation true None
           end
       end.

Definition findExposedTargetModels (modelMapping : jsstr) (currentModels : list jsstr)
  : list jsstr :=
  let redirectModels := extractRedirectModels modelMapping in
  if negb (truthy_list redirectModels) then []
  else
    let modelSet := js_set (map normalizeModelName currentModels) in
    bfilter (fun model => includes modelSet (normalizeModelName model)) redirectModels.

Record ModelCategories := mkCategories {
  normalizedCurrentModels : list jsstr;
  normalizedRedirectModels : list jsstr;
  classificationSet : list jsstr;
  redirectOnlySet : list jsstr;
}.

Definition categorizeModelsWithRedirect (currentModels redirectModels : list jsstr)
  : ModelCategories :=
  let cur := js_set (bfilter truthy (map normalizeModelName currentModels)) in
  let red := js_set (bfilter truthy (map normalizeModelName redirectModels)) in
  mkCategories cur red (js_set (cur ++ red))
    (js_set (bfilter (fun m => negb (includes cur m)) red)).

(** ** Lemmas *)

Lemma truthy_ne s : truthy s = true <-> s <> [].
Proof. by destruct s. Qed.

Lemma elem_of_map_iff {A B} (f : A -> B) l y : y ∈ map f l <-> exists x, y = f x /\ x ∈ l.
Proof.
  rewrite list_elem_of_In, in_map_iff. setoid_rewrite list_elem_of_In. naive_solver.
Qed.

(** A model name as the editors keep it: trimmed, not empty, no comma. *)
Definition clean_model (m : jsstr) : Prop := m <> [] /\ trim m = m /\ comma ∉ m.

Lemma extractRedirect_elem mm m :
  m ∈ extractRedirectModels mm <->
  exists fs v, trim mm <> [] /\ parse_object (trim mm) = Some fs /\
    v ∈ obj_values fs /\ exists s, v = JStr s /\ m = trim s /\ m <> [].
Proof.
  unfold extractRedirectModels. destruct (truthy (trim mm)) eqn:Ht; cbn [negb].
  2:{ split; [intros []%not_elem_of_nil|]. intros (? & ? & Hne & _). apply truthy_ne in Hne. congruence. }
  apply truthy_ne in Ht. destruct (parse_object (trim mm)) as [fs|].
  2:{ split; [intros []%not_elem_of_nil|]. naive_solver. }
  rewrite elem_of_js_set, elem_of_bfilter, list_elem_of_omap, truthy_ne. split.
  - intros [(v & Hv & Hs) Hne]. destruct v; cbn in Hs; simplify_eq. eauto 10.
  - intros (fs' & v & _ & [= <-] & Hv & s & -> & -> & Hne). split; [|done].
    exists (JStr s). by split.
Qed.

Lemma findExposed_elem mm models m :
  m ∈ findExposedTargetModels mm models <->
  m ∈ extractRedirectModels mm /\ m ∈ map trim models.
Proof.
  unfold findExposedTargetModels, normalizeModelName.
  destruct (extractRedirectModels mm) as [|x l] eqn:E; cbn [truthy_list negb].
  { split; [intros []%not_elem_of_nil|intros [[]%not_elem_of_nil _]]. }
  rewrite <- E. rewrite elem_of_bfilter, includes_true, elem_of_js_set.
  split; intros [Hm Ht]; (split; [done|]).
  - apply extractRedirect_elem in Hm as (? & ? & _ & _ & _ & s & _ & -> & _).
    by rewrite trim_idemp in Ht.
  - apply extractRedirect_elem in Hm as (? & ? & _ & _ & _ & s & _ & -> & _).
    by rewrite trim_idemp.
Qed.

(** ** Theorems *)

(** Formatting a list of clean names and parsing it gives the list
    without its repetitions; formatting is a normal form of the text. *)
Theorem models_roundtrip models :
  Forall clean_model models ->
  parseModelsString (formatModelsArray models) = js_set models.
Proof.
  intros Hc. unfold parseModelsString, formatModelsArray.
  assert (Forall clean_model (js_set models)) as Hs.
  { apply Forall_forall. intros m Hm. rewrite elem_of_js_set in Hm. exact (proj1 (Forall_forall _ _) Hc m Hm). }
  destruct (decide (js_set models = [])) as [->|Hne]; [done|].
  set (l := js_set models) in *. clearbody l.
  assert (truthy (join [comma] l) = true) as ->.
  { destruct l as [|m [|m' l']]; [done| |]; apply Forall_cons in Hs as [(Hm & _) _]; by destruct m. }
  rewrite split_join; [|done|].
  - rewrite (map_ext_in _ id), map_id.
    + apply bfilter_all. intros m Hm. eapply Forall_forall in Hs as (? & ?); [|done]. by apply truthy_ne.
    + intros m Hm%list_elem_of_In. eapply Forall_forall in Hs as (? & ? & ?); [|done]. done.
  - eapply Forall_impl; [exact Hs|]. by intros m (_ & _ & ?).
Qed.

(** Every parsed name is clean, so parsing after formatting a parsed list
    only removes repetitions. *)
Theorem parseModelsString_clean s : Forall clean_model (parseModelsString s).
Proof.
  unfold parseModelsString. destruct (truthy s); [|constructor].
  apply Forall_forall. intros m [Hm Ht]%elem_of_bfilter.
  apply elem_of_map_iff in Hm as (p & -> & Hp). apply truthy_ne in Ht.
  split_and!; [done|apply trim_idemp|].
  intros Hin%elem_of_trim. by apply split_on_parts in Hp.
Qed.

Lemma findMissing_elem mm models :
  NoDup (findMissingModelsInMapping mm models) /\
  forall m, m ∈ findMissingModelsInMapping mm models <->
    exists fs k, trim mm <> [] /\ parse_object mm = Some fs /\ k ∈ obj_keys fs /\
      m = trim k /\ m <> [] /\ m ∉ map trim models.
Proof.
  unfold findMissingModelsInMapping, normalizeModelName.
  destruct (truthy mm) eqn:Hmm, (truthy (trim mm)) eqn:Ht; cbn [negb orb];
    try (split; [constructor|]; intros m; split; [intros []%not_elem_of_nil|];
         intros (fs & k & Hne & Hp & _)).
  2,4: apply truthy_ne in Hne; congruence.
  2:{ destruct mm; [|done]. done. }
  destruct (parse_object mm) as [fs|].
  2:{ split; [constructor|]. intros m. split; [intros []%not_elem_of_nil|]. naive_solver. }
  split; [apply js_set_NoDup|]. intros m.
  rewrite elem_of_js_set, elem_of_bfilter, elem_of_map_iff, andb_true_iff, negb_true_iff, truthy_ne.
  unfold includes. rewrite bool_decide_eq_false, elem_of_js_set. apply truthy_ne in Ht.
  naive_solver.
Qed.

(** The missing models are the distinct non-empty trimmed keys of the
    mapping that are not in the trimmed model list. *)
Theorem findMissing_spec mm models :
  NoDup (findMissingModelsInMapping mm models) /\
  forall m, m ∈ findMissingModelsInMapping mm models <->
    exists fs k, trim mm <> [] /\ parse_object mm = Some fs /\ k ∈ obj_keys fs /\
      m = trim k /\ m <> [] /\ m ∉ map trim models.
Proof. apply findMissing_elem. Qed.

(** Adding the reported models to the list leaves nothing to report. *)
Theorem findMissing_fixed mm models :
  findMissingModelsInMapping mm (models ++ findMissingModelsInMapping mm models) = [].
Proof.
  destruct (findMissingModelsInMapping mm (models ++ _)) as [|m l] eqn:E; [done|exfalso].
  assert (m ∈ m :: l) as Hm by (by left). rewrite <- E in Hm.
  apply findMissing_elem in Hm as (fs & k & Ht & Hp & Hk & -> & Hne & Hnot).
  apply Hnot. rewrite map_app, elem_of_app.
  destruct (decide (trim k ∈ map trim models)) as [|Hno]; [by left|]. right.
  apply elem_of_map_iff. exists (trim k). split; [by rewrite trim_idemp|].
  apply findMissing_elem. by exists fs, k.
Qed.

(** Removing the exposed redirect targets from the list leaves none
    exposed, and removes no other model. *)
Theorem findExposed_removed mm models :
  let exposed := findExposedTargetModels mm models in
  let kept := bfilter (fun m => negb (includes exposed (trim m))) models in
  findExposedTargetModels mm kept = [] /\
  forall m, m ∈ models -> m ∉ kept -> trim m ∈ extractRedirectModels mm.
Proof.
  cbn zeta. split.
  - destruct (findExposedTargetModels mm (bfilter _ _)) as [|m l] eqn:E; [done|exfalso].
    assert (m ∈ m :: l) as Hm by (by left). rewrite <- E in Hm.
    apply findExposed_elem in Hm as [Hr Hk].
    apply elem_of_map_iff in Hk as (x & -> & [Hx Hnot]%elem_of_bfilter).
    apply negb_true_iff, bool_decide_eq_false in Hnot. apply Hnot, findExposed_elem.
    split; [done|]. apply elem_of_map_iff. by exists x.
  - intros m Hm Hk. destruct (includes (findExposedTargetModels mm models) (trim m)) eqn:E.
    + apply includes_true, findExposed_elem in E. tauto.
    + exfalso. apply Hk, elem_of_bfilter. split; [done|]. by rewrite E.
Qed.

(** Validation accepts a text exactly when it is blank or a JSON object
    whose values are all strings. *)
Theorem validate_spec mm :
  valid (validateModelMappingJson mm) = true <->
  trim mm = [] \/ exists fs, JSON_parse mm = Some (JObj fs) /\
                    forall v, v ∈ obj_values fs -> exists s, v = JStr s.
Proof.
  unfold validateModelMappingJson.
  destruct (truthy (trim mm)) eqn:Ht.
  2:{ rewrite orb_true_r. split; [|done]. intros _. left. by destruct (trim mm). }
  assert (truthy mm = true) as -> by (destruct mm; done). cbn [negb orb].
  apply truthy_ne in Ht.
  destruct (JSON_parse mm) as [[| | | | |fs]|] eqn:Hj; cbn [as_object valid];
    try (split; [discriminate|]; intros [Hb|(fs' & Hb & _)]; [by destruct Ht|discriminate]).
  destruct (existsb _ _) eqn:Hex; cbn [valid].
  - split; [discriminate|]. intros [Hb|(fs' & [= <-] & Hall)]; [by destruct Ht|].
    apply existsb_exists in Hex as (v & Hv%list_elem_of_In & Hs).
    apply Hall in Hv as (s & ->). discriminate.
  - split; [|done]. intros _. right. exists fs. split; [done|]. intros v Hv.
    destruct (as_string v) as [s|] eqn:Hs; [destruct v; cbn in Hs; try discriminate; injection Hs as ->; by exists s|].
    exfalso. eapply eq_true_false_abs; [|exact Hex]. apply existsb_exists.
    exists v. split; [by apply list_elem_of_In|]. by rewrite Hs.
Qed.

(** The configuration counts as unchanged exactly when the channel existed
    and both the model list and the trimmed mapping are the saved ones. *)
Theorem hasModelConfigChanged_spec cm cmap im imap :
  hasModelConfigChanged cm cmap im imap = false <->
  (im <> [] \/ imap <> []) /\ cm = im /\ trim cmap = trim imap.
Proof.
  unfold hasModelConfigChanged.
  assert (forall a b : list jsstr, length a = length b -> same_models a b = true <-> a = b) as Hsame.
  { clear. induction a as [|x a IH]; intros [|y b] H; cbn in *; try done.
    rewrite andb_true_iff, bool_decide_eq_true, IH by lia. naive_solver. }
  destruct im as [|i im]; [destruct imap as [|c imap]|]; cbn [truthy_list truthy negb andb].
  - split; [done|]. intros [[?|?] _]; done.
  - destruct cm; cbn; [|naive_solver].
    rewrite negb_false_iff, bool_decide_eq_true. naive_solver.
  - destruct (Nat.eqb_spec (length cm) (length (i :: im))) as [Hl|Hl]; cbn [negb].
    + destruct (same_models cm (i :: im)) eqn:Hs; cbn [negb].
      * apply Hsame in Hs; [|done]. rewrite negb_false_iff, bool_decide_eq_true. naive_solver.
      * split; [done|]. intros (_ & -> & _). by rewrite (proj2 (Hsame _ _ eq_refl) eq_refl) in Hs.
    + split; [done|]. intros (_ & -> & _). done.
Qed.

(** The selector's classes: the classification set is the union of both
    normalised lists, and the redirect-only models are those outside the
    current ones. *)
Theorem categorize_spec cur red :
  let c := categorizeModelsWithRedirect cur red in
  NoDup (classificationSet c) /\
  (forall m, m ∈ classificationSet c <-> m <> [] /\ (m ∈ map trim cur \/ m ∈ map trim red)) /\
  (forall m, m ∈ redirectOnlySet c <-> m <> [] /\ m ∈ map trim red /\ m ∉ map trim cur) /\
  (forall m, m ∈ classificationSet c <->
     m ∈ normalizedCurrentModels c \/ m ∈ redirectOnlySet c).
Proof.
  cbn. unfold normalizeModelName. split; [apply js_set_NoDup|].
  assert (forall l m, m ∈ js_set (bfilter truthy (map trim l)) <-> m ∈ map trim l /\ m <> []) as Hn.
  { intros l m. by rewrite elem_of_js_set, elem_of_bfilter, truthy_ne. }
  assert (forall m, m ∈ js_set (bfilter (fun m => negb (includes
      (js_set (bfilter truthy (map trim cur))) m)) (js_set (bfilter truthy (map trim red)))) <->
    m <> [] /\ m ∈ map trim red /\ m ∉ map trim cur) as Honly.
  { intros m. rewrite elem_of_js_set, elem_of_bfilter, Hn, negb_true_iff.
    unfold includes. rewrite bool_decide_eq_false, Hn. tauto. }
  assert (forall m, m ∈ js_set (js_set (bfilter truthy (map trim cur)) ++
      js_set (bfilter truthy (map trim red))) <->
    m <> [] /\ (m ∈ map trim cur \/ m ∈ map trim red)) as Hall.
  { intros m. rewrite elem_of_js_set, elem_of_app, !Hn. tauto. }
  split; [exact Hall|]. split; [exact Honly|].
  intros m. rewrite Hall, Honly, Hn. destruct (decide (m ∈ map trim cur)); tauto.
Qed.

(** ** Witnesses *)

Lemma models_roundtrip_witness :
  parseModelsString (formatModelsArray [u "gpt-4o"; u "o3"; u "gpt-4o"]) = [u "gpt-4o"; u "o3"].
Proof.
  apply (models_roundtrip [u "gpt-4o"; u "o3"; u "gpt-4o"]).
  repeat (constructor; [split; [done|split; [reflexivity|]];
    apply (bool_decide_eq_false_1 _); reflexivity|]). constructor.
Defined.

End Mapping.
