(* ===== verification/ChannelTypes.v ===== *)
(** * Channel constants and types
      (web/default/src/features/channels/constants.ts and types.ts)

    The tables of channel types, statuses, response-time ratings and key
    prompts, and the [Channel] record with the nullable columns it has in the
    schema. *)

From S2P Require Import Prelude JsString JsNumber JsJson.

Open Scope Z_scope.

Module Chan.

(** ** Channel types *)

Definition CHANNEL_TYPES : list (Z * jsstr) :=
  [(0, u "Unknown"); (1, u "OpenAI"); (2, u "Midjourney"); (3, u "Azure"); (4, u "Ollama");
   (5, u "MidjourneyPlus"); (6, u "OpenAIMax"); (7, u "OhMyGPT"); (8, u "Custom");
   (9, u "AILS"); (10, u "AI Proxy"); (11, u "PaLM"); (12, u "API2GPT"); (13, u "AIGC2D");
   (14, u "Anthropic"); (15, u "Baidu"); (16, u "Zhipu"); (17, u "Ali"); (18, u "Xunfei");
   (19, u "360"); (20, u "OpenRouter"); (21, u "AI Proxy Library"); (22, u "FastGPT");
   (23, u "Tencent"); (24, u "Gemini"); (25, u "Moonshot"); (26, u "Zhipu V4");
   (27, u "Perplexity"); (31, u "LingYiWanWu"); (33, u "AWS"); (34, u "Cohere");
   (35, u "MiniMax"); (36, u "SunoAPI"); (37, u "Dify"); (38, u "Jina"); (39, u "Cloudflare");
   (40, u "SiliconFlow"); (41, u "Vertex AI"); (42, u "Mistral"); (43, u "DeepSeek");
   (44, u "MokaAI"); (45, u "VolcEngine"); (46, u "Baidu V2"); (47, u "Xinference");
   (48, u "xAI"); (49, u "Coze"); (50, u "Kling"); (51, u "Jimeng"); (52, u "Vidu");
   (53, u "Submodel"); (54, u "DoubaoVideo"); (55, u "Sora"); (56, u "Replicate");
   (57, u "Codex"); (59, u "ElevenLabs"); (60, u "Meshy")].

Definition CHANNEL_TYPE_DISPLAY_ORDER : list Z :=
  [1; 14; 33; 24; 43; 3; 41; 48; 42; 34; 20; 4; 40; 27; 25; 17; 26; 15; 46; 23; 18; 45; 31;
   35; 49; 19; 47; 37; 38; 39; 11; 8; 57; 22; 21; 44; 2; 5; 36; 50; 51; 52; 53; 54; 55; 56;
   59; 60].

(** The first loop: the display order, as far as the types have a label. *)
Definition ordered_step (acc : list (Z * jsstr) * list Z) (id : Z)
  : list (Z * jsstr) * list Z :=
  match map_get id CHANNEL_TYPES with
  | Some label => if truthy label then (acc.1 ++ [(id, label)], set_add acc.2 id) else acc
  | None => acc
  end.

(** The second loop: the remaining types, except 0. *)
Definition rest_step (seen : list Z) (ordered : list (Z * jsstr)) (kv : Z * jsstr)
  : list (Z * jsstr) :=
  if negb (kv.1 =? 0) && negb (includes seen kv.1) then ordered ++ [kv] else ordered.

Definition CHANNEL_TYPE_OPTIONS : list (Z * jsstr) :=
  let '(ordered, seen) := foldl ordered_step ([], []) CHANNEL_TYPE_DISPLAY_ORDER in
  foldl (rest_step seen) ordered CHANNEL_TYPES.

Definition TYPE_TO_KEY_PROMPT : list (Z * jsstr) :=
  [(15, u "Format: APIKey|SecretKey"); (18, u "Format: APPID|APISecret|APIKey");
   (22, u "Format: APIKey-AppId, e.g., fastgpt-0sp2gtvfdgyi4k30jwlgwf1i-64f335d84283f05518e9e041");
   (23, u "Format: AppId|SecretId|SecretKey"); (33, u "Format: Ak|Sk|Region");
   (50, u "Format: AccessKey|SecretKey (or just ApiKey if upstream is {{brandName}})");
   (51, u "Format: Access Key ID|Secret Access Key");
   (57, u "Paste Codex OAuth JSON credential (access_token / refresh_token / account_id)");
   (59, u "Format: xi-api-key from ElevenLabs");
   (60, u "Format: Bearer API key from Meshy (msy-...)")].

(** ** Status badges *)

Inductive Variant := success | neutral | danger | warning | info.

#[export] Instance variant_eq_dec : EqDecision Variant.
Proof. solve_decision. Defined.

Record Badge := mkBadge { variant : Variant; label : jsstr }.

Definition CHANNEL_STATUS_UNKNOWN : Z := 0.
Definition CHANNEL_STATUS_ENABLED : Z := 1.
Definition CHANNEL_STATUS_MANUAL_DISABLED : Z := 2.
Definition CHANNEL_STATUS_AUTO_DISABLED : Z := 3.

Definition unknown_badge : Badge := mkBadge neutral (u "Unknown").

Definition CHANNEL_STATUS_CONFIG : list (Z * Badge) :=
  [(CHANNEL_STATUS_UNKNOWN, unknown_badge);
   (CHANNEL_STATUS_ENABLED, mkBadge success (u "Enabled"));
   (CHANNEL_STATUS_MANUAL_DISABLED, mkBadge danger (u "Disabled"));
   (CHANNEL_STATUS_AUTO_DISABLED, mkBadge danger (u "Auto Disabled"))].

Definition MULTI_KEY_STATUS_CONFIG : list (Z * Badge) :=
  [(1, mkBadge success (u "Enabled"));
   (2, mkBadge neutral (u "Manual Disabled"));
   (3, mkBadge danger (u "Auto Disabled"))].

(** ** Response times *)

Inductive Rating := EXCELLENT | GOOD | FAIR | POOR | UNKNOWN.

Definition RESPONSE_TIME_THRESHOLDS (r : Rating) : Z :=
  match r with EXCELLENT => 500 | GOOD => 1000 | FAIR => 2000 | POOR => 5000 | UNKNOWN => 0 end.

Definition RESPONSE_TIME_CONFIG (r : Rating) : Badge :=
  match r with
  | EXCELLENT => mkBadge success (u "Excellent")
  | GOOD => mkBadge info (u "Good")
  | FAIR => mkBadge warning (u "Fair")
  | POOR => mkBadge danger (u "Poor")
  | UNKNOWN => mkBadge neutral (u "Not tested")
  end.

(** ** Multi-key confirmations *)

Inductive MultiKeyAction :=
| act_enable | act_disable | act_delete | act_enable_all | act_disable_all | act_delete_disabled.

Record MultiKeyConfirmAction := mkAction { action_type : MultiKeyAction; keyIndex : option Z }.

Definition MULTI_KEY_CONFIRM_MESSAGES (a : MultiKeyAction) : jsstr :=
  match a with
  | act_delete => u "Are you sure you want to delete this key? This action cannot be undone."
  | act_enable => u "Enable this key?"
  | act_disable => u "Disable this key?"
  | act_enable_all => u "Are you sure you want to enable all keys?"
  | act_disable_all => u "Are you sure you want to disable all enabled keys?"
  | act_delete_disabled =>
      u "Are you sure you want to delete all auto-disabled keys? This action cannot be undone."
  end.

(** ** The channel *)

Inductive MultiKeyMode := mode_random | mode_polling.

Record ChannelInfo := mkInfo {
  is_multi_key : bool;
  multi_key_size : Z;
  multi_key_status_list : option (list (jsstr * Z));
  multi_key_disabled_reason : option (list (jsstr * jsstr));
  multi_key_disabled_time : option (list (jsstr * Z));
  multi_key_polling_index : Z;
  multi_key_mode : MultiKeyMode;
}.

(** Counters and time stamps are integers; [balance] and [response_time] enter
    floating-point arithmetic. *)
Record Channel := mkChannel {
  id : Z;
  type_ : Z;
  key : jsstr;
  openai_organization : nullable jsstr;
  test_model : nullable jsstr;
  status : Z;
  name : jsstr;
  weight : nullable Z;
  created_time : Z;
  test_time : Z;
  response_time : number;
  base_url : nullable jsstr;
  other : jsstr;
  balance : number;
  balance_updated_time : Z;
  models : jsstr;
  group : jsstr;
  used_quota : Z;
  model_mapping : nullable jsstr;
  status_code_mapping : nullable jsstr;
  priority : nullable Z;
  auto_ban : nullable Z;
  other_info : jsstr;
  tag : nullable jsstr;
  setting : nullable jsstr;
  param_override : nullable jsstr;
  header_override : nullable jsstr;
  remark : jsstr;
  max_input_tokens : Z;
  channel_info : ChannelInfo;
  settings : jsstr;
}.

Definition default_info : ChannelInfo := mkInfo false 0 None None None 0 mode_random.

(** A channel with the defaults of the schema. *)
Definition base_channel (i : Z) (nm : jsstr) : Channel :=
  mkChannel i 1 (u "sk-1") Undef Undef 1 nm Null 0 0 (num_of_Z 0) Undef [] (num_of_Z 0) 0 []
    (u "default") 0 Undef Undef Null Undef [] Null Undef Undef Undef [] 0 default_info (u "{}").

End Chan.
