(* ===== verification/ChannelUtils.v ===== *)
(** * Channel utilities
      (web/default/src/features/channels/lib/channel-utils.ts and multi-key-utils.ts)

    Labels and badges, key masking and deduplication, list parsing, attention
    flags, and the aggregation of channels by tag.  [localeCompare] belongs to
    the platform's collation and is a parameter. *)

From S2P Require Import Prelude JsString JsNumber JsJson ChannelTypes.

Import Chan.
Open Scope Z_scope.

Module ChanUtils.

(** ** Labels, icons and badges *)

Definition getChannelTypeLabel (t : Z) : jsstr :=
  or_str (map_get t CHANNEL_TYPES ?? []) (u "Unknown").

Definition TYPE_TO_ICON : list (Z * jsstr) :=
  [(1, u "OpenAI"); (6, u "OpenAI"); (7, u "OpenAI"); (8, u "OpenAI"); (3, u "Azure");
   (14, u "Claude"); (24, u "Gemini"); (11, u "Google"); (41, u "Gemini"); (33, u "Aws");
   (39, u "Cloudflare"); (15, u "Baidu"); (46, u "Baidu"); (16, u "Zhipu"); (26, u "Zhipu");
   (17, u "Qwen"); (18, u "Spark"); (23, u "Hunyuan"); (19, u "Ai360"); (25, u "Moonshot");
   (31, u "Yi"); (35, u "Minimax"); (45, u "Volcengine"); (4, u "Ollama");
   (27, u "Perplexity"); (34, u "Cohere"); (42, u "Mistral"); (43, u "DeepSeek");
   (48, u "XAI"); (49, u "Coze"); (40, u "SiliconCloud"); (44, u "OpenAI");
   (20, u "OpenRouter"); (59, u "ElevenLabs"); (60, u "Meshy"); (2, u "Midjourney");
   (5, u "Midjourney"); (50, u "Kling"); (51, u "Jimeng"); (52, u "Vidu"); (36, u "Suno");
   (55, u "OpenAI"); (54, u "Doubao"); (56, u "Replicate"); (37, u "Dify"); (38, u "Jina");
   (22, u "FastGPT"); (47, u "Xinference"); (53, u "OpenAI"); (10, u "OpenAI");
   (21, u "OpenAI"); (12, u "OpenAI"); (13, u "OpenAI"); (9, u "OpenAI")].

Definition getChannelTypeIcon (t : Z) : jsstr :=
  or_str (map_get t TYPE_TO_ICON ?? []) (u "OpenAI").

Definition getChannelStatusBadge (s : Z) : Badge :=
  map_get s CHANNEL_STATUS_CONFIG ?? unknown_badge.

Definition channelStatusShowsDangerBadge (s : Z) : bool :=
  bool_decide (variant (getChannelStatusBadge s) = danger).

Definition getMultiKeyStatusBadge (s : Z) : Badge :=
  map_get s MULTI_KEY_STATUS_CONFIG ?? mkBadge success (u "Enabled").

Definition isChannelEnabled (c : Channel) : bool := status c =? 1.

Definition isMultiKeyChannel (c : Channel) : bool := is_multi_key (channel_info c).

(** [multi-key-utils.ts] *)
Definition getMultiKeyStatusConfig (s : Z) : Badge :=
  map_get s MULTI_KEY_STATUS_CONFIG ?? unknown_badge.

Definition getMultiKeyConfirmMessage (action : option MultiKeyConfirmAction) : jsstr :=
  match action with
  | None => []
  | Some a => MULTI_KEY_CONFIRM_MESSAGES (action_type a)
  end.

Definition isDestructiveAction (action : option MultiKeyConfirmAction) : bool :=
  match action with
  | None => false
  | Some a =>
      match action_type a with
      | act_delete | act_delete_disabled | act_disable_all => true
      | _ => false
      end
  end.

(** ** Keys *)

Definition newline : N := 10%N.
Definition comma : N := 44%N.

(** the lines that hold a key *)
Definition key_lines (k : jsstr) : list jsstr :=
  bfilter (fun l => truthy (trim l)) (split_on newline k).

Definition formatChannelKey (k : jsstr) (isMultiKey : bool) : jsstr :=
  if negb (truthy k) then []
  else if isMultiKey then N_to_str (N.of_nat (length (key_lines k))) ++ u " keys"
  else if (length k <=? 16)%nat then take 4 k ++ u "..." ++ slice_last 4 k
  else take 8 k ++ u "..." ++ slice_last 8 k.

Definition formatKeyPreview (k : jsstr) (maxLength : nat) : jsstr :=
  if negb (truthy k) then []
  else if (length k <=? maxLength)%nat then k
  else take maxLength k ++ u "...".

Definition countKeys (k : jsstr) : nat :=
  if negb (truthy k) then 0%nat else length (key_lines k).

Record DedupResult := mkDedup {
  deduplicatedText : jsstr;
  beforeCount : Z;
  afterCount : Z;
  removedCount : Z;
}.

(** one line of the [forEach]: [keySet] and [deduplicatedKeys] always hold the
    same keys *)
Definition dedup_step (acc : list jsstr) (line : jsstr) : list jsstr :=
  let trimmedLine := trim line in
  if truthy trimmedLine && negb (includes acc trimmedLine) then acc ++ [trimmedLine] else acc.

Definition deduplicateKeys (keysText : jsstr) : DedupResult :=
  if negb (truthy keysText) || negb (truthy (trim keysText)) then mkDedup [] 0 0 0
  else
    let keyLines := split_on newline keysText in
    let deduplicatedKeys := foldl dedup_step [] keyLines in
    mkDedup (join [newline] deduplicatedKeys)
      (Z.of_nat (length keyLines)) (Z.of_nat (length deduplicatedKeys))
      (Z.of_nat (length keyLines) - Z.of_nat (length deduplicatedKeys)).

(** ** Lists of models and groups *)

Definition parse_list (s : jsstr) : list jsstr :=
  bfilter truthy (map trim (split_on comma s)).

Definition parseModelsList (models : jsstr) : list jsstr :=
  if negb (truthy models) then [] else parse_list models.

(** the comparator of [parseGroupsList] *)
Definition group_cmp (localeCompare : jsstr -> jsstr -> Z) (a b : jsstr) : Z :=
  if bool_decide (a = u "default") then -1
  else if bool_decide (b = u "default") then 1
  else localeCompare a b.

Definition parseGroupsList (localeCompare : jsstr -> jsstr -> Z) (groups : jsstr) : list jsstr :=
  if negb (truthy groups) then []
  else js_sort (group_cmp localeCompare) (parse_list groups).

Definition formatModelsString (models : list jsstr) : jsstr := join [comma] models.
Definition formatGroupsString (groups : list jsstr) : jsstr := join [comma] groups.

(** ** Settings: [JSON.parse] with a fallback *)

Definition parseChannelSettings (settingStr : nullable jsstr) : json :=
  match settingStr with
  | Val s => if truthy s then JSON_parse s ?? JObj [] else JObj []
  | _ => JObj []
  end.

Definition parseChannelOtherSettings (settingsStr : nullable jsstr) : json :=
  match settingsStr with
  | Val s =>
      if truthy s && negb (bool_decide (s = u "{}")) then JSON_parse s ?? JObj [] else JObj []
  | _ => JObj []
  end.

Definition validateChannelSettings (s : jsstr) : bool :=
  if negb (truthy s) || negb (truthy (trim s)) then true
  else match JSON_parse s with Some _ => true | None => false end.

(** ** Ratings and attention *)

Definition getBalanceVariant (b : number) : Variant :=
  if num_eq b (num_of_Z 0) then neutral
  else if num_lt b (num_of_Z 1) then danger
  else if num_lt b (num_of_Z 10) then warning
  else success.

Definition getResponseTimeConfig (timeMs : Z) : Badge :=
  if timeMs =? 0 then RESPONSE_TIME_CONFIG UNKNOWN
  else if timeMs <=? RESPONSE_TIME_THRESHOLDS EXCELLENT then RESPONSE_TIME_CONFIG EXCELLENT
  else if timeMs <=? RESPONSE_TIME_THRESHOLDS GOOD then RESPONSE_TIME_CONFIG GOOD
  else if timeMs <=? RESPONSE_TIME_THRESHOLDS FAIR then RESPONSE_TIME_CONFIG FAIR
  else if timeMs <=? RESPONSE_TIME_THRESHOLDS POOR then RESPONSE_TIME_CONFIG POOR
  else RESPONSE_TIME_CONFIG POOR.

Definition getPriorityDisplay (p : nullable Z) : jsstr :=
  match p with Val z => Z_to_str z | _ => u "0" end.

Definition getWeightDisplay (w : nullable Z) : jsstr :=
  match w with Val z => Z_to_str z | _ => u "0" end.

Definition validateChannelName (n : jsstr) : bool := (0 <? length (trim n))%nat.
Definition validateApiKey (k : jsstr) : bool := (0 <? length (trim k))%nat.
Definition validateModels (m : jsstr) : bool := (0 <? length (parseModelsList m))%nat.
Definition validateGroups (localeCompare : jsstr -> jsstr -> Z) (g : jsstr) : bool :=
  (0 <? length (parseGroupsList localeCompare g))%nat.

Definition low_balance (c : Channel) : bool :=
  num_gt (balance c) (num_of_Z 0) && num_lt (balance c) (num_of_Z 1).

Definition all_keys_disabled (c : Channel) : bool :=
  is_multi_key (channel_info c) &&
  match multi_key_status_list (channel_info c) with
  | Some l => multi_key_size (channel_info c) <=? Z.of_nat (length l)
  | None => false
  end.

Definition channelNeedsAttention (c : Channel) : bool :=
  if status c =? 3 then true
  else if low_balance c then true
  else if all_keys_disabled c then true
  else false.

Definition getAttentionReason (c : Channel) : option jsstr :=
  if status c =? 3 then Some (u "Auto-disabled")
  else if low_balance c then Some (u "Low balance")
  else if all_keys_disabled c then Some (u "All keys disabled")
  else None.

Definition getKeyPromptForType (t : Z) : jsstr :=
  or_str (map_get t TYPE_TO_KEY_PROMPT ?? []) (u "Enter API key for this channel").

(** ** Aggregation by tag *)

(** A tag row: the first channel of the tag spread under the aggregate fields.
    [row_status] is [None] while no channel has been added. *)
Record TagRow := mkRow {
  row_base : Channel;
  row_tag : jsstr;
  row_status : option Z;
  row_group : jsstr;
  row_used_quota : Z;
  row_response_time : number;
  row_priority : nullable Z;
  row_weight : nullable Z;
  children : list Channel;
}.

Definition tag_of (c : Channel) : jsstr :=
  match tag c with Val t => t | _ => [] end.

Definition new_row (c : Channel) : TagRow :=
  mkRow c (tag_of c) None [] 0 (num_of_Z 0) (Val (-1)) (Val (-1)) [].

(** same value, or [null] if different; -1 marks a value not set yet *)
Definition merge_value (cur : nullable Z) (v : nullable Z) : nullable Z :=
  if bool_decide (cur = Val (-1)) then v
  else if negb (bool_decide (cur = v)) then Null
  else cur.

Definition split_groups (g : jsstr) : list jsstr := bfilter truthy (split_on comma g).

(** [existingGroups] is computed once, before the loop over [newGroups] *)
Definition merge_group (cur g : jsstr) : jsstr :=
  match cur with
  | [] => g
  | _ =>
      let existingGroups := js_set (split_groups cur) in
      foldl (fun acc x => if negb (includes existingGroups x) then acc ++ [comma] ++ x else acc)
            cur (split_groups g)
  end.

Definition merge_status (cur : option Z) (s : Z) : option Z :=
  if s =? 1 then Some 1
  else match cur with None => Some s | Some _ => cur end.

Definition add_child (row : TagRow) (c : Channel) : TagRow :=
  let kids := children row ++ [c] in
  let childCount := Z.of_nat (length kids) in
  mkRow (row_base row) (row_tag row)
    (merge_status (row_status row) (status c))
    (merge_group (row_group row) (group c))
    (row_used_quota row + used_quota c)
    ((row_response_time row * num_of_Z (childCount - 1) + response_time c)
       / num_of_Z childCount)%num
    (merge_value (row_priority row) (priority c))
    (merge_value (row_weight row) (weight c))
    kids.

(** One iteration.  [tagMap] and [result] share the row objects, so one list of
    rows in insertion order, indexed by tag, stands for both. *)
Definition aggregate_step (rows : list (jsstr * TagRow)) (c : Channel) : list (jsstr * TagRow) :=
  let t := tag_of c in
  let row := map_get t rows ?? new_row c in
  map_set t (add_child row c) rows.

Definition aggregateChannelsByTag (channels : list Channel) : list TagRow :=
  (foldl aggregate_step [] channels).*2.

(** ** Lemmas: aggregation as grouping *)

(** The channels of a tag, in their order. *)
Definition with_tag (t : jsstr) (cs : list Channel) : list Channel :=
  bfilter (fun c => bool_decide (tag_of c = t)) cs.

(** The row that a non-empty list of channels of one tag builds up to. *)
Definition row_of (kids : list Channel) : option TagRow :=
  match kids with
  | [] => None
  | c :: _ => Some (foldl add_child (new_row c) kids)
  end.

Lemma row_of_snoc kids c :
  row_of (kids ++ [c]) = Some (add_child (row_of kids ?? new_row c) c).
Proof. destruct kids as [|k kids]; cbn; [done|]. by rewrite foldl_app. Qed.

Lemma with_tag_snoc t cs c :
  with_tag t (cs ++ [c]) = with_tag t cs ++ (if bool_decide (tag_of c = t) then [c] else []).
Proof. unfold with_tag. rewrite List.filter_app. cbn. by case_bool_decide. Qed.

Lemma js_set_snoc {A} `{!EqDecision A} (l : list A) x : js_set (l ++ [x]) = set_add (js_set l) x.
Proof. unfold js_set. by rewrite foldl_app. Qed.

Lemma aggregate_rows cs :
  (foldl aggregate_step [] cs).*1 = js_set (map tag_of cs) /\
  forall t, map_get t (foldl aggregate_step [] cs) = row_of (with_tag t cs).
Proof.
  induction cs as [|c cs [IHk IHg]] using rev_ind; [done|].
  rewrite foldl_app. cbn [foldl]. set (rows := foldl aggregate_step [] cs) in *.
  unfold aggregate_step. split.
  - rewrite map_set_keys, IHk, map_app. cbn [map]. rewrite js_set_snoc.
    unfold set_add. case_decide; done.
  - intros t. rewrite map_get_set, with_tag_snoc, !IHg.
    case_decide as Ht; [subst; rewrite bool_decide_true by done|
                        rewrite bool_decide_false by done; by rewrite app_nil_r].
    by rewrite row_of_snoc.
Qed.

Lemma map_get_fmap_snd {K V} `{!EqDecision K} (m : list (K * V)) :
  NoDup m.*1 -> map Some m.*2 = map (fun k => map_get k m) m.*1.
Proof.
  induction m as [|[k v] m IH]; [done|]. cbn. rewrite NoDup_cons. intros [Hk Hm].
  rewrite decide_True by done. f_equal. rewrite IH by done.
  apply map_ext_in. intros x Hx%list_elem_of_In. rewrite decide_False; [done|].
  intros ->. done.
Qed.

Lemma elem_of_aggregate cs row :
  row ∈ aggregateChannelsByTag cs -> exists t kids c,
    kids = with_tag t cs /\ head kids = Some c /\ tag_of c = t /\
    row = foldl add_child (new_row c) kids.
Proof.
  unfold aggregateChannelsByTag. intros ([t row'] & -> & Hin)%list_elem_of_fmap.
  destruct (aggregate_rows cs) as [Hk Hg].
  apply map_get_elem in Hin; [|rewrite Hk; apply js_set_NoDup].
  rewrite Hg in Hin. destruct (with_tag t cs) as [|c l] eqn:E; [done|].
  cbn in Hin. injection Hin as <-. exists t, (c :: l), c. split_and!; try done.
  assert (c ∈ with_tag t cs) as Hc by (rewrite E; by left).
  apply elem_of_bfilter in Hc as [_ Hc]. by apply bool_decide_eq_true in Hc.
Qed.

(** ** Lemmas: the fields of a row *)

Lemma fold_children kids row : children (foldl add_child row kids) = children row ++ kids.
Proof.
  revert row. induction kids as [|c kids IH]; intros row; cbn; [by rewrite app_nil_r|].
  rewrite IH. cbn. by rewrite <- app_assoc.
Qed.

Lemma fold_tag kids row : row_tag (foldl add_child row kids) = row_tag row.
Proof. revert row. induction kids as [|c kids IH]; intros row; cbn; [done|]. by rewrite IH. Qed.

Lemma fold_used_quota kids row :
  row_used_quota (foldl add_child row kids) =
  row_used_quota row + foldr (fun c acc => used_quota c + acc) 0 kids.
Proof.
  revert row. induction kids as [|c kids IH]; intros row; cbn; [lia|]. rewrite IH. cbn. lia.
Qed.

Lemma fold_status kids row :
  row_status (foldl add_child row kids) = foldl merge_status (row_status row) (map status kids).
Proof. revert row. induction kids as [|c kids IH]; intros row; cbn; [done|]. by rewrite IH. Qed.

Lemma fold_group kids row :
  row_group (foldl add_child row kids) = foldl merge_group (row_group row) (map group kids).
Proof. revert row. induction kids as [|c kids IH]; intros row; cbn; [done|]. by rewrite IH. Qed.

Lemma fold_priority kids row :
  row_priority (foldl add_child row kids) =
  foldl merge_value (row_priority row) (map priority kids).
Proof. revert row. induction kids as [|c kids IH]; intros row; cbn; [done|]. by rewrite IH. Qed.

Lemma merge_status_one l : foldl merge_status (Some 1) l = Some 1.
Proof. induction l as [|x l IH]; cbn; [done|]. unfold merge_status at 2. by case_match. Qed.

Lemma merge_status_spec l s :
  foldl merge_status (Some s) l = if bool_decide (1 ∈ l) then Some 1 else Some s.
Proof.
  revert s. induction l as [|x l IH]; intros s; cbn; [done|].
  unfold merge_status at 2. destruct (Z.eqb_spec x 1) as [->|Hx].
  - rewrite merge_status_one. by rewrite bool_decide_true by (by left).
  - rewrite IH. by rewrite (bool_decide_ext (1 ∈ x :: l) (1 ∈ l)) by set_solver.
Qed.

Lemma merge_value_spec v l :
  v <> Val (-1) -> Forall (fun x => x <> Val (-1)) l ->
  foldl merge_value v l = if bool_decide (Forall (fun x => x = v) l) then v else Null.
Proof.
  intros Hv Hl. revert v Hv. induction Hl as [|x l Hx Hl IH]; intros v Hv; cbn; [done|].
  unfold merge_value at 2. rewrite bool_decide_false by done.
  destruct (decide (v = x)) as [->|Hne].
  - rewrite bool_decide_true by done. cbn [negb]. rewrite IH by done.
    erewrite bool_decide_ext; [reflexivity|]. rewrite Forall_cons. tauto.
  - rewrite bool_decide_false by done. cbn [negb]. rewrite IH by done.
    rewrite (bool_decide_false (Forall _ (x :: l))).
    + by case_bool_decide.
    + rewrite Forall_cons. naive_solver.
Qed.

Lemma split_on_app_sep c s t : split_on c (s ++ c :: t) = split_on c s ++ split_on c t.
Proof.
  induction s as [|x s IH]; cbn; [by rewrite N.eqb_refl|].
  destruct (x =? c)%N; [by rewrite IH|]. rewrite IH.
  pose proof (split_on_ne c s). by destruct (split_on c s).
Qed.

Lemma split_groups_app s g : split_groups (s ++ [comma] ++ g) = split_groups s ++ split_groups g.
Proof. unfold split_groups. cbn [app]. by rewrite split_on_app_sep, List.filter_app. Qed.

Lemma split_groups_part x g : x ∈ split_groups g -> split_groups x = [x].
Proof.
  intros [Hx Ht]%elem_of_bfilter. unfold split_groups.
  rewrite split_on_no_sep by (by eapply split_on_parts). cbn. by rewrite Ht.
Qed.

Lemma merge_group_elem cur g x :
  x ∈ split_groups (merge_group cur g) <-> x ∈ split_groups cur \/ x ∈ split_groups g.
Proof.
  unfold merge_group. destruct cur as [|a cur]; [set_solver|].
  set (ex := js_set _).
  assert (forall l acc, Forall (fun y => split_groups y = [y]) l ->
    x ∈ split_groups (foldl (fun acc y => if negb (includes ex y) then acc ++ [comma] ++ y else acc) acc l)
    <-> x ∈ split_groups acc \/ (x ∈ l /\ x ∉ ex)) as Hgen.
  { induction l as [|y l IH]; intros acc Hl; cbn [foldl]; [set_solver|].
    inversion Hl as [|? ? Hy Hl']; subst. rewrite IH by done.
    destruct (includes ex y) eqn:E; cbn [negb].
    - apply includes_true in E. set_solver.
    - apply bool_decide_eq_false in E. rewrite split_groups_app, Hy. set_solver. }
  rewrite Hgen.
  - unfold ex. rewrite elem_of_js_set. destruct (decide (x ∈ split_groups (a :: cur))); tauto.
  - apply Forall_forall. intros y. apply split_groups_part.
Qed.

Lemma fold_merge_group_elem l cur x :
  x ∈ split_groups (foldl merge_group cur l) <->
  x ∈ split_groups cur \/ exists g, g ∈ l /\ x ∈ split_groups g.
Proof.
  revert cur. induction l as [|g l IH]; intros cur; cbn [foldl]; [set_solver|].
  rewrite IH, merge_group_elem. setoid_rewrite elem_of_cons. naive_solver.
Qed.

(** ** Lemmas: grouping is a partition *)

Lemma with_tag_other t t' cs :
  t <> t' -> with_tag t (bfilter (fun c => negb (bool_decide (tag_of c = t'))) cs) = with_tag t cs.
Proof.
  intros Hne. unfold with_tag. induction cs as [|c cs IH]; cbn; [done|].
  destruct (decide (tag_of c = t')) as [Ht|Ht].
  - rewrite (bool_decide_true (tag_of c = t')) by done. cbn [negb]. rewrite IH.
    rewrite bool_decide_false by congruence. done.
  - rewrite (bool_decide_false (tag_of c = t')) by done. cbn [negb]. cbn. by rewrite IH.
Qed.

Lemma with_tag_partition ts : forall cs,
  NoDup ts -> (forall c, c ∈ cs -> tag_of c ∈ ts) ->
  concat (map (fun t => with_tag t cs) ts) ≡ₚ cs.
Proof.
  induction ts as [|t ts IH]; intros cs Hnd Hcov; cbn.
  - destruct cs as [|c cs]; [done|]. specialize (Hcov c ltac:(by left)). set_solver.
  - apply NoDup_cons in Hnd as [Ht Hnd].
    set (rest := bfilter (fun c => negb (bool_decide (tag_of c = t))) cs).
    assert (map (fun t0 => with_tag t0 cs) ts = map (fun t0 => with_tag t0 rest) ts) as ->.
    { apply map_ext_in. intros x Hx%list_elem_of_In. symmetry. apply with_tag_other.
      intros ->. done. }
    rewrite IH; [apply bfilter_split_perm|done|].
    intros c [Hc Hn]%elem_of_bfilter. apply negb_true_iff, bool_decide_eq_false in Hn.
    apply Hcov in Hc. set_solver.
Qed.

(** ** Theorems: aggregation *)

Lemma aggregate_groups_lemma cs :
  map row_tag (aggregateChannelsByTag cs) = js_set (map tag_of cs) /\
  map children (aggregateChannelsByTag cs) =
    map (fun t => with_tag t cs) (js_set (map tag_of cs)).
Proof.
  destruct (aggregate_rows cs) as [Hk Hg]. unfold aggregateChannelsByTag.
  set (m := foldl aggregate_step [] cs) in *.
  assert (NoDup m.*1) as Hnd by (rewrite Hk; apply js_set_NoDup).
  pose proof (map_get_fmap_snd m Hnd) as Hsome. rewrite Hk in Hsome.
  rewrite (map_ext _ _ Hg) in Hsome. clearbody m.
  assert (forall t, t ∈ js_set (map tag_of cs) -> exists c l,
    with_tag t cs = c :: l /\ tag_of c = t) as Hne.
  { intros t Ht. rewrite elem_of_js_set in Ht.
    apply list_elem_of_In, in_map_iff in Ht as (c & Hc & Hin%list_elem_of_In).
    destruct (with_tag t cs) as [|c' l] eqn:E.
    - assert (c ∈ with_tag t cs) as Hx; [|rewrite E in Hx; set_solver].
      apply elem_of_bfilter. by rewrite bool_decide_true.
    - exists c', l. split; [done|]. assert (c' ∈ with_tag t cs) as Hx by (rewrite E; by left).
      apply elem_of_bfilter in Hx as [_ Hx]. by apply bool_decide_eq_true in Hx. }
  revert Hsome Hne. clear. generalize (m.*2), (js_set (map tag_of cs)).
  induction l as [|r rows IH]; intros [|t ts] Hsome Hne; try done.
  cbn in Hsome. injection Hsome as Hr Hsome.
  destruct (Hne t ltac:(by left)) as (c & kids & Hw & Hc). rewrite Hw in Hr. cbn in Hr.
  destruct (IH ts Hsome) as [IH1 IH2]; [intros; apply Hne; by right|].
  cbn [map]. rewrite IH1, IH2, Hw. injection Hr as ->.
  rewrite fold_tag, fold_children. cbn. by rewrite Hc.
Qed.

(** The table shows one row per tag, in the order the tags first occur,
    and the children of a row are the channels of its tag, in their order. *)
Theorem aggregate_groups cs :
  map row_tag (aggregateChannelsByTag cs) = js_set (map tag_of cs) /\
  map children (aggregateChannelsByTag cs) =
    map (fun t => with_tag t cs) (js_set (map tag_of cs)).
Proof. apply aggregate_groups_lemma. Qed.

(** No channel is lost or shown twice: the children of all rows together
    are a permutation of the channels. *)
Theorem aggregate_partition cs :
  concat (map children (aggregateChannelsByTag cs)) ≡ₚ cs.
Proof.
  destruct (aggregate_groups_lemma cs) as [_ ->]. apply with_tag_partition; [apply js_set_NoDup|].
  intros c Hc. rewrite elem_of_js_set. apply list_elem_of_In, in_map, list_elem_of_In, Hc.
Qed.

(** The aggregate fields of a row: the used quota is the sum over its
    children, the row is enabled when a child is and otherwise has the status
    of its first child, and its groups are the groups of its children. *)
Theorem aggregate_row_fields cs row :
  row ∈ aggregateChannelsByTag cs ->
  row_used_quota row = foldr (fun c acc => used_quota c + acc) 0 (children row) /\
  (exists c, head (children row) = Some c /\
     row_status row = if bool_decide (1 ∈ map status (children row)) then Some 1
                      else Some (status c)) /\
  forall x, x ∈ split_groups (row_group row) <->
    exists c, c ∈ children row /\ x ∈ split_groups (group c).
Proof.
  intros (t & kids & c & Hk & Hh & Ht & ->)%elem_of_aggregate.
  rewrite fold_children, fold_used_quota, fold_status, fold_group. cbn [new_row children
    row_used_quota row_status row_group app].
  split_and!; [lia| |].
  - exists c. split; [done|]. destruct kids as [|c' kids]; [done|]. injection Hh as ->.
    cbn [map foldl]. unfold merge_status at 2. destruct (Z.eqb_spec (status c) 1) as [H1|H1].
    + rewrite merge_status_one. rewrite bool_decide_true; [done|]. rewrite H1. by left.
    + rewrite merge_status_spec. erewrite bool_decide_ext; [reflexivity|]. set_solver.
  - intros x. rewrite fold_merge_group_elem. split.
    + intros [H|(g & Hg & Hx)]; [vm_compute in H; set_solver|].
      apply list_elem_of_In, in_map_iff in Hg as (k & <- & Hin%list_elem_of_In). by exists k.
    + intros (k & Hin & Hx). right. exists (group k). split; [|done].
      apply list_elem_of_In, in_map, list_elem_of_In, Hin.
Qed.

(** When no channel of the table has priority -1, the priority of a row is
    the common priority of its children, or null when they differ. *)
Theorem aggregate_row_priority cs row :
  row ∈ aggregateChannelsByTag cs ->
  Forall (fun c => priority c <> Val (-1)) cs ->
  exists c, head (children row) = Some c /\
    row_priority row =
      if bool_decide (Forall (fun k => priority k = priority c) (children row))
      then priority c else Null.
Proof.
  intros (t & kids & c & Hk & Hh & Ht & ->)%elem_of_aggregate Hall.
  exists c. rewrite fold_children, fold_priority. cbn [new_row children row_priority app].
  split; [done|]. destruct kids as [|c' kids]; [done|]. injection Hh as ->.
  assert (Forall (fun k => priority k <> Val (-1)) (c :: kids)) as Hf.
  { apply Forall_forall. intros k Hin. rewrite Hk in Hin.
    apply elem_of_bfilter in Hin as [Hin _]. exact (proj1 (Forall_forall _ _) Hall k Hin). }
  inversion Hf; subst. cbn [map foldl]. unfold merge_value at 2. rewrite bool_decide_true by done.
  rewrite merge_value_spec; [|done|by apply Forall_map].
  erewrite bool_decide_ext; [reflexivity|]. rewrite Forall_map, Forall_cons. unfold compose. tauto.
Qed.

(** The sentinel -1 collides with a real priority: after a first channel
    of priority -1 the row takes the priority of the second one, whatever it
    is, instead of null. *)
Theorem aggregate_priority_sentinel c1 c2 :
  tag_of c1 = tag_of c2 -> priority c1 = Val (-1) ->
  exists row, aggregateChannelsByTag [c1; c2] = [row] /\ children row = [c1; c2] /\
    row_priority row = priority c2.
Proof.
  intros Ht Hp.
  assert (foldl aggregate_step [] [c1; c2] =
          [(tag_of c1, add_child (add_child (new_row c1) c1) c2)]) as Hrows.
  { cbn [foldl]. unfold aggregate_step. rewrite <- Ht. cbn [map_get map_set coalesce from_option].
    by rewrite !decide_True by done. }
  eexists. unfold aggregateChannelsByTag. rewrite Hrows. split; [reflexivity|].
  split; [done|]. cbn. by rewrite Hp.
Qed.

(** A group that one channel repeats is appended once per occurrence: the
    membership set is not updated inside the loop. *)
Theorem aggregate_group_not_deduplicated g x :
  x ∉ split_groups g -> split_groups x = [x] -> g <> [] ->
  merge_group g (x ++ [comma] ++ x) = g ++ [comma] ++ x ++ [comma] ++ x.
Proof.
  intros Hx Hs Hg. unfold merge_group. destruct g as [|a g]; [done|].
  rewrite split_groups_app, Hs. cbn [app foldl].
  assert (includes (js_set (split_groups (a :: g))) x = false) as ->.
  { apply bool_decide_eq_false. by rewrite elem_of_js_set. }
  cbn [negb app]. by rewrite <- app_assoc.
Qed.

(** ** Theorems: keys *)

(** Masking shows every character of a key of at most eight characters:
    two such keys of equal length with the same mask are the same key. *)
Theorem short_key_mask_reveals k1 k2 :
  length k1 = length k2 -> (length k1 <= 8)%nat ->
  formatChannelKey k1 false = formatChannelKey k2 false -> k1 = k2.
Proof.
  intros Hlen H8. unfold formatChannelKey.
  destruct k1 as [|a k1], k2 as [|b k2]; try done. cbn [truthy negb].
  set (s1 := a :: k1) in *. set (s2 := b :: k2) in *. clearbody s1 s2.
  rewrite !(proj2 (Nat.leb_le _ 16)) by lia. intros Heq.
  apply app_inj_1 in Heq as [Ht Hd]; [|rewrite !length_take; lia].
  apply app_inv_head in Hd. unfold slice_last in Hd.
  apply list_eq. intros i. destruct (decide (i < 4)%nat) as [Hi|Hi].
  - apply (f_equal (fun l => l !! i)) in Ht. by rewrite !lookup_take_lt in Ht by done.
  - destruct (decide (i < length s1)%nat) as [Hl|Hl].
    + apply (f_equal (fun l => l !! (i - (length s1 - 4))%nat)) in Hd.
      rewrite !lookup_drop in Hd.
      replace (length s1 - 4 + (i - (length s1 - 4)))%nat with i in Hd by lia.
      replace (length s2 - 4 + (i - (length s1 - 4)))%nat with i in Hd by lia. done.
    + rewrite !lookup_ge_None_2 by lia. done.
Qed.

(** A key of more than sixteen characters shows its first and last eight
    characters and nothing else. *)
Theorem long_key_mask_hides k1 k2 :
  (16 < length k1)%nat -> (16 < length k2)%nat ->
  formatChannelKey k1 false = formatChannelKey k2 false <->
  take 8 k1 = take 8 k2 /\ slice_last 8 k1 = slice_last 8 k2.
Proof.
  intros H1 H2. unfold formatChannelKey.
  destruct k1 as [|a k1]; [cbn in H1; lia|]. destruct k2 as [|b k2]; [cbn in H2; lia|].
  cbn [truthy negb]. set (s1 := a :: k1) in *. set (s2 := b :: k2) in *. clearbody s1 s2.
  rewrite !(proj2 (Nat.leb_gt _ 16)) by lia. split.
  - intros [Ht Hd]%app_inj_1; [|rewrite !length_take; lia]. by apply app_inv_head in Hd.
  - by intros [-> ->].
Qed.

Lemma dedup_fold lines acc :
  foldl dedup_step acc lines = foldl set_add acc (bfilter truthy (map trim lines)).
Proof.
  revert acc. induction lines as [|l lines IH]; intros acc; [done|]. cbn [foldl map List.filter].
  rewrite IH. unfold dedup_step. destruct (truthy (trim l)) eqn:Ht; cbn [andb]; [|done].
  cbn [foldl]. f_equal. unfold set_add, includes. by case_decide; case_bool_decide.
Qed.

(** The lines deduplication keeps. *)
Definition kept_keys (s : jsstr) : list jsstr :=
  js_set (bfilter truthy (map trim (split_on newline s))).

Lemma deduplicateKeys_unfold s :
  trim s <> [] ->
  deduplicateKeys s =
    mkDedup (join [newline] (kept_keys s)) (Z.of_nat (length (split_on newline s)))
      (Z.of_nat (length (kept_keys s)))
      (Z.of_nat (length (split_on newline s)) - Z.of_nat (length (kept_keys s))).
Proof.
  intros Hs. unfold deduplicateKeys. destruct s as [|a s]; [done|]. cbn [truthy negb orb].
  destruct (trim (a :: s)); [done|]. cbn [truthy negb]. by rewrite dedup_fold.
Qed.

Lemma kept_keys_length s : (length (kept_keys s) <= length (split_on newline s))%nat.
Proof.
  unfold kept_keys. etransitivity; [apply js_set_length|].
  rewrite List.filter_length_le. by rewrite length_map.
Qed.

Lemma kept_keys_clean s :
  Forall (fun k => trim k = k /\ k <> [] /\ newline ∉ k) (kept_keys s).
Proof.
  apply Forall_forall. intros k Hin. unfold kept_keys in Hin.
  rewrite elem_of_js_set in Hin. apply elem_of_bfilter in Hin as [Hin Ht].
  apply list_elem_of_In, in_map_iff in Hin as (l & <- & Hl%list_elem_of_In).
  split_and!; [apply trim_idemp|by destruct (trim l)|].
  intros Hn%elem_of_trim. by apply split_on_parts in Hl.
Qed.

Lemma trim_nil_blank s c : trim s = [] -> c ∈ s -> is_ws c = true.
Proof.
  intros He. destruct (trim_split s) as (w1 & w2 & Hs & Hw1 & Hw2). rewrite He in Hs. rewrite Hs.
  rewrite forallb_forall in Hw1, Hw2.
  intros [Hc|[Hc|Hc]%elem_of_app]%elem_of_app; [|set_solver|]; apply list_elem_of_In in Hc; auto.
Qed.

Lemma trim_join_nil k ks : trim k = k -> k <> [] -> trim (join [newline] (k :: ks)) <> [].
Proof.
  intros Hk Hne He. destruct k as [|c k]; [done|].
  pose proof (trim_ends (c :: k)) as [Hh _]. rewrite Hk in Hh. specialize (Hh c eq_refl).
  rewrite (trim_nil_blank _ c He) in Hh; [done|]. destruct ks; by left.
Qed.

(** Lines that are clean and distinct are all kept. *)
Lemma kept_keys_join s : kept_keys s <> [] -> kept_keys (join [newline] (kept_keys s)) = kept_keys s.
Proof.
  pose proof (kept_keys_clean s) as Hk. intros Hne. unfold kept_keys at 1.
  rewrite split_join; [|done|eapply Forall_impl; [exact Hk|]; by intros ? (_ & _ & ?)].
  rewrite (map_ext_in _ (fun k => k)), map_id.
  2:{ intros k Hin%list_elem_of_In. by apply (proj1 (Forall_forall _ _) Hk k) in Hin as (? & _). }
  rewrite bfilter_all; [apply js_set_idemp|].
  intros k Hin. apply (proj1 (Forall_forall _ _) Hk k) in Hin as (_ & ? & _). by destruct k.
Qed.

(** Deduplication keeps the first occurrence of every trimmed non-empty
    line in order, counts what it kept and removed, and the text it returns
    needs no further deduplication. *)
Theorem deduplicateKeys_spec txt :
  let r := deduplicateKeys txt in
  let kept := js_set (bfilter truthy (map trim (split_on newline txt))) in
  (trim txt <> [] ->
     deduplicatedText r = join [newline] kept /\ afterCount r = Z.of_nat (length kept) /\
     beforeCount r = afterCount r + removedCount r /\ 0 <= removedCount r) /\
  deduplicatedText (deduplicateKeys (deduplicatedText r)) = deduplicatedText r.
Proof.
  cbn zeta. fold (kept_keys txt). split.
  - intros Ht. rewrite deduplicateKeys_unfold by done. cbn.
    pose proof (kept_keys_length txt). split_and!; try done; lia.
  - destruct (decide (trim txt = [])) as [He|Hne].
    { unfold deduplicateKeys at 2 3. rewrite He. cbn [truthy negb]. by rewrite orb_true_r. }
    rewrite (deduplicateKeys_unfold txt Hne). cbn [deduplicatedText].
    pose proof (kept_keys_clean txt) as Hk.
    destruct (decide (kept_keys txt = [])) as [E|E]; [by rewrite E|].
    rewrite deduplicateKeys_unfold; [cbn [deduplicatedText]; by rewrite kept_keys_join|].
    destruct (kept_keys txt) as [|k ks]; [done|].
    inversion Hk as [|? ? (? & ? & _) _]; subst. by apply trim_join_nil.
Qed.

(** ** Theorems: attention, options, groups *)

(** A channel is flagged exactly when there is a reason to show. *)
Theorem attention_has_reason c :
  channelNeedsAttention c = true <-> exists reason, getAttentionReason c = Some reason.
Proof.
  unfold channelNeedsAttention, getAttentionReason.
  repeat case_match; split; intros; try done; try naive_solver.
Qed.

(** The type selector offers every channel type except 0 exactly once. *)
Theorem channel_type_options_complete :
  NoDup CHANNEL_TYPE_OPTIONS.*1 /\
  forall t l, (t, l) ∈ CHANNEL_TYPE_OPTIONS <-> (t, l) ∈ CHANNEL_TYPES /\ t <> 0.
Proof.
  assert (CHANNEL_TYPE_OPTIONS ≡ₚ bfilter (fun kv => negb (kv.1 =? 0)) CHANNEL_TYPES) as Hp.
  { apply NoDup_Permutation;
      [apply (bool_decide_unpack _); vm_compute; exact I..|].
    intros x. split; revert x; apply Forall_forall, (bool_decide_unpack _); vm_compute; exact I. }
  split.
  - rewrite Hp. apply (bool_decide_unpack _). vm_compute. exact I.
  - intros t l. rewrite Hp, elem_of_bfilter. cbn. rewrite negb_true_iff, Z.eqb_neq. done.
Qed.

(** Whatever the collation, [default] comes before every other group and
    no group is lost. *)
Theorem parseGroupsList_default_first lc groups :
  parseGroupsList lc groups ≡ₚ (if truthy groups then parse_list groups else []) /\
  (u "default" ∈ parse_list groups -> truthy groups = true ->
   head (parseGroupsList lc groups) = Some (u "default")).
Proof.
  unfold parseGroupsList. destruct (truthy groups); cbn [negb]; [|done].
  split; [apply js_sort_perm|]. intros Hin _. revert Hin.
  generalize (parse_list groups). induction l as [|x l IH]; intros Hin; [set_solver|].
  cbn. change (foldr (sort_insert (group_cmp lc)) [] l) with (js_sort (group_cmp lc) l).
  destruct (decide (x = u "default")) as [->|Hx].
  - destruct (js_sort (group_cmp lc) l) as [|y ys]; [done|]. cbn.
    unfold group_cmp. by rewrite bool_decide_true by done.
  - apply elem_of_cons in Hin as [<-|Hin]; [done|]. specialize (IH Hin).
    destruct (js_sort (group_cmp lc) l) as [|y ys]; [done|]. injection IH as ->. cbn.
    unfold group_cmp. rewrite (bool_decide_false (x = _)) by done.
    by rewrite bool_decide_true by done.
Qed.

(** ** Examples *)

Definition sample_channel (i : Z) (t grp : jsstr) (prio : Z) (st : Z) : Channel :=
  mkChannel i 1 (u "sk-1") Undef Undef st (u "c") Null 0 0 (num_of_Z 0) Undef [] (num_of_Z 0) 0 []
    grp 5 Undef Undef (Val prio) Undef [] (Val t) Undef Undef Undef [] 0 default_info (u "{}").

Definition sample_channels : list Channel :=
  [sample_channel 1 (u "eu") (u "vip") 3 2; sample_channel 2 (u "eu") (u "default") 3 1].

Definition sample_row : TagRow :=
  add_child (add_child (new_row (sample_channel 1 (u "eu") (u "vip") 3 2))
    (sample_channel 1 (u "eu") (u "vip") 3 2)) (sample_channel 2 (u "eu") (u "default") 3 1).

Lemma sample_row_in : sample_row ∈ aggregateChannelsByTag sample_channels.
Proof. apply list_elem_of_singleton. reflexivity. Qed.

Lemma aggregate_row_fields_witness :
  row_used_quota sample_row = 10 /\ row_status sample_row = Some 1.
Proof.
  destruct (aggregate_row_fields sample_channels sample_row sample_row_in) as (H1 & (c & Hc & H2) & _).
  split; [rewrite H1; reflexivity|rewrite H2; reflexivity].
Defined.

Lemma aggregate_row_priority_witness : row_priority sample_row = Val 3.
Proof.
  destruct (aggregate_row_priority sample_channels sample_row sample_row_in) as (c & Hc & H).
  - repeat constructor; discriminate.
  - injection Hc as <-. rewrite H. reflexivity.
Defined.

Lemma aggregate_priority_sentinel_witness :
  exists row, aggregateChannelsByTag [sample_channel 1 (u "eu") [] (-1) 1; sample_channel 2 (u "eu") [] 7 1] = [row] /\
    row_priority row = Val 7.
Proof.
  destruct (aggregate_priority_sentinel (sample_channel 1 (u "eu") [] (-1) 1) (sample_channel 2 (u "eu") [] 7 1))
    as (row & H1 & _ & H2); [reflexivity..|].
  exists row. split; [exact H1|exact H2].
Defined.

Lemma aggregate_group_not_deduplicated_witness :
  merge_group (u "a") (u "b,b") = u "a,b,b".
Proof.
  refine (eq_trans (aggregate_group_not_deduplicated (u "a") (u "b") _ _ _) _).
  - apply (bool_decide_unpack _). vm_compute. exact I.
  - reflexivity.
  - discriminate.
  - reflexivity.
Defined.

Lemma short_key_mask_reveals_witness : u "secret12" = u "secret12".
Proof.
  apply (short_key_mask_reveals (u "secret12") (u "secret12")); [reflexivity| |reflexivity].
  apply Nat.leb_le. reflexivity.
Defined.

Lemma long_key_mask_hides_witness :
  formatChannelKey (u "sk-12345-AAAA-67890123") false = formatChannelKey (u "sk-12345-BBBBB-67890123") false.
Proof.
  refine (proj2 (long_key_mask_hides (u "sk-12345-AAAA-67890123") (u "sk-12345-BBBBB-67890123") _ _) _).
  - apply Nat.ltb_lt. reflexivity.
  - apply Nat.ltb_lt. reflexivity.
  - split; vm_compute; reflexivity.
Defined.

End ChanUtils.
