(* ===== verification/ChannelForm.v ===== *)
(** * The channel form
    (web/default/src/features/channels/lib/channel-form.ts, channel-form-errors.ts
    and channel-type-config.ts)

    The values of the form, the checks of its schema, the form of an existing
    channel and the payloads for creating and updating a channel.

    The form validates with zod: the checks that the schema names are
    definitions here, a form is valid when none of them reports an issue, and
    [None] stands for a message of zod's own.  A value that was read from a
    JSON text without a check on its type is a [json]. *)

From S2P Require Import Prelude JsString JsNumber JsJson JsRegex JsPrint ChannelTypes ChannelUtils.

Import Print Chan ChanUtils.
Open Scope Z_scope.

Module Form.

(** ** Optional JSON texts *)

(** [None]: [JSON.parse] throws; [Some None]: [undefined]. *)
Definition parseOptionalJson (value : option jsstr) : option (option json) :=
  match value with
  | Some s => if truthy (trim s) then Some <$> JSON_parse s else Some None
  | None => Some None
  end.

Definition isJsonObjectValue (j : json) : bool := match j with JObj _ => true | _ => false end.

(** [try { parse; undefined is accepted; check } catch { false }] *)
Definition optional_json (check : json -> bool) (value : option jsstr) : bool :=
  match parseOptionalJson value with
  | None => false
  | Some None => true
  | Some (Some j) => check j
  end.

Definition isOptionalJsonObject : option jsstr -> bool := optional_json isJsonObjectValue.

Definition isOptionalModelMapping : option jsstr -> bool :=
  optional_json (fun j => match j with
                          | JObj fs => forallb (fun v => match v with JStr _ => true | _ => false end) (obj_values fs)
                          | _ => false
                          end).

(** [Number.isInteger(x) && x >= 100 && x <= 599] *)
Definition is_status (x : number) : bool :=
  match num_int x with Some z => (100 <=? z) && (z <=? 599) | None => false end.

Definition isOptionalStatusCodeMapping : option jsstr -> bool :=
  optional_json (fun j => match j with
                          | JObj fs => forallb (fun kv => is_status (str_to_num kv.1) && is_status (json_to_num (Some kv.2))) (obj_entries fs)
                          | _ => false
                          end).

(** A string that is not blank. *)
Definition is_text (j : option json) : bool := match j with Some (JStr s) => truthy (trim s) | _ => false end.

Definition isCodexCredential : option jsstr -> bool :=
  optional_json (fun j => match j with
                          | JObj fs => is_text (map_get (u "access_token") fs) && is_text (map_get (u "account_id") fs)
                          | _ => false
                          end).

Definition isVertexJsonKey : option jsstr -> bool :=
  optional_json (fun j => match j with JArr l => forallb isJsonObjectValue l | _ => isJsonObjectValue j end).

(** ** The values of the form *)

Inductive AddMode := AddSingle | AddBatch | AddMultiToSingle.
Inductive KeyMode := KeyAppend | KeyReplace.

#[export] Instance AddMode_eq_dec : EqDecision AddMode.
Proof. solve_decision. Defined.

(** The six fields that are stored in [setting]. *)
Record ExtraSettings := mkExtra {
  force_format : option json; thinking_to_content : option json; proxy : option json;
  pass_through_body_enabled : option json; system_prompt : option json; system_prompt_override : option json;
}.

(** The fields that are stored in [settings]. *)
Record TypeSettings := mkTypeSettings {
  is_enterprise_account : option bool; vertex_key_type : option json; aws_key_type : option json;
  azure_responses_version : option json; allow_service_tier : option bool; disable_store : option bool;
  allow_safety_identifier : option bool; allow_include_obfuscation : option bool; allow_inference_geo : option bool;
  allow_speed : option bool; claude_beta_query : option bool; upstream_model_update_check_enabled : option bool;
  upstream_model_update_auto_sync_enabled : option bool; upstream_model_update_ignored_models : option jsstr;
}.

Record ChannelFormValues := mkForm {
  f_name : jsstr; f_type : Z; f_base_url : option jsstr; f_key : jsstr; f_openai_organization : option jsstr; f_models : jsstr;
  f_group : list jsstr; f_model_mapping : option jsstr; f_priority : option Z; f_weight : option Z; f_test_model : option jsstr;
  f_auto_ban : option Z; f_status : Z; f_status_code_mapping : option jsstr; f_tag : option jsstr; f_remark : option jsstr;
  f_setting : option jsstr; f_param_override : option jsstr; f_header_override : option jsstr; f_settings : option jsstr;
  f_other : option jsstr; f_multi_key_mode : option AddMode; f_multi_key_type : option MultiKeyMode;
  f_batch_add_set_key_prefix_2_name : option bool; f_key_mode : option KeyMode; f_extra : ExtraSettings; f_specific : TypeSettings;
}.

Definition jfalse : option json := Some (JBool false).
Definition jempty : option json := Some (JStr []).

Definition default_extra : ExtraSettings := mkExtra jfalse jfalse jempty jfalse jempty jfalse.

Definition default_specific : TypeSettings :=
  let no := Some false in
  mkTypeSettings no (Some (JStr (u "json"))) (Some (JStr (u "ak_sk"))) jempty no no no no no no no no no (Some []).

Definition CHANNEL_FORM_DEFAULT_VALUES : ChannelFormValues :=
  let blank := Some [] in
  mkForm [] 1 blank [] blank [] [u "default"] blank (Some 0) (Some 0) blank (Some 1) CHANNEL_STATUS_ENABLED blank blank blank
    blank blank blank (Some (u "{}")) blank (Some AddSingle) (Some mode_random) (Some false) (Some KeyAppend)
    default_extra default_specific.

(** ** Validation *)

Definition issue : Type := jsstr * option jsstr.

(** [s?.trim()] is falsy. *)
Definition blank_text (s : option jsstr) : bool := negb (truthy (trim (s ?? []))).

Definition when (b : bool) (path : jsstr) (message : option jsstr) : list issue := if b then [(path, message)] else [].

Definition is_bool (j : option json) : bool := match j with None | Some (JBool _) => true | _ => false end.
Definition is_string (j : option json) : bool := match j with None | Some (JStr _) => true | _ => false end.
Definition is_one_of (l : list jsstr) (j : option json) : bool :=
  match j with None => true | Some (JStr s) => includes l s | _ => false end.

Definition INVALID_JSON : jsstr := u "Invalid JSON format".

(** The checks on single fields. *)
Definition field_issues (d : ChannelFormValues) : list issue :=
  let e := f_extra d in
  let s := f_specific d in
  when (negb (truthy (f_name d))) (u "name") (Some (u "Channel name is required"))
  ++ when (f_type d <? 0) (u "type") (Some (u "Channel type is required"))
  ++ when (negb (truthy (f_models d))) (u "models") (Some (u "Models are required"))
  ++ when (negb (truthy_list (f_group d))) (u "group") (Some (u "Group is required"))
  ++ when (negb (isOptionalModelMapping (f_model_mapping d))) (u "model_mapping")
       (Some (u "Model mapping must be a JSON object with string values"))
  ++ when (negb (isOptionalStatusCodeMapping (f_status_code_mapping d))) (u "status_code_mapping")
       (Some (u "Status code mapping must use valid HTTP status codes"))
  ++ when (255 <? length (f_remark d ?? []))%nat (u "remark") (Some (u "Remark must be less than 255 characters"))
  ++ when (negb (isOptionalJsonObject (f_setting d))) (u "setting") (Some INVALID_JSON)
  ++ when (negb (isOptionalJsonObject (f_param_override d))) (u "param_override") (Some INVALID_JSON)
  ++ when (negb (isOptionalJsonObject (f_header_override d))) (u "header_override") (Some INVALID_JSON)
  ++ when (negb (isOptionalJsonObject (f_settings d))) (u "settings") (Some INVALID_JSON)
  ++ when (negb (is_bool (force_format e))) (u "force_format") None
  ++ when (negb (is_bool (thinking_to_content e))) (u "thinking_to_content") None
  ++ when (negb (is_string (proxy e))) (u "proxy") None
  ++ when (negb (is_bool (pass_through_body_enabled e))) (u "pass_through_body_enabled") None
  ++ when (negb (is_string (system_prompt e))) (u "system_prompt") None
  ++ when (negb (is_bool (system_prompt_override e))) (u "system_prompt_override") None
  ++ when (negb (is_one_of [u "json"; u "api_key"] (vertex_key_type s))) (u "vertex_key_type") None
  ++ when (negb (is_one_of [u "ak_sk"; u "api_key"] (aws_key_type s))) (u "aws_key_type") None
  ++ when (negb (is_string (azure_responses_version s))) (u "azure_responses_version") None.

(** [data.multi_key_mode && data.multi_key_mode !== 'single'] *)
Definition adds_many (d : ChannelFormValues) : bool := match f_multi_key_mode d with Some AddSingle | None => false | _ => true end.

(** The checks across fields. *)
Definition superRefine (d : ChannelFormValues) : list issue :=
  let ty := f_type d in
  let vertex s := match vertex_key_type (f_specific d) with Some (JStr k) => bool_decide (k = u s) | _ => false end in
  when (includes [3; 8; 36; 45] ty && blank_text (f_base_url d)) (u "base_url") (Some (u "Base URL is required for this channel type"))
  ++ when (includes [3; 18; 21; 39; 41; 49] ty && blank_text (f_other d)) (u "other")
       (Some (u "This channel type requires additional configuration"))
  ++ when ((ty =? 57) && adds_many d) (u "multi_key_mode") (Some (u "Codex channels do not support batch creation"))
  ++ when ((ty =? 57) && truthy (trim (f_key d)) && negb (isCodexCredential (Some (f_key d)))) (u "key")
       (Some (u "Codex credential must be a JSON object with access_token and account_id"))
  ++ when ((ty =? 41) && vertex "json"%string && truthy (trim (f_key d)) && negb (isVertexJsonKey (Some (f_key d)))) (u "key")
       (Some (u "Vertex AI service account key must be valid JSON"))
  ++ when ((ty =? 41) && vertex "api_key"%string && adds_many d) (u "multi_key_mode")
       (Some (u "Vertex AI API Key mode does not support batch creation")).

Definition channelFormSchema (d : ChannelFormValues) : bool := negb (truthy_list (field_issues d ++ superRefine d)).

Definition ADVANCED_SETTINGS_FIELDS : list jsstr :=
  [u "priority"; u "weight"; u "test_model"; u "auto_ban"; u "tag"; u "remark"; u "param_override"; u "header_override";
   u "status_code_mapping"; u "force_format"; u "thinking_to_content"; u "pass_through_body_enabled"; u "proxy";
   u "system_prompt"; u "system_prompt_override"; u "allow_service_tier"; u "disable_store"; u "allow_safety_identifier";
   u "allow_include_obfuscation"; u "allow_inference_geo"; u "allow_speed"; u "claude_beta_query";
   u "upstream_model_update_check_enabled"; u "upstream_model_update_auto_sync_enabled"; u "upstream_model_update_ignored_models"].

Definition isAdvancedSettingsField (fieldName : jsstr) : bool := includes ADVANCED_SETTINGS_FIELDS fieldName.
Definition hasAdvancedSettingsErrors (errors : list jsstr) : bool := existsb isAdvancedSettingsField errors.

(** ** Lists *)

Definition parseModels (models : jsstr) : list jsstr := if negb (truthy models) then [] else parse_list models.
Definition parseGroups (groups : jsstr) : list jsstr := if negb (truthy groups) then [] else parse_list groups.
Definition formatModels (l : list jsstr) : jsstr := join [comma] l.
Definition formatGroups (l : list jsstr) : jsstr := join [comma] l.

Definition validateJSON (value : jsstr) : bool :=
  if negb (truthy value) || bool_decide (trim value = []) then true
  else match JSON_parse value with Some _ => true | None => false end.

Definition validateModelMapping (value : jsstr) : bool :=
  if negb (truthy value) || bool_decide (trim value = []) then true else validateJSON value.

(** ** The form of a channel *)

(** [j || d] *)
Definition or_json (j : option json) (d : json) : json := match j with Some j => if json_truthy j then j else d | None => d end.

Definition is_true (j : option json) : bool := match j with Some (JBool true) => true | _ => false end.

(** [s || ''] for a nullable text *)
Definition text_of (s : nullable jsstr) : jsstr := match s with Val s => s | _ => [] end.
Definition number_of (n : nullable Z) : Z := match n with Val n => n | _ => 0 end.

(** Reading a property of [null] throws, and the defaults stay. *)
Definition read_extra (setting : jsstr) : ExtraSettings :=
  if negb (truthy setting) then default_extra
  else match JSON_parse setting with
       | None | Some JNull => default_extra
       | Some j =>
           let flag k := Some (or_json (json_get (u k) j) (JBool false)) in
           let txt k := Some (or_json (json_get (u k) j) (JStr [])) in
           mkExtra (flag "force_format"%string) (flag "thinking_to_content"%string) (txt "proxy"%string)
             (flag "pass_through_body_enabled"%string) (txt "system_prompt"%string) (flag "system_prompt_override"%string)
       end.

(** [l.join(',')] *)
Definition join_json (l : list json) : jsstr := json_to_str (JArr l).

Definition specific_of (get : jsstr -> option json) : TypeSettings :=
  let flag k := Some (is_true (get (u k))) in
  mkTypeSettings (flag "openrouter_enterprise"%string) (Some (or_json (get (u "vertex_key_type")) (JStr (u "json"))))
    (Some (or_json (get (u "aws_key_type")) (JStr (u "ak_sk")))) (Some (or_json (get (u "azure_responses_version")) (JStr [])))
    (flag "allow_service_tier"%string) (flag "disable_store"%string) (flag "allow_safety_identifier"%string)
    (flag "allow_include_obfuscation"%string) (flag "allow_inference_geo"%string) (flag "allow_speed"%string)
    (flag "claude_beta_query"%string) (flag "upstream_model_update_check_enabled"%string)
    (flag "upstream_model_update_auto_sync_enabled"%string)
    (Some (match get (u "upstream_model_update_ignored_models") with Some (JArr l) => join_json l | _ => [] end)).

Definition read_specific (settings : jsstr) : TypeSettings :=
  if negb (truthy settings) then default_specific
  else match JSON_parse settings with
       | None | Some JNull => default_specific
       | Some j => specific_of (fun k => json_get k j)
       end.

Definition transformChannelToFormDefaults (c : Channel) : ChannelFormValues :=
  mkForm (name c) (type_ c) (Some (text_of (base_url c))) [] (Some (text_of (openai_organization c))) (models c)
    (parseGroups (or_str (group c) (u "default"))) (Some (text_of (model_mapping c))) (Some (number_of (priority c)))
    (Some (number_of (weight c))) (Some (text_of (test_model c))) (Some (match auto_ban c with Val n => n | _ => 1 end)) (status c)
    (Some (text_of (status_code_mapping c))) (Some (text_of (tag c))) (Some (remark c)) (Some (text_of (setting c)))
    (Some (text_of (param_override c))) (Some (text_of (header_override c))) (Some (or_str (settings c) (u "{}"))) (Some (other c))
    (Some AddSingle) (Some (multi_key_mode (channel_info c))) (Some false) (Some KeyAppend)
    (read_extra (text_of (setting c))) (read_specific (settings c)).

(** ** Payloads *)

Definition buildSettingJSON (d : ChannelFormValues) : jsstr :=
  let e := f_extra d in
  JSON_stringify (JObj
    [(u "force_format", or_json (force_format e) (JBool false)); (u "thinking_to_content", or_json (thinking_to_content e) (JBool false));
     (u "proxy", or_json (proxy e) (JStr [])); (u "pass_through_body_enabled", or_json (pass_through_body_enabled e) (JBool false));
     (u "system_prompt", or_json (system_prompt e) (JStr [])); (u "system_prompt_override", or_json (system_prompt_override e) (JBool false))]).

Definition MODEL_FETCHABLE_TYPES : list Z := [1; 4; 14; 17; 20; 23; 24; 25; 26; 27; 31; 34; 35; 40; 42; 43; 47; 48].

(** [if (b) o[k] = v else if (k in o) delete o[k]] *)
Definition put (b : bool) (k : jsstr) (v : json) (o : list (jsstr * json)) : list (jsstr * json) :=
  if b then map_set k v o else map_delete k o.

(** [flag === true] *)
Definition set_true (b : option bool) : bool := match b with Some true => true | _ => false end.
Definition jbool (b : option bool) : json := JBool (set_true b).

(** The models detected last are kept while the check is on. *)
Definition put_detected (on : bool) (o : list (jsstr * json)) : list (jsstr * json) :=
  let is_array := match map_get (u "upstream_model_update_last_detected_models") o with Some (JArr _) => true | _ => false end in
  if negb is_array || negb on then map_set (u "upstream_model_update_last_detected_models") (JArr []) o else o.

Definition put_check_time (o : list (jsstr * json)) : list (jsstr * json) :=
  match map_get (u "upstream_model_update_last_check_time") o with
  | Some (JNum _) => o
  | _ => map_set (u "upstream_model_update_last_check_time") (JNum (num_of_Z 0)) o
  end.

Definition put_upstream (s : TypeSettings) (o : list (jsstr * json)) : list (jsstr * json) :=
  let on := set_true (upstream_model_update_check_enabled s) in
  let o := map_set (u "upstream_model_update_check_enabled") (JBool on) o in
  let o := map_set (u "upstream_model_update_auto_sync_enabled") (JBool (on && set_true (upstream_model_update_auto_sync_enabled s))) o in
  let o := map_set (u "upstream_model_update_ignored_models")
             (JArr (map JStr (js_set (parse_list (upstream_model_update_ignored_models s ?? []))))) o in
  put_check_time (put_detected on o).

(** The assignments to [settingsObj]. *)
Definition put_settings (ty : Z) (s : TypeSettings) (o : list (jsstr * json)) : list (jsstr * json) :=
  let o := put (ty =? 41) (u "vertex_key_type") (or_json (vertex_key_type s) (JStr (u "json"))) o in
  let o := put ((ty =? 3) && match azure_responses_version s with Some j => json_truthy j | None => false end)
             (u "azure_responses_version") (azure_responses_version s ?? JNull) o in
  let o := put (ty =? 20) (u "openrouter_enterprise") (jbool (is_enterprise_account s)) o in
  let o := put (ty =? 33) (u "aws_key_type") (or_json (aws_key_type s) (JStr (u "ak_sk"))) o in
  let o := put ((ty =? 1) || (ty =? 14)) (u "allow_service_tier") (jbool (allow_service_tier s)) o in
  let o := put (ty =? 1) (u "disable_store") (jbool (disable_store s)) o in
  let o := put (ty =? 1) (u "allow_safety_identifier") (jbool (allow_safety_identifier s)) o in
  let o := put (ty =? 1) (u "allow_include_obfuscation") (jbool (allow_include_obfuscation s)) o in
  let o := put ((ty =? 1) || (ty =? 14)) (u "allow_inference_geo") (jbool (allow_inference_geo s)) o in
  let o := put (ty =? 14) (u "allow_speed") (jbool (allow_speed s)) o in
  let o := put (ty =? 14) (u "claude_beta_query") (jbool (claude_beta_query s)) o in
  if includes MODEL_FETCHABLE_TYPES ty then put_upstream s o else o.

(** The settings that the form started from. *)
Definition settings_object (d : ChannelFormValues) : json :=
  let text := f_settings d ?? [] in
  if truthy text && negb (bool_decide (text = u "{}")) then JSON_parse text ?? JObj [] else JObj [].

(** [None] is the [TypeError] on a settings text that is no object; the named
    properties of an array are not printed. *)
Definition buildSettingsJSON (d : ChannelFormValues) : option jsstr :=
  match settings_object d with
  | JObj o => Some (JSON_stringify (JObj (put_settings (f_type d) (f_specific d) o)))
  | JArr l => Some (JSON_stringify (JArr l))
  | _ => None
  end.

Fixpoint strip_slashes (s : jsstr) : jsstr :=
  match s with c :: s' => if (c =? 47)%N then strip_slashes s' else s | [] => [] end.

(** [.trim().replace(/\/+$/, '')] *)
Definition normalizeBaseUrl (value : option jsstr) : jsstr := rev (strip_slashes (rev (trim (value ?? [])))).

(** [s || null] and [s || ''] *)
Definition or_null (s : jsstr) : json := if truthy s then JStr s else JNull.
Definition text_or_null (s : option jsstr) : json := or_null (s ?? []).
Definition text_or_empty (s : option jsstr) : json := JStr (s ?? []).

Definition jint (z : Z) : json := JNum (num_of_Z z).

(** [null] for the empty text *)
Definition nulled (j : json) : json := match j with JStr [] => JNull | v => v end.

(** Empty strings become [null]. *)
Definition empty_to_null (o : list (jsstr * json)) : list (jsstr * json) :=
  map (fun kv => (kv.1, nulled kv.2)) o.

Record CreatePayload := mkCreate {
  cp_mode : AddMode; cp_multi_key_mode : option MultiKeyMode; cp_batch_prefix : option bool; cp_channel : list (jsstr * json);
}.

Definition transformFormDataToCreatePayload (d : ChannelFormValues) : option CreatePayload :=
  let mode := f_multi_key_mode d ?? AddSingle in
  let number n := match n with Some 0 | None => JNull | Some z => jint z end in
  settings_text ← buildSettingsJSON d;
  let channel :=
    [(u "name", JStr (f_name d)); (u "type", jint (f_type d)); (u "base_url", or_null (normalizeBaseUrl (f_base_url d)));
     (u "key", JStr (f_key d)); (u "openai_organization", text_or_null (f_openai_organization d)); (u "models", JStr (f_models d));
     (u "group", JStr (formatGroups (f_group d))); (u "model_mapping", text_or_null (f_model_mapping d));
     (u "priority", number (f_priority d)); (u "weight", number (f_weight d)); (u "test_model", text_or_null (f_test_model d));
     (u "auto_ban", jint (f_auto_ban d ?? 1)); (u "status", jint (f_status d));
     (u "status_code_mapping", text_or_null (f_status_code_mapping d)); (u "tag", text_or_null (f_tag d));
     (u "remark", text_or_empty (f_remark d)); (u "setting", JStr (buildSettingJSON d));
     (u "param_override", text_or_null (f_param_override d)); (u "header_override", text_or_null (f_header_override d));
     (u "settings", JStr settings_text); (u "other", text_or_empty (f_other d))] in
  Some (mkCreate mode (if decide (mode = AddMultiToSingle) then f_multi_key_type d else None)
          (if decide (mode = AddBatch) then f_batch_add_set_key_prefix_2_name d else None) (empty_to_null channel)).

Definition transformFormDataToUpdatePayload (d : ChannelFormValues) (channelId : Z) : option (list (jsstr * json)) :=
  settings_text ← buildSettingsJSON d;
  let payload :=
    [(u "id", jint channelId); (u "name", JStr (f_name d)); (u "type", jint (f_type d));
     (u "base_url", or_null (normalizeBaseUrl (f_base_url d))); (u "openai_organization", text_or_null (f_openai_organization d));
     (u "models", JStr (f_models d)); (u "group", JStr (formatGroups (f_group d))); (u "model_mapping", text_or_null (f_model_mapping d));
     (u "priority", jint (f_priority d ?? 0)); (u "weight", jint (f_weight d ?? 0)); (u "test_model", text_or_null (f_test_model d));
     (u "auto_ban", jint (f_auto_ban d ?? 1)); (u "status_code_mapping", text_or_null (f_status_code_mapping d));
     (u "tag", text_or_null (f_tag d)); (u "remark", text_or_empty (f_remark d)); (u "setting", JStr (buildSettingJSON d));
     (u "param_override", text_or_null (f_param_override d)); (u "header_override", text_or_null (f_header_override d));
     (u "settings", JStr settings_text); (u "other", text_or_empty (f_other d))] in
  let payload := payload ++ (if truthy (f_key d) && truthy (trim (f_key d)) then [(u "key", JStr (f_key d))] else []) in
  let cleared :=
    [(u "base_url", JStr (normalizeBaseUrl (f_base_url d))); (u "openai_organization", text_or_empty (f_openai_organization d));
     (u "test_model", text_or_empty (f_test_model d)); (u "tag", text_or_empty (f_tag d)); (u "remark", text_or_empty (f_remark d));
     (u "model_mapping", text_or_empty (f_model_mapping d)); (u "status_code_mapping", text_or_empty (f_status_code_mapping d));
     (u "param_override", text_or_empty (f_param_override d)); (u "header_override", text_or_empty (f_header_override d))] in
  Some (foldl (fun o kv => map_set kv.1 kv.2 o) (empty_to_null payload) cleared).

(** ** The settings of a channel after the form *)

(** What the form decides about, for a channel type; [None] removes the key. *)
Definition settings_table (ty : Z) (s : TypeSettings) : list (jsstr * option json) :=
  let keep (b : bool) v := if b then Some v else None in
  [(u "vertex_key_type", keep (ty =? 41) (or_json (vertex_key_type s) (JStr (u "json"))));
   (u "azure_responses_version",
      if ty =? 3 then (if match azure_responses_version s with Some j => json_truthy j | None => false end
                       then azure_responses_version s else None) else None);
   (u "openrouter_enterprise", keep (ty =? 20) (jbool (is_enterprise_account s)));
   (u "aws_key_type", keep (ty =? 33) (or_json (aws_key_type s) (JStr (u "ak_sk"))));
   (u "allow_service_tier", keep ((ty =? 1) || (ty =? 14)) (jbool (allow_service_tier s)));
   (u "disable_store", keep (ty =? 1) (jbool (disable_store s)));
   (u "allow_safety_identifier", keep (ty =? 1) (jbool (allow_safety_identifier s)));
   (u "allow_include_obfuscation", keep (ty =? 1) (jbool (allow_include_obfuscation s)));
   (u "allow_inference_geo", keep ((ty =? 1) || (ty =? 14)) (jbool (allow_inference_geo s)));
   (u "allow_speed", keep (ty =? 14) (jbool (allow_speed s)));
   (u "claude_beta_query", keep (ty =? 14) (jbool (claude_beta_query s)))].

Definition upstream_table (s : TypeSettings) (o : list (jsstr * json)) : list (jsstr * option json) :=
  let on := set_true (upstream_model_update_check_enabled s) in
  [(u "upstream_model_update_check_enabled", Some (JBool on));
   (u "upstream_model_update_auto_sync_enabled", Some (JBool (on && set_true (upstream_model_update_auto_sync_enabled s))));
   (u "upstream_model_update_ignored_models",
      Some (JArr (map JStr (js_set (parse_list (upstream_model_update_ignored_models s ?? []))))));
   (u "upstream_model_update_last_detected_models",
      Some (match on, map_get (u "upstream_model_update_last_detected_models") o with true, Some (JArr l) => JArr l | _, _ => JArr [] end));
   (u "upstream_model_update_last_check_time",
      Some (match map_get (u "upstream_model_update_last_check_time") o with Some (JNum x) => JNum x | _ => JNum (num_of_Z 0) end))].

(** The first entry of a table for a key, or what was there. *)
Definition by_table (table : list (jsstr * option json)) (o : list (jsstr * json)) (k : jsstr) : option json :=
  foldr (fun kv r => if bool_decide (kv.1 = k) then kv.2 else r) (map_get k o) table.

Definition settings_after (ty : Z) (s : TypeSettings) (o : list (jsstr * json)) : jsstr -> option json :=
  by_table ((if includes MODEL_FETCHABLE_TYPES ty then upstream_table s o else []) ++ settings_table ty s) o.

Lemma put_lookup b k v o k' : map_get k' (put b k v o) = if bool_decide (k = k') then (if b then Some v else None) else map_get k' o.
Proof.
  unfold put. destruct b; [rewrite map_get_set|rewrite map_get_delete]; case_bool_decide; case_decide; congruence.
Qed.

Lemma set_get k v (o : list (jsstr * json)) k' : map_get k' (map_set k v o) = if bool_decide (k = k') then Some v else map_get k' o.
Proof. rewrite map_get_set. case_bool_decide; case_decide; congruence. Qed.

Lemma by_table_other table o k : k ∉ table.*1 -> by_table table o k = map_get k o.
Proof.
  unfold by_table. induction table as [|[k' v] table IH]; [done|]. cbn. intros [Hk Ht]%not_elem_of_cons.
  rewrite bool_decide_eq_false_2 by congruence. by apply IH.
Qed.

Definition base_settings (ty : Z) (s : TypeSettings) (o : list (jsstr * json)) : list (jsstr * json) :=
  foldl (fun o '(b, k, v) => put b k v o) o
    [(ty =? 41, u "vertex_key_type", or_json (vertex_key_type s) (JStr (u "json")));
     ((ty =? 3) && match azure_responses_version s with Some j => json_truthy j | None => false end,
       u "azure_responses_version", azure_responses_version s ?? JNull);
     (ty =? 20, u "openrouter_enterprise", jbool (is_enterprise_account s));
     (ty =? 33, u "aws_key_type", or_json (aws_key_type s) (JStr (u "ak_sk")));
     ((ty =? 1) || (ty =? 14), u "allow_service_tier", jbool (allow_service_tier s));
     (ty =? 1, u "disable_store", jbool (disable_store s)); (ty =? 1, u "allow_safety_identifier", jbool (allow_safety_identifier s));
     (ty =? 1, u "allow_include_obfuscation", jbool (allow_include_obfuscation s));
     ((ty =? 1) || (ty =? 14), u "allow_inference_geo", jbool (allow_inference_geo s));
     (ty =? 14, u "allow_speed", jbool (allow_speed s)); (ty =? 14, u "claude_beta_query", jbool (claude_beta_query s))].

Lemma put_settings_eq ty s o :
  put_settings ty s o = if includes MODEL_FETCHABLE_TYPES ty then put_upstream s (base_settings ty s o) else base_settings ty s o.
Proof. reflexivity. Qed.

(** Goes through the keys of a table: for each of them the key is a literal. *)
Ltac on_keys k keys :=
  lazymatch keys with
  | u ?a :: ?rest => destruct (decide (k = u a)) as [->|?]; [|on_keys k rest]
  | _ => idtac
  end.

Lemma base_settings_get ty s o k : map_get k (base_settings ty s o) = by_table (settings_table ty s) o k.
Proof.
  unfold base_settings, by_table, settings_table. cbn [foldl foldr fst snd].
  let keys := eval cbn [fmap list_fmap fst settings_table] in (settings_table ty s).*1 in on_keys k keys.
  all: rewrite !put_lookup.
  all: repeat (rewrite (bool_decide_eq_false_2 (_ = k)) by congruence); key_tests; try reflexivity.
  destruct (ty =? 3), (azure_responses_version s) as [j|]; done.
Qed.

Lemma put_detected_get on o k :
  map_get k (put_detected on o) =
  if bool_decide (u "upstream_model_update_last_detected_models" = k)
  then Some (match on, map_get (u "upstream_model_update_last_detected_models") o with true, Some (JArr l) => JArr l | _, _ => JArr [] end)
  else map_get k o.
Proof.
  unfold put_detected. destruct (decide (u "upstream_model_update_last_detected_models" = k)) as [<-|Hne].
  - rewrite bool_decide_eq_true_2 by done. destruct on, (map_get _ o) as [[]|] eqn:E; cbn [negb orb]; rewrite ?map_get_set_eq, ?E; done.
  - rewrite bool_decide_eq_false_2 by done. destruct (_ || _); [by apply map_get_set_ne|done].
Qed.

Lemma put_check_time_get o k :
  map_get k (put_check_time o) =
  if bool_decide (u "upstream_model_update_last_check_time" = k)
  then Some (match map_get (u "upstream_model_update_last_check_time") o with Some (JNum x) => JNum x | _ => JNum (num_of_Z 0) end)
  else map_get k o.
Proof.
  unfold put_check_time. destruct (decide (u "upstream_model_update_last_check_time" = k)) as [<-|Hne].
  - rewrite bool_decide_eq_true_2 by done. destruct (map_get _ o) as [[]|] eqn:E; rewrite ?map_get_set_eq, ?E; done.
  - rewrite bool_decide_eq_false_2 by done. destruct (map_get _ o) as [[]|]; try (by apply map_get_set_ne); done.
Qed.

Lemma put_upstream_get s o k : map_get k (put_upstream s o) = by_table (upstream_table s o) o k.
Proof.
  unfold put_upstream, by_table, upstream_table. cbn [foldr fst snd].
  rewrite !put_check_time_get, !put_detected_get, !set_get.
  let keys := eval cbn [fmap list_fmap fst upstream_table] in (upstream_table s o).*1 in on_keys k keys.
  all: repeat (rewrite (bool_decide_eq_false_2 (_ = k)) by congruence); key_tests; reflexivity.
Qed.

Lemma by_table_app a b o k :
  by_table (a ++ b) o k = foldr (fun kv r => if bool_decide (kv.1 = k) then kv.2 else r) (by_table b o k) a.
Proof. unfold by_table. apply foldr_app. Qed.

(** Every key that the form does not decide about keeps its value. *)
Lemma put_settings_get ty s o k : map_get k (put_settings ty s o) = settings_after ty s o k.
Proof.
  rewrite put_settings_eq. unfold settings_after. destruct (includes _ ty); [|apply base_settings_get].
  rewrite put_upstream_get, by_table_app. unfold by_table at 1. rewrite base_settings_get. f_equal.
  unfold upstream_table. rewrite !base_settings_get.
  do 2 rewrite (by_table_other (settings_table ty s)) by (refine (bool_decide_eq_true_1 _ _); vm_compute; reflexivity). done.
Qed.

Definition good_opt (j : option json) : Prop := match j with Some j => good j | None => True end.

(** The values that come from JSON texts can be printed. *)
Definition good_specific (s : TypeSettings) : Prop :=
  good_opt (vertex_key_type s) /\ good_opt (aws_key_type s) /\ good_opt (azure_responses_version s).

Lemma good_or_json j d : good_opt j -> good d -> good (or_json j d).
Proof. intros Hj Hd. destruct j as [j|]; [|done]. cbn. by destruct (json_truthy j). Qed.

Lemma good_put b k v o : good v -> good (JObj o) -> good (JObj (put b k v o)).
Proof. intros Hv Ho. destruct b; [by apply good_obj_set|by apply good_obj_delete]. Qed.

Lemma put_settings_good ty s o : good_specific s -> good (JObj o) -> good (JObj (put_settings ty s o)).
Proof.
  intros (Hv & Ha & Hz) Ho. rewrite put_settings_eq.
  assert (good (JObj (base_settings ty s o))) as Hb.
  { unfold base_settings. cbn [foldl]. repeat (apply good_put; [first [by split | by apply good_or_json] |]); try done.
    apply good_put; [destruct (azure_responses_version s); [done|by split]|]. by apply good_put; [apply good_or_json|]. }
  destruct (includes _ ty); [|done]. unfold put_upstream.
  assert (forall o, good (JObj o) -> good (JObj (put_check_time o))) as H1.
  { intros o' Ho'. unfold put_check_time. destruct (map_get _ o') as [[]|]; try done; by apply good_obj_set; [split|]. }
  apply H1. assert (forall on o, good (JObj o) -> good (JObj (put_detected on o))) as H2.
  { intros on o' Ho'. unfold put_detected. destruct (_ || _); [by apply good_obj_set; [split|]|done]. }
  apply H2. apply good_obj_set; [|by repeat (apply good_obj_set; [by split|])].
  apply good_arr, Forall_map, Forall_forall. by split.
Qed.

(** ** Saving and reopening *)

Lemma json_to_str_ordered j : json_to_str (ordered j) = json_to_str j.
Proof.
  induction j as [|b|x|s|l IH|fs IH] using json_rect'; try done. cbn [ordered json_to_str]. f_equal. rewrite map_map.
  apply map_ext_Forall. eapply Forall_impl; [exact IH|]. intros x Hx. cbn beta in Hx. rewrite <-Hx. by destruct x.
Qed.

Definition names_text (l : list jsstr) : jsstr := join [comma] l.

(** Texts that the form shows as they were typed. *)
Definition clean_specific (ty : Z) (s : TypeSettings) : bool :=
  let txt (must : bool) j := match j with Some (JStr t) => negb must || truthy t | _ => false end in
  (if ty =? 41 then txt true (vertex_key_type s) else true) && (if ty =? 33 then txt true (aws_key_type s) else true) &&
  (if ty =? 3 then txt false (azure_responses_version s) else true) &&
  (if includes MODEL_FETCHABLE_TYPES ty then
     match upstream_model_update_ignored_models s with
     | Some t => bool_decide (names_text (js_set (parse_list t)) = t)
     | None => false
     end
   else true).

(** The fields that are shown when the channel is opened again: those of its
    type as they were saved, the others with their defaults, and for a type
    without upstream models what the settings had. *)
Definition reopened_specific (ty : Z) (s : TypeSettings) (o : list (jsstr * json)) : TypeSettings :=
  let fetch := includes MODEL_FETCHABLE_TYPES ty in
  let before := specific_of (fun k => map_get k o) in
  let on b k := Some (b && set_true k) in
  let check := set_true (upstream_model_update_check_enabled s) in
  mkTypeSettings (on (ty =? 20) (is_enterprise_account s))
    (if ty =? 41 then vertex_key_type s else vertex_key_type default_specific)
    (if ty =? 33 then aws_key_type s else aws_key_type default_specific)
    (if ty =? 3 then azure_responses_version s else azure_responses_version default_specific)
    (on ((ty =? 1) || (ty =? 14)) (allow_service_tier s)) (on (ty =? 1) (disable_store s)) (on (ty =? 1) (allow_safety_identifier s))
    (on (ty =? 1) (allow_include_obfuscation s)) (on ((ty =? 1) || (ty =? 14)) (allow_inference_geo s)) (on (ty =? 14) (allow_speed s))
    (on (ty =? 14) (claude_beta_query s))
    (if fetch then Some check else upstream_model_update_check_enabled before)
    (if fetch then Some (check && set_true (upstream_model_update_auto_sync_enabled s)) else upstream_model_update_auto_sync_enabled before)
    (if fetch then upstream_model_update_ignored_models s else upstream_model_update_ignored_models before).

Lemma join_names l : join_json (map ordered (map JStr l)) = names_text l.
Proof. unfold join_json, names_text. cbn [json_to_str]. rewrite !map_map. cbn. by rewrite map_id. Qed.

Lemma join_json_ordered l : join_json (map ordered l) = join_json l.
Proof. exact (json_to_str_ordered (JArr l)). Qed.

Lemma is_true_ordered j : is_true (ordered <$> j) = is_true j.
Proof. by destruct j as [[]|]. Qed.

Lemma or_json_str t d : or_json (ordered <$> Some (JStr t)) (JStr d) = JStr (or_str t d).
Proof. by destruct t. Qed.

Lemma by_table_hit table o k v : NoDup table.*1 -> (k, v) ∈ table -> by_table table o k = v.
Proof.
  unfold by_table. induction table as [|[k' v'] table IH]; intros Hn Hin; [by apply not_elem_of_nil in Hin|].
  cbn [fmap list_fmap fst] in Hn. apply NoDup_cons in Hn as [Hk Hn]. cbn [foldr fst snd].
  apply elem_of_cons in Hin as [[= <- <-]|Hin]; [by rewrite bool_decide_eq_true_2|].
  rewrite bool_decide_eq_false_2; [by apply IH|]. intros ->. apply Hk. by apply (list_elem_of_fmap_2 fst _ (k, v)).
Qed.

Definition full_table (ty : Z) (s : TypeSettings) (o : list (jsstr * json)) : list (jsstr * option json) :=
  (if includes MODEL_FETCHABLE_TYPES ty then upstream_table s o else []) ++ settings_table ty s.

Lemma full_table_NoDup ty s o : NoDup (full_table ty s o).*1.
Proof.
  set (up := [u "upstream_model_update_check_enabled"; u "upstream_model_update_auto_sync_enabled";
              u "upstream_model_update_ignored_models"; u "upstream_model_update_last_detected_models";
              u "upstream_model_update_last_check_time"]).
  set (rest := [u "vertex_key_type"; u "azure_responses_version"; u "openrouter_enterprise"; u "aws_key_type"; u "allow_service_tier";
                u "disable_store"; u "allow_safety_identifier"; u "allow_include_obfuscation"; u "allow_inference_geo"; u "allow_speed";
                u "claude_beta_query"]).
  assert ((full_table ty s o).*1 = (if includes MODEL_FETCHABLE_TYPES ty then up else []) ++ rest) as ->.
  { unfold full_table. rewrite fmap_app. by destruct (includes _ ty). }
  destruct (includes _ ty); refine (bool_decide_eq_true_1 (NoDup _) _); vm_compute; reflexivity.
Qed.

Ltac in_table := repeat (first [left; reflexivity | right]).

(** The entry at a position; the keys share a long prefix, and comparing them is slow. *)
Ltac entry n := apply (list_elem_of_lookup_2 _ n); reflexivity.

Lemma after_base ty s o k v : (k, v) ∈ settings_table ty s -> settings_after ty s o k = v.
Proof. intros H. apply by_table_hit; [apply full_table_NoDup|]. apply elem_of_app. by right. Qed.

Lemma after_upstream ty s o k v :
  includes MODEL_FETCHABLE_TYPES ty = true -> (k, v) ∈ upstream_table s o -> settings_after ty s o k = v.
Proof. intros Hf H. apply by_table_hit; [apply full_table_NoDup|]. apply elem_of_app. left. by rewrite Hf. Qed.

Lemma after_other ty s o k :
  includes MODEL_FETCHABLE_TYPES ty = false -> k ∉ (settings_table ty s).*1 -> settings_after ty s o k = map_get k o.
Proof. intros Hf H. unfold settings_after. rewrite Hf. by apply by_table_other. Qed.

(** A flag of the form for some channel types. *)
Lemma flag_after ty s o k (b : bool) v :
  (k, if b then Some (jbool v) else None) ∈ settings_table ty s -> is_true (ordered <$> settings_after ty s o k) = b && set_true v.
Proof. intros ->%(after_base ty s o). destruct b; [|done]. cbn. by destruct v as [[]|]. Qed.

Lemma text_after ty s o k (b : bool) j d dflt :
  (k, if b then Some (or_json j (JStr d)) else None) ∈ settings_table ty s ->
  (b = true -> exists t, j = Some (JStr t) /\ truthy t = true) -> dflt = Some (JStr d) ->
  Some (or_json (ordered <$> settings_after ty s o k) (JStr d)) = if b then j else dflt.
Proof.
  intros ->%(after_base ty s o) Hj ->. destruct b; [|done]. destruct (Hj eq_refl) as (t & -> & Ht). cbn. by rewrite Ht; cbn; rewrite Ht.
Qed.

Lemma azure_after ty s o :
  ((ty =? 3) = true -> exists t, azure_responses_version s = Some (JStr t)) ->
  Some (or_json (ordered <$> settings_after ty s o (u "azure_responses_version")) (JStr [])) =
  if ty =? 3 then azure_responses_version s else Some (JStr []).
Proof.
  intros Ht. erewrite after_base by in_table. destruct (ty =? 3); [|done]. destruct (Ht eq_refl) as (t & ->). by destruct t.
Qed.

(** The upstream fields, for a type without upstream models. *)
Lemma upstream_before ty s o k :
  includes MODEL_FETCHABLE_TYPES ty = false ->
  k ∈ [u "upstream_model_update_check_enabled"; u "upstream_model_update_auto_sync_enabled"; u "upstream_model_update_ignored_models"] ->
  settings_after ty s o k = map_get k o.
Proof.
  intros Hf Hk. apply after_other; [done|]. intros Hin.
  assert (forall k', k' ∈ [u "upstream_model_update_check_enabled"; u "upstream_model_update_auto_sync_enabled"; u "upstream_model_update_ignored_models"] ->
    k' ∉ [u "vertex_key_type"; u "azure_responses_version"; u "openrouter_enterprise"; u "aws_key_type"; u "allow_service_tier";
          u "disable_store"; u "allow_safety_identifier"; u "allow_include_obfuscation"; u "allow_inference_geo"; u "allow_speed";
          u "claude_beta_query"]) as H.
  { apply Forall_forall. refine (bool_decide_eq_true_1 _ _). vm_compute. reflexivity. }
  exact (H k Hk Hin).
Qed.

Lemma upstream_flag ty s o k b :
  includes MODEL_FETCHABLE_TYPES ty = true -> (k, Some (JBool b)) ∈ upstream_table s o -> is_true (ordered <$> settings_after ty s o k) = b.
Proof. intros Hf ->%(after_upstream ty s o _ _ Hf). by destruct b. Qed.

Lemma upstream_kept ty s o k :
  includes MODEL_FETCHABLE_TYPES ty = false ->
  k ∈ [u "upstream_model_update_check_enabled"; u "upstream_model_update_auto_sync_enabled"; u "upstream_model_update_ignored_models"] ->
  is_true (ordered <$> settings_after ty s o k) = is_true (map_get k o).
Proof. intros Hf Hk. rewrite upstream_before by done. apply is_true_ordered. Qed.

Lemma clean_text (b : bool) (j : option json) :
  (if b then match j with Some (JStr t) => negb true || truthy t | _ => false end else true) = true ->
  b = true -> exists t, j = Some (JStr t) /\ truthy t = true.
Proof. intros H ->. destruct j as [[]|]; try done. eauto. Qed.

Lemma specific_of_after ty s o :
  clean_specific ty s = true -> specific_of (fun k => ordered <$> settings_after ty s o k) = reopened_specific ty s o.
Proof.
  unfold clean_specific. rewrite !andb_true_iff. intros [[[H41 H33] H3] Hf].
  unfold specific_of, reopened_specific. f_equal.
  - f_equal. apply flag_after. in_table.
  - apply text_after; [in_table|by apply clean_text|done].
  - apply text_after; [in_table|by apply clean_text|done].
  - apply azure_after. intros E. rewrite E in H3. destruct (azure_responses_version s) as [[]|]; try done. eauto.
  - f_equal. apply flag_after. in_table.
  - f_equal. apply flag_after. in_table.
  - f_equal. apply flag_after. in_table.
  - f_equal. apply flag_after. in_table.
  - f_equal. apply flag_after. in_table.
  - f_equal. apply flag_after. in_table.
  - f_equal. apply flag_after. in_table.
  - destruct (includes _ ty) eqn:E; refine (f_equal Some _); [apply upstream_flag; [exact E|entry 0%nat]|apply upstream_kept; [exact E|entry 0%nat]].
  - destruct (includes _ ty) eqn:E; refine (f_equal Some _); [apply upstream_flag; [exact E|entry 1%nat]|apply upstream_kept; [exact E|entry 1%nat]].
  - destruct (includes _ ty) eqn:E.
    + erewrite (after_upstream ty s o _ _ E) by (entry 2%nat). destruct (upstream_model_update_ignored_models s) as [t|]; [|done].
      apply bool_decide_eq_true in Hf. rewrite <-Hf at 2. f_equal. apply join_names.
    + rewrite (upstream_before ty s o _ E) by (entry 2%nat). unfold specific_of. cbn [upstream_model_update_ignored_models]. f_equal.
      destruct (map_get _ o) as [[]|]; try done. apply join_json_ordered.
Qed.

Lemma specific_roundtrip ty s o :
  good (JObj o) -> good_specific s -> clean_specific ty s = true ->
  read_specific (JSON_stringify (JObj (put_settings ty s o))) = reopened_specific ty s o.
Proof.
  intros Ho Hs Hc. pose proof (put_settings_good ty s o Hs Ho) as Hg. pose proof (good_obj_inv _ Hg) as [Hnd _].
  unfold read_specific. destruct (stringify_compact_ends (put_settings ty s o)) as [r E]. rewrite E. cbn [truthy negb]. rewrite <-E. clear E.
  unfold JSON_stringify. destruct Hg as [Hw Hp]. rewrite parse_stringify by done.
  change (specific_of (fun k => json_get k (ordered (JObj (put_settings ty s o)))) = reopened_specific ty s o).
  rewrite <-specific_of_after by done.
  assert (forall k, json_get k (ordered (JObj (put_settings ty s o))) = ordered <$> settings_after ty s o k) as Hget.
  { intros k. rewrite ordered_get by done. by rewrite put_settings_get. }
  unfold specific_of. by rewrite !Hget.
Qed.

(** *** The extra settings *)

Definition a_flag (j : option json) : bool := match j with Some (JBool _) => true | _ => false end.
Definition a_text (j : option json) : bool := match j with Some (JStr _) => true | _ => false end.

Definition clean_extra (e : ExtraSettings) : bool :=
  a_flag (force_format e) && a_flag (thinking_to_content e) && a_text (proxy e) && a_flag (pass_through_body_enabled e) &&
  a_text (system_prompt e) && a_flag (system_prompt_override e).

Lemma flag_kept j : a_flag j = true -> good (or_json j (JBool false)) /\ Some (or_json (Some (ordered (or_json j (JBool false)))) (JBool false)) = j.
Proof. destruct j as [[| [] | | | |]|]; by intros. Qed.

Lemma text_kept j : a_text j = true -> good (or_json j (JStr [])) /\ Some (or_json (Some (ordered (or_json j (JStr [])))) (JStr [])) = j.
Proof. destruct j as [[| | |[]| |]|]; by intros. Qed.

(** The object that [setting] stores. *)
Definition extra_fields (e : ExtraSettings) : list (jsstr * json) :=
  [(u "force_format", or_json (force_format e) (JBool false)); (u "thinking_to_content", or_json (thinking_to_content e) (JBool false));
   (u "proxy", or_json (proxy e) (JStr [])); (u "pass_through_body_enabled", or_json (pass_through_body_enabled e) (JBool false));
   (u "system_prompt", or_json (system_prompt e) (JStr [])); (u "system_prompt_override", or_json (system_prompt_override e) (JBool false))].

Lemma extra_roundtrip d : clean_extra (f_extra d) = true -> read_extra (buildSettingJSON d) = f_extra d.
Proof.
  unfold clean_extra. rewrite !andb_true_iff. set (e := f_extra d).
  intros [[[[[[G1 K1]%flag_kept [G2 K2]%flag_kept] [G3 K3]%text_kept] [G4 K4]%flag_kept] [G5 K5]%text_kept] [G6 K6]%flag_kept].
  change (buildSettingJSON d) with (JSON_stringify (JObj (extra_fields e))).
  assert (NoDup (extra_fields e).*1) as Hnd.
  { refine (bool_decide_eq_true_1 (NoDup [u "force_format"; u "thinking_to_content"; u "proxy"; u "pass_through_body_enabled";
      u "system_prompt"; u "system_prompt_override"]) _); vm_compute; reflexivity. }
  destruct (good_obj (extra_fields e) Hnd) as [Hw Hp]; [repeat (apply Forall_cons; split; [assumption|]); apply Forall_nil_2|].
  unfold read_extra. destruct (stringify_compact_ends (extra_fields e)) as [r E]. rewrite E. cbn [truthy negb]. rewrite <-E. clear E.
  unfold JSON_stringify. rewrite parse_stringify by done. set (get := fun k => json_get k (ordered (JObj (extra_fields e)))).
  assert (forall k v, (k, v) ∈ extra_fields e -> get k = Some (ordered v)) as Hget.
  { intros k v Hin. subst get. cbn beta. rewrite ordered_get by done. by rewrite (proj1 (map_get_elem k v _ Hnd) Hin). }
  change (mkExtra (Some (or_json (get (u "force_format")) (JBool false))) (Some (or_json (get (u "thinking_to_content")) (JBool false)))
    (Some (or_json (get (u "proxy")) (JStr []))) (Some (or_json (get (u "pass_through_body_enabled")) (JBool false)))
    (Some (or_json (get (u "system_prompt")) (JStr []))) (Some (or_json (get (u "system_prompt_override")) (JBool false))) = e).
  clearbody get. erewrite (Hget (u "force_format")) by (entry 0%nat). erewrite (Hget (u "thinking_to_content")) by (entry 1%nat).
  erewrite (Hget (u "proxy")) by (entry 2%nat). erewrite (Hget (u "pass_through_body_enabled")) by (entry 3%nat).
  erewrite (Hget (u "system_prompt")) by (entry 4%nat). erewrite (Hget (u "system_prompt_override")) by (entry 5%nat).
  rewrite K1, K2, K3, K4, K5, K6. by destruct e.
Qed.

(** *** The update payload *)

(** The payload as a list of its properties, [v0] to [v19] the values of the
    literal and [t0] to [t8] the texts that are written over them. *)
Lemma update_shape (v0 v1 v2 v3 v4 v5 v6 v7 v8 v9 v10 v11 v12 v13 v14 v15 v16 v17 v18 v19 : json) (t0 t1 t2 t3 t4 t5 t6 t7 t8 : json) extra :
  foldl (fun o kv => map_set kv.1 kv.2 o)
    (empty_to_null ([(u "id", v0); (u "name", v1); (u "type", v2); (u "base_url", v3); (u "openai_organization", v4); (u "models", v5);
      (u "group", v6); (u "model_mapping", v7); (u "priority", v8); (u "weight", v9); (u "test_model", v10); (u "auto_ban", v11);
      (u "status_code_mapping", v12); (u "tag", v13); (u "remark", v14); (u "setting", v15); (u "param_override", v16);
      (u "header_override", v17); (u "settings", v18); (u "other", v19)] ++ extra))
    [(u "base_url", t0); (u "openai_organization", t1); (u "test_model", t2); (u "tag", t3); (u "remark", t4); (u "model_mapping", t5);
     (u "status_code_mapping", t6); (u "param_override", t7); (u "header_override", t8)] =
  [(u "id", nulled v0); (u "name", nulled v1); (u "type", nulled v2); (u "base_url", t0); (u "openai_organization", t1); (u "models", nulled v5);
   (u "group", nulled v6); (u "model_mapping", t5); (u "priority", nulled v8); (u "weight", nulled v9); (u "test_model", t2);
   (u "auto_ban", nulled v11); (u "status_code_mapping", t6); (u "tag", t3); (u "remark", t4); (u "setting", nulled v15);
   (u "param_override", t7); (u "header_override", t8); (u "settings", nulled v18); (u "other", nulled v19)] ++ empty_to_null extra.
Proof. vm_compute. reflexivity. Qed.

(** ** What the gateway stores (model/channel.go)

    [UpdateChannel] decodes the payload into the struct [Channel] and
    [Channel.Update] passes it to GORM's [Updates], which writes the fields of a
    struct that do not have the zero value of their Go type: a text column is
    written unless it is empty or [null], a pointer unless it is [null], a number
    unless it is 0.  The key of a channel with several keys and the record
    about these keys are worked out from the old ones; here they are given. *)
Definition stored (key' : jsstr) (info' : ChannelInfo) (p : list (jsstr * json)) (c : Channel) : Channel :=
  let column k old := match map_get (u k) p with Some (JStr (x :: s)) => x :: s | _ => old end in
  let pointer k old := match map_get (u k) p with Some (JStr s) => Val s | _ => old end in
  let int k old := match map_get (u k) p with Some (JNum x) => (let z := num_int x ?? 0 in if z =? 0 then old else z)%Z | _ => old end in
  let int_pointer k (old : nullable Z) := match map_get (u k) p with Some (JNum x) => Val (num_int x ?? 0%Z) | _ => old end in
  mkChannel (id c) (int "type"%string (type_ c)) key' (pointer "openai_organization"%string (openai_organization c))
    (pointer "test_model"%string (test_model c)) (status c) (column "name"%string (name c)) (int_pointer "weight"%string (weight c))
    (created_time c) (test_time c) (response_time c) (pointer "base_url"%string (base_url c)) (column "other"%string (other c)) (balance c)
    (balance_updated_time c) (column "models"%string (models c)) (column "group"%string (group c)) (used_quota c)
    (pointer "model_mapping"%string (model_mapping c)) (pointer "status_code_mapping"%string (status_code_mapping c))
    (int_pointer "priority"%string (priority c)) (int_pointer "auto_ban"%string (auto_ban c)) (other_info c) (pointer "tag"%string (tag c))
    (pointer "setting"%string (setting c)) (pointer "param_override"%string (param_override c))
    (pointer "header_override"%string (header_override c))
    (match pointer "remark"%string (Val (remark c)) with Val r => r | _ => [] end) (max_input_tokens c) info'
    (column "settings"%string (settings c)).

Definition exact_int (z : Z) : bool := bool_decide (num_int (num_of_Z z) = Some z).
Definition clean_name (s : jsstr) : bool := bool_decide (trim s = s) && truthy s && negb (includes s comma).

(** A form that validates, with names that are trimmed and numbers that are
    exact, whose fields from JSON have the types of the schema. *)
Definition clean_form (d : ChannelFormValues) : bool :=
  truthy (f_name d) && truthy (f_models d) && truthy_list (f_group d) && forallb clean_name (f_group d) &&
  negb (f_type d =? 0)%Z && exact_int (f_type d) && exact_int (f_priority d ?? 0) && exact_int (f_weight d ?? 0) && exact_int (f_auto_ban d ?? 1) &&
  clean_extra (f_extra d) && clean_specific (f_type d) (f_specific d).

(** The form that is shown after saving [d] for the channel [c], whose settings
    were [o] when the form was opened.  The field [other] cannot be cleared. *)
Definition reopened (d : ChannelFormValues) (c : Channel) (o : list (jsstr * json)) (text : jsstr) : ChannelFormValues :=
  let t (s : option jsstr) := Some (s ?? []) in
  mkForm (f_name d) (f_type d) (Some (normalizeBaseUrl (f_base_url d))) [] (t (f_openai_organization d)) (f_models d) (f_group d)
    (t (f_model_mapping d)) (Some (f_priority d ?? 0)) (Some (f_weight d ?? 0)) (t (f_test_model d)) (Some (f_auto_ban d ?? 1)) (status c)
    (t (f_status_code_mapping d)) (t (f_tag d)) (t (f_remark d)) (Some (buildSettingJSON d)) (t (f_param_override d))
    (t (f_header_override d)) (Some text) (Some (or_str (f_other d ?? []) (other c))) (Some AddSingle) (Some (multi_key_mode (channel_info c))) (Some false)
    (Some KeyAppend) (f_extra d) (reopened_specific (f_type d) (f_specific d) o).

Lemma clean_names l :
  forallb clean_name l = true -> Forall (fun g => trim g = g /\ truthy g = true /\ comma ∉ g) l.
Proof.
  intros Hc. apply Forall_forall. intros g Hg. rewrite forallb_forall in Hc. specialize (Hc g). rewrite <-list_elem_of_In in Hc. specialize (Hc Hg).
  unfold clean_name in Hc. rewrite !andb_true_iff, bool_decide_eq_true in Hc. destruct Hc as [[? ?] H]. split_and!; [done|done|].
  apply negb_true_iff in H. unfold includes in H. by apply bool_decide_eq_false in H.
Qed.

Lemma groups_truthy l : truthy_list l = true -> forallb clean_name l = true -> truthy (formatGroups l) = true.
Proof.
  intros Hl Hf%clean_names. unfold formatGroups. destruct l as [|g [|g' l']]; [done|by apply Forall_cons in Hf as [(_ & ? & _) _]|].
  apply Forall_cons in Hf as [(_ & ? & _) _]. by destruct g.
Qed.

Lemma groups_roundtrip l : truthy_list l = true -> forallb clean_name l = true -> parseGroups (or_str (formatGroups l) (u "default")) = l.
Proof.
  intros Hl Hc. pose proof (clean_names _ Hc) as Hf. pose proof (groups_truthy l Hl Hc) as Ht. unfold formatGroups in *.
  unfold or_str. rewrite Ht. unfold parseGroups. rewrite Ht. cbn [negb]. unfold parse_list.
  rewrite split_join; [|by destruct l|eapply Forall_impl; [exact Hf|]; by intros g (_ & _ & ?)].
  rewrite (map_ext_in _ (fun x => x)), map_id; [|intros g Hg%list_elem_of_In; rewrite Forall_forall in Hf; by apply Hf].
  apply bfilter_all. intros g Hg. rewrite Forall_forall in Hf. by apply Hf.
Qed.

Lemma nulled_text s : truthy s = true -> nulled (JStr s) = JStr s.
Proof. by destruct s. Qed.

Lemma compact_truthy o : truthy (JSON_stringify (JObj o)) = true.
Proof. by destruct (stringify_compact_ends o) as [r ->]. Qed.

Definition update_keys : list jsstr :=
  [u "id"; u "name"; u "type"; u "base_url"; u "openai_organization"; u "models"; u "group"; u "model_mapping"; u "priority"; u "weight";
   u "test_model"; u "auto_ban"; u "status_code_mapping"; u "tag"; u "remark"; u "setting"; u "param_override"; u "header_override";
   u "settings"; u "other"].

(** The payload of a clean form, without the key. *)
Definition update_fields (d : ChannelFormValues) (i : Z) (text : jsstr) : list (jsstr * json) :=
  [(u "id", jint i); (u "name", JStr (f_name d)); (u "type", jint (f_type d)); (u "base_url", JStr (normalizeBaseUrl (f_base_url d)));
   (u "openai_organization", text_or_empty (f_openai_organization d)); (u "models", JStr (f_models d));
   (u "group", nulled (JStr (formatGroups (f_group d)))); (u "model_mapping", text_or_empty (f_model_mapping d));
   (u "priority", jint (f_priority d ?? 0)); (u "weight", jint (f_weight d ?? 0)); (u "test_model", text_or_empty (f_test_model d));
   (u "auto_ban", jint (f_auto_ban d ?? 1)); (u "status_code_mapping", text_or_empty (f_status_code_mapping d));
   (u "tag", text_or_empty (f_tag d)); (u "remark", text_or_empty (f_remark d)); (u "setting", JStr (buildSettingJSON d));
   (u "param_override", text_or_empty (f_param_override d)); (u "header_override", text_or_empty (f_header_override d));
   (u "settings", JStr text); (u "other", nulled (text_or_empty (f_other d)))].

Definition key_field (d : ChannelFormValues) : list (jsstr * json) :=
  if truthy (f_key d) && truthy (trim (f_key d)) then [(u "key", JStr (f_key d))] else [].

Lemma update_payload_eq d i text :
  truthy (f_name d) = true -> truthy (f_models d) = true -> truthy text = true -> buildSettingsJSON d = Some text ->
  transformFormDataToUpdatePayload d i = Some (update_fields d i text ++ key_field d).
Proof.
  intros Hn Hm Ht E. unfold transformFormDataToUpdatePayload. rewrite E. cbn [mbind option_bind]. rewrite update_shape.
  rewrite (nulled_text (f_name d)), (nulled_text (f_models d)), (nulled_text text), (nulled_text (buildSettingJSON d))
    by (done || apply compact_truthy). fold (key_field d).
  assert (empty_to_null (key_field d) = key_field d) as ->; [|done].
  unfold key_field. destruct (truthy (f_key d)) eqn:Ek; [|done]. destruct (truthy (trim _)); [|done]. cbn. by destruct (f_key d).
Qed.

Lemma update_keys_NoDup d i text : NoDup (update_fields d i text ++ key_field d).*1.
Proof.
  assert (NoDup (update_keys ++ [u "key"])) as H by (refine (bool_decide_eq_true_1 (NoDup _) _); vm_compute; reflexivity).
  rewrite fmap_app. change ((update_fields d i text).*1) with update_keys. unfold key_field. destruct (_ && _); [exact H|].
  change (([] : list (jsstr * json)).*1) with (@nil jsstr). rewrite app_nil_r. by apply NoDup_app in H as [? _].
Qed.

Lemma update_get d i text k v : (k, v) ∈ update_fields d i text -> map_get k (update_fields d i text ++ key_field d) = Some v.
Proof. intros H. apply map_get_elem; [apply update_keys_NoDup|]. apply elem_of_app. by left. Qed.

Lemma update_key d i text :
  map_get (u "key") (update_fields d i text ++ key_field d) = if truthy (trim (f_key d)) then Some (JStr (f_key d)) else None.
Proof.
  assert (key_field d = if truthy (trim (f_key d)) then [(u "key", JStr (f_key d))] else []) as E
    by (unfold key_field; by destruct (f_key d)).
  pose proof (update_keys_NoDup d i text) as Hn. rewrite E in Hn |- *. destruct (truthy (trim _)).
  - apply map_get_elem; [exact Hn|]. apply elem_of_app. right. left.
  - apply map_get_None. rewrite app_nil_r. change ((update_fields d i text).*1) with update_keys.
    refine (bool_decide_eq_true_1 _ _). vm_compute. reflexivity.
Qed.

Lemma update_no_status d i text : map_get (u "status") (update_fields d i text ++ key_field d) = None.
Proof.
  apply map_get_None. rewrite fmap_app. change ((update_fields d i text).*1) with update_keys.
  assert (u "status" ∉ update_keys ++ [u "key"]) as H by (refine (bool_decide_eq_true_1 _ _); vm_compute; reflexivity).
  unfold key_field. destruct (_ && _); [exact H|]. change (([] : list (jsstr * json)).*1) with (@nil jsstr). rewrite app_nil_r.
  intros Hin. apply H, elem_of_app. by left.
Qed.

Lemma nulled_column s old : match nulled (JStr s) with JStr (x :: t) => x :: t | _ => old end = or_str s old.
Proof. by destruct s. Qed.

Lemma column_text (s old : jsstr) : match s with x :: t => x :: t | [] => old end = or_str s old.
Proof. by destruct s. Qed.

(** The form fields of the channel that stored a payload. *)
Lemma stored_fields key' info' d i text c :
  (f_type d =? 0)%Z = false -> exact_int (f_type d) = true -> exact_int (f_priority d ?? 0) = true -> exact_int (f_weight d ?? 0) = true ->
  exact_int (f_auto_ban d ?? 1) = true ->
  stored key' info' (update_fields d i text ++ key_field d) c =
    let t (s : option jsstr) := Val (s ?? []) in
    mkChannel (id c) (f_type d) key' (t (f_openai_organization d)) (t (f_test_model d)) (status c) (or_str (f_name d) (name c))
      (Val (f_weight d ?? 0)) (created_time c) (test_time c) (response_time c) (Val (normalizeBaseUrl (f_base_url d)))
      (or_str (f_other d ?? []) (other c)) (balance c) (balance_updated_time c) (or_str (f_models d) (models c))
      (or_str (formatGroups (f_group d)) (group c)) (used_quota c) (t (f_model_mapping d))
      (t (f_status_code_mapping d)) (Val (f_priority d ?? 0)) (Val (f_auto_ban d ?? 1)) (other_info c) (t (f_tag d)) (Val (buildSettingJSON d))
      (t (f_param_override d)) (t (f_header_override d)) (f_remark d ?? []) (max_input_tokens c) info' (or_str text (settings c)).
Proof.
  unfold exact_int. rewrite !bool_decide_eq_true. intros H0 Hty Hprio Hweight Hban. unfold stored.
  set (p := update_fields d i text ++ key_field d). assert (forall k v, (k, v) ∈ update_fields d i text -> map_get k p = Some v) as Hget.
  { intros k v. apply update_get. }
  clearbody p.
  erewrite (Hget (u "name")) by (entry 1%nat). erewrite (Hget (u "type")) by (entry 2%nat). erewrite (Hget (u "base_url")) by (entry 3%nat).
  erewrite (Hget (u "openai_organization")) by (entry 4%nat). erewrite (Hget (u "models")) by (entry 5%nat).
  erewrite (Hget (u "group")) by (entry 6%nat). erewrite (Hget (u "model_mapping")) by (entry 7%nat).
  erewrite (Hget (u "priority")) by (entry 8%nat). erewrite (Hget (u "weight")) by (entry 9%nat).
  erewrite (Hget (u "test_model")) by (entry 10%nat). erewrite (Hget (u "auto_ban")) by (entry 11%nat).
  erewrite (Hget (u "status_code_mapping")) by (entry 12%nat). erewrite (Hget (u "tag")) by (entry 13%nat).
  erewrite (Hget (u "remark")) by (entry 14%nat). erewrite (Hget (u "setting")) by (entry 15%nat).
  erewrite (Hget (u "param_override")) by (entry 16%nat). erewrite (Hget (u "header_override")) by (entry 17%nat).
  erewrite (Hget (u "settings")) by (entry 18%nat). erewrite (Hget (u "other")) by (entry 19%nat).
  unfold jint, text_or_empty. rewrite Hty, Hprio, Hweight, Hban, !nulled_column, !column_text.
  change (Some (f_type d) ?? 0%Z) with (f_type d). rewrite H0. reflexivity.
Qed.

(** C14. A form that was saved shows the same values when the channel is opened
    again, with what the gateway's update writes ([stored]): the names, texts,
    numbers, groups and extra settings as entered (the base address without its
    trailing slashes), of the type-specific settings those of the channel type,
    and an empty key.  Only [other] can differ: left empty, it shows its old
    value.  The status is not sent, and the key only when it is not blank.  It
    holds for forms with a name, a type, models and groups whose names are
    trimmed and have no comma, numbers that are exact as doubles, settings that
    are an object, and extra settings of the types of the schema ([clean_form]). *)
Theorem form_roundtrip d c i o :
  clean_form d = true -> good_specific (f_specific d) -> settings_object d = JObj o -> good (JObj o) ->
  exists p text, transformFormDataToUpdatePayload d i = Some p /\ buildSettingsJSON d = Some text /\
    map_get (u "status") p = None /\ map_get (u "key") p = (if truthy (trim (f_key d)) then Some (JStr (f_key d)) else None) /\
    forall key' info', multi_key_mode info' = multi_key_mode (channel_info c) ->
      transformChannelToFormDefaults (stored key' info' p c) = reopened d c o text.
Proof.
  unfold clean_form. rewrite !andb_true_iff, negb_true_iff.
  intros [[[[[[[[[[Hname Hmodels] Hgroup] Hclean] H0] Hty] Hprio] Hweight] Hban] Hextra] Hspec] Hgs Hso Ho.
  set (text := JSON_stringify (JObj (put_settings (f_type d) (f_specific d) o))).
  assert (buildSettingsJSON d = Some text) as Htext by (unfold buildSettingsJSON; by rewrite Hso).
  exists (update_fields d i text ++ key_field d), text.
  split; [apply update_payload_eq; [done..|apply compact_truthy|done]|]. split; [done|].
  split; [apply update_no_status|]. split; [apply update_key|]. intros key' info' Hinfo.
  rewrite stored_fields by done. unfold transformChannelToFormDefaults, reopened.
  cbn [name type_ base_url openai_organization models group model_mapping priority weight test_model auto_ban status status_code_mapping
       tag remark setting param_override header_override settings other channel_info text_of number_of].
  assert (truthy text = true) as Ht by apply compact_truthy.
  assert (or_str text (settings c) = text) as -> by (unfold or_str; by rewrite Ht).
  assert (read_specific text = reopened_specific (f_type d) (f_specific d) o) as -> by by apply specific_roundtrip.
  assert (or_str (f_name d) (name c) = f_name d) as -> by (unfold or_str; by rewrite Hname).
  assert (or_str (f_models d) (models c) = f_models d) as -> by (unfold or_str; by rewrite Hmodels).
  assert (or_str (formatGroups (f_group d)) (group c) = formatGroups (f_group d)) as ->
    by (unfold or_str; by rewrite groups_truthy).
  rewrite groups_roundtrip, extra_roundtrip, Hinfo by done. unfold or_str. by rewrite Ht.
Qed.

Definition sample_form : ChannelFormValues :=
  mkForm (u "main") 14 (Some (u "https://a.example//")) (u "sk") None (u "m1,m2") [u "default"; u "vip"] (Some []) (Some 5) None (Some [])
    (Some 0) 1 (Some []) (Some (u "eu")) None (Some []) None None (Some (uj "{'allow_speed':true,'disable_store':true,'other_key':[1]}"))
    (Some []) (Some AddSingle) (Some mode_random) (Some false) (Some KeyAppend)
    (mkExtra (Some (JBool true)) jfalse (Some (JStr (u "socks5://x"))) jfalse jempty jfalse)
    (mkTypeSettings (Some true) (Some (JStr (u "json"))) (Some (JStr (u "ak_sk"))) jempty (Some true) (Some true) None None (Some true) (Some false)
       (Some true) (Some true) (Some true) (Some (u "m1,m2"))).

Definition sample_settings : list (jsstr * json) :=
  [(u "allow_speed", JBool true); (u "disable_store", JBool true); (u "other_key", JArr [JNum (num_of_Z 1)])].

Lemma form_roundtrip_witness :
  exists p text, transformFormDataToUpdatePayload sample_form 7 = Some p /\ buildSettingsJSON sample_form = Some text /\
    transformChannelToFormDefaults (stored (u "sk") default_info p (base_channel 7 (u "old"))) = reopened sample_form (base_channel 7 (u "old")) sample_settings text.
Proof.
  destruct (form_roundtrip sample_form (base_channel 7 (u "old")) 7 sample_settings) as (p & text & H1 & H2 & _ & _ & H3).
  - vm_compute. reflexivity.
  - repeat split.
  - vm_compute. reflexivity.
  - split; [|vm_compute; reflexivity]. split; [|by repeat split].
    refine (bool_decide_eq_true_1 (NoDup [u "allow_speed"; u "disable_store"; u "other_key"]) _). vm_compute. reflexivity.
  - exists p, text. exact (conj H1 (conj H2 (H3 (u "sk") default_info eq_refl))).
Defined.

(** ** What validation guarantees *)

Lemma valid_settings d : isOptionalJsonObject (f_settings d) = true -> exists o, settings_object d = JObj o.
Proof.
  unfold isOptionalJsonObject, optional_json, parseOptionalJson, settings_object. destruct (f_settings d) as [s|]; [|by eexists].
  change (Some s ?? []) with s. destruct (truthy (trim s)) eqn:Et.
  - destruct (JSON_parse s) as [[]|]; try done. intros _. destruct (_ && _); by eexists.
  - intros _. assert (match JSON_parse s with Some _ => False | None => True end) as Hp.
    { destruct (JSON_parse s) as [j|] eqn:E; [|done]. apply JSON_parse_not_blank in E. by rewrite E in Et. }
    destruct (JSON_parse s); [done|]. destruct (_ && _); by eexists.
Qed.

Lemma no_issue (b : bool) path message l : when b path message ++ l = [] -> b = false /\ l = [].
Proof. by destruct b. Qed.

(** C30. A form that validates can be saved: neither payload throws. *)
Theorem valid_form_saves d i :
  channelFormSchema d = true ->
  (exists p, transformFormDataToCreatePayload d = Some p) /\ (exists p, transformFormDataToUpdatePayload d i = Some p).
Proof.
  intros Hv. assert (isOptionalJsonObject (f_settings d) = true) as Hs.
  { unfold channelFormSchema in Hv. apply negb_true_iff in Hv. destruct (field_issues d ++ superRefine d) eqn:E; [|done].
    apply app_nil in E as [E _]. unfold field_issues in E.
    do 10 (apply no_issue in E as [_ E]). apply no_issue in E as [E _]. by apply negb_false_iff in E. }
  destruct (valid_settings d Hs) as [o Ho]. unfold transformFormDataToCreatePayload, transformFormDataToUpdatePayload, buildSettingsJSON.
  rewrite Ho. cbn [mbind option_bind]. eauto.
Qed.

Lemma valid_form_saves_witness :
  channelFormSchema sample_form = true /\ exists p, transformFormDataToUpdatePayload sample_form 7 = Some p.
Proof.
  assert (channelFormSchema sample_form = true) as H by (vm_compute; reflexivity).
  exact (conj H (proj2 (valid_form_saves sample_form 7 H))).
Defined.

(** The settings text that is saved: every key that the form does not decide
    about keeps the value it had, and the others are as in the tables. *)
Theorem settings_spec d o :
  settings_object d = JObj o -> good (JObj o) -> good_specific (f_specific d) ->
  exists text j, buildSettingsJSON d = Some text /\ JSON_parse text = Some j /\
    forall k, json_get k j = ordered <$> settings_after (f_type d) (f_specific d) o k /\
      (k ∉ (full_table (f_type d) (f_specific d) o).*1 -> json_get k j = ordered <$> map_get k o).
Proof.
  intros Hso Ho Hs. pose proof (put_settings_good (f_type d) (f_specific d) o Hs Ho) as Hg.
  pose proof (good_obj_inv _ Hg) as [Hnd _]. destruct Hg as [Hw Hp].
  eexists _, (ordered (JObj (put_settings (f_type d) (f_specific d) o))). unfold buildSettingsJSON. rewrite Hso.
  split; [reflexivity|]. split; [by apply parse_stringify|]. intros k. rewrite ordered_get by done. rewrite put_settings_get.
  split; [done|]. intros Hk. unfold settings_after. by rewrite by_table_other.
Qed.

Lemma settings_spec_witness :
  exists text j, buildSettingsJSON sample_form = Some text /\ JSON_parse text = Some j /\
    json_get (u "other_key") j = Some (JArr [JNum (num_of_Z 1)]).
Proof.
  destruct (settings_spec sample_form sample_settings) as (text & j & H1 & H2 & H3).
  - vm_compute. reflexivity.
  - split; [|vm_compute; reflexivity]. split; [|by repeat split].
    refine (bool_decide_eq_true_1 (NoDup [u "allow_speed"; u "disable_store"; u "other_key"]) _). vm_compute. reflexivity.
  - repeat split.
  - exists text, j. split; [exact H1|]. split; [exact H2|]. etransitivity; [exact (proj1 (H3 (u "other_key")))|vm_compute; reflexivity].
Defined.

End Form.
