(* ===== verification/ChannelExtras.v ===== *)
(** * Channel types, upstream updates and Ollama models
    (web/default/src/features/channels/lib/channel-type-config.ts,
    upstream-update-utils.ts and ollama-utils.ts)

    The configuration of channel types, what the list of channels shows of the
    upstream models found in the settings of a channel, and the models that an
    Ollama server reports.  A value of type [unknown] is a [json]; [None] is
    the [TypeError] of a call on a value that is no array. *)

From S2P Require Import Prelude JsString JsNumber JsJson JsRegex JsPrint ChannelTypes ChannelUtils ChannelForm.

Import Print Chan ChanUtils Form.
Open Scope Z_scope.

Module Extras.

(** ** Channel types *)

Record ChannelTypeConfig := mkConfig {
  ct_id : Z; ct_name : jsstr; icon : jsstr; defaultBaseUrl : option jsstr; ct_requiresOrganization : option bool;
  ct_requiresRegion : option bool; hints : option (list (jsstr * jsstr)); keyPrefix : option jsstr; keyMinLength : option nat;
}.

(** [CHANNEL_TYPES[id]] *)
Definition type_name (id : Z) : jsstr := map_get id CHANNEL_TYPES ?? [].

(** The key formats are prefixes: [/^sk-/]. *)
Definition CHANNEL_TYPE_CONFIGS : list (Z * ChannelTypeConfig) :=
  [(1, mkConfig 1 (type_name 1) (u "openai") (Some (u "https://api.openai.com")) (Some true) None
         (Some [(u "baseUrl", u "Default: https://api.openai.com"); (u "key", u "Format: sk-..."); (u "models", u "gpt-4,gpt-4-turbo,gpt-3.5-turbo")])
         (Some (u "sk-")) (Some 20%nat));
   (3, mkConfig 3 (type_name 3) (u "azure") None None (Some true)
         (Some [(u "baseUrl", u "Azure OpenAI Endpoint"); (u "key", u "Azure API Key"); (u "models", u "Deployment names")]) None None);
   (14, mkConfig 14 (type_name 14) (u "anthropic") (Some (u "https://api.anthropic.com")) None None
          (Some [(u "key", u "Format: sk-ant-..."); (u "models", u "claude-3-opus,claude-3-sonnet,claude-3-haiku")]) None None);
   (24, mkConfig 24 (type_name 24) (u "google") None None None
          (Some [(u "key", u "Google API Key"); (u "models", u "gemini-pro,gemini-pro-vision")]) None None);
   (41, mkConfig 41 (type_name 41) (u "google") None None (Some true)
          (Some [(u "key", u "Service account JSON or API key"); (u "models", u "gemini-pro,gemini-1.5-pro");
                 (u "other", uj "Region config: {'default': 'us-central1'}")]) None None);
   (43, mkConfig 43 (type_name 43) (u "deepseek") (Some (u "https://api.deepseek.com")) None None
          (Some [(u "key", u "DeepSeek API Key"); (u "models", u "deepseek-chat,deepseek-coder")]) None None);
   (20, mkConfig 20 (type_name 20) (u "openrouter") (Some (u "https://openrouter.ai/api")) None None
          (Some [(u "key", u "OpenRouter API Key"); (u "models", u "Use model IDs from OpenRouter")]) None None);
   (56, mkConfig 56 (type_name 56) (u "replicate") (Some (u "https://api.replicate.com")) None None
          (Some [(u "key", u "Replicate API Token"); (u "models", u "Replicate model IDs"); (u "baseUrl", u "Default: https://api.replicate.com")])
          None None);
   (59, mkConfig 59 (type_name 59) (u "ElevenLabs") (Some (u "https://api.elevenlabs.io")) None None
          (Some [(u "baseUrl", u "Default: https://api.elevenlabs.io"); (u "key", u "ElevenLabs xi-api-key");
                 (u "models", u "eleven_v3,scribe_v2,eleven_multilingual_sts_v2,eleven_text_to_sound_v2,music_v2,elevenlabs-audio-isolation,elevenlabs-forced-alignment")])
          (Some (u "sk_")) (Some 20%nat));
   (60, mkConfig 60 (type_name 60) (u "Meshy") (Some (u "https://api.meshy.ai")) None None
          (Some [(u "baseUrl", u "Default: https://api.meshy.ai"); (u "key", u "Meshy Bearer API key (msy-...)");
                 (u "models", u "meshy-text-to-3d,meshy-image-to-3d,meshy-multi-image-to-3d,meshy-remesh,meshy-convert,meshy-resize,meshy-retexture,meshy-rigging,meshy-animation,meshy-uv-unwrap")])
          (Some (u "msy-")) (Some 20%nat))].

Definition getChannelTypeConfig (t : Z) : ChannelTypeConfig :=
  map_get t CHANNEL_TYPE_CONFIGS ?? mkConfig t (or_str (type_name t) (u "Unknown")) (u "openai") None None None None None None.

Definition requiresOrganization (t : Z) : bool := (c ← map_get t CHANNEL_TYPE_CONFIGS; ct_requiresOrganization c) ?? false.
Definition requiresRegion (t : Z) : bool := (c ← map_get t CHANNEL_TYPE_CONFIGS; ct_requiresRegion c) ?? false.
Definition getDefaultBaseUrl (t : Z) : jsstr := (c ← map_get t CHANNEL_TYPE_CONFIGS; defaultBaseUrl c) ?? [].
Definition getChannelTypeHints (t : Z) : list (jsstr * jsstr) := (c ← map_get t CHANNEL_TYPE_CONFIGS; hints c) ?? [].

Definition validateKeyFormat (t : Z) (key : jsstr) : bool :=
  match map_get t CHANNEL_TYPE_CONFIGS with
  | None => true
  | Some c =>
      match keyMinLength c with Some n => negb (length key <? n)%nat | None => true end &&
      match keyPrefix c with Some p => starts_with p key | None => true end
  end.

(** ** Upstream updates *)

Definition normalizeModelList (models : list json) : list jsstr :=
  js_set (bfilter truthy (map (fun j => trim (if json_truthy j then json_to_str j else [])) models)).

Record UpstreamUpdateMeta := mkMeta { enabled : bool; pendingAddModels : list jsstr; pendingRemoveModels : list jsstr }.

Definition no_updates : UpstreamUpdateMeta := mkMeta false [] [].

(** [normalizeModelList((v as unknown[]) || [])] *)
Definition model_list (v : option json) : option (list jsstr) :=
  match v with
  | Some (JArr l) => Some (normalizeModelList l)
  | Some j => if json_truthy j then None else Some []
  | None => Some []
  end.

Definition parseUpstreamUpdateMeta (settings : json) : option UpstreamUpdateMeta :=
  let parsed := match settings with
                | JObj fs => Some (JObj fs)
                | JStr s => JSON_parse s
                | _ => None
                end in
  match parsed with
  | Some (JObj _ as j) | Some (JArr _ as j) =>
      add ← model_list (json_get (u "upstream_model_update_last_detected_models") j);
      remove ← model_list (json_get (u "upstream_model_update_last_removed_models") j);
      Some (mkMeta (is_true (json_get (u "upstream_model_update_check_enabled") j)) add remove)
  | _ => Some no_updates
  end.

(** ** Ollama *)

Definition isRecord (j : json) : bool := match j with JObj _ | JArr _ => true | _ => false end.
Definition getString (j : option json) : option jsstr := match j with Some (JStr s) => Some s | _ => None end.
Definition getNumber (j : option json) : option number := match j with Some (JNum x) => Some x | _ => None end.

Definition parseMaybeJSON (value : json) : option json :=
  match value with
  | JObj _ | JArr _ => Some value
  | JStr s => if truthy s then match JSON_parse s with Some JNull | None => None | Some j => Some j end else None
  | _ => None
  end.

(** The first text that is not empty. *)
Definition first_text (l : list (option jsstr)) : option jsstr :=
  foldr (fun s r => match s with Some s => if truthy s then Some s else r | None => r end) None l.

(** [alt] is the field [ollama_base_url], which older data has. *)
Definition resolveOllamaBaseUrl (channel : option Channel) (alt : option json) : jsstr :=
  match channel with
  | None => []
  | Some c =>
      let info k := match parseMaybeJSON (JStr (other_info c)) with
                    | Some j => if isRecord j then trim <$> getString (json_get (u k) j) else None
                    | None => None
                    end in
      first_text [match base_url c with Val s => Some (trim s) | _ => None end; trim <$> getString alt;
                  info "base_url"%string; info "public_url"%string; info "api_url"%string] ?? []
  end.

(** [!o[k]] *)
Definition unset (k : jsstr) (o : list (jsstr * json)) : bool := match map_get k o with Some j => negb (json_truthy j) | None => true end.

(** [if (v is there and !o[k]) o[k] = v] *)
Definition fill (k : jsstr) (v : option json) (o : list (jsstr * json)) : list (jsstr * json) :=
  match v with Some v => if unset k o then map_set k v o else o | None => o end.

Definition nonempty_text (s : option jsstr) : option json := match s with Some s => if truthy s then Some (JStr s) else None | None => None end.

Definition candidate_id (fs : list (jsstr * json)) : option jsstr :=
  first_text (map (fun k => getString (map_get (u k) fs)) ["id"; "ID"; "name"; "model"; "Model"]%string).

(** What the metadata adds. *)
Definition fill_metadata (metadata : option json) (o : list (jsstr * json)) : list (jsstr * json) :=
  match metadata with
  | Some m =>
      if isRecord m then
        let get k := json_get (u k) m in
        let o := fill (u "size") (JNum <$> getNumber (get "size"%string)) o in
        let o := fill (u "digest") (nonempty_text (getString (get "digest"%string))) o in
        let o := fill (u "modified_at") (nonempty_text (getString (get "modified_at"%string))) o in
        fill (u "details") (match get "details"%string with Some j => if json_truthy j then Some j else None | None => None end) o
      else o
  | None => o
  end.

Definition normalize_model (item : json) : option (list (jsstr * json)) :=
  match item with
  | JStr s => if truthy s then Some [(u "id", JStr s); (u "owned_by", JStr (u "ollama"))] else None
  | JObj fs =>
      candidateId ← candidate_id fs;
      let metadata := match map_get (u "metadata") fs with Some JNull | None => map_get (u "Metadata") fs | v => v end in
      let owner := first_text [getString (map_get (u "owned_by") fs); getString (map_get (u "ownedBy") fs)] ?? u "ollama" in
      let o := map_set (u "owned_by") (JStr owner) (map_set (u "id") (JStr candidateId) fs) in
      let o := fill (u "size") (JNum <$> getNumber (map_get (u "size") fs)) o in
      Some (fill_metadata metadata o)
  | _ => None
  end.

Definition normalizeOllamaModels (items : json) : list (list (jsstr * json)) :=
  match items with JArr l => omap normalize_model l | _ => [] end.

Definition formatBytes (bytes : option number) : jsstr :=
  match bytes with
  | None => u "-"
  | Some b =>
      let k := num_of_Z 1024 in
      let kb := (b / k)%num in
      let mb := (kb / k)%num in
      if is_nan b then u "-"
      else if num_lt b k then num_to_str b ++ u " B"
      else if num_lt kb k then to_fixed 1 kb ++ u " KB"
      else if num_lt mb k then to_fixed 1 mb ++ u " MB"
      else to_fixed 2 (mb / k)%num ++ u " GB"
  end.

(** ** Theorems *)

Example key_formats :
  validateKeyFormat 1 (u "sk-0123456789abcdefgh") = true /\ validateKeyFormat 1 (u "sk-short") = false /\
  validateKeyFormat 60 (u "sk-0123456789abcdefgh") = false /\ validateKeyFormat 99 [] = true /\
  ct_name (getChannelTypeConfig 58) = u "Unknown".
Proof. vm_compute. done. Qed.

Example sizes :
  formatBytes (Some (num_of_Z 1023)) = u "1023 B" /\ formatBytes (Some (num_of_Z 1536)) = u "1.5 KB" /\
  formatBytes (Some (num_of_Z 4294967296)) = u "4.00 GB".
Proof. vm_compute. done. Qed.

Lemma first_text_some l s : first_text l = Some s -> truthy s = true.
Proof.
  induction l as [|[t|] l IH]; cbn; [done| |exact IH]. destruct (truthy t) eqn:E; [by intros [= <-]|exact IH].
Qed.

Lemma fill_other k v o k' : k <> k' -> map_get k' (fill k v o) = map_get k' o.
Proof. intros Hk. unfold fill. destruct v; [|done]. destruct (unset k o); [by apply map_get_set_ne|done]. Qed.

(** A value that is set stays. *)
Lemma fill_kept k v o k' j : map_get k' o = Some j -> json_truthy j = true -> map_get k' (fill k v o) = Some j.
Proof.
  intros Hg Hj. destruct (decide (k = k')) as [->|Hne]; [|by rewrite fill_other]. unfold fill. destruct v; [|done].
  unfold unset. by rewrite Hg, Hj.
Qed.

Definition fills (l : list (jsstr * option json)) (o : list (jsstr * json)) : list (jsstr * json) :=
  foldl (fun o kv => fill kv.1 kv.2 o) o l.

Lemma fills_other l k : forall o, k ∉ l.*1 -> map_get k (fills l o) = map_get k o.
Proof.
  induction l as [|[k' v] l IH]; intros o Hk; [done|]. cbn in Hk. apply not_elem_of_cons in Hk as [Hk Hl].
  change (fills ((k', v) :: l) o) with (fills l (fill k' v o)). rewrite IH by done. by apply fill_other.
Qed.

Lemma fills_kept l k j : forall o, map_get k o = Some j -> json_truthy j = true -> map_get k (fills l o) = Some j.
Proof.
  induction l as [|[k' v] l IH]; intros o Hg Hj; [done|].
  change (fills ((k', v) :: l) o) with (fills l (fill k' v o)). apply IH; [|done]. by apply fill_kept.
Qed.

Definition filled_keys : list jsstr := [u "size"; u "digest"; u "modified_at"; u "details"].

Lemma fill_metadata_fills m : exists l, l.*1 ⊆ filled_keys /\ forall o, fill_metadata m o = fills l o.
Proof.
  assert (exists l : list (jsstr * option json), l.*1 ⊆ filled_keys /\ forall o, o = fills l o) as H0.
  { exists []. split; [|done]. intros k Hk. by apply not_elem_of_nil in Hk. }
  destruct m as [m|]; [|exact H0]. unfold fill_metadata. destruct (isRecord m); [|exact H0]. cbn zeta.
  eexists [(u "size", _); (u "digest", _); (u "modified_at", _); (u "details", _)]. split; [|reflexivity].
  change (filled_keys ⊆ filled_keys). done.
Qed.

(** An object: its id and owner, and then the fields that are filled in. *)
Lemma normalize_object fs o :
  normalize_model (JObj fs) = Some o ->
  exists i w l, truthy i = true /\ truthy w = true /\ l.*1 ⊆ filled_keys /\
    o = fills l (map_set (u "owned_by") (JStr w) (map_set (u "id") (JStr i) fs)).
Proof.
  cbn [normalize_model]. destruct (candidate_id fs) as [i|] eqn:Ei; [|done]. cbn [mbind option_bind].
  set (w := first_text _ ?? _). assert (truthy w = true) as Hw.
  { subst w. destruct (first_text _) as [w|] eqn:Ew; [|done]. exact (first_text_some _ _ Ew). }
  set (m := match map_get (u "metadata") fs with Some JNull | None => _ | v => v end). destruct (fill_metadata_fills m) as (l & Hl & ->).
  intros [= <-]. exists i, w, ((u "size", JNum <$> getNumber (map_get (u "size") fs)) :: l).
  split; [exact (first_text_some _ _ Ei)|]. split; [done|]. split; [|reflexivity].
  change (u "size" :: l.*1 ⊆ filled_keys). intros k [->|Hk]%elem_of_cons; [left|by apply Hl].
Qed.

Lemma not_filled k : k ∈ [u "id"; u "owned_by"] -> k ∉ filled_keys.
Proof.
  intros H. assert (Forall (fun k => k ∉ filled_keys) [u "id"; u "owned_by"]) as HF.
  { refine (bool_decide_eq_true_1 _ _). vm_compute. reflexivity. }
  rewrite Forall_forall in HF. by apply HF.
Qed.

(** Every model that is listed has a non-empty text as id and as owner and
    comes from an item of the answer: from a text, or from an object of which it
    keeps the other fields and every size, digest, date and detail that the
    object states itself. *)
Theorem normalizeOllamaModels_spec l o :
  o ∈ normalizeOllamaModels (JArr l) ->
  exists i w, map_get (u "id") o = Some (JStr i) /\ truthy i = true /\ map_get (u "owned_by") o = Some (JStr w) /\ truthy w = true /\
    (JStr i ∈ l \/ exists fs, JObj fs ∈ l /\ forall k, k ∉ [u "id"; u "owned_by"] ->
       (k ∉ filled_keys -> map_get k o = map_get k fs) /\
       (forall j, map_get k fs = Some j -> json_truthy j = true -> map_get k o = Some j)).
Proof.
  intros (item & Hin & Hn)%list_elem_of_omap. destruct item as [| | |s| |fs]; try done.
  - cbn in Hn. destruct (truthy s) eqn:Es; [|done]. injection Hn as <-. exists s, (u "ollama"). split_and!; try done. by left.
  - destruct (normalize_object fs o Hn) as (i & w & ls & Hi & Hw & Hl & ->). exists i, w. clear Hn.
    assert (u "owned_by" <> u "id") as Hne by (refine (bool_decide_eq_false_1 _ _); vm_compute; reflexivity).
    split_and!; [|done| |done|].
    + rewrite fills_other; [|intros H%Hl; revert H; apply not_filled; left]. by rewrite map_get_set_ne, map_get_set_eq.
    + rewrite fills_other; [|intros H%Hl; revert H; apply not_filled; right; left]. by rewrite map_get_set_eq.
    + right. exists fs. split; [done|]. intros k [Hk1 [Hk2 _]%not_elem_of_cons]%not_elem_of_cons.
      assert (map_get k (map_set (u "owned_by") (JStr w) (map_set (u "id") (JStr i) fs)) = map_get k fs) as Hb
        by by rewrite !map_get_set_ne.
      split; [intros Hk; rewrite fills_other; [exact Hb|]; by intros H%Hl|].
      intros j Hj Ht. apply fills_kept; [by rewrite Hb|done].
Qed.

Definition sample_models : list json :=
  [JStr (u "llama3"); JNull; JObj [(u "name", JStr (u "qwen")); (u "size", JNum (num_of_Z 0)); (u "x", JBool true);
                                   (u "metadata", JObj [(u "size", JNum (num_of_Z 7)); (u "digest", JStr (u "d"))])]].

Lemma normalizeOllamaModels_spec_witness :
  length (normalizeOllamaModels (JArr sample_models)) = 2%nat /\
  exists i, map_get (u "id") [(u "id", JStr (u "llama3")); (u "owned_by", JStr (u "ollama"))] = Some (JStr i) /\ truthy i = true.
Proof.
  split; [vm_compute; reflexivity|].
  destruct (normalizeOllamaModels_spec sample_models [(u "id", JStr (u "llama3")); (u "owned_by", JStr (u "ollama"))]) as (i & w & H1 & H2 & _).
  - apply (list_elem_of_lookup_2 _ 0%nat). vm_compute. reflexivity.
  - exists i. exact (conj H1 H2).
Defined.

(** ** The upstream models of a saved channel *)

Lemma model_list_ordered v : model_list (ordered <$> v) = model_list v.
Proof.
  assert (forall j, json_truthy (ordered j) = json_truthy j) as Ht by by intros [].
  destruct v as [j|]; [|done]. destruct j; try done. cbn. unfold normalizeModelList. rewrite map_map. do 3 f_equal. apply map_ext.
  intros j. by rewrite Ht, json_to_str_ordered.
Qed.

Lemma meta_of (a b c : option json) l r on :
  model_list a = Some l -> model_list b = Some r -> is_true c = on ->
  (add ← model_list a; remove ← model_list b; Some (mkMeta (is_true c) add remove)) = Some (mkMeta on l r).
Proof. by intros -> -> ->. Qed.

(** After a form of a type with upstream models was saved, the list shows
    the check as the form had it; with the check off there are no models to add,
    with the check on those found last, and the models to remove are unchanged. *)
Theorem upstream_meta_saved d o removed :
  settings_object d = JObj o -> good (JObj o) -> good_specific (f_specific d) -> includes MODEL_FETCHABLE_TYPES (f_type d) = true ->
  model_list (map_get (u "upstream_model_update_last_removed_models") o) = Some removed ->
  exists text, buildSettingsJSON d = Some text /\
    let on := set_true (upstream_model_update_check_enabled (f_specific d)) in
    parseUpstreamUpdateMeta (JStr text) =
    Some (mkMeta on (match on, map_get (u "upstream_model_update_last_detected_models") o with
                     | true, Some (JArr l) => normalizeModelList l
                     | _, _ => []
                     end) removed).
Proof.
  intros Hso Ho Hs Hf Hr. pose proof (put_settings_good (f_type d) (f_specific d) o Hs Ho) as Hg.
  pose proof (good_obj_inv _ Hg) as [Hnd _]. destruct Hg as [Hw Hp].
  eexists. unfold buildSettingsJSON. rewrite Hso. split; [reflexivity|]. cbn zeta. unfold parseUpstreamUpdateMeta.
  unfold JSON_stringify. rewrite parse_stringify by done. set (j := ordered (JObj _)).
  assert (forall k, json_get k j = ordered <$> settings_after (f_type d) (f_specific d) o k) as Hget.
  { intros k. subst j. rewrite ordered_get by done. by rewrite put_settings_get. }
  assert (exists fs, j = JObj fs) as [fs Ej] by by eexists. rewrite Ej in Hget |- *. clear Ej j. apply meta_of.
  - rewrite Hget, model_list_ordered. erewrite (after_upstream _ _ _ _ _ Hf) by (entry 3%nat).
    generalize (map_get (u "upstream_model_update_last_detected_models") o) as v. intros v. clear.
    destruct (set_true _); [|reflexivity]. destruct v as [[]|]; reflexivity.
  - rewrite Hget, model_list_ordered, <-Hr. f_equal. apply by_table_other. rewrite Hf.
    refine (bool_decide_eq_true_1 (_ ∉ [u "upstream_model_update_check_enabled";
      u "upstream_model_update_auto_sync_enabled"; u "upstream_model_update_ignored_models"; u "upstream_model_update_last_detected_models";
      u "upstream_model_update_last_check_time"; u "vertex_key_type"; u "azure_responses_version"; u "openrouter_enterprise"; u "aws_key_type";
      u "allow_service_tier"; u "disable_store"; u "allow_safety_identifier"; u "allow_include_obfuscation"; u "allow_inference_geo";
      u "allow_speed"; u "claude_beta_query"]) _). vm_compute. reflexivity.
  - rewrite Hget. apply upstream_flag; [exact Hf|entry 0%nat].
Qed.

Lemma upstream_meta_saved_witness :
  exists text, buildSettingsJSON sample_form = Some text /\ parseUpstreamUpdateMeta (JStr text) = Some (mkMeta true [] []).
Proof.
  apply (upstream_meta_saved sample_form sample_settings []).
  - vm_compute. reflexivity.
  - split; [|vm_compute; reflexivity]. split; [|by repeat split].
    refine (bool_decide_eq_true_1 (NoDup [u "allow_speed"; u "disable_store"; u "other_key"]) _). vm_compute. reflexivity.
  - repeat split.
  - vm_compute. reflexivity.
  - vm_compute. reflexivity.
Defined.

End Extras.
