(* ===== verification/ParamOverride.v ===== *)
(** * Parameter overrides of a channel: data and texts
    (web/default/src/features/channels/components/dialogs/param-override-editor-dialog.tsx)

    A channel may rewrite the requests it relays.  The override is stored as a
    JSON text, a list of operations or (the older form) a plain object.  This
    file has the types, the tables and the helpers of the dialog: from JSON to
    the drafts that the dialog edits, and back.  [ParamEditor] has the dialog
    itself.

    Local ids are [po_<time>_<counter>].  The counter is module state: the
    helpers that draw ids are computations in [gen], with failure for the
    [TypeError] on a property of [null].  [toUpperCase] and [toLowerCase] are
    compared with [AND], [OR] and [header] only; the letters of these words are
    reached from ASCII letters alone. *)

From S2P Require Import Prelude JsString JsNumber JsJson JsRegex JsPrint.

Import Print.
Open Scope N_scope.

Module Override.

(** ** Local ids *)

Definition gen (A : Type) := N -> option (A * N).

#[export] Instance gen_ret : MRet gen := fun A a seed => Some (a, seed).
#[export] Instance gen_bind : MBind gen := fun A B f m seed => '(a, seed') ← m seed; f a seed'.

Definition gen_throw {A} : gen A := fun _ => None.

Fixpoint gen_map {A B} (f : A -> gen B) (l : list A) : gen (list B) :=
  match l with
  | [] => mret []
  | x :: l' => mbind (M := gen) (fun y => mbind (M := gen) (fun ys => mret (y :: ys)) (gen_map f l')) (f x)
  end.

(** [`po_${Date.now()}_${localIdSeed++}`] *)
Definition local_id (now seed : N) : jsstr := u "po_" ++ N_to_str now ++ u "_" ++ N_to_str seed.
Definition nextLocalId (now : N) : gen jsstr := fun seed => Some (local_id now seed, seed + 1).

(** ** Types *)

Record ParamOverrideCondition := mkCondition {
  c_id : jsstr; c_path : jsstr; c_mode : jsstr; c_value_text : jsstr; c_invert : bool; c_pass_missing_key : bool;
}.

Record ParamOverrideOperation := mkOperation {
  o_id : jsstr; description : jsstr; path : jsstr; mode : jsstr; from : jsstr; to : jsstr; value_text : jsstr;
  keep_origin : bool; logic : jsstr; conditions : list ParamOverrideCondition;
}.

(** ** Tables *)

(** Pairs of label and value. *)
Definition OPERATION_MODE_OPTIONS : list (jsstr * jsstr) :=
  [(u "Set Field", u "set"); (u "Delete Field", u "delete"); (u "Append to End", u "append");
   (u "Prepend to Start", u "prepend"); (u "Copy Field", u "copy"); (u "Move Field", u "move");
   (u "String Replace", u "replace"); (u "Regex Replace", u "regex_replace"); (u "Trim Prefix", u "trim_prefix");
   (u "Trim Suffix", u "trim_suffix"); (u "Ensure Prefix", u "ensure_prefix"); (u "Ensure Suffix", u "ensure_suffix");
   (u "Trim Space", u "trim_space"); (u "To Lowercase", u "to_lower"); (u "To Uppercase", u "to_upper");
   (u "Return Custom Error", u "return_error"); (u "Prune Object Items", u "prune_objects");
   (u "Pass Through Headers", u "pass_headers"); (u "Sync Fields", u "sync_fields");
   (u "Set Request Header", u "set_header"); (u "Delete Request Header", u "delete_header");
   (u "Copy Request Header", u "copy_header"); (u "Move Request Header", u "move_header")].

Definition OPERATION_MODE_VALUES : list jsstr := OPERATION_MODE_OPTIONS.*2.
Definition OPERATION_MODE_LABEL_MAP : list (jsstr * jsstr) :=
  foldl (fun acc '(label, value) => map_set value label acc) [] OPERATION_MODE_OPTIONS.

Definition CONDITION_MODE_OPTIONS : list (jsstr * jsstr) :=
  [(u "Exact Match", u "full"); (u "Prefix", u "prefix"); (u "Suffix", u "suffix"); (u "Contains", u "contains");
   (u "Greater Than", u "gt"); (u "Greater Than or Equal", u "gte"); (u "Less Than", u "lt");
   (u "Less Than or Equal", u "lte")].

Definition CONDITION_MODE_VALUES : list jsstr := CONDITION_MODE_OPTIONS.*2.

(** Absent and [false] entries are the same to every reader. *)
Record ModeMeta := mkMeta {
  m_path : bool; pathOptional : bool; m_value : bool; m_from : bool; m_to : bool; keepOrigin : bool; pathAlias : bool;
}.

Definition path_only : ModeMeta := mkMeta true false false false false false false.
Definition path_value : ModeMeta := mkMeta true false true false false false false.
Definition path_value_keep : ModeMeta := mkMeta true false true false false true false.
Definition from_to : ModeMeta := mkMeta false false false true true false false.
Definition path_from : ModeMeta := mkMeta true false false true false false false.
Definition header_copy : ModeMeta := mkMeta false false false true true true true.

Definition MODE_META : list (jsstr * ModeMeta) :=
  [(u "delete", path_only); (u "set", path_value_keep); (u "append", path_value_keep); (u "prepend", path_value_keep);
   (u "copy", from_to); (u "move", from_to); (u "replace", path_from); (u "regex_replace", path_from);
   (u "trim_prefix", path_value); (u "trim_suffix", path_value); (u "ensure_prefix", path_value);
   (u "ensure_suffix", path_value); (u "trim_space", path_only); (u "to_lower", path_only); (u "to_upper", path_only);
   (u "return_error", mkMeta false false true false false false false);
   (u "prune_objects", mkMeta false true true false false false false);
   (u "pass_headers", mkMeta false false true false false true false);
   (u "sync_fields", from_to); (u "set_header", path_value_keep); (u "delete_header", path_only);
   (u "copy_header", header_copy); (u "move_header", header_copy)].

(** [MODE_META[mode] || MODE_META.set] *)
Definition mode_meta (m : jsstr) : ModeMeta := map_get m MODE_META ?? path_value_keep.

Definition VALUE_REQUIRED_MODES : list jsstr :=
  [u "trim_prefix"; u "trim_suffix"; u "ensure_prefix"; u "ensure_suffix"; u "set_header"; u "return_error";
   u "prune_objects"; u "pass_headers"].
Definition FROM_REQUIRED_MODES : list jsstr :=
  [u "copy"; u "move"; u "replace"; u "regex_replace"; u "copy_header"; u "move_header"; u "sync_fields"].
Definition TO_REQUIRED_MODES : list jsstr := [u "copy"; u "move"; u "copy_header"; u "move_header"; u "sync_fields"].

(** ** Values and their texts *)

Definition toValueText (v : option json) : jsstr :=
  match v with
  | None => []
  | Some (JStr s) => s
  | Some j => JSON_stringify j
  end.

Definition parseLooseValue (valueText : jsstr) : json :=
  let raw := trim valueText in
  if bool_decide (raw = []) then JStr []
  else match JSON_parse raw with
       | Some j => j
       | None => JStr raw
       end.

Definition verifyJSON (text : jsstr) : bool := match JSON_parse text with Some _ => true | None => false end.

(** [typeof j === 'string' ? j : ''] *)
Definition string_or_empty (j : option json) : jsstr := match j with Some (JStr s) => s | _ => [] end.

Definition is_true (j : option json) : bool := match j with Some (JBool true) => true | _ => false end.
Definition is_false (j : option json) : bool := match j with Some (JBool false) => true | _ => false end.

(** [SET.has(j) ? j : d] *)
Definition member_or (set : list jsstr) (j : option json) (d : jsstr) : jsstr :=
  match j with Some (JStr s) => if includes set s then s else d | _ => d end.

Definition ascii_upper (s : jsstr) : jsstr := map (fun c => if (97 <=? c) && (c <=? 122) then c - 32 else c) s.
Definition ascii_lower (s : jsstr) : jsstr := map (fun c => if (65 <=? c) && (c <=? 90) then c + 32 else c) s.

(** [String(j || d).toUpperCase()] *)
Definition upper_or (j : option json) (d : jsstr) : jsstr :=
  ascii_upper (match j with Some j => if json_truthy j then json_to_str j else d | None => d end).

(** ** Normalisation *)

Section normalise.
Context (now : N).

(** The fields of a value whose properties are read; [null] throws. *)
Definition properties (j : json) : gen (jsstr -> option json) :=
  match j with JNull => gen_throw | _ => mret (fun k => json_get k j) end.

Definition condition_of (id : jsstr) (get : jsstr -> option json) : ParamOverrideCondition :=
  mkCondition id (string_or_empty (get (u "path"))) (member_or CONDITION_MODE_VALUES (get (u "mode")) (u "full"))
    (toValueText (get (u "value"))) (is_true (get (u "invert"))) (is_true (get (u "pass_missing_key"))).

Definition normalizeCondition (j : json) : gen ParamOverrideCondition :=
  id ← nextLocalId now; get ← properties j; mret (condition_of id get).

Definition createDefaultCondition : gen ParamOverrideCondition := normalizeCondition (JObj []).

Definition operation_of (id : jsstr) (get : jsstr -> option json) (conds : list ParamOverrideCondition)
  : ParamOverrideOperation :=
  mkOperation id (string_or_empty (get (u "description"))) (string_or_empty (get (u "path")))
    (member_or OPERATION_MODE_VALUES (get (u "mode")) (u "set")) (string_or_empty (get (u "from")))
    (string_or_empty (get (u "to"))) (toValueText (get (u "value"))) (is_true (get (u "keep_origin")))
    (if bool_decide (upper_or (get (u "logic")) (u "OR") = u "AND") then u "AND" else u "OR") conds.

Definition normalizeOperation (j : json) : gen ParamOverrideOperation :=
  id ← nextLocalId now;
  get ← properties j;
  conds ← match get (u "conditions") with Some (JArr l) => gen_map normalizeCondition l | _ => mret [] end;
  mret (operation_of id get conds).

Definition createDefaultOperation : gen ParamOverrideOperation := normalizeOperation (JObj [(u "mode", JStr (u "set"))]).

End normalise.

(** ** Summaries *)

Definition isOperationBlank (o : ParamOverrideOperation) : bool :=
  let hasCondition := existsb (fun c => truthy (trim (c_path c)) || truthy (trim (c_value_text c)) ||
                                        negb (bool_decide (c_mode c = u "full")) || c_invert c || c_pass_missing_key c)
                        (conditions o) in
  bool_decide (mode o = u "set") && negb (truthy (trim (path o))) && negb (truthy (trim (from o))) &&
  negb (truthy (trim (to o))) && bool_decide (trim (value_text o) = []) && negb (keep_origin o) && negb hasCondition.

Definition getOperationSummary (o : ParamOverrideOperation) (index : nat) : jsstr :=
  let m := or_str (mode o) (u "set") in
  let modeLabel := or_str (map_get m OPERATION_MODE_LABEL_MAP ?? []) m in
  let ends := or_str (trim (from o)) (or_str (trim (to o)) (u "-")) in
  N_to_str (N.of_nat (index + 1)) ++ u ". " ++ modeLabel ++ [32; 183; 32] ++
  (if bool_decide (m = u "sync_fields") then ends else or_str (trim (path o)) ends).

(** ** Synchronised fields *)

Definition parseSyncTargetSpec (spec : jsstr) : jsstr * jsstr :=
  let raw := trim spec in
  if negb (truthy raw) then (u "json", [])
  else match index_of (u ":") raw with
       | None => (u "json", raw)
       | Some idx =>
           let prefix := ascii_lower (trim (take idx raw)) in
           let key := trim (drop (S idx) raw) in
           if bool_decide (prefix = u "header") then (u "header", key) else (u "json", key)
       end.

Definition buildSyncTargetSpec (type key : jsstr) : jsstr :=
  let normalizedType := if bool_decide (type = u "header") then u "header" else u "json" in
  let normalizedKey := trim key in
  if negb (truthy normalizedKey) then [] else normalizedType ++ u ":" ++ normalizedKey.

(** ** [return_error] *)

Record ReturnErrorDraft := mkErrorDraft {
  message : jsstr; statusCode : number; code : jsstr; e_type : jsstr; skipRetry : bool; simpleMode : bool;
}.

Definition error_defaults : ReturnErrorDraft := mkErrorDraft [] (num_of_Z 400) [] [] true true.

(** [Number.isInteger(x) && x >= 100 && x <= 599 ? x : 400] *)
Definition valid_status (x : number) : number :=
  match num_int x with
  | Some z => if ((100 <=? z) && (z <=? 599))%Z then x else num_of_Z 400
  | None => num_of_Z 400
  end.

(** [String(a || b || '').trim()] *)
Definition text_of_first (l : list (option json)) : jsstr :=
  trim (match List.find (fun j => match j with Some j => json_truthy j | None => false end) l with
        | Some (Some j) => json_to_str j
        | _ => []
        end).

Definition parseReturnErrorDraft (valueText : jsstr) : ReturnErrorDraft :=
  let raw := trim valueText in
  if negb (truthy raw) then error_defaults
  else
    let plain := mkErrorDraft raw (num_of_Z 400) [] [] true true in
    match JSON_parse raw with
    | Some (JObj fs) =>
        let get k := map_get k fs in
        let statusRaw := match get (u "status_code") with Some j => Some j | None => get (u "status") end in
        mkErrorDraft (text_of_first [get (u "message"); get (u "msg")]) (valid_status (json_to_num statusRaw))
          (text_of_first [get (u "code")]) (text_of_first [get (u "type")]) (negb (is_false (get (u "skip_retry")))) false
    | _ => plain
    end.

Definition buildReturnErrorValueText (draft : ReturnErrorDraft) : jsstr :=
  let msg := trim (message draft) in
  if simpleMode draft then msg
  else
    let c := trim (code draft) in
    let ty := trim (e_type draft) in
    JSON_stringify (JObj (
      [(u "message", JStr msg); (u "status_code", JNum (valid_status (statusCode draft)))]
      ++ (if truthy c then [(u "code", JStr c)] else [])
      ++ (if truthy ty then [(u "type", JStr ty)] else [])
      ++ (if skipRetry draft then [] else [(u "skip_retry", JBool false)]))).

(** ** [prune_objects] *)

Record PruneObjectsDraft := mkPruneDraft {
  p_simpleMode : bool; typeText : jsstr; p_logic : jsstr; recursive : bool; rules : list ParamOverrideCondition;
}.

Definition prune_defaults : PruneObjectsDraft := mkPruneDraft true [] (u "AND") true [].

Definition with_type (t : jsstr) : PruneObjectsDraft := mkPruneDraft true t (u "AND") true [].

Section prune.
Context (now : N).

(** [PruneRule] has the fields of a condition, and [normalizePruneRule] fills
    them as [normalizeCondition] does. *)
Definition normalizePruneRule (j : json) : gen ParamOverrideCondition := normalizeCondition now j.

(** A rule for each entry of an object. *)
Definition entry_rules (fs : list (jsstr * json)) : gen (list ParamOverrideCondition) :=
  gen_map (fun kv => normalizePruneRule (JObj [(u "path", JStr kv.1); (u "mode", JStr (u "full")); (u "value", kv.2)]))
    (obj_entries fs).

Definition is_object (j : json) : bool := match j with JObj _ | JArr _ => true | _ => false end.

Definition parsePruneObjectsDraft (valueText : jsstr) : gen PruneObjectsDraft :=
  let raw := trim valueText in
  if negb (truthy raw) then mret prune_defaults
  else
    match JSON_parse raw with
    | None => mret (with_type raw)
    | Some (JStr s) => mret (with_type (trim s))
    | Some (JObj fs) =>
        let get k := map_get k fs in
        where_rules ← match get (u "where") with Some (JObj w) => entry_rules w | _ => mret [] end;
        cond_rules ← match get (u "conditions") with
                     | Some (JArr l) => gen_map normalizePruneRule (bfilter is_object l)
                     | Some (JObj c) => entry_rules c
                     | _ => mret []
                     end;
        let has k := match get (u k) with Some _ => true | None => false end in
        let advanced := existsb has ["logic"; "recursive"; "where"; "conditions"]%string in
        mret (mkPruneDraft (negb advanced)
                (match get (u "type") with None => [] | Some j => trim (json_to_str j) end)
                (if bool_decide (upper_or (get (u "logic")) (u "AND") = u "OR") then u "OR" else u "AND")
                (negb (is_false (get (u "recursive")))) (where_rules ++ cond_rules))
    | Some j => mret (with_type (trim (match j with JNull => [] | _ => json_to_str j end)))
    end.

End prune.

Definition rule_payload (r : ParamOverrideCondition) : json :=
  let valueRaw := trim (c_value_text r) in
  JObj ([(u "path", JStr (trim (c_path r)));
         (u "mode", JStr (if includes CONDITION_MODE_VALUES (c_mode r) then c_mode r else u "full"))]
        ++ (if truthy valueRaw then [(u "value", parseLooseValue valueRaw)] else [])
        ++ (if c_invert r then [(u "invert", JBool true)] else [])
        ++ (if c_pass_missing_key r then [(u "pass_missing_key", JBool true)] else [])).

Definition buildPruneObjectsValueText (draft : PruneObjectsDraft) : jsstr :=
  let t := trim (typeText draft) in
  if p_simpleMode draft then t
  else
    let conds := map rule_payload (bfilter (fun r => truthy (trim (c_path r))) (rules draft)) in
    if negb (truthy t) && negb (truthy_list conds) then JSON_stringify (JObj [(u "logic", JStr (u "AND"))])
    else
      JSON_stringify (JObj (
        (if truthy t then [(u "type", JStr t)] else [])
        ++ (if bool_decide (ascii_upper (or_str (p_logic draft) (u "AND")) = u "OR") then [(u "logic", JStr (u "OR"))] else [])
        ++ (if recursive draft then [] else [(u "recursive", JBool false)])
        ++ (if truthy_list conds then [(u "conditions", JArr conds)] else []))).

(** ** [pass_headers] *)

(** [String(i ?? '').trim()] of each element, without the empty ones *)
Definition header_texts (l : list json) : list jsstr :=
  bfilter truthy (map (fun j => trim (match j with JNull => [] | _ => json_to_str j end)) l).

Definition parsePassHeaderNames (rawValue : json) : list jsstr :=
  match rawValue with
  | JArr l => header_texts l
  | JObj fs =>
      match map_get (u "headers") fs with
      | Some (JArr l) => header_texts l
      | _ => match map_get (u "header") fs with
             | Some j => header_texts [j]
             | None => []
             end
      end
  | JStr s => bfilter truthy (map trim (split_on 44 s))
  | _ => []
  end.

(** ** Saving *)

Definition buildConditionPayload (c : ParamOverrideCondition) : option json :=
  let p := trim (c_path c) in
  if negb (truthy p) then None
  else Some (JObj ([(u "path", JStr p); (u "mode", JStr (or_str (c_mode c) (u "full"))); (u "value", parseLooseValue (c_value_text c))]
                   ++ (if c_invert c then [(u "invert", JBool true)] else [])
                   ++ (if c_pass_missing_key c then [(u "pass_missing_key", JBool true)] else []))).

(** The message for one operation, without its line. *)
Definition validate_operation (op : ParamOverrideOperation) : option jsstr :=
  let m := or_str (mode op) (u "set") in
  let meta := mode_meta m in
  let pathValue := trim (path op) in
  let raw := trim (value_text op) in
  let aliased := pathAlias meta && truthy pathValue in
  if m_path meta && negb (truthy pathValue) then Some (u "Rule {{line}} is missing target path")
  else if includes FROM_REQUIRED_MODES m && negb (truthy (trim (from op))) && negb aliased
  then Some (u "Rule {{line}} is missing source field")
  else if includes TO_REQUIRED_MODES m && negb (truthy (trim (to op))) && negb aliased
  then Some (u "Rule {{line}} is missing target field")
  else if includes VALUE_REQUIRED_MODES m && bool_decide (raw = []) then Some (u "Rule {{line}} is missing value")
  else if bool_decide (m = u "return_error") then
    match JSON_parse raw with
    | Some (JObj fs) => if truthy (text_of_first [map_get (u "message") fs]) then None
                        else Some (u "Rule {{line}} return_error requires a message field")
    | _ => None
    end
  else if bool_decide (m = u "pass_headers") then
    if truthy_list (parsePassHeaderNames (parseLooseValue raw)) then None
    else Some (u "Rule {{line}} pass_headers format is invalid")
  else None.

Section save.
(** [t(key, { line })] *)
Context (t : jsstr -> nat -> jsstr).

Fixpoint validate_from (line : nat) (ops : list ParamOverrideOperation) : jsstr :=
  match ops with
  | [] => []
  | op :: ops' => match validate_operation op with Some key => t key line | None => validate_from (S line) ops' end
  end.

Definition validateOperations (ops : list ParamOverrideOperation) : jsstr := validate_from 1 ops.

Definition operation_payload (op : ParamOverrideOperation) : json :=
  let m := or_str (mode op) (u "set") in
  let meta := mode_meta m in
  let descriptionValue := trim (description op) in
  let pathValue := trim (path op) in
  let fromValue := trim (from op) in
  let toValue := trim (to op) in
  let set k v := map_set (u k) v in
  let payload := [(u "mode", JStr m)] in
  let payload := if truthy descriptionValue then set "description"%string (JStr descriptionValue) payload else payload in
  let payload := if m_path meta then set "path"%string (JStr pathValue) payload else payload in
  let payload := if pathOptional meta && truthy pathValue then set "path"%string (JStr pathValue) payload else payload in
  let payload := if m_value meta then set "value"%string (parseLooseValue (value_text op)) payload else payload in
  let payload := if keepOrigin meta && keep_origin op then set "keep_origin"%string (JBool true) payload else payload in
  let payload := if m_from meta then set "from"%string (JStr fromValue) payload else payload in
  let payload := if negb (m_to meta) && truthy toValue then set "to"%string (JStr toValue) payload else payload in
  let payload := if m_to meta then set "to"%string (JStr toValue) payload else payload in
  let blank k := negb (truthy (string_or_empty (map_get (u k) payload))) in
  let payload := if pathAlias meta && blank "from"%string && truthy pathValue
                 then set "from"%string (JStr pathValue) payload else payload in
  let payload := if pathAlias meta && blank "to"%string && truthy pathValue
                 then set "to"%string (JStr pathValue) payload else payload in
  let conds := omap buildConditionPayload (conditions op) in
  let payload := if truthy_list conds
                 then set "logic"%string (JStr (if bool_decide (logic op = u "AND") then u "AND" else u "OR"))
                        (set "conditions"%string (JArr conds) payload)
                 else payload in
  JObj payload.

(** [inl] is the message of the error that is thrown. *)
Definition buildOperationsJson (ops : list ParamOverrideOperation) (validate : bool) : jsstr + jsstr :=
  let filteredOps := bfilter (fun o => negb (isOperationBlank o)) ops in
  match filteredOps with
  | [] => inr []
  | _ =>
      let msg := validateOperations filteredOps in
      if validate && truthy msg then inl msg
      else inr (JSON_stringify2 (JObj [(u "operations", JArr (map operation_payload filteredOps))]))
  end.

End save.

(** ** Opening *)

Inductive EditMode := Visual | Json.
Inductive VisualMode := Operations | Legacy.

#[export] Instance EditMode_eq_dec : EqDecision EditMode.
Proof. solve_decision. Defined.
#[export] Instance VisualMode_eq_dec : EqDecision VisualMode.
Proof. solve_decision. Defined.

Record EditorState := mkEditorState {
  editMode : EditMode; visualMode : VisualMode; legacyValue : jsstr; operations : list ParamOverrideOperation;
  jsonText : jsstr; jsonError : jsstr;
}.

Section open.
Context (now : N).

(** The operations of an override, or one blank operation. *)
Definition read_operations (l : list json) : gen (list ParamOverrideOperation) :=
  match l with
  | [] => op ← createDefaultOperation now; mret [op]
  | _ => gen_map (normalizeOperation now) l
  end.

Definition parseInitialState (text : jsstr) : gen EditorState :=
  let trimmed := trim text in
  if negb (truthy trimmed) then op ← createDefaultOperation now; mret (mkEditorState Visual Operations [] [op] [] [])
  else
    match JSON_parse trimmed with
    | None => op ← createDefaultOperation now; mret (mkEditorState Json Operations [] [op] text (u "Invalid JSON format"))
    | Some parsed =>
        let pretty := JSON_stringify2 parsed in
        match parsed with
        | JObj fs =>
            match map_get (u "operations") fs with
            | Some (JArr l) => ops ← read_operations l; mret (mkEditorState Visual Operations [] ops pretty [])
            | _ => op ← createDefaultOperation now; mret (mkEditorState Visual Legacy pretty [op] pretty [])
            end
        | _ => op ← createDefaultOperation now; mret (mkEditorState Json Operations [] [op] pretty [])
        end
    end.

End open.

(** ** Examples *)

Definition sample_text : jsstr :=
  uj "{'operations': [{'mode': 'set', 'path': ' temperature ', 'value': 0.7, 'logic': 'and', 'conditions': [{'path': 'model', 'mode': 'prefix', 'value': 'openai/'}, {'path': ''}]}, {'mode': 'unknown'}, {'mode': 'copy_header', 'path': 'X-A', 'keep_origin': true}]}".

Example sample_override_saved :
  (fun '(s, seed) => (buildOperationsJson (fun _ _ => []) (operations s) true, seed)) <$> parseInitialState 7 sample_text 0 =
  Some (inr (JSON_stringify2 (JObj [(u "operations", JArr [
     JObj [(u "mode", JStr (u "set")); (u "path", JStr (u "temperature")); (u "value", JNum (num_of_decimal 7 (-1)));
           (u "conditions", JArr [JObj [(u "path", JStr (u "model")); (u "mode", JStr (u "prefix")); (u "value", JStr (u "openai/"))]]);
           (u "logic", JStr (u "AND"))];
     JObj [(u "mode", JStr (u "copy_header")); (u "keep_origin", JBool true); (u "from", JStr (u "X-A")); (u "to", JStr (u "X-A"))]])])), 5).
Proof. vm_compute. reflexivity. Qed.

Example sample_drafts_read :
  parseReturnErrorDraft (buildReturnErrorValueText (mkErrorDraft (u "no") (num_of_Z 429) (u "c") [] false false)) =
    mkErrorDraft (u "no") (num_of_Z 429) (u "c") [] false false /\
  parsePassHeaderNames (parseLooseValue (u "Authorization, X-Request-Id,")) = [u "Authorization"; u "X-Request-Id"] /\
  parseSyncTargetSpec (u "HEADER : session_id") = (u "header", u "session_id").
Proof. vm_compute. done. Qed.

End Override.
