(* ===== verification/ParamRoundtrip.v ===== *)
(** * Parameter overrides: saving and reopening

    An override that was built from clean operations opens again as the same
    operations, with fresh local ids, and shows the text that was saved. *)

From S2P Require Import Prelude JsString JsNumber JsJson JsRegex JsPrint ParamOverride.

Import Print Override.
Open Scope N_scope.

Module OverrideText.

(** ** Clean drafts *)

Definition trimmed (s : jsstr) : bool := bool_decide (trim s = s).

(** A text that stands for its value. *)
Definition stable_text (s : jsstr) : bool :=
  printable (parseLooseValue s) && bool_decide (toValueText (Some (ordered (parseLooseValue s))) = s).

Definition clean_condition (c : ParamOverrideCondition) : bool :=
  trimmed (c_path c) && truthy (c_path c) && includes CONDITION_MODE_VALUES (c_mode c) && stable_text (c_value_text c).

(** A draft whose fields are trimmed and belong to its mode. *)
Definition clean_operation (o : ParamOverrideOperation) : bool :=
  let meta := mode_meta (mode o) in
  includes OPERATION_MODE_VALUES (mode o) && trimmed (description o) && trimmed (path o) && trimmed (from o) && trimmed (to o) &&
  (m_path meta || pathOptional meta || negb (truthy (path o))) && (m_from meta || negb (truthy (from o))) &&
  (if m_value meta then stable_text (value_text o) else negb (truthy (value_text o))) &&
  (keepOrigin meta || negb (keep_origin o)) && forallb clean_condition (conditions o) &&
  (if truthy_list (conditions o) then includes [u "AND"; u "OR"] (logic o) else bool_decide (logic o = u "OR")) &&
  negb (isOperationBlank o).

(** Local ids are not saved. *)
Definition erase_condition (c : ParamOverrideCondition) : ParamOverrideCondition :=
  mkCondition [] (c_path c) (c_mode c) (c_value_text c) (c_invert c) (c_pass_missing_key c).

Definition erase (o : ParamOverrideOperation) : ParamOverrideOperation :=
  mkOperation [] (description o) (path o) (mode o) (from o) (to o) (value_text o) (keep_origin o) (logic o)
    (map erase_condition (conditions o)).

(** ** Values *)

Lemma loose_wf s : json_wf (parseLooseValue s).
Proof. unfold parseLooseValue. case_bool_decide; [done|]. destruct (JSON_parse _) eqn:E; [by apply JSON_parse_wf in E|done]. Qed.

(** ** Conditions *)

Lemma trimmed_eq s : trimmed s = true -> trim s = s.
Proof. apply bool_decide_eq_true. Qed.

Definition condition_fields (c : ParamOverrideCondition) : list (jsstr * json) :=
  [(u "path", JStr (c_path c)); (u "mode", JStr (c_mode c)); (u "value", parseLooseValue (c_value_text c))]
  ++ (if c_invert c then [(u "invert", JBool true)] else [])
  ++ (if c_pass_missing_key c then [(u "pass_missing_key", JBool true)] else []).

Lemma condition_payload c : clean_condition c = true -> buildConditionPayload c = Some (JObj (condition_fields c)).
Proof.
  unfold clean_condition. rewrite !andb_true_iff. intros [[[Ht%trimmed_eq Hp] Hm%includes_true] _].
  unfold buildConditionPayload. rewrite Ht, Hp. cbn [negb]. unfold condition_fields.
  assert (or_str (c_mode c) (u "full") = c_mode c) as ->; [|done].
  unfold CONDITION_MODE_VALUES in Hm. unfold or_str. destruct (c_mode c); [|done].
  exfalso. revert Hm. refine (bool_decide_eq_false_1 _ _). vm_compute. reflexivity.
Qed.

Definition condition_keys (c : ParamOverrideCondition) : list jsstr :=
  [u "path"; u "mode"; u "value"] ++ (if c_invert c then [u "invert"] else [])
  ++ (if c_pass_missing_key c then [u "pass_missing_key"] else []).

Lemma condition_NoDup c : NoDup (condition_fields c).*1.
Proof.
  assert ((condition_fields c).*1 = condition_keys c) as ->.
  { unfold condition_fields, condition_keys. rewrite !fmap_app. by destruct (c_invert c), (c_pass_missing_key c). }
  unfold condition_keys.
  destruct (c_invert c), (c_pass_missing_key c); refine (bool_decide_eq_true_1 (NoDup _) _); vm_compute; reflexivity.
Qed.

Lemma condition_good c : clean_condition c = true -> good (JObj (condition_fields c)).
Proof.
  unfold clean_condition, stable_text. rewrite !andb_true_iff. intros [_ [Hp _]].
  apply good_obj; [apply condition_NoDup|]. unfold condition_fields. rewrite !Forall_app.
  split_and!; [|by destruct (c_invert c); repeat constructor|by destruct (c_pass_missing_key c); repeat constructor].
  repeat constructor; [apply loose_wf|exact Hp].
Qed.

(** A saved condition is read back. *)
Lemma condition_read now c seed :
  clean_condition c = true ->
  exists c' , normalizeCondition now (ordered (JObj (condition_fields c))) seed = Some (c', seed + 1) /\
    erase_condition c' = erase_condition c.
Proof.
  intros Hc. pose proof (condition_NoDup c) as Hnd. unfold clean_condition, stable_text in Hc.
  rewrite !andb_true_iff in Hc. destruct Hc as [[[_ _] Hm] [_ Hv%bool_decide_eq_true]].
  eexists. split; [reflexivity|]. unfold condition_of, erase_condition. cbn [c_path c_mode c_value_text c_invert c_pass_missing_key].
  rewrite !ordered_get by done. unfold condition_fields.
  assert (forall k v l, map_get k ([(u "path", JStr (c_path c)); (u "mode", JStr (c_mode c)); (u "value", v)] ++ l) =
    if bool_decide (u "path" = k) then Some (JStr (c_path c)) else if bool_decide (u "mode" = k) then Some (JStr (c_mode c))
    else if bool_decide (u "value" = k) then Some v else map_get k l) as Hg.
  { intros k v l. cbn [app map_get]. unfold bool_decide. by repeat case_decide. }
  rewrite !Hg. f_equal.
  - change (member_or CONDITION_MODE_VALUES (Some (JStr (c_mode c))) (u "full") = c_mode c). unfold member_or. by rewrite Hm.
  - exact Hv.
  - by destruct (c_invert c), (c_pass_missing_key c).
  - by destruct (c_invert c), (c_pass_missing_key c).
Qed.

Lemma gen_map_cons {A B} (f : A -> gen B) x l seed y seed1 ys seed2 :
  f x seed = Some (y, seed1) -> gen_map f l seed1 = Some (ys, seed2) -> gen_map f (x :: l) seed = Some (y :: ys, seed2).
Proof. intros H1 H2. cbn [gen_map]. unfold mbind, gen_bind. rewrite H1. cbn. by rewrite H2. Qed.

Lemma conditions_read now cs : forall seed,
  forallb clean_condition cs = true ->
  exists cs' seed', gen_map (normalizeCondition now) (map (fun c => ordered (JObj (condition_fields c))) cs) seed = Some (cs', seed') /\
    map erase_condition cs' = map erase_condition cs.
Proof.
  induction cs as [|c cs IH]; intros seed Hc; [by exists [], seed|].
  cbn [forallb] in Hc. apply andb_true_iff in Hc as [Hc Hcs].
  destruct (condition_read now c seed Hc) as (c' & Hr & He). destruct (IH (seed + 1) Hcs) as (cs' & seed' & Hrs & Hes).
  exists (c' :: cs'), seed'. cbn [map]. rewrite He, Hes. split; [|done].
  exact (gen_map_cons _ _ _ _ _ _ _ _ Hr Hrs).
Qed.

(** ** Operations *)

Lemma clean_conditions_payload cs :
  forallb clean_condition cs = true -> omap buildConditionPayload cs = map (fun c => JObj (condition_fields c)) cs.
Proof.
  induction cs as [|c cs IH]; [done|]. cbn [forallb omap list_omap map]. intros [Hc Hcs]%andb_true_iff.
  rewrite condition_payload, IH by done. done.
Qed.

Definition steps (l : list (bool * jsstr * json)) (m : list (jsstr * json)) : list (jsstr * json) :=
  foldl (fun m '(b, k, v) => if b : bool then map_set k v m else m) m l.

(** What is saved of a clean operation, in the order of the assignments. *)
Definition operation_steps (o : ParamOverrideOperation) : list (bool * jsstr * json) :=
  let meta := mode_meta (mode o) in
  let conds := map (fun c => JObj (condition_fields c)) (conditions o) in
  [(truthy (description o), u "description", JStr (description o)); (m_path meta, u "path", JStr (path o));
   (pathOptional meta && truthy (path o), u "path", JStr (path o)); (m_value meta, u "value", parseLooseValue (value_text o));
   (keepOrigin meta && keep_origin o, u "keep_origin", JBool true); (m_from meta, u "from", JStr (from o));
   (negb (m_to meta) && truthy (to o), u "to", JStr (to o)); (m_to meta, u "to", JStr (to o));
   (truthy_list conds, u "conditions", JArr conds); (truthy_list conds, u "logic", JStr (logic o))].

Definition operation_fields (o : ParamOverrideOperation) : list (jsstr * json) :=
  steps (operation_steps o) [(u "mode", JStr (mode o))].

Lemma alias_no_path m : pathAlias (mode_meta m) = true -> m_path (mode_meta m) || pathOptional (mode_meta m) = false.
Proof.
  assert (Forall (fun kv => pathAlias kv.2 = true -> m_path kv.2 || pathOptional kv.2 = false) MODE_META) as Hall.
  { unfold MODE_META. repeat constructor; cbn; done. }
  unfold mode_meta. destruct (map_get m MODE_META) as [meta|] eqn:E; [|done].
  apply map_get_elem in E; [|refine (bool_decide_eq_true_1 (NoDup _) _); vm_compute; reflexivity]. rewrite Forall_forall in Hall. exact (Hall _ E).
Qed.

Lemma steps_get k l : forall m,
  map_get k (steps l m) =
  foldl (fun acc '(b, k', v) => if b && bool_decide (k' = k) then Some v else acc) (map_get k m) l.
Proof. induction l as [|[[b k'] v] l IH]; intros m; [done|]. cbn [steps foldl]. rewrite <-get_if. apply IH. Qed.

Lemma steps_NoDup l : forall m, NoDup m.*1 -> NoDup (steps l m).*1.
Proof. induction l as [|[[b k'] v] l IH]; intros m Hm; [done|]. cbn [steps foldl]. by apply IH, NoDup_if. Qed.

Lemma steps_Forall (P : json -> Prop) l : forall m,
  Forall (fun s => P s.2) l -> Forall (fun kv => P kv.2) m -> Forall (fun kv => P kv.2) (steps l m).
Proof.
  induction l as [|[[b k'] v] l IH]; intros m Hl Hm; [done|]. cbn [steps foldl]. apply Forall_cons in Hl as [Hv Hl].
  by apply IH, Forall_if.
Qed.

Record clean_facts (o : ParamOverrideOperation) : Prop := {
  cf_mode : includes OPERATION_MODE_VALUES (mode o) = true;
  cf_description : trim (description o) = description o;
  cf_path : trim (path o) = path o;
  cf_from : trim (from o) = from o;
  cf_to : trim (to o) = to o;
  cf_no_path : m_path (mode_meta (mode o)) = false -> pathOptional (mode_meta (mode o)) = false -> path o = [];
  cf_no_from : m_from (mode_meta (mode o)) = false -> from o = [];
  cf_value : m_value (mode_meta (mode o)) = true -> stable_text (value_text o) = true;
  cf_no_value : m_value (mode_meta (mode o)) = false -> value_text o = [];
  cf_keep : keepOrigin (mode_meta (mode o)) = false -> keep_origin o = false;
  cf_conditions : forallb clean_condition (conditions o) = true;
  cf_logic : logic o = if truthy_list (conditions o) then (if bool_decide (logic o = u "AND") then u "AND" else u "OR") else u "OR";
  cf_blank : isOperationBlank o = false;
}.

Lemma not_truthy s : negb (truthy s) = true -> s = [].
Proof. by destruct s. Qed.

Lemma clean_operation_facts o : clean_operation o = true -> clean_facts o.
Proof.
  unfold clean_operation. rewrite !andb_true_iff, !orb_true_iff.
  intros (((((((((((Hm & Hd) & Hp) & Hf) & Ht) & Hnp) & Hnf) & Hv) & Hk) & Hc) & Hl) & Hb).
  constructor; try done; try (by apply trimmed_eq).
  - intros E1 E2. rewrite E1, E2 in Hnp. destruct Hnp as [[?|?]|?]; [done..|]. by apply not_truthy.
  - intros E. rewrite E in Hnf. destruct Hnf; [done|]. by apply not_truthy.
  - intros E. by rewrite E in Hv.
  - intros E. rewrite E in Hv. by apply not_truthy.
  - intros E. rewrite E in Hk. destruct Hk; [done|]. by apply negb_true_iff.
  - destruct (truthy_list _); [|by apply bool_decide_eq_true in Hl].
    apply includes_true, elem_of_cons in Hl as [->|Hl%list_elem_of_singleton]; [done|]. rewrite Hl at 1.
    rewrite bool_decide_eq_false_2; [done|]. rewrite Hl. done.
  - by apply negb_true_iff.
Qed.

Lemma mode_truthy o : includes OPERATION_MODE_VALUES (mode o) = true -> or_str (mode o) (u "set") = mode o.
Proof.
  intros H. unfold or_str. destruct (mode o) eqn:E; [|done]. exfalso. revert H. vm_compute. done.
Qed.

Lemma operation_payload_fields o : clean_operation o = true -> operation_payload o = JObj (operation_fields o).
Proof.
  intros [Hm Hd Hp Hf Ht Hnp _ _ _ _ Hc Hl _]%clean_operation_facts. unfold operation_payload.
  rewrite (mode_truthy o Hm), Hd, Hp, Hf, Ht, (clean_conditions_payload _ Hc).
  assert (forall b, pathAlias (mode_meta (mode o)) && b && truthy (path o) = false) as Ha.
  { intros b. destruct (pathAlias _) eqn:E; [|done]. apply alias_no_path, orb_false_iff in E as [E1 E2].
    rewrite (Hnp E1 E2). by destruct b. }
  rewrite !Ha. unfold operation_fields, operation_steps, steps. cbn [foldl]. f_equal.
  destruct (conditions o) as [|c cs] eqn:E; [done|]. cbn [map truthy_list] in *. by rewrite <-Hl.
Qed.

Lemma operation_NoDup o : NoDup (operation_fields o).*1.
Proof. apply steps_NoDup. apply NoDup_singleton. Qed.

Lemma operation_good o : clean_operation o = true -> good (JObj (operation_fields o)).
Proof.
  intros Hcl. pose proof (clean_operation_facts o Hcl) as F. apply good_obj; [apply operation_NoDup|].
  assert (good (parseLooseValue (value_text o))) as Hv.
  { destruct (m_value (mode_meta (mode o))) eqn:E; [|by rewrite (cf_no_value o F E)].
    apply (cf_value o F), andb_true_iff in E as [E _]. split; [apply loose_wf|exact E]. }
  assert (Forall good (map (fun c => JObj (condition_fields c)) (conditions o))) as Hcs.
  { apply Forall_map, Forall_forall. intros c Hin. apply condition_good. apply cf_conditions in F.
    rewrite forallb_forall in F. apply F. by apply list_elem_of_In. }
  apply steps_Forall; [|by repeat constructor]. unfold operation_steps.
  repeat (constructor; [first [exact Hv | by apply good_arr | by split]|]). constructor.
Qed.

(** The property [k] of what is saved and read. *)
Definition saved (o : ParamOverrideOperation) (k : jsstr) : option json := json_get k (ordered (JObj (operation_fields o))).

Lemma saved_eq o k :
  saved o k = ordered <$> foldl (fun acc '(b, k', v) => if b && bool_decide (k' = k) then Some v else acc)
                            (map_get k [(u "mode", JStr (mode o))]) (operation_steps o).
Proof. unfold saved. rewrite ordered_get by apply operation_NoDup. by rewrite <-steps_get. Qed.

Ltac saved_key := rewrite saved_eq; unfold operation_steps; cbn [foldl]; key_tests.

Lemma saved_mode o : saved o (u "mode") = Some (JStr (mode o)).
Proof. saved_key. reflexivity. Qed.

Lemma saved_texts o :
  clean_facts o ->
  string_or_empty (saved o (u "description")) = description o /\ string_or_empty (saved o (u "path")) = path o /\
  string_or_empty (saved o (u "from")) = from o /\ string_or_empty (saved o (u "to")) = to o.
Proof.
  intros F. pose proof (cf_no_path o F) as Hp. pose proof (cf_no_from o F) as Hf. split_and!; saved_key.
  - by destruct (description o).
  - destruct (m_path _), (pathOptional _); destruct (path o); try done; by rewrite Hp.
  - destruct (m_from _); [done|]. by rewrite Hf.
  - by destruct (m_to _), (to o).
Qed.

Lemma saved_value o : clean_facts o -> toValueText (saved o (u "value")) = value_text o.
Proof.
  intros F. pose proof (cf_value o F) as Hv. pose proof (cf_no_value o F) as Hn. saved_key.
  destruct (m_value _); [|by rewrite Hn].
  specialize (Hv eq_refl). apply andb_true_iff in Hv as [_ Hv]. exact (bool_decide_eq_true_1 _ Hv).
Qed.

Lemma saved_keep o : clean_facts o -> is_true (saved o (u "keep_origin")) = keep_origin o.
Proof. intros F. pose proof (cf_keep o F) as Hk. saved_key. destruct (keepOrigin _), (keep_origin o); try done. by rewrite Hk. Qed.

Lemma saved_logic o :
  clean_facts o -> (if bool_decide (upper_or (saved o (u "logic")) (u "OR") = u "AND") then u "AND" else u "OR") = logic o.
Proof.
  intros F. rewrite (cf_logic o F). saved_key. destruct (conditions o) as [|c cs] eqn:E; [done|].
  pose proof (cf_logic o F) as Hl. rewrite E in Hl. cbn [map truthy_list] in *. rewrite Hl.
  by destruct (bool_decide (logic o = u "AND")).
Qed.

Lemma saved_conditions o :
  saved o (u "conditions") = if truthy_list (conditions o) then Some (JArr (map (fun c => ordered (JObj (condition_fields c))) (conditions o))) else None.
Proof.
  saved_key. destruct (conditions o) as [|c cs]; [done|].
  change (Some (JArr (map ordered (map (fun c => JObj (condition_fields c)) (c :: cs)))) =
          Some (JArr (map (fun c => ordered (JObj (condition_fields c))) (c :: cs)))).
  by rewrite map_map.
Qed.

(** A saved operation is read back. *)
Lemma operation_read now o seed :
  clean_operation o = true ->
  exists o' seed', normalizeOperation now (ordered (operation_payload o)) seed = Some (o', seed') /\ erase o' = erase o.
Proof.
  intros Hcl. rewrite operation_payload_fields by done. apply clean_operation_facts in Hcl as F.
  pose proof (cf_conditions o F) as Hc. destruct (conditions_read now (conditions o) (seed + 1) Hc) as (cs & seed' & Hr & He).
  exists (operation_of (local_id now seed) (saved o) cs), seed'. split.
  - unfold normalizeOperation, mbind, gen_bind, nextLocalId. cbn [mbind option_bind properties].
    change (properties (ordered (JObj (operation_fields o)))) with (mret (M := gen) (saved o)).
    unfold mret, gen_ret. cbn [mbind option_bind]. rewrite saved_conditions.
    destruct (conditions o) as [|c cs0] eqn:E; cbn [truthy_list].
    + by injection Hr as <- <-.
    + rewrite Hr. done.
  - destruct (saved_texts o F) as (Hd & Hp & Hf & Ht). unfold erase, operation_of.
    cbn [description path mode from to value_text keep_origin logic conditions].
    rewrite Hd, Hp, Hf, Ht, He, saved_value, saved_keep, saved_logic, saved_mode by done.
    unfold member_or. by rewrite (cf_mode o F).
Qed.

Lemma operations_read now ops : forall seed,
  Forall (fun o => clean_operation o = true) ops ->
  exists ops' seed', gen_map (normalizeOperation now) (map (fun o => ordered (operation_payload o)) ops) seed = Some (ops', seed') /\
    map erase ops' = map erase ops.
Proof.
  induction ops as [|o ops IH]; intros seed Hc; [by exists [], seed|].
  apply Forall_cons in Hc as [Hc Hcs].
  destruct (operation_read now o seed Hc) as (o' & seed1 & Hr & He). destruct (IH seed1 Hcs) as (ops' & seed' & Hrs & Hes).
  exists (o' :: ops'), seed'. cbn [map]. rewrite He, Hes. split; [|done]. exact (gen_map_cons _ _ _ _ _ _ _ _ Hr Hrs).
Qed.

(** ** Overrides *)

Lemma operations_good ops :
  Forall (fun o => clean_operation o = true) ops -> good (JObj [(u "operations", JArr (map operation_payload ops))]).
Proof.
  intros H. apply good_obj; [apply NoDup_singleton|]. repeat constructor; apply good_arr, Forall_map.
  all: eapply Forall_impl; [exact H|]; intros o Ho; cbn; rewrite operation_payload_fields by done; by apply operation_good.
Qed.

(** The text of clean operations, and what it parses to. *)
Definition operations_text (ops : list ParamOverrideOperation) : jsstr :=
  JSON_stringify2 (JObj [(u "operations", JArr (map operation_payload ops))]).

Lemma operations_text_ends ops : trim (operations_text ops) = operations_text ops /\ truthy (operations_text ops) = true.
Proof.
  unfold operations_text. destruct (stringify_obj_ends [(u "operations", JArr (map operation_payload ops))]) as [s ->].
  by rewrite trim_brackets.
Qed.

Lemma operations_text_parses ops :
  Forall (fun o => clean_operation o = true) ops ->
  let parsed := JObj [(u "operations", JArr (map (fun o => ordered (operation_payload o)) ops))] in
  JSON_parse (operations_text ops) = Some parsed /\ JSON_stringify2 parsed = operations_text ops.
Proof.
  intros Hc parsed. destruct (operations_good ops Hc) as [Hw Hp].
  set (j := JObj [(u "operations", JArr (map operation_payload ops))]) in *.
  assert (ordered j = parsed) as <- by (subst j parsed; cbn [ordered map fst snd]; by rewrite map_map).
  unfold operations_text, JSON_stringify2. fold j. split; [by apply parse_stringify|apply stringify_ordered].
Qed.

Lemma build_clean t ops :
  ops <> [] -> Forall (fun o => clean_operation o = true) ops -> validateOperations t ops = [] ->
  buildOperationsJson t ops true = inr (operations_text ops).
Proof.
  intros Hne Hc Hval. unfold buildOperationsJson. rewrite bfilter_all.
  - rewrite Hval. by destruct ops.
  - intros o Ho. rewrite Forall_forall in Hc. apply negb_true_iff, cf_blank, clean_operation_facts, Hc, Ho.
Qed.

Lemma read_clean now ops seed :
  ops <> [] -> Forall (fun o => clean_operation o = true) ops ->
  exists ops' seed', read_operations now (map (fun o => ordered (operation_payload o)) ops) seed = Some (ops', seed') /\
    map erase ops' = map erase ops.
Proof.
  intros Hne Hc. destruct (operations_read now ops seed Hc) as (ops' & seed' & Hr & He). exists ops', seed'. split; [|done].
  by destruct ops.
Qed.

(** C13. Saving clean operations succeeds when they validate, and the text that
    is saved opens as the same operations under new ids, in the visual editor,
    with the same text beside them. *)
Theorem override_roundtrip t now ops seed :
  ops <> [] -> Forall (fun o => clean_operation o = true) ops -> validateOperations t ops = [] ->
  exists text st seed',
    buildOperationsJson t ops true = inr text /\ parseInitialState now text seed = Some (st, seed') /\
    editMode st = Visual /\ visualMode st = Operations /\ jsonText st = text /\ jsonError st = [] /\
    map erase (operations st) = map erase ops.
Proof.
  intros Hne Hc Hval. destruct (read_clean now ops seed Hne Hc) as (ops' & seed' & Hr & He).
  exists (operations_text ops), (mkEditorState Visual Operations [] ops' (operations_text ops) []), seed'.
  split; [by apply build_clean|]. split; [|by split_and!].
  destruct (operations_text_ends ops) as [Ht Hn], (operations_text_parses ops Hc) as [Hp Hs].
  unfold parseInitialState. rewrite Ht, Hn, Hp. cbn [negb]. rewrite Hs. cbn [map_get]. rewrite decide_True by done.
  unfold mbind, gen_bind. by rewrite Hr.
Qed.

Definition clean_sample : list ParamOverrideOperation :=
  [mkOperation (u "a") (u "cap") (u "temperature") (u "set") [] [] (u "0.7") true (u "AND")
     [mkCondition (u "b") (u "model") (u "prefix") (u "openai/") false true];
   mkOperation (u "c") [] [] (u "copy_header") (u "X-A") (u "X-B") [] false (u "OR") [];
   mkOperation (u "d") [] [] (u "return_error") [] [] (uj "{'message':'no','status_code':429}") false (u "OR") []].

Lemma override_roundtrip_witness :
  exists text st seed',
    buildOperationsJson (fun k _ => k) clean_sample true = inr text /\ parseInitialState 5 text 9 = Some (st, seed') /\
    editMode st = Visual /\ visualMode st = Operations /\ jsonText st = text /\ jsonError st = [] /\
    map erase (operations st) = map erase clean_sample.
Proof.
  apply (override_roundtrip (fun k _ => k) 5 clean_sample 9).
  - discriminate.
  - repeat (constructor; [vm_compute; reflexivity|]). constructor.
  - vm_compute. reflexivity.
Defined.

End OverrideText.
