(* ===== verification/ParamEditor.v ===== *)
(** * The dialog that edits the parameter overrides of a channel
    (web/default/src/features/channels/components/dialogs/param-override-editor-dialog.tsx)

    The state of the dialog is a record and every handler a function on it, in
    [gen] where it draws local ids.  [action] lists what the user can do and
    [run] composes actions, each followed by the adjustment that the dialog
    makes while it renders.

    The function given to [setOperations] in [duplicateOperation] may run at
    once or while rendering: the flag [eager] says which.  Patches name the
    fields that the editors below the dialog change.  [toLowerCase] is an
    operation of [Locale], the translation function a parameter, and the upper
    or lower half of a rule under the pointer an argument of the drag event. *)

From S2P Require Import Prelude JsString JsNumber JsJson JsRegex JsPrint ParamOverride ParamRoundtrip PricingModels.

Import Print Override OverrideText.
Open Scope N_scope.

Module Editor.

(** ** Labels *)

Definition MODE_DESCRIPTIONS : list (jsstr * jsstr) :=
  [(u "set", u "Write value to the target field"); (u "delete", u "Remove the target field");
   (u "append", u "Append value to array / string / object end");
   (u "prepend", u "Prepend value to array / string / object start"); (u "copy", u "Copy source field to target field");
   (u "move", u "Move source field to target field"); (u "replace", u "Do string replacement in the target field");
   (u "regex_replace", u "Do regex replacement in the target field"); (u "trim_prefix", u "Remove string prefix");
   (u "trim_suffix", u "Remove string suffix"); (u "ensure_prefix", u "Ensure the string has a specified prefix");
   (u "ensure_suffix", u "Ensure the string has a specified suffix");
   (u "trim_space", u "Trim leading/trailing whitespace"); (u "to_lower", u "Convert string to lowercase");
   (u "to_upper", u "Convert string to uppercase"); (u "return_error", u "Return a custom error immediately");
   (u "prune_objects", u "Prune object items by conditions");
   (u "pass_headers", u "Pass specified request headers to upstream");
   (u "sync_fields", u "Auto-fill when one field exists and another is missing");
   (u "set_header", u "Set runtime request header: override entire value, or manipulate comma-separated tokens");
   (u "delete_header", u "Delete a runtime request header"); (u "copy_header", u "Copy a request header");
   (u "move_header", u "Move a request header")].

Definition SYNC_TARGET_TYPE_OPTIONS : list (jsstr * jsstr) :=
  [(u "Request Body Field", u "json"); (u "Request Header Field", u "header")].

Definition getModeTagTailwind (m : jsstr) : jsstr :=
  let has s := str_includes m (u s) in
  if has "header"%string then u "bg-info-subtle text-info border-info/30"
  else if has "replace"%string || has "trim"%string then u "bg-brand-subtle text-brand border-brand-border/40"
  else if has "copy"%string || has "move"%string then u "bg-info-subtle text-info border-info/20"
  else if has "error"%string || has "prune"%string then u "bg-danger-subtle text-destructive border-destructive/30"
  else if has "sync"%string then u "bg-success-subtle text-success border-success/30"
  else u "bg-muted text-muted-foreground".

Definition is_mode (m : jsstr) (s : String.string) : bool := bool_decide (m = u s).
Arguments is_mode m s%_string.

Definition getModePathLabel (m : jsstr) : jsstr :=
  if is_mode m "set_header" || is_mode m "delete_header" then u "Header Name"
  else if is_mode m "prune_objects" then u "Target Path (optional)" else u "Target Field Path".

Definition getModePathPlaceholder (m : jsstr) : jsstr :=
  if is_mode m "set_header" then u "Authorization" else if is_mode m "delete_header" then u "X-Debug-Mode"
  else if is_mode m "prune_objects" then u "messages" else u "temperature".

Definition getModeFromLabel (m : jsstr) : jsstr :=
  if is_mode m "replace" then u "Match Text" else if is_mode m "regex_replace" then u "Regex Pattern"
  else if is_mode m "copy_header" || is_mode m "move_header" then u "Source Header" else u "Source Field".

Definition getModeFromPlaceholder (m : jsstr) : jsstr :=
  if is_mode m "replace" then u "openai/" else if is_mode m "regex_replace" then u "^gpt-"
  else if is_mode m "copy_header" || is_mode m "move_header" then u "Authorization" else u "model".

Definition getModeToLabel (m : jsstr) : jsstr :=
  if is_mode m "replace" || is_mode m "regex_replace" then u "Replace With"
  else if is_mode m "copy_header" || is_mode m "move_header" then u "Target Header" else u "Target Field".

Definition getModeToPlaceholder (m : jsstr) : jsstr :=
  if is_mode m "replace" then u "(leave empty to delete)" else if is_mode m "regex_replace" then u "openai/gpt-"
  else if is_mode m "copy_header" || is_mode m "move_header" then u "X-Upstream-Auth" else u "original_model".

Definition is_affix (m : jsstr) : bool :=
  is_mode m "trim_prefix" || is_mode m "trim_suffix" || is_mode m "ensure_prefix" || is_mode m "ensure_suffix".

Definition getModeValueLabel (m : jsstr) : jsstr :=
  if is_mode m "set_header" then u "Header Value (supports string or JSON mapping)"
  else if is_mode m "pass_headers" then u "Pass-through Headers (comma-separated or JSON array)"
  else if is_affix m then u "Prefix/Suffix Text"
  else if is_mode m "prune_objects" then u "Prune Rule (string or JSON object)"
  else u "Value (supports JSON or plain text)".

Definition getModeValuePlaceholder (m : jsstr) : jsstr :=
  if is_mode m "set_header" then u "Bearer sk-xxx"
  else if is_mode m "pass_headers" then u "Authorization, X-Request-Id"
  else if is_affix m then u "openai/"
  else if is_mode m "prune_objects" then uj "{'type':'redacted_thinking'}" else u "0.7".

(** ** Templates *)

Definition LEGACY_TEMPLATE : list (jsstr * json) :=
  [(u "temperature", JNum (num_of_Z 0)); (u "max_tokens", JNum (num_of_Z 1000))].

Definition text (s : String.string) : json := JStr (u s).
Arguments text s%_string.

Definition template_condition (p m v : String.string) : json :=
  JObj [(u "path", text p); (u "mode", text m); (u "value", text v)].
Arguments template_condition (p m v)%_string.

Definition OPERATION_TEMPLATE : list (jsstr * json) :=
  [(u "operations", JArr [JObj [
      (u "description", text "Set default temperature for openai/* models."); (u "path", text "temperature");
      (u "mode", text "set"); (u "value", JNum (num_of_decimal 7 (-1)));
      (u "conditions", JArr [template_condition "model" "prefix" "openai/"]); (u "logic", text "AND")]])].

Definition HEADER_PASSTHROUGH_TEMPLATE : list (jsstr * json) :=
  [(u "operations", JArr [JObj [
      (u "description", text "Pass through X-Request-Id header to upstream."); (u "mode", text "pass_headers");
      (u "value", JArr [text "X-Request-Id"]); (u "keep_origin", JBool true)]])].

Definition GEMINI_IMAGE_4K_TEMPLATE : list (jsstr * json) :=
  [(u "operations", JArr [JObj [
      (u "description", text "Set imageSize to 4K when model contains gemini/image and ends with 4k.");
      (u "mode", text "set"); (u "path", text "generationConfig.imageConfig.imageSize"); (u "value", text "4K");
      (u "conditions", JArr [template_condition "original_model" "contains" "gemini";
                             template_condition "original_model" "contains" "image";
                             template_condition "original_model" "suffix" "4k"]);
      (u "logic", text "AND")]])].

Definition CODEX_CLI_HEADER_PASSTHROUGH_HEADERS : list jsstr :=
  [u "Originator"; u "Session_id"; u "User-Agent"; u "X-Codex-Beta-Features"; u "X-Codex-Turn-Metadata"].

Definition CLAUDE_CLI_HEADER_PASSTHROUGH_HEADERS : list jsstr :=
  [u "X-Stainless-Arch"; u "X-Stainless-Lang"; u "X-Stainless-Os"; u "X-Stainless-Package-Version";
   u "X-Stainless-Retry-Count"; u "X-Stainless-Runtime"; u "X-Stainless-Runtime-Version"; u "X-Stainless-Timeout";
   u "User-Agent"; u "X-App"; u "Anthropic-Beta"; u "Anthropic-Dangerous-Direct-Browser-Access"; u "Anthropic-Version"].

Definition buildPassHeadersTemplate (headers : list jsstr) : list (jsstr * json) :=
  [(u "operations", JArr [JObj [(u "mode", text "pass_headers"); (u "value", JArr (map JStr headers)); (u "keep_origin", JBool true)]])].

Definition CODEX_CLI_HEADER_PASSTHROUGH_TEMPLATE := buildPassHeadersTemplate CODEX_CLI_HEADER_PASSTHROUGH_HEADERS.
Definition CLAUDE_CLI_HEADER_PASSTHROUGH_TEMPLATE := buildPassHeadersTemplate CLAUDE_CLI_HEADER_PASSTHROUGH_HEADERS.

(** A token that is renamed, kept or ([null]) removed. *)
Definition token (k v : String.string) : jsstr * json := (u k, text v).
Definition kept (k : String.string) : jsstr * json := token k k.
Definition removed (k : String.string) : jsstr * json := (u k, JNull).
Arguments token (k v)%_string.
Arguments kept k%_string.
Arguments removed k%_string.

Definition AWS_BEDROCK_ANTHROPIC_COMPAT_TEMPLATE : list (jsstr * json) :=
  [(u "operations", JArr [
      JObj [(u "description", text "Normalize anthropic-beta header tokens for Bedrock compatibility.");
            (u "mode", text "set_header"); (u "path", text "anthropic-beta");
            (u "value", JObj [
               token "advanced-tool-use-2025-11-20" "tool-search-tool-2025-10-19"; removed "bash_20241022";
               removed "bash_20250124"; removed "code-execution-2025-08-25"; kept "compact-2026-01-12";
               kept "computer-use-2025-01-24"; kept "computer-use-2025-11-24"; kept "context-1m-2025-08-07";
               kept "context-management-2025-06-27"; removed "effort-2025-11-24"; removed "fast-mode-2026-02-01";
               removed "files-api-2025-04-14"; removed "fine-grained-tool-streaming-2025-05-14";
               kept "interleaved-thinking-2025-05-14"; removed "mcp-client-2025-11-20"; removed "mcp-client-2025-04-04";
               removed "mcp-servers-2025-12-04"; removed "output-128k-2025-02-19"; removed "structured-output-2024-03-01";
               removed "prompt-caching-scope-2026-01-05"; removed "skills-2025-10-02";
               removed "structured-outputs-2025-11-13"; removed "text_editor_20241022"; removed "text_editor_20250124";
               removed "token-efficient-tools-2025-02-19"; kept "tool-search-tool-2025-10-19";
               removed "web-fetch-2025-09-10"; removed "web-search-2025-03-05"; removed "oauth-2025-04-20"])];
      JObj [(u "description", text "Remove all tools[*].custom.input_examples before upstream relay.");
            (u "mode", text "delete"); (u "path", text "tools.*.custom.input_examples")]])].

Inductive PresetKind := KOperations | KLegacy.

Record TemplatePresetConfig := mkPreset { t_label : jsstr; kind : PresetKind; t_payload : list (jsstr * json) }.

Definition operations_default : TemplatePresetConfig := mkPreset (u "New Format Template") KOperations OPERATION_TEMPLATE.

Definition TEMPLATE_PRESET_CONFIG : list (jsstr * TemplatePresetConfig) :=
  [(u "operations_default", operations_default);
   (u "legacy_default", mkPreset (u "Legacy Format Template") KLegacy LEGACY_TEMPLATE);
   (u "pass_headers_auth", mkPreset (u "Header Passthrough (X-Request-Id)") KOperations HEADER_PASSTHROUGH_TEMPLATE);
   (u "gemini_image_4k", mkPreset (u "Gemini Image 4K") KOperations GEMINI_IMAGE_4K_TEMPLATE);
   (u "claude_cli_headers_passthrough",
      mkPreset (u "Claude CLI Header Passthrough") KOperations CLAUDE_CLI_HEADER_PASSTHROUGH_TEMPLATE);
   (u "codex_cli_headers_passthrough",
      mkPreset (u "Codex CLI Header Passthrough") KOperations CODEX_CLI_HEADER_PASSTHROUGH_TEMPLATE);
   (u "aws_bedrock_anthropic_beta_override",
      mkPreset (u "AWS Bedrock Claude Compat") KOperations AWS_BEDROCK_ANTHROPIC_COMPAT_TEMPLATE)].

Definition templatePresetOptions : list (jsstr * jsstr) := map (fun kv => (kv.1, t_label kv.2)) TEMPLATE_PRESET_CONFIG.

(** ** Patches *)

Inductive OperationPatch :=
  | FDescription (s : jsstr) | FPath (s : jsstr) | FMode (s : jsstr) | FFrom (s : jsstr) | FTo (s : jsstr)
  | FValueText (s : jsstr) | FKeepOrigin (b : bool) | FLogic (s : jsstr).

(** [{ ...o, field: value }] *)
Definition patch_operation (o : ParamOverrideOperation) (f : OperationPatch) : ParamOverrideOperation :=
  match o, f with
  | mkOperation i _ p m fr t v k l c, FDescription d => mkOperation i d p m fr t v k l c
  | mkOperation i d _ m fr t v k l c, FPath p => mkOperation i d p m fr t v k l c
  | mkOperation i d p _ fr t v k l c, FMode m => mkOperation i d p m fr t v k l c
  | mkOperation i d p m _ t v k l c, FFrom fr => mkOperation i d p m fr t v k l c
  | mkOperation i d p m fr _ v k l c, FTo t => mkOperation i d p m fr t v k l c
  | mkOperation i d p m fr t _ k l c, FValueText v => mkOperation i d p m fr t v k l c
  | mkOperation i d p m fr t v _ l c, FKeepOrigin k => mkOperation i d p m fr t v k l c
  | mkOperation i d p m fr t v k _ c, FLogic l => mkOperation i d p m fr t v k l c
  end.

Definition set_conditions (o : ParamOverrideOperation) (cs : list ParamOverrideCondition) : ParamOverrideOperation :=
  mkOperation (o_id o) (description o) (path o) (mode o) (from o) (to o) (value_text o) (keep_origin o) (logic o) cs.

Inductive ConditionPatch := CPath (s : jsstr) | CMode (s : jsstr) | CValueText (s : jsstr) | CInvert (b : bool) | CPassMissing (b : bool).

Definition patch_condition (c : ParamOverrideCondition) (f : ConditionPatch) : ParamOverrideCondition :=
  match c, f with
  | mkCondition i _ m v n p, CPath q => mkCondition i q m v n p
  | mkCondition i q _ v n p, CMode m => mkCondition i q m v n p
  | mkCondition i q m _ n p, CValueText v => mkCondition i q m v n p
  | mkCondition i q m v _ p, CInvert n => mkCondition i q m v n p
  | mkCondition i q m v n _, CPassMissing p => mkCondition i q m v n p
  end.

Inductive ErrorPatch := EMessage (s : jsstr) | EStatus (x : number) | ECode (s : jsstr) | EType (s : jsstr) | ESkip (b : bool) | ESimple (b : bool).

Definition patch_error (d : ReturnErrorDraft) (f : ErrorPatch) : ReturnErrorDraft :=
  match d, f with
  | mkErrorDraft _ s c t k b, EMessage m => mkErrorDraft m s c t k b
  | mkErrorDraft m _ c t k b, EStatus s => mkErrorDraft m s c t k b
  | mkErrorDraft m s _ t k b, ECode c => mkErrorDraft m s c t k b
  | mkErrorDraft m s c _ k b, EType t => mkErrorDraft m s c t k b
  | mkErrorDraft m s c t _ b, ESkip k => mkErrorDraft m s c t k b
  | mkErrorDraft m s c t k _, ESimple b => mkErrorDraft m s c t k b
  end.

Inductive PrunePatch := PSimple (b : bool) | PType (s : jsstr) | PLogic (s : jsstr) | PRecursive (b : bool).

Definition patch_prune (d : PruneObjectsDraft) (f : PrunePatch) : PruneObjectsDraft :=
  match d, f with
  | mkPruneDraft _ t l r rs, PSimple b => mkPruneDraft b t l r rs
  | mkPruneDraft b _ l r rs, PType t => mkPruneDraft b t l r rs
  | mkPruneDraft b t _ r rs, PLogic l => mkPruneDraft b t l r rs
  | mkPruneDraft b t l _ rs, PRecursive r => mkPruneDraft b t l r rs
  end.

Definition set_rules (d : PruneObjectsDraft) (simple : bool) (rs : list ParamOverrideCondition) : PruneObjectsDraft :=
  mkPruneDraft simple (typeText d) (p_logic d) (recursive d) rs.

(** ** The list of operations *)

(** [ops.map((o) => (o.id === id ? f(o) : o))] *)
Definition at_id (id : jsstr) (f : ParamOverrideOperation -> ParamOverrideOperation) : list ParamOverrideOperation -> list ParamOverrideOperation :=
  map (fun o => if bool_decide (o_id o = id) then f o else o).

Definition updateOperation (id : jsstr) (patch : list OperationPatch) : list ParamOverrideOperation -> list ParamOverrideOperation :=
  at_id id (fun o => foldl patch_operation o patch).

Definition find_index (id : jsstr) (ops : list ParamOverrideOperation) : option nat :=
  fst <$> list_find (fun o => o_id o = id) ops.

(** [l.splice(i, 0, x)] on a copy *)
Definition insert_at {A} (i : nat) (x : A) (l : list A) : list A := take i l ++ x :: drop i l.

Definition reorderOperations (ops : list ParamOverrideOperation) (sourceId targetId : jsstr) (after : bool)
  : list ParamOverrideOperation :=
  if negb (truthy sourceId) || negb (truthy targetId) || bool_decide (sourceId = targetId) then ops
  else match list_find (fun o => o_id o = sourceId) ops with
       | None => ops
       | Some (srcIdx, moved) =>
           let next := delete srcIdx ops in
           match find_index targetId next with
           | None => ops
           | Some insertIdx => insert_at (if after then S insertIdx else insertIdx) moved next
           end
       end.

Definition updateCondition (operationId conditionId : jsstr) (patch : list ConditionPatch) :=
  at_id operationId (fun o => set_conditions o
    (map (fun c => if bool_decide (c_id c = conditionId) then foldl patch_condition c patch else c) (conditions o))).

Definition removeCondition (operationId conditionId : jsstr) :=
  at_id operationId (fun o => set_conditions o (bfilter (fun c => negb (bool_decide (c_id c = conditionId))) (conditions o))).

Definition updateReturnErrorDraft (operationId : jsstr) (patch : list ErrorPatch) :=
  at_id operationId (fun o => patch_operation o (FValueText
    (buildReturnErrorValueText (foldl patch_error (parseReturnErrorDraft (value_text o)) patch)))).

Section ids.
Context (now : N).

(** What is copied of a condition and of an operation. *)
Definition clone_condition (c : ParamOverrideCondition) : json :=
  JObj [(u "path", JStr (c_path c)); (u "mode", JStr (c_mode c)); (u "value", parseLooseValue (c_value_text c));
        (u "invert", JBool (c_invert c)); (u "pass_missing_key", JBool (c_pass_missing_key c))].

Definition clone_source (o : ParamOverrideOperation) : json :=
  JObj [(u "description", JStr (description o)); (u "path", JStr (path o)); (u "mode", JStr (mode o));
        (u "value", parseLooseValue (value_text o)); (u "keep_origin", JBool (keep_origin o)); (u "from", JStr (from o));
        (u "to", JStr (to o)); (u "logic", JStr (logic o)); (u "conditions", JArr (map clone_condition (conditions o)))].

(** The new list and the id that was inserted. *)
Definition duplicate_in (id : jsstr) (ops : list ParamOverrideOperation) : gen (list ParamOverrideOperation * jsstr) :=
  match list_find (fun o => o_id o = id) ops with
  | None => mret (ops, [])
  | Some (idx, source) =>
      cloned ← normalizeOperation now (clone_source source);
      mret (insert_at (S idx) cloned ops, o_id cloned)
  end.

Definition removeOperation (id : jsstr) (ops : list ParamOverrideOperation) : gen (list ParamOverrideOperation) :=
  if (length ops <=? 1)%nat then op ← createDefaultOperation now; mret [op]
  else mret (bfilter (fun o => negb (bool_decide (o_id o = id))) ops).

Definition updatePruneObjectsDraft (id : jsstr) (updater : PruneObjectsDraft -> gen PruneObjectsDraft)
  : list ParamOverrideOperation -> gen (list ParamOverrideOperation) :=
  gen_map (fun o =>
    if bool_decide (o_id o = id) then
      draft ← parsePruneObjectsDraft now (value_text o);
      nextDraft ← updater draft;
      mret (patch_operation o (FValueText (buildPruneObjectsValueText nextDraft)))
    else mret o).

Definition patchPruneDraft (id : jsstr) (patch : list PrunePatch) :=
  updatePruneObjectsDraft id (fun d => mret (foldl patch_prune d patch)).

Definition addPruneRule (id : jsstr) :=
  updatePruneObjectsDraft id (fun d => rule ← normalizePruneRule now (JObj []); mret (set_rules d false (rules d ++ [rule]))).

Definition updatePruneRule (id ruleId : jsstr) (patch : list ConditionPatch) :=
  updatePruneObjectsDraft id (fun d => mret (set_rules d (p_simpleMode d)
    (map (fun r => if bool_decide (c_id r = ruleId) then foldl patch_condition r patch else r) (rules d)))).

Definition removePruneRule (id ruleId : jsstr) :=
  updatePruneObjectsDraft id (fun d => mret (set_rules d (p_simpleMode d)
    (bfilter (fun r => negb (bool_decide (c_id r = ruleId))) (rules d)))).

End ids.

(** ** The dialog *)

Record Dialog := mkDialog {
  core : EditorState; operationSearch : jsstr; selectedOperationId : jsstr; expandedConditions : list (jsstr * bool);
  draggedOperationId : jsstr; dragOverOperationId : jsstr; dragAfter : bool; templatePresetKey : jsstr; toasts : list jsstr;
}.

Definition ops (d : Dialog) : list ParamOverrideOperation := operations (core d).

Definition set_core (c : EditorState) (d : Dialog) : Dialog :=
  mkDialog c (operationSearch d) (selectedOperationId d) (expandedConditions d) (draggedOperationId d) (dragOverOperationId d)
    (dragAfter d) (templatePresetKey d) (toasts d).

Definition setOperations (l : list ParamOverrideOperation) (d : Dialog) : Dialog :=
  let c := core d in
  set_core (mkEditorState (editMode c) (visualMode c) (legacyValue c) l (jsonText c) (jsonError c)) d.

Definition setOperationSearch (s : jsstr) (d : Dialog) : Dialog :=
  mkDialog (core d) s (selectedOperationId d) (expandedConditions d) (draggedOperationId d) (dragOverOperationId d)
    (dragAfter d) (templatePresetKey d) (toasts d).

Definition setSelectedOperationId (s : jsstr) (d : Dialog) : Dialog :=
  mkDialog (core d) (operationSearch d) s (expandedConditions d) (draggedOperationId d) (dragOverOperationId d)
    (dragAfter d) (templatePresetKey d) (toasts d).

Definition setExpandedConditions (m : list (jsstr * bool)) (d : Dialog) : Dialog :=
  mkDialog (core d) (operationSearch d) (selectedOperationId d) m (draggedOperationId d) (dragOverOperationId d)
    (dragAfter d) (templatePresetKey d) (toasts d).

Definition set_drag (dragged over : jsstr) (after : bool) (d : Dialog) : Dialog :=
  mkDialog (core d) (operationSearch d) (selectedOperationId d) (expandedConditions d) dragged over after
    (templatePresetKey d) (toasts d).

Definition setTemplatePresetKey (k : jsstr) (d : Dialog) : Dialog :=
  mkDialog (core d) (operationSearch d) (selectedOperationId d) (expandedConditions d) (draggedOperationId d)
    (dragOverOperationId d) (dragAfter d) k (toasts d).

(** [toast.error(message)] *)
Definition toast_error (message : jsstr) (d : Dialog) : Dialog :=
  mkDialog (core d) (operationSearch d) (selectedOperationId d) (expandedConditions d) (draggedOperationId d)
    (dragOverOperationId d) (dragAfter d) (templatePresetKey d) (toasts d ++ [message]).

Definition first_id (l : list ParamOverrideOperation) : jsstr := match l with o :: _ => o_id o | [] => [] end.

(** The selection is adjusted while rendering. *)
Definition render (d : Dialog) : Dialog :=
  if existsb (fun o => bool_decide (o_id o = selectedOperationId d)) (ops d) then d
  else setSelectedOperationId (first_id (ops d)) d.

(** *** What is shown *)

Definition selectedOperation (d : Dialog) : option ParamOverrideOperation :=
  List.find (fun o => bool_decide (o_id o = selectedOperationId d)) (ops d).

Definition operationCount (d : Dialog) : nat := length (bfilter (fun o => negb (isOperationBlank o)) (ops d)).

Definition filteredOperations `{Locale} (d : Dialog) : list ParamOverrideOperation :=
  let keyword := toLowerCase (trim (operationSearch d)) in
  if negb (truthy keyword) then ops d
  else bfilter (fun o => str_includes (toLowerCase (join [32] (bfilter truthy
                           [description o; mode o; path o; from o; to o; value_text o]))) keyword) (ops d).

(** The draft of the selected operation, where its mode has one. *)
Definition returnErrorDraft (d : Dialog) : option ReturnErrorDraft :=
  o ← selectedOperation d; if is_mode (mode o) "return_error" then Some (parseReturnErrorDraft (value_text o)) else None.

Definition pruneObjectsDraft (now : N) (d : Dialog) : gen (option PruneObjectsDraft) :=
  match selectedOperation d with
  | Some o => if is_mode (mode o) "prune_objects" then draft ← parsePruneObjectsDraft now (value_text o); mret (Some draft)
              else mret None
  | None => mret None
  end.

(** The four most frequent modes.  No mode is an array index. *)
Definition topOperationModes (d : Dialog) : list (jsstr * nat) :=
  let count counts o := let m := or_str (mode o) (u "set") in map_set m (S (map_get m counts ?? O)) counts in
  take 4 (js_sort (fun a b => (Z.of_nat b.2 - Z.of_nat a.2)%Z) (obj_entries (foldl count [] (ops d)))).

(** *** Drag and drop *)

Definition resetDragState (d : Dialog) : Dialog := set_drag [] [] false d.

Definition handleDragStart (id : jsstr) (d : Dialog) : Dialog :=
  setSelectedOperationId id (set_drag id (dragOverOperationId d) (dragAfter d) d).

Definition handleDragOver (id : jsstr) (lower_half : bool) (d : Dialog) : Dialog :=
  if negb (truthy (draggedOperationId d)) || bool_decide (draggedOperationId d = id) then d
  else set_drag (draggedOperationId d) id lower_half d.

(** [data] is what the drop carries. *)
Definition handleDrop (id data : jsstr) (d : Dialog) : Dialog :=
  let sourceId := or_str (draggedOperationId d) data in
  let after := if bool_decide (dragOverOperationId d = id) then dragAfter d else false in
  let d' := if truthy sourceId && truthy id && negb (bool_decide (sourceId = id))
            then setSelectedOperationId sourceId (setOperations (reorderOperations (ops d) sourceId id after) d)
            else d in
  resetDragState d'.

(** *** Conditions that are unfolded *)

Definition set_all (b : bool) (d : Dialog) : Dialog :=
  match selectedOperation d with
  | None => d
  | Some o => setExpandedConditions (foldl (fun m c => map_set (c_id c) b m) (expandedConditions d) (conditions o)) d
  end.

Definition expandAllConditions : Dialog -> Dialog := set_all true.
Definition collapseAllConditions : Dialog -> Dialog := set_all false.

(** *** Texts *)

Section dialog.
(** [t(key)] and [t(key, { line })] *)
Context (t : jsstr -> jsstr) (t_line : jsstr -> nat -> jsstr) (now : N).

Definition buildVisualJson (d : Dialog) : jsstr + jsstr :=
  match visualMode (core d) with
  | Legacy =>
      let trimmed := trim (legacyValue (core d)) in
      if negb (truthy trimmed) then inr []
      else match JSON_parse trimmed with
           | None => inl (t (u "Parameter override must be valid JSON format"))
           | Some (JObj fs) => inr (JSON_stringify2 (JObj fs))
           | Some _ => inl (t (u "Legacy format must be a JSON object"))
           end
  | Operations => buildOperationsJson t_line (ops d) true
  end.

Definition switchToJsonMode (d : Dialog) : Dialog :=
  let c := core d in
  let go text err := set_core (mkEditorState Json (visualMode c) (legacyValue c) (operations c) text err) in
  match editMode c with
  | Json => d
  | Visual =>
      match buildVisualJson d with
      | inr text => go text [] d
      | inl message =>
          let text := match visualMode c with
                      | Legacy => legacyValue c
                      | Operations => match buildOperationsJson t_line (ops d) false with inr s => s | inl s => s end
                      end in
          go text (or_str message (t (u "Parameter configuration error"))) (toast_error message d)
      end
  end.

Definition switchToVisualMode (d : Dialog) : gen Dialog :=
  let c := core d in
  let go vm legacy l := set_core (mkEditorState Visual vm legacy l (jsonText c) []) in
  match editMode c with
  | Visual => mret d
  | Json =>
      let trimmed := trim (jsonText c) in
      if negb (truthy trimmed) then
        fallback ← createDefaultOperation now;
        mret (setSelectedOperationId (o_id fallback) (go Operations [] [fallback] d))
      else
        match JSON_parse trimmed with
        | None => mret (toast_error (t (u "Parameter override must be valid JSON format")) d)
        | Some (JObj fs) =>
            match map_get (u "operations") fs with
            | Some (JArr l) =>
                nextOps ← read_operations now l;
                mret (setTemplatePresetKey (u "operations_default") (setSelectedOperationId (first_id nextOps)
                        (go Operations [] nextOps d)))
            | _ =>
                fallback ← createDefaultOperation now;
                mret (setTemplatePresetKey (u "legacy_default") (setSelectedOperationId (o_id fallback)
                        (go Legacy (JSON_stringify2 (JObj fs)) [fallback] d)))
            end
        | Some _ => mret (toast_error (t (u "Parameter override must be a valid JSON object")) d)
        end
  end.

(** The legacy branch of [fillTemplate]: the text, or [None] with a toast. *)
Definition legacy_text (append : bool) (payload : list (jsstr * json)) (d : Dialog) : option jsstr :=
  let merge current := JSON_stringify2 (JObj (foldl (fun acc kv => map_set kv.1 kv.2 acc) payload current)) in
  match append, visualMode (core d) with
  | true, Legacy =>
      let trimmed := trim (legacyValue (core d)) in
      if truthy trimmed then merge ∘ spread <$> JSON_parse trimmed else Some (merge [])
  | _, _ => Some (JSON_stringify2 (JObj payload))
  end.

Definition payload_operations (payload : list (jsstr * json)) : list json :=
  match map_get (u "operations") payload with Some (JArr l) => l | _ => [] end.

Definition fillTemplate (append : bool) (d : Dialog) : gen Dialog :=
  let c := core d in
  let preset := map_get (templatePresetKey d) TEMPLATE_PRESET_CONFIG ?? operations_default in
  match kind preset with
  | KLegacy =>
      match legacy_text append (t_payload preset) d with
      | None => mret (toast_error (t (u "Current legacy JSON is invalid, cannot append")) d)
      | Some text =>
          op ← createDefaultOperation now;
          mret (set_core (mkEditorState Visual Legacy text [op] text []) d)
      end
  | KOperations =>
      let operationsPayload := payload_operations (t_payload preset) in
      if append then
        appended ← gen_map (normalizeOperation now) operationsPayload;
        let existing := match visualMode c with
                        | Operations => bfilter (fun o => negb (isOperationBlank o)) (operations c)
                        | Legacy => []
                        end in
        let nextOps := existing ++ appended in
        mret (setSelectedOperationId (or_str (first_id nextOps) (first_id appended))
                (set_core (mkEditorState Visual Operations [] (if truthy_list nextOps then nextOps else appended) [] []) d))
      else
        finalOps ← read_operations now operationsPayload;
        mret (setSelectedOperationId (first_id finalOps)
                (set_core (mkEditorState Visual Operations (legacyValue c) finalOps
                             (JSON_stringify2 (JObj [(u "operations", JArr operationsPayload)])) []) d))
  end.

Definition resetEditorState (d : Dialog) : gen Dialog :=
  fallback ← createDefaultOperation now;
  mret (setTemplatePresetKey (u "operations_default") (setSelectedOperationId (o_id fallback)
          (set_core (mkEditorState Visual Operations [] [fallback] [] []) d))).

Definition set_json (text err : jsstr) (d : Dialog) : Dialog :=
  let c := core d in
  set_core (mkEditorState (editMode c) (visualMode c) (legacyValue c) (operations c) text err) d.

Definition handleJsonChange (nextValue : jsstr) (d : Dialog) : Dialog :=
  let trimmed := trim nextValue in
  set_json nextValue (if negb (truthy trimmed) || verifyJSON trimmed then [] else t (u "JSON format error")) d.

Definition formatJson (d : Dialog) : Dialog :=
  let trimmed := trim (jsonText (core d)) in
  if negb (truthy trimmed) then d
  else match JSON_parse trimmed with
       | None => toast_error (t (u "Parameter override must be valid JSON format")) d
       | Some j => set_json (JSON_stringify2 j) [] d
       end.

Definition setLegacyValue (s : jsstr) (d : Dialog) : Dialog :=
  let c := core d in
  set_core (mkEditorState (editMode c) (visualMode c) s (operations c) (jsonText c) (jsonError c)) d.

Definition visualValidationError (d : Dialog) : jsstr :=
  match editMode (core d) with
  | Json => []
  | Visual => match buildVisualJson d with
              | inr _ => []
              | inl message => or_str message (t (u "Parameter configuration error"))
              end
  end.

(** [inr text] when [onSave] is called and the dialog closes. *)
Definition handleSave (d : Dialog) : jsstr + jsstr :=
  match editMode (core d) with
  | Json =>
      let trimmed := trim (jsonText (core d)) in
      if negb (truthy trimmed) then inr []
      else match JSON_parse trimmed with
           | None => inl (t (u "Parameter override must be valid JSON format"))
           | Some j => inr (JSON_stringify2 j)
           end
  | Visual => buildVisualJson d
  end.

Definition initializeFromValue (value : jsstr) (d : Dialog) : gen Dialog :=
  st ← parseInitialState now value;
  mret (mkDialog st [] (first_id (operations st)) [] [] [] false
          (match visualMode st with Legacy => u "legacy_default" | Operations => u "operations_default" end) (toasts d)).

(** *** Handlers on the operations *)

Definition addOperation (d : Dialog) : gen Dialog :=
  created ← createDefaultOperation now;
  mret (setSelectedOperationId (o_id created) (setOperations (ops d ++ [created]) d)).

Definition duplicateOperation (eager : bool) (id : jsstr) (d : Dialog) : gen Dialog :=
  r ← duplicate_in now id (ops d);
  mret ((if eager && truthy r.2 then setSelectedOperationId r.2 else fun x => x) (setOperations r.1 d)).

Definition addCondition (id : jsstr) (d : Dialog) : gen Dialog :=
  created ← createDefaultCondition now;
  mret (setExpandedConditions (map_set (c_id created) true (expandedConditions d))
          (setOperations (at_id id (fun o => set_conditions o (conditions o ++ [created])) (ops d)) d)).

(** The button beside a value that starts with a brace. *)
Definition formatValue (id : jsstr) (d : Dialog) : Dialog :=
  match selectedOperation d with
  | Some o => match JSON_parse (value_text o) with
              | Some j => setOperations (updateOperation id [FValueText (JSON_stringify2 j)] (ops d)) d
              | None => d
              end
  | None => d
  end.

End dialog.

(** ** Everything the user can do *)

Inductive action :=
  | Open (value : jsstr) | Update (id : jsstr) (patch : list OperationPatch) | Add | Duplicate (eager : bool) (id : jsstr)
  | Remove (id : jsstr) | AddCondition (id : jsstr) | UpdateCondition (id cid : jsstr) (patch : list ConditionPatch)
  | RemoveCondition (id cid : jsstr) | UpdateError (id : jsstr) (patch : list ErrorPatch)
  | UpdatePrune (id : jsstr) (patch : list PrunePatch) | AddRule (id : jsstr)
  | UpdateRule (id rid : jsstr) (patch : list ConditionPatch) | RemoveRule (id rid : jsstr) | DragStart (id : jsstr)
  | DragOver (id : jsstr) (lower_half : bool) | Drop (id data : jsstr) | DragEnd | ToJson | ToVisual
  | ChoosePreset (k : jsstr) | Fill (append : bool) | ResetAll | EditJson (s : jsstr) | FormatJson | EditLegacy (s : jsstr)
  | FormatValue (id : jsstr) | Select (id : jsstr) | EditSearch (s : jsstr) | ExpandAll (b : bool) | Expand (cid : jsstr) (b : bool).

Section run.
Context (t : jsstr -> jsstr) (t_line : jsstr -> nat -> jsstr).

(** A handler that only changes the list. *)
Definition on_ops (f : list ParamOverrideOperation -> gen (list ParamOverrideOperation)) (d : Dialog) : gen Dialog :=
  l ← f (ops d); mret (setOperations l d).

Definition pure_ops (f : list ParamOverrideOperation -> list ParamOverrideOperation) (d : Dialog) : gen Dialog :=
  mret (setOperations (f (ops d)) d).

Definition act (now : N) (a : action) (d : Dialog) : gen Dialog :=
  match a with
  | Open value => initializeFromValue now value d
  | Update id patch => pure_ops (updateOperation id patch) d
  | Add => addOperation now d
  | Duplicate eager id => duplicateOperation now eager id d
  | Remove id => on_ops (removeOperation now id) d
  | AddCondition id => addCondition now id d
  | UpdateCondition id cid patch => pure_ops (updateCondition id cid patch) d
  | RemoveCondition id cid => pure_ops (removeCondition id cid) d
  | UpdateError id patch => pure_ops (updateReturnErrorDraft id patch) d
  | UpdatePrune id patch => on_ops (patchPruneDraft now id patch) d
  | AddRule id => on_ops (addPruneRule now id) d
  | UpdateRule id rid patch => on_ops (updatePruneRule now id rid patch) d
  | RemoveRule id rid => on_ops (removePruneRule now id rid) d
  | DragStart id => mret (handleDragStart id d)
  | DragOver id b => mret (handleDragOver id b d)
  | Drop id data => mret (handleDrop id data d)
  | DragEnd => mret (resetDragState d)
  | ToJson => mret (switchToJsonMode t t_line d)
  | ToVisual => switchToVisualMode t now d
  | ChoosePreset k => mret (setTemplatePresetKey (or_str k (u "operations_default")) d)
  | Fill append => fillTemplate t now append d
  | ResetAll => resetEditorState now d
  | EditJson s => mret (handleJsonChange t s d)
  | FormatJson => mret (formatJson t d)
  | EditLegacy s => mret (setLegacyValue s d)
  | FormatValue id => mret (formatValue id d)
  | Select id => mret (setSelectedOperationId id d)
  | EditSearch s => mret (setOperationSearch s d)
  | ExpandAll b => mret (set_all b d)
  | Expand cid b => mret (setExpandedConditions (map_set cid b (expandedConditions d)) d)
  end.

(** Actions with the time of each, every one followed by a rendering.  The
    draft of a [prune_objects] rule is parsed for display, which draws ids. *)
Fixpoint run (l : list (N * action)) (d : Dialog) : gen Dialog :=
  match l with
  | [] => mret d
  | (now, a) :: l' =>
      d1 ← act now a d;
      let d2 := render d1 in
      _ ← pruneObjectsDraft now d2;
      run l' d2
  end.

End run.

(** The dialog before it is opened for the first time. *)
Definition initial (now : N) : gen Dialog :=
  op ← createDefaultOperation now;
  mret (render (mkDialog (mkEditorState Visual Operations [] [op] [] []) [] [] [] [] [] false (u "operations_default") [])).

(** ** Ids *)

Definition op_ids (o : ParamOverrideOperation) : list jsstr := o_id o :: map c_id (conditions o).
Definition all_ids (l : list ParamOverrideOperation) : list jsstr := concat (map op_ids l).

(** Drawn while the counter went from [lo] to [hi]. *)
Definition drawn (lo hi : N) (id : jsstr) : Prop := exists now s, id = local_id now s /\ lo <= s < hi.

Lemma local_id_inj now now' s s' : local_id now s = local_id now' s' -> s = s'.
Proof.
  unfold local_id. intros H%app_inv_head.
  assert (forall (a b c d : jsstr), all_digits a = true -> all_digits b = true -> a ++ 95 :: c = b ++ 95 :: d -> c = d) as Hs.
  { assert (forall (a b c d : jsstr), forallb is_digit a = true -> forallb is_digit b = true -> a ++ 95 :: c = b ++ 95 :: d -> c = d) as Hf.
    { intros a. induction a as [|x a IH]; intros [|y b] c d Ha Hb E; cbn in *; try by injection E.
      - injection E as <- _. done.
      - injection E as -> _. done.
      - injection E as -> E. apply andb_true_iff in Ha as [_ Ha], Hb as [_ Hb]. by eapply IH. }
    intros a b c d Ha Hb. apply Hf; [by destruct a|by destruct b]. }
  apply Hs in H; [|apply N_to_str_digits..]. rewrite <-(N_to_str_val s), <-(N_to_str_val s'). by rewrite H.
Qed.

Lemma drawn_apart lo mid hi id id' : drawn lo mid id -> drawn mid hi id' -> id <> id'.
Proof. intros (n & s & -> & Hs) (n' & s' & -> & Hs') E%local_id_inj. lia. Qed.

Lemma drawn_weaken lo hi lo' hi' id : lo' <= lo -> hi <= hi' -> drawn lo hi id -> drawn lo' hi' id.
Proof. intros ? ? (n & s & -> & ?). exists n, s. split; [done|lia]. Qed.

Lemma drawn_truthy lo hi id : drawn lo hi id -> truthy id = true.
Proof. by intros (n & s & -> & _). Qed.

(** What a computation draws: distinct ids, from its own stretch of the counter. *)
Definition draws {A} (m : gen A) (ids : A -> list jsstr) : Prop :=
  forall s a s', m s = Some (a, s') -> s <= s' /\ NoDup (ids a) /\ Forall (drawn s s') (ids a).

Lemma draws_ret {A} (a : A) ids : ids a = [] -> draws (mret (M := gen) a) ids.
Proof. intros H s a' s' [= <- <-]. rewrite H. repeat constructor. lia. Qed.

Lemma fresh_app lo mid hi (l l' : list jsstr) :
  lo <= mid -> mid <= hi -> NoDup l -> NoDup l' -> Forall (drawn lo mid) l -> Forall (drawn mid hi) l' ->
  NoDup (l ++ l') /\ Forall (drawn lo hi) (l ++ l').
Proof.
  intros H1 H2 Hn Hn' Hl Hl'. split.
  - apply NoDup_app. split_and!; [done| |done]. intros x Hx Hx'. rewrite Forall_forall in Hl, Hl'.
    by apply (drawn_apart lo mid hi x x (Hl x Hx) (Hl' x Hx')).
  - apply Forall_app. split; [eapply Forall_impl; [exact Hl|]|eapply Forall_impl; [exact Hl'|]];
      intros x; apply drawn_weaken; lia.
Qed.

Lemma bind_inv {A B} (m : gen A) (f : A -> gen B) s b s' :
  mbind (M := gen) f m s = Some (b, s') -> exists a s1, m s = Some (a, s1) /\ f a s1 = Some (b, s').
Proof. unfold mbind, gen_bind. destruct (m s) as [[a s1]|]; [|done]. by exists a, s1. Qed.

Lemma draws_map {A B} (f : A -> gen B) ids l :
  (forall x, draws (f x) ids) -> draws (gen_map f l) (fun ys => concat (map ids ys)).
Proof.
  intros Hf. induction l as [|x l IH]; [by apply draws_ret|]. intros s ys s'. cbn [gen_map].
  intros (y & s1 & E1 & (ys' & s2 & E2 & [= <- <-])%bind_inv)%bind_inv.
  destruct (Hf x _ _ _ E1) as (Hle & Hn & Hd), (IH _ _ _ E2) as (Hle' & Hn' & Hd').
  split; [lia|]. by apply (fresh_app s s1 s2).
Qed.

Lemma gen_map_length {A B} (f : A -> gen B) l : forall s ys s', gen_map f l s = Some (ys, s') -> length ys = length l.
Proof.
  induction l as [|x l IH]; intros s ys s'; [by intros [= <- <-]|]. cbn [gen_map].
  intros (y & s1 & _ & (ys' & s2 & E2 & [= <- <-])%bind_inv)%bind_inv. cbn. by erewrite IH.
Qed.

Lemma draws_id now : draws (nextLocalId now) (fun id => [id]).
Proof.
  intros s id s' [= <- <-]. split_and!; [lia|apply NoDup_singleton|]. constructor; [|done]. exists now, s. split; [done|lia].
Qed.

Lemma properties_seed j s get s' : properties j s = Some (get, s') -> s' = s.
Proof. destruct j; by intros [= _ <-]. Qed.

Lemma draws_condition now j : draws (normalizeCondition now j) (fun c => [c_id c]).
Proof.
  intros s c s' (id & s1 & E & (get & s2 & ->%properties_seed & [= <- <-])%bind_inv)%bind_inv. exact (draws_id now _ _ _ E).
Qed.

Lemma draws_conditions now l : draws (gen_map (normalizeCondition now) l) (fun cs => map c_id cs).
Proof.
  intros s cs s' E. pose proof (draws_map _ _ l (draws_condition now) s cs s' E) as (Hle & H).
  replace (map c_id cs) with (concat (map (fun c => [c_id c]) cs)); [done|]. clear. induction cs; cbn; congruence.
Qed.

Lemma draws_operation now j : draws (normalizeOperation now j) op_ids.
Proof.
  intros s o s' (id & s1 & E & (get & s2 & ->%properties_seed & (cs & s3 & Ec & [= <- <-])%bind_inv)%bind_inv)%bind_inv.
  destruct (draws_id now _ _ _ E) as (Hle & Hn & Hd).
  assert (draws (match get (u "conditions") with Some (JArr l) => gen_map (normalizeCondition now) l | _ => mret [] end) (map c_id)) as Hc.
  { destruct (get (u "conditions")) as [[]|]; try (by apply draws_ret). apply draws_conditions. }
  destruct (Hc _ _ _ Ec) as (Hle' & Hn' & Hd'). split; [lia|]. exact (fresh_app s s1 s3 [id] (map c_id cs) Hle Hle' Hn Hn' Hd Hd').
Qed.

Lemma draws_default now : draws (createDefaultOperation now) op_ids.
Proof. unfold createDefaultOperation. apply draws_operation. Qed.

Lemma draws_read now l : draws (read_operations now l) all_ids.
Proof.
  unfold read_operations. destruct l as [|j l]; [|apply draws_map, draws_operation].
  intros s ops s' (o & s1 & E & [= <- <-])%bind_inv. unfold all_ids. cbn [map concat]. rewrite app_nil_r. exact (draws_default now _ _ _ E).
Qed.

Lemma read_nonempty now l s ops s' : read_operations now l s = Some (ops, s') -> ops <> [].
Proof.
  unfold read_operations. destruct l as [|j l]; [by intros (o & s1 & _ & [= <- <-])%bind_inv|].
  intros H%gen_map_length. by destruct ops.
Qed.

(** *** The ids of the list *)

Definition ids_ok (seed : N) (l : list ParamOverrideOperation) : Prop :=
  NoDup (all_ids l) /\ Forall (drawn 0 seed) (all_ids l).

Lemma ids_ok_sub s s' l l' : s <= s' -> sublist (all_ids l') (all_ids l) -> ids_ok s l -> ids_ok s' l'.
Proof.
  intros Hs Hsub [Hn Hd]. split; [by eapply sublist_NoDup|]. rewrite Forall_forall in Hd |- *.
  intros x Hx. eapply drawn_weaken; [..|apply Hd; by eapply elem_of_sublist]; lia.
Qed.

Lemma ids_ok_new s s' l ids l' :
  s <= s' -> NoDup ids -> Forall (drawn s s') ids -> all_ids l' ≡ₚ all_ids l ++ ids -> ids_ok s l -> ids_ok s' l'.
Proof.
  intros Hs Hn Hd Hp [Hn' Hd']. unfold ids_ok. rewrite Hp. apply (fresh_app 0 s s'); try done; lia.
Qed.

Lemma ids_ok_drawn s s' l : s <= s' -> NoDup (all_ids l) -> Forall (drawn s s') (all_ids l) -> ids_ok s' l.
Proof. intros Hs Hn Hd. split; [done|]. eapply Forall_impl; [exact Hd|]. intros x. apply drawn_weaken; lia. Qed.

Lemma all_ids_app l l' : all_ids (l ++ l') = all_ids l ++ all_ids l'.
Proof. unfold all_ids. by rewrite map_app, concat_app. Qed.

Lemma all_ids_perm l l' : l ≡ₚ l' -> all_ids l ≡ₚ all_ids l'.
Proof.
  unfold all_ids. induction 1 as [|x l l' _ IH|x y l|l1 l2 l3 _ IH1 _ IH2]; cbn [map concat]; [done|by rewrite IH| |by rewrite IH1].
  rewrite !app_assoc. by rewrite (Permutation_app_comm (op_ids y)).
Qed.

Lemma insert_at_perm {A} i (x : A) l : insert_at i x l ≡ₚ l ++ [x].
Proof. unfold insert_at. rewrite <-(take_drop i l) at 3. rewrite <-app_assoc. f_equiv. apply Permutation_cons_append. Qed.

Lemma at_id_ids id f l : (forall o, op_ids (f o) = op_ids o) -> all_ids (at_id id f l) = all_ids l.
Proof.
  intros Hf. unfold all_ids, at_id. rewrite map_map. f_equal. apply map_ext. intros o. by case_bool_decide.
Qed.

Lemma at_id_other id f l : id ∉ map o_id l -> at_id id f l = l.
Proof.
  induction l as [|o l IH]; [done|]. cbn [map at_id]. intros [Ho Hl]%not_elem_of_cons. rewrite bool_decide_eq_false_2 by done.
  f_equal. by apply IH.
Qed.

Lemma op_ids_sub l : sublist (map o_id l) (all_ids l).
Proof. induction l as [|o l IH]; [done|]. unfold all_ids. cbn. apply sublist_skip. by apply sublist_inserts_l. Qed.

(** A list with distinct ids is changed at one place at most. *)
Lemma at_id_split id f l :
  NoDup (all_ids l) ->
  at_id id f l = l \/ exists l1 o l2, l = l1 ++ o :: l2 /\ at_id id f l = l1 ++ f o :: l2.
Proof.
  intros Hn. assert (NoDup (map o_id l)) as Hi by exact (sublist_NoDup _ _ Hn (op_ids_sub l)). clear Hn.
  induction l as [|o l IH]; [by left|]. cbn [map] in Hi. apply NoDup_cons in Hi as [Hni Hi]. cbn [at_id map]. case_bool_decide as E.
  - right. exists [], o, l. split; [done|]. cbn [app]. f_equal. apply at_id_other. by rewrite <-E.
  - destruct (IH Hi) as [H|(l1 & o' & l2 & Hl & H)]; [left; by f_equal|]. right. exists (o :: l1), o', l2.
    rewrite Hl at 1. split; [done|]. cbn [app]. f_equal. exact H.
Qed.

Lemma op_ids_patch patch : forall o, op_ids (foldl patch_operation o patch) = op_ids o.
Proof.
  induction patch as [|f patch IH]; intros o; [done|]. cbn [foldl]. rewrite IH. by destruct o, f.
Qed.

Lemma op_ids_value o s : op_ids (patch_operation o (FValueText s)) = op_ids o.
Proof. by destruct o. Qed.

Lemma patch_condition_id patch : forall c, c_id (foldl patch_condition c patch) = c_id c.
Proof. induction patch as [|f patch IH]; intros c; [done|]. cbn [foldl]. rewrite IH. by destruct c, f. Qed.

Lemma updateCondition_ids id cid patch l : all_ids (updateCondition id cid patch l) = all_ids l.
Proof.
  apply at_id_ids. intros o. unfold op_ids. cbn. rewrite map_map. f_equal. apply map_ext. intros c.
  case_bool_decide; [apply patch_condition_id|done].
Qed.

Lemma removeCondition_ids id cid l : sublist (all_ids (removeCondition id cid l)) (all_ids l).
Proof.
  unfold removeCondition, at_id, all_ids. induction l as [|o l IH]; [done|]. cbn [map concat]. apply sublist_app; [|exact IH].
  case_bool_decide; [|done]. unfold op_ids. cbn. apply sublist_skip. 
  apply (fmap_sublist c_id), bfilter_sublist.
Qed.

Lemma addCondition_ids s s' id c l :
  s <= s' -> drawn s s' (c_id c) -> ids_ok s l -> ids_ok s' (at_id id (fun o => set_conditions o (conditions o ++ [c])) l).
Proof.
  intros Hs Hc Hok. pose proof Hok as [Hn _].
  destruct (at_id_split id (fun o => set_conditions o (conditions o ++ [c])) l Hn) as [->|(l1 & o & l2 & -> & ->)].
  { by eapply ids_ok_sub. }
  eapply (ids_ok_new _ _ _ [c_id c]); [done|apply NoDup_singleton|by repeat constructor| |exact Hok].
  rewrite !all_ids_app. unfold all_ids. cbn [map concat]. rewrite <-!app_assoc. f_equiv.
  unfold op_ids. cbn. rewrite map_app. cbn. f_equiv. rewrite <-!app_assoc. f_equiv. apply Permutation_cons_append.
Qed.

(** *** Drafts of [prune_objects] *)

Definition rule_ids (d : PruneObjectsDraft) : list jsstr := map c_id (rules d).

Lemma gen_map_compose {A B C} (g : A -> B) (f : B -> gen C) l : gen_map (fun x => f (g x)) l = gen_map f (map g l).
Proof. induction l as [|x l IH]; [done|]. cbn [gen_map map]. by rewrite IH. Qed.

Lemma draws_entries now fs : draws (entry_rules now fs) (map c_id).
Proof.
  unfold entry_rules, normalizePruneRule.
  rewrite (gen_map_compose (fun kv => JObj [(u "path", JStr kv.1); (u "mode", JStr (u "full")); (u "value", kv.2)])
             (normalizeCondition now)). apply draws_conditions.
Qed.

Lemma draws_prune now text : draws (parsePruneObjectsDraft now text) rule_ids.
Proof.
  unfold parsePruneObjectsDraft. destruct (negb _); [by apply draws_ret|].
  destruct (JSON_parse _) as [[| | | | |fs]|]; try (by apply draws_ret).
  intros s d s' (w & s1 & Ew & (c & s2 & Ec & [= <- <-])%bind_inv)%bind_inv.
  assert (forall j, draws (match j with Some (JObj w) => entry_rules now w | _ => mret [] end) (map c_id)) as Hw.
  { intros [[]|]; try (by apply draws_ret). apply draws_entries. }
  assert (forall j, draws (match j with Some (JArr l) => gen_map (normalizePruneRule now) (bfilter is_object l)
            | Some (JObj c) => entry_rules now c | _ => mret [] end) (map c_id)) as Hc.
  { intros [[]|]; try (by apply draws_ret); [apply draws_conditions|apply draws_entries]. }
  destruct (Hw _ _ _ _ Ew) as (Hle & Hn & Hd), (Hc _ _ _ _ Ec) as (Hle' & Hn' & Hd'). split; [lia|].
  unfold rule_ids. cbn [rules]. rewrite map_app. by apply (fresh_app s s1 s2).
Qed.

Lemma updatePrune_ids now id upd l : forall s l' s',
  (forall d s d' s', upd d s = Some (d', s') -> s <= s') ->
  updatePruneObjectsDraft now id upd l s = Some (l', s') -> s <= s' /\ all_ids l' = all_ids l.
Proof.
  unfold updatePruneObjectsDraft. induction l as [|o l IH]; intros s l' s' Hu; [intros [= <- <-]; split; [lia|done]|].
  cbn [gen_map]. intros (o' & s1 & E1 & (ys & s2 & E2 & [= <- <-])%bind_inv)%bind_inv.
  destruct (IH _ _ _ Hu E2) as [Hle Hids]. unfold all_ids. cbn [map concat]. fold (all_ids ys). fold (all_ids l). rewrite Hids.
  case_bool_decide; [|injection E1 as <- <-; by split].
  apply bind_inv in E1 as (d & s3 & Ed & (d' & s4 & Ed' & [= <- <-])%bind_inv). 
  apply draws_prune in Ed as [Hle1 _]. apply Hu in Ed'. rewrite op_ids_value. split; [lia|done].
Qed.

(** *** Moving, copying and removing *)

Lemma reorder_perm l src tgt after : reorderOperations l src tgt after ≡ₚ l.
Proof.
  unfold reorderOperations. destruct (_ || _); [done|]. destruct (list_find _ l) as [[i o]|] eqn:E; [|done].
  destruct (find_index _ _); [|done]. rewrite insert_at_perm. apply list_find_Some in E as (Hl & _ & _).
  rewrite <-Permutation_cons_append. symmetry. by apply delete_Permutation.
Qed.

Lemma removeOperation_ids now id l s l' s' :
  removeOperation now id l s = Some (l', s') -> ids_ok s l -> l' <> [] /\ ids_ok s' l' /\ s <= s'.
Proof.
  unfold removeOperation. destruct (Nat.leb_spec (length l) 1) as [Hlen|Hlen].
  - intros (o & s1 & E & [= <- <-])%bind_inv _. apply draws_default in E as (Hle & Hn & Hd). split; [done|]. split; [|done].
    apply (ids_ok_drawn s); unfold all_ids; cbn [map concat]; by rewrite ?app_nil_r.
  - intros [= <- <-] Hok. split_and!; [| |lia].
    + pose proof (sublist_NoDup _ _ (proj1 Hok) (op_ids_sub l)) as Hn.
      destruct l as [|o1 [|o2 l]]; [cbn in Hlen; lia..|]. cbn [map] in Hn. apply NoDup_cons in Hn as [Hn _].
      apply not_elem_of_cons in Hn as [Hn _]. cbn [List.filter]. destruct (decide (o_id o1 = id)) as [E|E].
      * rewrite (bool_decide_eq_false_2 (o_id o2 = id)) by congruence. by destruct (negb _).
      * by rewrite (bool_decide_eq_false_2 (o_id o1 = id)) by done.
    + eapply ids_ok_sub; [reflexivity| |exact Hok]. clear. unfold all_ids. induction l as [|o l IH]; [done|]. cbn [List.filter].
      destruct (negb _); cbn [map concat]; [by apply sublist_app|by apply sublist_inserts_l].
Qed.

Lemma duplicate_ids now id l s l' i s' :
  duplicate_in now id l s = Some ((l', i), s') -> ids_ok s l -> l <> [] -> l' <> [] /\ ids_ok s' l' /\ s <= s'.
Proof.
  unfold duplicate_in. destruct (list_find _ l) as [[k o]|].
  - intros (c & s1 & E & [= <- <- <-])%bind_inv Hok Hne. apply draws_operation in E as (Hle & Hn & Hd). split_and!; [|..|done].
    + unfold insert_at. by destruct (take _ l).
    + eapply ids_ok_new; [exact Hle|exact Hn|exact Hd| |exact Hok]. rewrite (all_ids_perm _ _ (insert_at_perm _ _ _)), all_ids_app.
      unfold all_ids at 2. cbn [map concat]. by rewrite app_nil_r.
  - intros [= <- <- <-] Hok Hne. split_and!; [done|done|lia].
Qed.

End Editor.
