(* ===== verification/ParamDialog.v ===== *)
(** * The dialog for parameter overrides: what its handlers keep and lose

    The invariant of [Editor.run], the reordering of rules, the change of mode
    and the handlers of [prune_objects] and [return_error] drafts. *)

From S2P Require Import Prelude JsString JsNumber JsJson JsRegex JsPrint ParamOverride ParamRoundtrip PricingModels ParamEditor.

Import Print Override OverrideText Editor.
Open Scope N_scope.

Module EditorTheory.

(** ** The invariant *)

(** There is a rule, and all ids are distinct and were drawn before. *)
Definition list_ok (d : Dialog) (seed : N) : Prop := ops d <> [] /\ ids_ok seed (ops d).

(** A rule is selected. *)
Definition dialog_ok (d : Dialog) (seed : N) : Prop := list_ok d seed /\ selectedOperationId d ∈ map o_id (ops d).

Lemma list_ok_same d d' s s' : s <= s' -> ops d' = ops d -> list_ok d s -> list_ok d' s'.
Proof. unfold list_ok. intros Hs -> [Hne Hok]. split; [done|]. by eapply ids_ok_sub. Qed.

Lemma list_ok_ids d l s s' : s <= s' -> all_ids l = all_ids (ops d) -> list_ok d s -> list_ok (setOperations l d) s'.
Proof.
  intros Hs Hids [Hne Hok]. unfold list_ok. change (ops (setOperations l d)) with l. split.
  - intros ->. destruct (ops d); [done|]. by unfold all_ids in Hids.
  - eapply ids_ok_sub; [exact Hs| |exact Hok]. by rewrite Hids.
Qed.

Lemma list_ok_one o d s s' : s <= s' -> NoDup (op_ids o) -> Forall (drawn s s') (op_ids o) -> ops d = [o] -> list_ok d s'.
Proof.
  intros Hs Hn Hd E. unfold list_ok. rewrite E. split; [done|].
  apply (ids_ok_drawn s); unfold all_ids; cbn [map concat]; by rewrite ?app_nil_r.
Qed.

Lemma list_ok_all d s s' : s <= s' -> ops d <> [] -> NoDup (all_ids (ops d)) -> Forall (drawn s s') (all_ids (ops d)) -> list_ok d s'.
Proof. intros Hs Hne Hn Hd. split; [done|]. by eapply ids_ok_drawn. Qed.

(** A handler that sets the list to one default operation. *)
Ltac one_default E := apply draws_default in E as (? & ? & ?); split; [assumption|]; eapply list_ok_one; [eassumption..|done].

Lemma parseInitial_ok now text s st s' :
  parseInitialState now text s = Some (st, s') ->
  s <= s' /\ operations st <> [] /\ NoDup (all_ids (operations st)) /\ Forall (drawn s s') (all_ids (operations st)).
Proof.
  assert (forall (f : ParamOverrideOperation -> EditorState) s0 st0 s0', (forall o, operations (f o) = [o]) ->
    (op ← createDefaultOperation now; mret (f op)) s0 = Some (st0, s0') ->
    s0 <= s0' /\ operations st0 <> [] /\ NoDup (all_ids (operations st0)) /\ Forall (drawn s0 s0') (all_ids (operations st0))) as Hdef.
  { intros f s0 st0 s0' Hf (o & s1 & E & [= <- <-])%bind_inv. rewrite Hf. apply draws_default in E as (Hle & Hn & Hd).
    unfold all_ids. cbn [map concat]. by rewrite app_nil_r. }
  unfold parseInitialState. destruct (negb _); [by apply Hdef|]. destruct (JSON_parse _) as [j|]; [|by apply Hdef].
  destruct j as [| | | | |fs]; try (by apply Hdef). destruct (map_get _ fs) as [[| | | |l|]|]; try (by apply Hdef).
  intros (l' & s1 & E & [= <- <-])%bind_inv. cbn [operations]. pose proof (read_nonempty _ _ _ _ _ E).
  by apply draws_read in E as (Hle & Hn & Hd).
Qed.

Lemma preset_operations k preset :
  map_get k TEMPLATE_PRESET_CONFIG ?? operations_default = preset -> kind preset = KOperations ->
  payload_operations (t_payload preset) <> [].
Proof.
  assert (Forall (fun kv => kind kv.2 = KOperations -> payload_operations (t_payload kv.2) <> []) TEMPLATE_PRESET_CONFIG) as Hall.
  { repeat constructor; done. }
  intros <-. destruct (map_get k TEMPLATE_PRESET_CONFIG) as [p|] eqn:E; [|done].
  apply map_get_elem in E; [|refine (bool_decide_eq_true_1 (NoDup _) _); vm_compute; reflexivity].
  rewrite Forall_forall in Hall. exact (Hall _ E).
Qed.

Lemma fill_ok t now append d s d' s' :
  list_ok d s -> fillTemplate t now append d s = Some (d', s') -> s <= s' /\ list_ok d' s'.
Proof.
  intros Hok. unfold fillTemplate. destruct (map_get _ TEMPLATE_PRESET_CONFIG ?? _) as [lbl kd pl] eqn:Ep. cbn [kind t_payload].
  destruct kd.
  - pose proof (preset_operations _ _ Ep eq_refl) as Hpl. cbn [t_payload] in Hpl. destruct append.
    + intros (l & s1 & E & [= <- <-])%bind_inv. pose proof (gen_map_length _ _ _ _ _ E) as Hlen.
      apply (draws_map _ op_ids) in E as (Hle & Hn & Hd); [|apply draws_operation]. split; [done|]. split.
      * cbn. destruct l; [by destruct (payload_operations pl)|]. by destruct (_ ++ _).
      * unfold ops. cbn [core set_core setSelectedOperationId operations].
        set (ex := match visualMode (core d) with Operations => _ | Legacy => _ end).
        assert (sublist (all_ids ex) (all_ids (ops d))) as Hex.
        { unfold ex, all_ids. destruct (visualMode _); [|by apply sublist_nil_l].
          unfold ops. generalize (operations (core d)) as m. induction m as [|o m IH]; [done|]. cbn [List.filter].
          destruct (negb _); cbn [map concat]; [by apply sublist_app|by apply sublist_inserts_l]. }
        assert (ids_ok s1 (ex ++ l)) as H1.
        { eapply (ids_ok_new s s1 ex (all_ids l)); [done..| |].
          - by rewrite all_ids_app.
          - eapply ids_ok_sub; [reflexivity|exact Hex|apply Hok]. }
        destruct (ex ++ l) eqn:E; [|done]. apply app_nil in E as [_ ->]. done.
    + intros (l & s1 & E & [= <- <-])%bind_inv. pose proof (read_nonempty _ _ _ _ _ E).
      apply draws_read in E as (Hle & Hn & Hd). split; [done|]. by apply (list_ok_all _ s).
  - destruct (legacy_text _ _ _).
    + intros (o & s1 & E & [= <- <-])%bind_inv. one_default E.
    + intros [= <- <-]. split; [lia|]. by eapply list_ok_same; [reflexivity| |exact Hok].
Qed.

Lemma visual_ok t now d s d' s' :
  list_ok d s -> switchToVisualMode t now d s = Some (d', s') -> s <= s' /\ list_ok d' s'.
Proof.
  intros Hok. assert (forall d1, ops d1 = ops d -> mret (M := gen) d1 s = Some (d', s') -> s <= s' /\ list_ok d' s') as Hsame.
  { intros d1 E [= <- <-]. split; [lia|]. by eapply list_ok_same; [reflexivity|exact E|]. }
  unfold switchToVisualMode. destruct (editMode _); [by apply Hsame|]. destruct (negb _).
  { intros (o & s1 & E & [= <- <-])%bind_inv. one_default E. }
  destruct (JSON_parse _) as [j|]; [|by apply Hsame]. destruct j as [| | | | |fs]; try (by apply Hsame).
  destruct (map_get _ fs) as [[| | | |l|]|]; try (by intros (o & s1 & E & [= <- <-])%bind_inv; one_default E).
  intros (l' & s1 & E & [= <- <-])%bind_inv. pose proof (read_nonempty _ _ _ _ _ E).
  apply draws_read in E as (Hle & Hn & Hd). split; [done|]. by apply (list_ok_all _ s).
Qed.

Lemma prune_ok now id upd d s d' s' :
  (forall d s d' s', upd d s = Some (d', s') -> s <= s') -> list_ok d s ->
  on_ops (updatePruneObjectsDraft now id upd) d s = Some (d', s') -> s <= s' /\ list_ok d' s'.
Proof.
  intros Hu Hok (l & s1 & E & [= <- <-])%bind_inv. apply updatePrune_ids in E as [Hle Hids]; [|done].
  split; [done|]. by apply (list_ok_ids _ _ s).
Qed.

Lemma duplicate_ok now eager id d s d' s' :
  list_ok d s -> duplicateOperation now eager id d s = Some (d', s') -> s <= s' /\ list_ok d' s'.
Proof.
  intros [Hne Hok] ([l i] & s1 & E & [= <- <-])%bind_inv. destruct (duplicate_ids _ _ _ _ _ _ _ E Hok Hne) as (Hne' & Hok' & Hle).
  split; [done|]. unfold list_ok. by destruct (eager && _).
Qed.

Lemma add_ok now d s d' s' : list_ok d s -> addOperation now d s = Some (d', s') -> s <= s' /\ list_ok d' s'.
Proof.
  intros [Hne Hok] (o & s1 & E & [= <- <-])%bind_inv. apply draws_default in E as (Hle & Hn & Hd). split; [done|]. split.
  - change (ops d ++ [o] <> []). by destruct (ops d).
  - change (ids_ok s1 (ops d ++ [o])). eapply ids_ok_new; [exact Hle|exact Hn|exact Hd| |exact Hok].
    rewrite all_ids_app. unfold all_ids at 2. cbn [map concat]. by rewrite app_nil_r.
Qed.

Lemma addCondition_ok now id d s d' s' : list_ok d s -> addCondition now id d s = Some (d', s') -> s <= s' /\ list_ok d' s'.
Proof.
  intros [Hne Hok] (c & s1 & E & [= <- <-])%bind_inv. unfold createDefaultCondition in E. apply draws_condition in E as (Hle & _ & Hd).
  apply Forall_cons in Hd as [Hd _]. split; [done|]. split.
  - change (at_id id (fun o => set_conditions o (conditions o ++ [c])) (ops d) <> []). by destruct (ops d).
  - by apply (addCondition_ids s).
Qed.

Lemma format_ok id d s : list_ok d s -> list_ok (formatValue id d) s.
Proof.
  intros Hok. unfold formatValue. destruct (selectedOperation d); [|done]. destruct (JSON_parse _); [|done].
  eapply list_ok_ids; [reflexivity| |exact Hok]. apply at_id_ids, op_ids_patch.
Qed.

Lemma drop_ok id data d s : list_ok d s -> list_ok (handleDrop id data d) s.
Proof.
  intros Hok. unfold handleDrop. destruct (_ && _); [|done]. destruct Hok as [Hne [Hn Hd]].
  pose proof (fun a => reorder_perm (ops d) (or_str (draggedOperationId d) data) id a) as Hp.
  set (a := if bool_decide _ then _ else _). specialize (Hp a).
  split; [change (reorderOperations (ops d) (or_str (draggedOperationId d) data) id a <> [])
         |change (ids_ok s (reorderOperations (ops d) (or_str (draggedOperationId d) data) id a))].
  - intros E. rewrite E in Hp. apply Permutation_nil in Hp. done.
  - unfold ids_ok. by rewrite (all_ids_perm _ _ Hp).
Qed.

Lemma act_ok t t_line now a d s d' s' :
  list_ok d s -> act t t_line now a d s = Some (d', s') -> s <= s' /\ list_ok d' s'.
Proof.
  intros Hok. assert (forall d1, list_ok d1 s -> mret (M := gen) d1 s = Some (d', s') -> s <= s' /\ list_ok d' s') as Hret.
  { intros d1 E [= <- <-]. split; [lia|done]. }
  assert (forall f, (forall l, all_ids (f l) = all_ids l) -> pure_ops f d s = Some (d', s') -> s <= s' /\ list_ok d' s') as Hids.
  { intros f Hf. apply Hret. by eapply list_ok_ids; [reflexivity|apply Hf|]. }
  destruct a; cbn [act].
  - intros (st & s1 & E & [= <- <-])%bind_inv. apply parseInitial_ok in E as (Hle & Hne & Hn & Hd). split; [done|].
    by apply (list_ok_all _ s).
  - apply Hids. intros l. apply at_id_ids, op_ids_patch.
  - by apply add_ok.
  - by apply duplicate_ok.
  - intros (l & s1 & E & [= <- <-])%bind_inv. destruct (removeOperation_ids _ _ _ _ _ _ E (proj2 Hok)) as (Hne & Hok' & Hle). done.
  - by apply addCondition_ok.
  - apply Hids, updateCondition_ids.
  - apply Hret. split; [|by eapply ids_ok_sub; [reflexivity|apply removeCondition_ids|apply Hok]].
    change (removeCondition id cid (ops d) <> []). destruct Hok as [Hne _]. by destruct (ops d).
  - apply Hids. intros l. apply at_id_ids. intros o. apply op_ids_value.
  - apply prune_ok; [|done]. intros d0 s0 d1 s1 [= _ <-]. lia.
  - apply prune_ok; [|done]. intros d0 s0 d1 s1 (c & s2 & E & [= <- <-])%bind_inv. by apply draws_condition in E as [? _].
  - apply prune_ok; [|done]. intros d0 s0 d1 s1 [= _ <-]. lia.
  - apply prune_ok; [|done]. intros d0 s0 d1 s1 [= _ <-]. lia.
  - by apply Hret.
  - apply Hret. unfold handleDragOver. by destruct (_ || _).
  - by apply Hret, drop_ok.
  - by apply Hret.
  - apply Hret. unfold switchToJsonMode. destruct (editMode _); [|done]. by destruct (buildVisualJson _ _ _).
  - by apply visual_ok.
  - by apply Hret.
  - by apply fill_ok.
  - intros (o & s1 & E & [= <- <-])%bind_inv. one_default E.
  - by apply Hret.
  - apply Hret. unfold formatJson. destruct (negb _); [done|]. by destruct (JSON_parse _).
  - by apply Hret.
  - by apply Hret, format_ok.
  - by apply Hret.
  - by apply Hret.
  - apply Hret. unfold set_all. by destruct (selectedOperation _).
  - by apply Hret.
Qed.

Lemma render_ok d s : list_ok d s -> dialog_ok (render d) s.
Proof.
  intros Hok. pose proof Hok as [Hne _]. unfold render. destruct (existsb _ _) eqn:E.
  - split; [done|]. apply existsb_exists in E as (o & Ho%list_elem_of_In & E%bool_decide_eq_true). rewrite <-E.
    apply (list_elem_of_fmap_2 o_id), Ho.
  - split; [done|]. change (first_id (ops d) ∈ map o_id (ops d)). destruct (ops d); [done|]. left.
Qed.

Lemma prune_view_mono now d s v s' : pruneObjectsDraft now d s = Some (v, s') -> s <= s'.
Proof.
  unfold pruneObjectsDraft. destruct (selectedOperation d) as [o|]; [|intros [= _ <-]; lia]. destruct (is_mode _ _); [|intros [= _ <-]; lia].
  intros (dr & s1 & E & [= _ <-])%bind_inv. by apply draws_prune in E as [? _].
Qed.

Lemma run_ok t t_line l : forall d s d' s',
  dialog_ok d s -> run t t_line l d s = Some (d', s') -> s <= s' /\ dialog_ok d' s'.
Proof.
  induction l as [|[now a] l IH]; intros d s d' s' Hok; [intros [= <- <-]; split; [lia|done]|].
  cbn [run]. intros (d1 & s1 & Ea & (v & s2 & Ev & Er)%bind_inv)%bind_inv.
  destruct (act_ok _ _ _ _ _ _ _ _ (proj1 Hok) Ea) as [Hle1 Hok1]. apply prune_view_mono in Ev as Hle2.
  assert (dialog_ok (render d1) s2) as Hok2.
  { destruct (render_ok d1 s1 Hok1) as [H1 H2]. split; [|done]. by eapply list_ok_same. }
  destruct (IH _ _ _ _ Hok2 Er) as [Hle3 H]. split; [lia|done].
Qed.

(** C18. Whatever the user does in the dialog, there is at least one rule, the
    ids of rules and conditions are pairwise distinct and were drawn from the
    counter, and the selected id is the id of a rule. *)
Theorem dialog_invariant t t_line now seed0 d0 seed1 actions d seed :
  initial now seed0 = Some (d0, seed1) -> run t t_line actions d0 seed1 = Some (d, seed) ->
  dialog_ok d seed.
Proof.
  intros (o & s1 & E & [= <- <-])%bind_inv Hr. apply draws_default in E as (Hle & Hn & Hd).
  match type of Hr with run _ _ _ (render ?d1) _ = _ => assert (list_ok d1 s1) as Hok by by apply (list_ok_one o _ seed0) end.
  by apply (run_ok _ _ _ _ _ _ _ (render_ok _ s1 Hok) Hr).
Qed.

Definition sample_actions : list (N * action) :=
  [(1, Open sample_text); (2, Add); (2, AddCondition (local_id 2 6)); (2, Update (local_id 2 6) [FPath (u "top_p"); FValueText (u "1")]);
   (3, Duplicate true (local_id 2 6)); (4, Drop (local_id 1 1) (local_id 3 8)); (5, Remove (local_id 1 5)); (6, Fill true); (7, ToJson); (8, ToVisual)].

Lemma sample_runs :
  exists d0 s0 d s, initial 0 0 = Some (d0, s0) /\ run (fun k => k) (fun k _ => k) sample_actions d0 s0 = Some (d, s) /\
    length (ops d) = 4%nat.
Proof.
  assert (('(d, s) ← initial 0 0; '(d, _) ← run (fun k => k) (fun k _ => k) sample_actions d s; Some (length (ops d))) = Some 4%nat) as H
    by (vm_compute; reflexivity).
  destruct (initial 0 0) as [[d0 s0]|]; [|discriminate]. cbn [mbind option_bind] in H.
  destruct (run _ _ _ d0 s0) as [[d s]|] eqn:E; [|discriminate]. exists d0, s0, d, s. split_and!; [done|exact E|]. by injection H.
Qed.

Lemma dialog_invariant_witness :
  exists d : Dialog, length (ops d) = 4%nat /\ NoDup (all_ids (ops d)) /\ selectedOperationId d ∈ map o_id (ops d).
Proof.
  destruct sample_runs as (d0 & s0 & d & s & E0 & E & Hl). exists d.
  destruct (dialog_invariant _ _ _ _ _ _ _ _ _ E0 E) as [[_ [Hn _]] Hs]. exact (conj Hl (conj Hn Hs)).
Defined.

(** ** Changing the mode *)

(** Clean rules that can be saved. *)
Definition saveable (t_line : jsstr -> nat -> jsstr) (d : Dialog) : Prop :=
  ops d <> [] /\ Forall (fun o => clean_operation o = true) (ops d) /\ validateOperations t_line (ops d) = [].

(** For clean rules that validate, going to the text and back keeps the
    rules, up to their ids, and shows no error; and what is saved is the same
    text in both modes. *)
Theorem modes_roundtrip t t_line now d seed :
  editMode (core d) = Visual -> visualMode (core d) = Operations -> saveable t_line d ->
  handleSave t t_line (switchToJsonMode t t_line d) = handleSave t t_line d /\
  exists d' seed',
    switchToVisualMode t now (switchToJsonMode t t_line d) seed = Some (d', seed') /\
    editMode (core d') = Visual /\ visualMode (core d') = Operations /\ toasts d' = toasts d /\ jsonError (core d') = [] /\
    map erase (ops d') = map erase (ops d).
Proof.
  intros He Hv (Hne & Hc & Hval). pose proof (build_clean t_line (ops d) Hne Hc Hval) as Hb.
  destruct (operations_text_ends (ops d)) as [Ht Hn], (operations_text_parses (ops d) Hc) as [Hp Hs].
  destruct (read_clean now (ops d) seed Hne Hc) as (ops' & seed' & Hr & Her).
  assert (switchToJsonMode t t_line d =
    set_core (mkEditorState Json (visualMode (core d)) (legacyValue (core d)) (operations (core d)) (operations_text (ops d)) []) d) as ->.
  { unfold switchToJsonMode, buildVisualJson. by rewrite He, Hv, Hb. }
  split.
  - unfold handleSave, buildVisualJson. rewrite He, Hv, Hb. cbn [core set_core editMode jsonText]. rewrite Ht, Hn, Hp. cbn [negb].
    by rewrite Hs.
  - eexists _, seed'. split; [|shelve]. unfold switchToVisualMode. cbn [core set_core editMode jsonText]. rewrite Ht, Hn, Hp. cbn [negb map_get].
    rewrite decide_True by done. unfold mbind, gen_bind. rewrite Hr. reflexivity.
    Unshelve. exact (conj eq_refl (conj eq_refl (conj eq_refl (conj eq_refl Her)))).
Qed.

Definition clean_dialog : Dialog :=
  mkDialog (mkEditorState Visual Operations [] clean_sample [] []) [] (u "a") [] [] [] false (u "operations_default") [].

Lemma modes_roundtrip_witness :
  exists d' seed',
    switchToVisualMode (fun k => k) 5 (switchToJsonMode (fun k => k) (fun k _ => k) clean_dialog) 9 = Some (d', seed') /\
    map erase (ops d') = map erase clean_sample.
Proof.
  destruct (modes_roundtrip (fun k => k) (fun k _ => k) 5 clean_dialog 9 eq_refl eq_refl) as [_ (d' & s' & E & _ & _ & _ & _ & H)].
  - split; [discriminate|]. split; [repeat (constructor; [vm_compute; reflexivity|]); constructor|vm_compute; reflexivity].
  - exists d', s'. exact (conj E H).
Defined.

(** ** Reordering *)

Definition not_id (id : jsstr) (o : ParamOverrideOperation) : bool := negb (bool_decide (o_id o = id)).

Lemma not_id_all id l : id ∉ map o_id l -> bfilter (not_id id) l = l.
Proof.
  intros H. apply bfilter_all. intros o Ho. unfold not_id. rewrite bool_decide_eq_false_2; [done|]. intros <-. apply H.
  by apply (list_elem_of_fmap_2 o_id).
Qed.

Lemma find_id id l : id ∈ map o_id l -> exists i o, list_find (fun o => o_id o = id) l = Some (i, o).
Proof.
  intros (o & -> & Ho)%list_elem_of_fmap. destruct (list_find (fun o' => o_id o' = o_id o) l) as [[i o']|] eqn:E; [by exists i, o'|].
  apply list_find_None in E. rewrite Forall_forall in E. by destruct (E o Ho).
Qed.

(** Dropping a rule on another puts it next to that rule, on the chosen
    side, and leaves the others in their order. *)
Theorem reorder_spec l src tgt after :
  NoDup (map o_id l) -> src ∈ map o_id l -> tgt ∈ map o_id l -> src <> tgt -> src <> [] -> tgt <> [] ->
  let l' := reorderOperations l src tgt after in
  (exists l1 s t l2, o_id s = src /\ o_id t = tgt /\ l' = l1 ++ (if after then [t; s] else [s; t]) ++ l2) /\
  bfilter (not_id src) l' = bfilter (not_id src) l /\ l' ≡ₚ l.
Proof.
  intros Hn Hs Ht Hne Hs0 Ht0 l'. split; [|split; [|apply reorder_perm]]; subst l'; unfold reorderOperations.
  all: rewrite (bool_decide_eq_false_2 (src = tgt)) by done; destruct src as [|a src]; [done|]; destruct tgt as [|b tgt]; [done|];
    cbn [truthy negb orb]; destruct (find_id _ _ Hs) as (i & s & Es); rewrite Es; apply list_find_Some in Es as (Hl & His & _);
    apply list_elem_of_split_length in Hl as (k1 & k2 & -> & ->); rewrite delete_middle;
    rewrite map_app in Hn; cbn [map] in Hn; rewrite His in Hn; apply NoDup_app in Hn as (Hn1 & Hnd & Hn2);
    apply NoDup_cons in Hn2 as [Hns Hn2];
    assert (b :: tgt ∈ map o_id (k1 ++ k2)) as Ht' by
      (rewrite map_app in Ht |- *; cbn [map] in Ht; rewrite His in Ht; set_solver);
    destruct (find_id _ _ Ht') as (j & t & Et); unfold find_index; rewrite Et; cbn [fmap option_fmap option_map fst];
    apply list_find_Some in Et as (Hj & Hit & _).
  - exists (take j (k1 ++ k2)), s, t, (drop (S j) (k1 ++ k2)). split_and!; [done|done|]. unfold insert_at.
    destruct after.
    + by rewrite (take_S_r _ _ _ Hj), <-app_assoc.
    + by rewrite (drop_S _ _ _ Hj).
  - assert (bfilter (not_id (a :: src)) (k1 ++ k2) = k1 ++ k2) as Hk.
    { apply not_id_all. rewrite map_app. intros [H|H]%elem_of_app; [|done]. apply (Hnd _ H). left. }
    assert (bfilter (not_id (a :: src)) [s] = []) as Hz.
    { cbn. unfold not_id. by rewrite bool_decide_eq_true_2. }
    change (k1 ++ s :: k2) with (k1 ++ [s] ++ k2). unfold insert_at. change (s :: drop ?n ?m) with ([s] ++ drop n m).
    rewrite !List.filter_app, Hz. cbn [app]. rewrite <-!List.filter_app, take_drop. done.
Qed.

Lemma reorder_spec_witness :
  let l' := reorderOperations clean_sample (u "a") (u "d") true in
  exists l1 s t l2, o_id s = u "a" /\ o_id t = u "d" /\ l' = l1 ++ [t; s] ++ l2.
Proof.
  apply (reorder_spec clean_sample (u "a") (u "d") true); try discriminate.
  all: refine (bool_decide_eq_true_1 _ _); vm_compute; reflexivity.
Defined.

(** ** Drafts that are rebuilt *)

Lemma rules_same (f : ParamOverrideCondition -> bool) d :
  (forall r, r ∈ rules d -> f r = false) ->
  (forall g, map (fun r => if f r then g r else r) (rules d) = rules d) /\ bfilter (fun r => negb (f r)) (rules d) = rules d.
Proof.
  intros H. split.
  - intros g. transitivity (map id (rules d)); [|apply map_id]. apply map_ext_in. intros r Hr%list_elem_of_In. by rewrite H.
  - apply bfilter_all. intros r Hr. by rewrite H.
Qed.

Lemma set_rules_same d : set_rules d (p_simpleMode d) (rules d) = d.
Proof. by destruct d. Qed.

Lemma gen_map_ext {A B} (f g : A -> gen B) l lim : forall s,
  lim <= s -> (forall x s, lim <= s -> f x s = g x s) -> (forall x s y s', g x s = Some (y, s') -> s <= s') ->
  gen_map f l s = gen_map g l s.
Proof.
  induction l as [|x l IH]; intros s Hs Hfg Hg; [done|]. cbn [gen_map].
  change ((f x s ≫= fun '(y, s1) => (y' ← gen_map f l; mret (y :: y')) s1) = (g x s ≫= fun '(y, s1) => (y' ← gen_map g l; mret (y :: y')) s1)).
  rewrite Hfg by done. destruct (g x s) as [[y s1]|] eqn:E; [|done]. cbn [mbind option_bind]. apply Hg in E.
  change ((gen_map f l s1 ≫= fun '(ys, s2) => Some (y :: ys, s2)) = (gen_map g l s1 ≫= fun '(ys, s2) => Some (y :: ys, s2))).
  by rewrite IH by (done || lia).
Qed.

(** An update of a draft that changes nothing: the value is built again. *)
Definition rebuild (now : N) (id : jsstr) : list ParamOverrideOperation -> gen (list ParamOverrideOperation) :=
  updatePruneObjectsDraft now id (fun d => mret d).

Lemma prune_update_same now id upd l s lim :
  lim <= s -> (forall text s d s', lim <= s -> parsePruneObjectsDraft now text s = Some (d, s') -> upd d = mret (M := gen) d) ->
  updatePruneObjectsDraft now id upd l s = rebuild now id l s.
Proof.
  intros Hs Hu. unfold rebuild, updatePruneObjectsDraft. apply (gen_map_ext _ _ _ lim); [done|..].
  - intros o s' Hs'. case_bool_decide; [|done]. unfold mbind, gen_bind.
    destruct (parsePruneObjectsDraft now (value_text o) s') as [[d s2]|] eqn:E; [|done]. cbn. by rewrite (Hu _ _ _ _ Hs' E).
  - intros o s' o' s2. case_bool_decide; [|intros [= _ <-]; lia].
    intros (d & s3 & E & (d' & s4 & [= _ <-] & [= _ <-])%bind_inv)%bind_inv. by apply draws_prune in E as [? _].
Qed.

(** The rules of a [prune_objects] operation cannot be edited or removed:
    every id that the dialog can show is older than the ids that the handlers
    draw when they parse the value again, so neither handler finds its rule and
    both do what an update that changes nothing does. *)
Theorem prune_rule_edits_lost now0 text s0 draft s1 rid now s id patch l :
  parsePruneObjectsDraft now0 text s0 = Some (draft, s1) -> rid ∈ rule_ids draft -> s1 <= s ->
  updatePruneRule now id rid patch l s = rebuild now id l s /\
  removePruneRule now id rid l s = rebuild now id l s.
Proof.
  intros E0 Hr Hs. apply draws_prune in E0 as (_ & _ & Hd). rewrite Forall_forall in Hd. pose proof (Hd rid Hr) as Hrid.
  assert (forall text s d s', s1 <= s -> parsePruneObjectsDraft now text s = Some (d, s') ->
            forall r, r ∈ rules d -> bool_decide (c_id r = rid) = false) as Hno.
  { intros text' s' d s2 Hs' (_ & _ & Hd')%draws_prune r Hin. apply bool_decide_eq_false_2. intros E. rewrite Forall_forall in Hd'.
    assert (drawn s1 s2 (c_id r)) as Hdr.
    { eapply drawn_weaken; [exact Hs'|reflexivity|]. apply Hd'. by apply (list_elem_of_fmap_2 c_id). }
    rewrite E in Hdr. by apply (drawn_apart _ _ _ _ _ Hrid Hdr). }
  split; unfold updatePruneRule, removePruneRule; apply (prune_update_same now id _ l s s1 Hs); intros text' s' d s2 Hs' E;
    destruct (rules_same _ d (Hno _ _ _ _ Hs' E)) as [H1 H2]; by rewrite ?H1, ?H2, set_rules_same.
Qed.

Definition prune_sample : jsstr := uj "{'type':'thinking','conditions':[{'path':'a','mode':'full','value':'b'}]}".

Definition prune_operation : ParamOverrideOperation :=
  mkOperation (u "p") [] [] (u "prune_objects") [] [] prune_sample false (u "OR") [].

Lemma prune_rule_edits_lost_witness :
  exists draft s1, parsePruneObjectsDraft 1 prune_sample 0 = Some (draft, s1) /\ rule_ids draft = [local_id 1 0] /\
    removePruneRule 2 (u "p") (local_id 1 0) [prune_operation] 1 = Some ([prune_operation], 2).
Proof.
  eexists _, _. split; [vm_compute; reflexivity|]. split; [vm_compute; reflexivity|].
  etransitivity; [eapply (prune_rule_edits_lost 1 prune_sample 0 _ 1 (local_id 1 0) 2 1 (u "p") [])|vm_compute; reflexivity].
  - vm_compute. reflexivity.
  - vm_compute. left.
  - reflexivity.
Defined.

(** A blank typed at the end. *)
Definition then_blank (typed : jsstr) : jsstr := typed ++ [32].

(** What is typed in a draft is trimmed at every key: in the message of a
    custom error, in the type of pruned objects and in the key of a field to
    synchronise, a blank typed at the end is lost at once, so that a second
    word cannot follow it. *)
Theorem typed_space_lost now id typed l seed type :
  updateReturnErrorDraft id [EMessage (then_blank typed)] l = updateReturnErrorDraft id [EMessage typed] l /\
  patchPruneDraft now id [PType (then_blank typed)] l seed = patchPruneDraft now id [PType typed] l seed /\
  buildSyncTargetSpec type (then_blank typed) = buildSyncTargetSpec type typed.
Proof.
  unfold then_blank. split_and!.
  - unfold updateReturnErrorDraft, at_id. apply map_ext. intros o. case_bool_decide; [|done]. do 2 f_equal. cbn [foldl].
    destruct (parseReturnErrorDraft _) as [m s c ty k b]. unfold buildReturnErrorValueText. cbn [patch_error message simpleMode statusCode code e_type skipRetry].
    by rewrite trim_snoc.
  - unfold patchPruneDraft, updatePruneObjectsDraft. apply (gen_map_ext _ _ _ 0); [lia|..].
    + intros o s _. case_bool_decide; [|done]. unfold mbind, gen_bind.
      destruct (parsePruneObjectsDraft _ _ _) as [[d s1]|]; [|done]. cbn. do 3 f_equal. destruct d.
      unfold buildPruneObjectsValueText. cbn [patch_prune typeText p_simpleMode p_logic recursive rules]. by rewrite trim_snoc.
    + intros o s' o' s2. case_bool_decide; [|intros [= _ <-]; lia].
      intros (d & s3 & E & (d' & s4 & [= _ <-] & [= _ <-])%bind_inv)%bind_inv. by apply draws_prune in E as [? _].
  - unfold buildSyncTargetSpec. by rewrite trim_snoc.
Qed.

(** *** Adding a rule *)

Lemma blank_rule_dropped now d s rule s' simple :
  normalizePruneRule now (JObj []) s = Some (rule, s') ->
  buildPruneObjectsValueText (set_rules d simple (rules d ++ [rule])) = buildPruneObjectsValueText (set_rules d simple (rules d)).
Proof.
  intros H. assert (c_path rule = []) as Hc by by injection H as <- <-.
  unfold buildPruneObjectsValueText, set_rules. cbn [typeText p_simpleMode p_logic recursive rules].
  rewrite List.filter_app. cbn [List.filter]. rewrite Hc. change (truthy (trim [])) with false. by rewrite app_nil_r.
Qed.

(** A draft with a type and no rules, once it is saved as an advanced one. *)
Lemma type_only_is_simple now ty s :
  trim ty = ty -> truthy ty = true ->
  parsePruneObjectsDraft now (buildPruneObjectsValueText (mkPruneDraft false ty (u "AND") true [])) s = Some (with_type ty, s).
Proof.
  intros Ht Hty.
  assert (buildPruneObjectsValueText (mkPruneDraft false ty (u "AND") true []) = JSON_stringify (JObj [(u "type", JStr ty)])) as ->.
  { unfold buildPruneObjectsValueText. cbn [typeText p_simpleMode p_logic recursive rules List.filter map]. rewrite Ht, Hty.
    reflexivity. }
  unfold parsePruneObjectsDraft. destruct (stringify_compact_ends [(u "type", JStr ty)]) as [r E].
  rewrite E, trim_brackets. cbn [truthy negb]. rewrite <-E. clear E. unfold JSON_stringify. rewrite parse_stringify; [|done|by split; [apply NoDup_singleton|]|done].
  change (Some (mkPruneDraft true (trim ty) (u "AND") true [], s) = Some (with_type ty, s)). by rewrite Ht.
Qed.

(** A type written as plain text. *)
Definition plain_type (ty : jsstr) : Prop := trim ty = ty /\ truthy ty = true /\ JSON_parse ty = None.

(** A rule cannot be added to a [prune_objects] operation that has a type:
    the value becomes the advanced form without the new rule, and that form
    opens again as the simple form without rules. *)
Theorem prune_rule_not_added now now' o ty s s' :
  value_text o = ty -> plain_type ty ->
  exists o' s1, addPruneRule now (o_id o) [o] s = Some ([o'], s1) /\ parsePruneObjectsDraft now' (value_text o') s' = Some (with_type ty, s').
Proof.
  intros Hv (Ht & Hty & Hp). unfold addPruneRule, updatePruneObjectsDraft. cbn [gen_map]. rewrite bool_decide_eq_true_2 by done.
  set (rule := condition_of (local_id now s) (fun k => json_get k (JObj []))).
  set (d := set_rules (with_type ty) false (rules (with_type ty) ++ [rule])).
  exists (patch_operation o (FValueText (buildPruneObjectsValueText d))), (s + 1). split.
  - unfold mbind, gen_bind. rewrite Hv. unfold parsePruneObjectsDraft. rewrite Ht, Hty, Hp. reflexivity.
  - destruct o. cbn [patch_operation value_text]. subst d. rewrite (blank_rule_dropped now _ s _ (s + 1)) by reflexivity.
    by apply type_only_is_simple.
Qed.

Lemma prune_rule_not_added_witness :
  let o := mkOperation (u "p") [] [] (u "prune_objects") [] [] (u "redacted_thinking") false (u "OR") [] in
  exists o' s1, addPruneRule 1 (u "p") [o] 3 = Some ([o'], s1) /\
    parsePruneObjectsDraft 2 (value_text o') 4 = Some (with_type (u "redacted_thinking"), 4).
Proof.
  intros o. apply (prune_rule_not_added 1 2 o (u "redacted_thinking") 3 4); [reflexivity|split_and!; vm_compute; reflexivity].
Defined.

End EditorTheory.
