(* ===== verification/NavModules.v ===== *)
(** * Navigation modules  (web/default/src/lib/nav-modules.ts)

    Which modules of the site are shown, and to whom, from the settings the
    administrator stored in the status document.  Settings are untyped JSON;
    the status document fetched last is cached in local storage.

    [toLowerCase] is only compared with ["true"] and ["false"], onto which no
    code unit outside ASCII is mapped: folding ASCII letters is exact here. *)

From S2P Require Import Prelude JsString JsNumber JsJson.

Open Scope nat_scope.

Module Nav.

(** ** Values *)

Record ModuleAccess := mkAccess { enabled : bool; requireAuth : bool }.

Inductive HeaderNavModule := mod_rankings | mod_pricing.

(** The two access-controlled modules, and the boolean entries in insertion
    order (unknown keys are kept). *)
Record HeaderNavModules := mkNav {
  pricing : ModuleAccess;
  rankings : ModuleAccess;
  flags : list (jsstr * bool);
}.

Definition DEFAULT_HEADER_NAV_MODULES : HeaderNavModules :=
  mkNav (mkAccess true false) (mkAccess false false)
    [(u "home", true); (u "console", true); (u "chat", true); (u "apps", false);
     (u "docs", true); (u "about", false); (u "status", true)].

Definition DEFAULTS (m : HeaderNavModule) : ModuleAccess :=
  match m with
  | mod_pricing => pricing DEFAULT_HEADER_NAV_MODULES
  | mod_rankings => rankings DEFAULT_HEADER_NAV_MODULES
  end.

Definition access (m : HeaderNavModule) (h : HeaderNavModules) : ModuleAccess :=
  match m with mod_pricing => pricing h | mod_rankings => rankings h end.

Definition module_key (m : HeaderNavModule) : jsstr :=
  match m with mod_pricing => u "pricing" | mod_rankings => u "rankings" end.

(** ** Parsing *)

Definition lower (s : jsstr) : jsstr :=
  map (fun c => if (65 <=? c)%N && (c <=? 90)%N then (c + 32)%N else c) s.

(** [raw] is [undefined] for [None]. *)
Definition parseHeaderNavBoolean (raw : option json) (fallback : bool) : bool :=
  match raw with
  | Some (JBool b) => b
  | Some (JNum n) =>
      if num_eq n (num_of_Z 1) then true
      else if num_eq n (num_of_Z 0) then false else fallback
  | Some (JStr s) =>
      let normalized := lower (trim s) in
      if bool_decide (normalized = u "true") || bool_decide (normalized = u "1") then true
      else if bool_decide (normalized = u "false") || bool_decide (normalized = u "0") then false
      else fallback
  | _ => fallback
  end.

Definition parseAccess (raw : json) (fallback : ModuleAccess) : ModuleAccess :=
  match raw with
  | JBool _ | JNum _ | JStr _ =>
      mkAccess (parseHeaderNavBoolean (Some raw) (enabled fallback)) (requireAuth fallback)
  | JObj _ | JArr _ =>
      mkAccess (parseHeaderNavBoolean (json_get (u "enabled") raw) (enabled fallback))
        (parseHeaderNavBoolean (json_get (u "requireAuth") raw) (requireAuth fallback))
  | JNull => fallback
  end.

(** [Object.entries] of any value but [null]: arrays and strings have their
    indexes, other primitives nothing. *)
Definition entries_of (j : json) : list (jsstr * json) :=
  match j with
  | JObj fs => obj_entries fs
  | JArr l => imap (fun i x => (N_to_str (N.of_nat i), x)) l
  | JStr s => imap (fun i c => (N_to_str (N.of_nat i), JStr [c])) s
  | _ => []
  end.

Definition is_blank (raw : json) : bool :=
  negb (json_truthy raw) || negb (truthy (trim (json_to_str raw))).

(** The record to read, [None] for [null]; it may also be a primitive, which
    has no entries of interest. *)
Definition parseHeaderNavRecord (raw : option json) : option json :=
  match raw with
  | None => None
  | Some r =>
      if is_blank r then None
      else match r with
           | JObj _ | JArr _ => Some r
           | _ => JSON_parse (json_to_str r)
           end
  end.

(** [result[key] = value] on an ordinary object: ["__proto__"] is not a data
    property, and a boolean assigned to it is ignored. *)
Definition set_flag (k : jsstr) (b : bool) (h : HeaderNavModules) : HeaderNavModules :=
  if bool_decide (k = u "__proto__") then h
  else mkNav (pricing h) (rankings h) (map_set k b (flags h)).

Definition is_scalar (v : json) : bool :=
  match v with JBool _ | JNum _ | JStr _ => true | _ => false end.

Definition nav_step (result : HeaderNavModules) (entry : jsstr * json) : HeaderNavModules :=
  let '(key, value) := entry in
  if bool_decide (key = u "pricing") then
    mkNav (parseAccess value (pricing result)) (rankings result) (flags result)
  else if bool_decide (key = u "rankings") then
    mkNav (pricing result) (parseAccess value (rankings result)) (flags result)
  else
    let fallback := map_get key (flags result) in
    match fallback with
    | Some b => set_flag key (parseHeaderNavBoolean (Some value) b) result
    | None => if is_scalar value then set_flag key (parseHeaderNavBoolean (Some value) true) result else result
    end.

Definition parseHeaderNavModules (raw : option json) : HeaderNavModules :=
  match parseHeaderNavRecord raw with
  | None => DEFAULT_HEADER_NAV_MODULES
  | Some parsed =>
      if negb (json_truthy parsed) then DEFAULT_HEADER_NAV_MODULES
      else foldl nav_step DEFAULT_HEADER_NAV_MODULES (entries_of parsed)
  end.

(** [status?.HeaderNavModules]; [None] is a [null] status *)
Definition parseHeaderNavModulesFromStatus (status : option json) : HeaderNavModules :=
  parseHeaderNavModules (status ≫= json_get (u "HeaderNavModules")).

(** ** The cached status *)

(** The cache is the item ["status"] of local storage, if there is one. *)
Definition getCachedStatus (cache : option jsstr) : option json :=
  match cache with
  | Some raw =>
      if truthy raw
      then match JSON_parse raw with Some JNull | None => None | Some j => Some j end
      else None
  | None => None
  end.

Definition getModuleAccessFromStatus (status : option json) (m : HeaderNavModule) : ModuleAccess :=
  access m (parseHeaderNavModulesFromStatus status).

Definition getModuleAccess (cache : option jsstr) (m : HeaderNavModule) : ModuleAccess :=
  getModuleAccessFromStatus (getCachedStatus cache) m.

(** [getStatus] answers with a status document ([None] is [null]) or throws. *)
Definition getFreshModuleAccess (fetched : option (option json)) (m : HeaderNavModule) : ModuleAccess :=
  match fetched with
  | Some status => getModuleAccessFromStatus status m
  | None => mkAccess false true
  end.

(** [j[k]] for a value other than [null] *)
Definition json_prop (k : jsstr) (j : json) : option json :=
  match j with
  | JObj fs => map_get k fs
  | JArr l => match array_index k with Some i => l !! N.to_nat i | None => None end
  | JStr s => match array_index k with Some i => (fun c => JStr [c]) <$> s !! N.to_nat i | None => None end
  | _ => None
  end.

Definition is_false (v : option json) : bool :=
  match v with Some (JBool false) => true | _ => false end.

Definition isSidebarModuleEnabled (cache : option jsstr) (section module : jsstr) : bool :=
  match getCachedStatus cache with
  | None => true
  | Some status =>
      if negb (json_truthy status) then true
      else match json_get (u "SidebarModulesAdmin") status with
           | None => true
           | Some raw =>
               if is_blank raw then true
               else match JSON_parse (json_to_str raw) with
                    | None | Some JNull => true
                    | Some parsed =>
                        match json_prop section parsed with
                        | None => true
                        | Some sectionConfig =>
                            if negb (json_truthy sectionConfig) then true
                            else if is_false (json_prop (u "enabled") sectionConfig) then false
                            else if is_false (json_prop module sectionConfig) then false
                            else true
                        end
                    end
           end
  end.

(** [status] is [None] when the argument is left out. *)
Definition isChatEntryEnabled (cache : option jsstr) (status : option (option json)) : bool :=
  let resolved := match status with None => getCachedStatus cache | Some s => s end in
  let header := parseHeaderNavModulesFromStatus resolved in
  if bool_decide (map_get (u "chat") (flags header) = Some false) then false
  else isSidebarModuleEnabled cache (u "chat") (u "playground").

(** ** Lemmas *)

Lemma set_flag_access m k b h : access m (set_flag k b h) = access m h.
Proof. unfold set_flag. case_match; [done|]. by destruct m. Qed.

Lemma nav_step_access m h kv :
  access m (nav_step h kv) =
  if bool_decide (kv.1 = module_key m) then parseAccess kv.2 (access m h) else access m h.
Proof.
  destruct kv as [k v]. unfold nav_step. cbn [fst snd].
  destruct m; cbn [module_key access].
  - case_bool_decide as Hp.
    + subst k. rewrite bool_decide_eq_false_2 by (vm_compute; discriminate). done.
    + case_bool_decide; [done|]. cbn zeta.
      destruct (map_get k (flags h)); [apply (set_flag_access mod_rankings)|].
      destruct (is_scalar v); [apply (set_flag_access mod_rankings)|done].
  - case_bool_decide; [done|]. case_bool_decide; [done|]. cbn zeta.
    destruct (map_get k (flags h)); [apply (set_flag_access mod_pricing)|].
    destruct (is_scalar v); [apply (set_flag_access mod_pricing)|done].
Qed.

Lemma nav_fold_access m l : forall h,
  NoDup l.*1 ->
  access m (foldl nav_step h l) =
  match map_get (module_key m) l with
  | Some v => parseAccess v (access m h)
  | None => access m h
  end.
Proof.
  induction l as [|[k v] l IH]; intros h Hnd; [done|]. cbn [foldl fmap list_fmap fst] in *.
  apply NoDup_cons in Hnd as [Hk Hnd]. rewrite IH by done. rewrite nav_step_access. cbn [fst snd map_get].
  destruct (decide (k = module_key m)) as [->|Hne].
  - rewrite bool_decide_eq_true_2 by done. apply map_get_None in Hk. by rewrite Hk.
  - by rewrite bool_decide_eq_false_2.
Qed.

(** ** Theorems *)

(** For settings stored as an object, each access-controlled module is
    read from its own entry alone, on top of the defaults: the other entries
    cannot switch it on or off. *)
Theorem module_access_spec fs m :
  NoDup fs.*1 ->
  access m (parseHeaderNavModules (Some (JObj fs))) =
  match map_get (module_key m) fs with
  | Some v => parseAccess v (DEFAULTS m)
  | None => DEFAULTS m
  end.
Proof.
  intros Hnd. unfold parseHeaderNavModules, parseHeaderNavRecord.
  change (is_blank (JObj fs)) with false. cbn [json_truthy negb entries_of].
  rewrite nav_fold_access by exact (obj_entries_NoDup fs Hnd). rewrite map_get_entries by done.
  by destruct m.
Qed.

Lemma module_access_spec_witness :
  access mod_rankings (parseHeaderNavModules (Some (JObj
    [(u "pricing", JBool false); (u "rankings", JObj [(u "enabled", JStr (u " TRUE "))])])))
  = mkAccess true false.
Proof.
  refine (eq_trans (module_access_spec _ mod_rankings _) _).
  - apply (bool_decide_unpack _). vm_compute. exact I.
  - vm_compute. reflexivity.
Defined.

(** A sidebar module is hidden only by an explicit [false], of its
    section or of itself, in the cached settings; anything missing, blank or
    malformed leaves it visible. *)
Theorem sidebar_hidden_iff cache section module :
  isSidebarModuleEnabled cache section module = false <->
  exists status raw parsed cfg,
    getCachedStatus cache = Some status /\
    json_get (u "SidebarModulesAdmin") status = Some raw /\ is_blank raw = false /\
    JSON_parse (json_to_str raw) = Some parsed /\ json_prop section parsed = Some cfg /\
    (json_prop (u "enabled") cfg = Some (JBool false) \/ json_prop module cfg = Some (JBool false)).
Proof.
  assert (Hf : forall v, is_false v = true <-> v = Some (JBool false)).
  { intros [[| [] | | | | ]|]; split; intros H; try discriminate H; reflexivity. }
  unfold isSidebarModuleEnabled. split.
  - destruct (getCachedStatus cache) as [status|]; [|discriminate].
    destruct (json_truthy status); cbn [negb]; [|discriminate].
    destruct (json_get (u "SidebarModulesAdmin") status) as [raw|] eqn:Hr; [|discriminate].
    destruct (is_blank raw) eqn:Hb; [discriminate|].
    destruct (JSON_parse (json_to_str raw)) as [parsed|] eqn:Hp; [|discriminate].
    destruct (json_prop section parsed) as [cfg|] eqn:Hs; [|by destruct parsed].
    intros H. exists status, raw, parsed, cfg. split; [done|]. split; [done|]. split; [done|].
    split; [done|]. split; [done|].
    assert (H' : (if negb (json_truthy cfg) then true
                  else if is_false (json_prop (u "enabled") cfg) then false
                  else if is_false (json_prop module cfg) then false else true) = false) by by destruct parsed.
    destruct (json_truthy cfg); cbn [negb] in H'; [|discriminate H'].
    destruct (is_false (json_prop (u "enabled") cfg)) eqn:H1; [left; by apply Hf|].
    destruct (is_false (json_prop module cfg)) eqn:H2; [right; by apply Hf|discriminate H'].
  - intros (status & raw & parsed & cfg & -> & Hr & Hb & Hp & Hs & Hc).
    assert (Ht : json_truthy status = true) by by destruct status.
    rewrite Ht, Hr, Hb, Hp. cbn [negb].
    assert (Hcfg : json_truthy cfg = true).
    { destruct cfg as [| | | [|] | |]; try done; destruct Hc as [Hc|Hc]; try discriminate Hc; cbn in Hc; by case_match. }
    assert (H' : (if is_false (json_prop (u "enabled") cfg) then false
                  else if is_false (json_prop module cfg) then false else true) = false).
    { destruct Hc as [Hc|Hc]; rewrite Hc; [done|]. by destruct (is_false (json_prop (u "enabled") cfg)). }
    destruct parsed; [by cbn in Hs|..]; rewrite Hs, Hcfg; exact H'.
Qed.

(** The chat entry honours the header switch of the status it is
    given, but reads the sidebar switch from the cached status, so a status
    whose sidebar settings switch the chat off does not hide the entry. *)
Theorem chat_entry_ignores_given_sidebar :
  let off := JObj [(u "SidebarModulesAdmin", JStr (uj "{'chat': {'enabled': true, 'playground': false}}"))] in
  isChatEntryEnabled None (Some (Some off)) = true /\
  isChatEntryEnabled (Some (uj "{'SidebarModulesAdmin': '{}'}")) (Some (Some off)) = true /\
  isChatEntryEnabled None (Some (Some (JObj [(u "HeaderNavModules", JObj [(u "chat", JBool false)])]))) = false.
Proof. vm_compute. done. Qed.

End Nav.
