(* ===== verification/StatusPage.v ===== *)
(** * The status page  (web/default/src/features/status/lib: status-helpers.ts,
    vendor-rollup.ts, and features/performance-metrics/lib/format.ts)

    Health of the monitored services and the per-vendor summary of model
    performance.  Case mapping comes from the platform's locale data, as an
    argument. *)

From S2P Require Import Prelude JsString JsNumber JsJson PricingModels.

Open Scope Z_scope.

Module Status.

(** ** Data *)

Record PerfModelSummary := mkPerf {
  pf_model_name : jsstr;
  avg_latency_ms : number;
  success_rate : number;
  avg_tps : number;
  request_count : option number;
}.

Record UptimeMonitor := mkMonitor {
  mon_name : jsstr;
  uptime : number;
  uptime_24h : option number;
  mon_status : Z;
  mon_group : option jsstr;
  history : option (list Z);
}.

Record UptimeGroupResult := mkGroup { categoryName : jsstr; monitors : option (list UptimeMonitor) }.

Inductive StatusVariant := v_success | v_warning | v_danger | v_info | v_neutral.

Record OverallHealth := mkHealth { h_label : jsstr; h_variant : StatusVariant; h_description : jsstr }.

(** ** Health (status-helpers.ts) *)

Definition healthForSuccessRate (rate : number) : OverallHealth :=
  if negb (is_finite rate) then mkHealth (u "Unknown") v_neutral (u "Metrics unavailable")
  else if num_ge rate (num_of_decimal 999 (-1)) then
    mkHealth (u "All systems operational") v_success (u "All monitored services are healthy")
  else if num_ge rate (num_of_Z 99) then
    mkHealth (u "Partial degradation") v_warning (u "Some services are experiencing issues")
  else mkHealth (u "Major outage") v_danger (u "Multiple services are down or degraded").

Definition flattenMonitors (groups : list UptimeGroupResult) : list UptimeMonitor :=
  concat (map (fun g => monitors g ?? []) groups).

Definition num_of_nat (n : nat) : number := num_of_Z (Z.of_nat n).

Definition averageMonitorUptime (ms : list UptimeMonitor) : number :=
  if negb (truthy_list ms) then NaN
  else
    let total := foldl (fun sum m => (sum + uptime m)%num) (num_of_Z 0) ms in
    (total / num_of_nat (length ms) * num_of_Z 100)%num.

Definition worst_step (worst : Z) (m : UptimeMonitor) : Z :=
  if mon_status m <? worst then mon_status m else worst.

Definition worstMonitorStatus (ms : list UptimeMonitor) : Z :=
  if negb (truthy_list ms) then 1 else foldl worst_step 1 ms.

Definition monitorStatusVariant (status : Z) : StatusVariant :=
  if status =? 1 then v_success
  else if status =? 2 then v_warning
  else if status =? 0 then v_danger
  else v_info.

Definition monitorStatusLabel (status : Z) : jsstr :=
  if status =? 1 then u "Operational"
  else if status =? 2 then u "Degraded"
  else if status =? 0 then u "Down"
  else u "Info".

(** [if (!Number.isFinite(value) || value <= 0) continue] *)
Definition usable_latency (x : number) : bool :=
  negb (negb (is_finite x) || num_le x (num_of_Z 0)).

Definition mean_step (acc : number * nat) (x : number) : number * nat :=
  ((acc.1 + x)%num, S acc.2).

(** [count > 0 ? total / count : NaN] after the loop *)
Definition mean (l : list number) : number :=
  let '(total, count) := foldl mean_step (num_of_Z 0, 0%nat) l in
  if Nat.ltb 0 count then (total / num_of_nat count)%num else NaN.

Definition averageLatencyMs (models : list PerfModelSummary) : number :=
  mean (bfilter usable_latency (map avg_latency_ms models)).

Definition averageErrorRate (models : list PerfModelSummary) : number :=
  mean (map (fun rate => (num_of_Z 100 - rate)%num) (bfilter is_finite (map success_rate models))).

Definition statusToBarClass (status : Z) : jsstr :=
  if status =? 1 then u "bg-success"
  else if status =? 2 then u "bg-warning"
  else if status =? 0 then u "bg-danger"
  else u "bg-muted-foreground/30".

Definition buildUptimeBars (status : Z) (hist : option (list Z)) (count : nat) : list jsstr :=
  match hist with
  | Some ((_ :: _) as l) => map statusToBarClass l
  | _ => repeat (statusToBarClass status) count
  end.

Definition hasLongUptimeWindow (ms : list UptimeMonitor) : bool :=
  existsb (fun m =>
    is_finite (uptime m) &&
    match uptime_24h m with
    | Some d => is_finite d && num_gt (num_abs (uptime m - d)%num) (num_of_decimal 1 (-4))
    | None => false
    end) ms.

(** [replace(/^#+\s*/, '')] *)
Fixpoint drop_hashes (s : jsstr) : jsstr :=
  match s with
  | 35%N :: s' => drop_hashes s'
  | _ => s
  end.

Definition strip_heading (s : jsstr) : jsstr :=
  match s with
  | 35%N :: _ => trim_start (drop_hashes s)
  | _ => s
  end.

(** [replace(/\*\*/g, '')]: pairs of asterisks from the left *)
Fixpoint strip_bold (s : jsstr) : jsstr :=
  match s with
  | 42%N :: (42%N :: s' as t) => strip_bold s'
  | c :: s' => c :: strip_bold s'
  | [] => []
  end.

Definition ends_sentence (c : N) : bool := (c =? 46)%N || (c =? 33)%N || (c =? 63)%N.

(** the match of [/^[^.!?]+[.!?]?/] *)
Fixpoint sentence_from (s : jsstr) : jsstr :=
  match s with
  | [] => []
  | c :: s' => if ends_sentence c then [c] else c :: sentence_from s'
  end.

Definition first_sentence (s : jsstr) : option jsstr :=
  match s with
  | [] => None
  | c :: _ => if ends_sentence c then None else Some (sentence_from s)
  end.

Definition incidentTitleFromContent (content : jsstr) : jsstr :=
  let trimmed := trim content in
  if negb (truthy trimmed) then []
  else
    let firstLine := trim (head (split_on 10 trimmed) ?? []) in
    let plain := strip_bold (strip_heading firstLine) in
    if (length plain <=? 120)%nat then plain
    else
      let sentence := trim <$> first_sentence plain in
      match sentence with
      | Some s => if truthy s && (length s <=? 120)%nat then s else take 117 plain ++ u "…"
      | None => take 117 plain ++ u "…"
      end.

(** ** Formatting (performance-metrics/lib/format.ts) *)

(** [Math.round] of a positive number, printed *)
Definition round_str (x : number) : jsstr :=
  match x with
  | S754_finite false m e => Z_to_str (fixed_integer m e 0)
  | _ => num_to_str x
  end.

Definition formatThroughput (tps : number) : jsstr :=
  if negb (is_finite tps) || num_le tps (num_of_Z 0) then u "—"
  else if num_ge tps (num_of_Z 1000) then to_fixed 1 (tps / num_of_Z 1000)%num ++ u "K t/s"
  else to_fixed (if num_lt tps (num_of_Z 10) then 2 else 1) tps ++ u " t/s".

Definition formatLatency (ms : number) : jsstr :=
  if negb (is_finite ms) || num_le ms (num_of_Z 0) then u "—"
  else if num_ge ms (num_of_Z 1000) then to_fixed 2 (ms / num_of_Z 1000)%num ++ u "s"
  else round_str ms ++ u "ms".

Definition formatUptimePct (pct : number) : jsstr :=
  if negb (is_finite pct) then u "—" else to_fixed 2 pct ++ u "%".

(** ** Vendors (vendor-rollup.ts) *)

Record VendorRollupRow := mkRollup {
  vendor : jsstr;
  initials : jsstr;
  modelCount : Z;
  medianLatencyMs : number;
  successRate : number;
  latencyLabel : jsstr;
}.

Record Bucket := mkBucket { latencies : list number; successRates : list number; b_count : Z }.

Definition empty_bucket : Bucket := mkBucket [] [] 0.

(** [name.split(/\s+/)] *)
Fixpoint split_ws (cur : jsstr) (in_ws : bool) (s : jsstr) : list jsstr :=
  match s with
  | [] => [cur]
  | c :: s' =>
      if is_ws c then if in_ws then split_ws cur true s' else cur :: split_ws [] true s'
      else split_ws (cur ++ [c]) false s'
  end.

Definition median (values : list number) : number :=
  match values with
  | [] => NaN
  | _ =>
      let sorted := js_sort (fun a b => Pricing.num_sign (a - b)%num) values in
      let mid := Nat.div (length sorted) 2 in
      if Nat.even (length sorted)
      then ((sorted !! (mid - 1)%nat ?? NaN) + (sorted !! mid ?? NaN))%num / num_of_Z 2
      else sorted !! mid ?? NaN
  end%num.

Section rollup.
Context (toUpperCase : jsstr -> jsstr).

Definition vendorFromModel (modelName : jsstr) (vendorByModel : list (jsstr * jsstr)) : jsstr :=
  let mapped := map_get modelName vendorByModel ?? [] in
  if truthy mapped then mapped
  else
    match index_of (u "/") modelName with
    | Some (S k) =>
        let prefix := trim (take (S k) modelName) in
        if truthy prefix then toUpperCase (take 1 prefix) ++ drop 1 prefix else modelName
    | _ => modelName
    end.

Definition initialsForVendor (name : jsstr) : jsstr :=
  match split_ws [] false (trim name) with
  | p0 :: p1 :: _ => toUpperCase (take 1 p0 ++ take 1 p1)
  | _ => toUpperCase (take 2 name)
  end.

Definition vendor_step (m : list (jsstr * jsstr)) (model : Pricing.PricingModel) : list (jsstr * jsstr) :=
  if truthy (Pricing.model_name model) && truthy_opt (Pricing.vendor_name model)
  then map_set (Pricing.model_name model) (Pricing.vendor_name model ?? []) m else m.

Definition add_row (row : PerfModelSummary) (b : Bucket) : Bucket :=
  let latency := avg_latency_ms row in
  let rate := success_rate row in
  mkBucket (if is_finite latency && num_gt latency (num_of_Z 0) then latencies b ++ [latency] else latencies b)
    (if is_finite rate then successRates b ++ [rate] else successRates b) (b_count b + 1).

Definition bucket_step (vendorOf : PerfModelSummary -> jsstr) (buckets : list (jsstr * Bucket))
    (row : PerfModelSummary) : list (jsstr * Bucket) :=
  map_set (vendorOf row) (add_row row (map_get (vendorOf row) buckets ?? empty_bucket)) buckets.

Definition rollup_row (entry : jsstr * Bucket) : VendorRollupRow :=
  let '(v, bucket) := entry in
  let med := median (latencies bucket) in
  let rate :=
    if truthy_list (successRates bucket)
    then (foldl num_add (num_of_Z 0) (successRates bucket) / num_of_nat (length (successRates bucket)))%num
    else NaN in
  mkRollup v (initialsForVendor v) (b_count bucket) med rate
    (if is_finite med then formatLatency med else u "—").

Definition by_model_count (a b : VendorRollupRow) : Z := modelCount b - modelCount a.

Definition buildVendorRollup (perfModels : list PerfModelSummary)
    (pricingModels : list Pricing.PricingModel) : list VendorRollupRow :=
  let vendorByModel := foldl vendor_step [] pricingModels in
  let vendorOf := fun row => vendorFromModel (pf_model_name row) vendorByModel in
  js_sort by_model_count (map rollup_row (foldl (bucket_step vendorOf) [] perfModels)).

(** ** Lemmas *)

Definition counts (buckets : list (jsstr * Bucket)) : list (jsstr * Z) :=
  map (fun '(v, b) => (v, b_count b)) buckets.

Lemma counts_get v buckets : map_get v (counts buckets) = b_count <$> map_get v buckets.
Proof. induction buckets as [|[k b] l IH]; cbn; [done|]. by case_decide. Qed.

Lemma counts_set v b buckets : counts (map_set v b buckets) = map_set v (b_count b) (counts buckets).
Proof. induction buckets as [|[k b0] l IH]; cbn; [done|]. case_decide; cbn; [done|]. f_equal. exact IH. Qed.

(** The buckets count the rows of each vendor. *)
Lemma buckets_count vendorOf rows :
  counts (foldl (bucket_step vendorOf) [] rows) = Pricing.count_all (map vendorOf rows).
Proof.
  unfold Pricing.count_all. change (@nil (jsstr * Z)) with (counts []). generalize (@nil (jsstr * Bucket)) as acc.
  induction rows as [|r rows IH]; intros acc; [done|]. cbn [map foldl]. rewrite IH. f_equal.
  unfold bucket_step, Pricing.count_one. rewrite counts_set, counts_get.
  by destruct (map_get (vendorOf r) acc).
Qed.

Lemma rollup_row_fields entry :
  vendor (rollup_row entry) = entry.1 /\ modelCount (rollup_row entry) = b_count entry.2.
Proof. by destruct entry. Qed.

#[local] Instance by_model_count_sorts : SortsBy by_model_count (fun a b => modelCount b <= modelCount a).
Proof. split; unfold by_model_count; [intros x y z; lia|intros x y; lia..]. Qed.

Definition vendor_of_row (pricingModels : list Pricing.PricingModel) (row : PerfModelSummary) : jsstr :=
  vendorFromModel (pf_model_name row) (foldl vendor_step [] pricingModels).

Lemma rollup_pairs perf pricing :
  map (fun r => (vendor r, modelCount r)) (buildVendorRollup perf pricing) ≡ₚ
  Pricing.count_all (map (vendor_of_row pricing) perf).
Proof.
  unfold buildVendorRollup. cbn zeta. fold (vendor_of_row pricing).
  set (buckets := foldl _ [] perf). etrans.
  - apply Permutation_map, js_sort_perm.
  - rewrite map_map, <-buckets_count. fold buckets. unfold counts.
    erewrite map_ext; [reflexivity|]. intros [v b]. done.
Qed.

(** ** Theorems *)

(** The summary has one row per vendor, by decreasing number of
    models; each row counts the measured models of its vendor, and no measured
    model is left out. *)
Theorem buildVendorRollup_spec perf pricing :
  StronglySorted (fun a b => modelCount b <= modelCount a) (buildVendorRollup perf pricing) /\
  NoDup (map vendor (buildVendorRollup perf pricing)) /\
  (forall r, r ∈ buildVendorRollup perf pricing ->
     modelCount r = Pricing.occurrences (vendor r) (map (vendor_of_row pricing) perf)) /\
  (forall row, row ∈ perf ->
     exists r, r ∈ buildVendorRollup perf pricing /\ vendor r = vendor_of_row pricing row).
Proof.
  pose proof (rollup_pairs perf pricing) as Hp. set (rows := buildVendorRollup perf pricing) in *.
  split; [apply js_sort_sorted, _|]. split; [|split].
  - assert (He : map vendor rows = (map (fun r => (vendor r, modelCount r)) rows).*1).
    { change ((map ?f rows).*1) with (map fst (map f rows)). by rewrite map_map. }
    rewrite He, Hp. apply Pricing.count_all_NoDup.
  - intros r Hr. assert (Hin : (vendor r, modelCount r) ∈ map (fun r => (vendor r, modelCount r)) rows)
      by (apply list_elem_of_fmap; by exists r).
    rewrite Hp, Pricing.count_all_elem in Hin. apply Hin.
  - intros row Hrow.
    assert (Hin : (vendor_of_row pricing row, Pricing.occurrences (vendor_of_row pricing row) (map (vendor_of_row pricing) perf))
      ∈ map (fun r => (vendor r, modelCount r)) rows).
    { rewrite Hp, Pricing.count_all_elem. split; [|done]. apply list_elem_of_fmap. by exists row. }
    apply list_elem_of_fmap in Hin as (r & Heq & Hr). exists r. split; [done|]. by injection Heq as <- _.
Qed.

End rollup.

Lemma worst_fold ms : forall w,
  foldl worst_step w ms <= w /\ (forall m, m ∈ ms -> foldl worst_step w ms <= mon_status m) /\
  (foldl worst_step w ms = w \/ exists m, m ∈ ms /\ foldl worst_step w ms = mon_status m).
Proof.
  induction ms as [|m ms IH]; intros w.
  - cbn. split; [lia|]. split; [intros m Hm; by apply not_elem_of_nil in Hm|by left].
  - cbn [foldl]. destruct (IH (worst_step w m)) as (H1 & H2 & H3).
    assert (Hs : worst_step w m <= w /\ worst_step w m <= mon_status m /\
                 (worst_step w m = w \/ worst_step w m = mon_status m)).
    { unfold worst_step. destruct (Z.ltb_spec (mon_status m) w); lia. }
    split; [lia|]. split.
    + intros m' [->|Hm']%elem_of_cons; [lia|by apply H2].
    + destruct H3 as [H3|(m' & Hm' & H3)]; [|right; exists m'; split; [by right|done]].
      rewrite H3. destruct Hs as (_ & _ & [->| ->]); [by left|right; exists m; split; [by left|done]].
Qed.

(** The worst status of a list of monitors is never worse than
    "Operational" unless one is down: degraded monitors (status 2) are above
    the starting value 1 and are overlooked. *)
Theorem worst_status_overlooks_degraded ms :
  (forall m, m ∈ ms -> mon_status m = 1 \/ mon_status m = 2) ->
  worstMonitorStatus ms = 1 /\ monitorStatusLabel (worstMonitorStatus ms) = u "Operational".
Proof.
  intros H. assert (Hw : worstMonitorStatus ms = 1).
  { unfold worstMonitorStatus. destruct ms as [|m0 ms]; [done|]. cbn [truthy_list negb].
    destruct (worst_fold (m0 :: ms) 1) as (_ & _ & [->|(m & Hm & Hf)]); [done|].
    destruct (worst_fold (m0 :: ms) 1) as (Hle & _ & _). destruct (H m Hm); lia. }
  by rewrite Hw.
Qed.

Definition degraded_monitor : UptimeMonitor := mkMonitor (u "api") (num_of_decimal 9 (-1)) None 2 None None.

Lemma worst_status_overlooks_degraded_witness :
  monitorStatusLabel (mon_status degraded_monitor) = u "Degraded" /\
  worstMonitorStatus [degraded_monitor; degraded_monitor] = 1.
Proof.
  split; [reflexivity|].
  apply (worst_status_overlooks_degraded [degraded_monitor; degraded_monitor]).
  intros m Hm. rewrite !elem_of_cons in Hm. right.
  destruct Hm as [->|[->|Hm]]; [reflexivity..|by apply not_elem_of_nil in Hm].
Defined.

Example latency_labels :
  map formatLatency [num_of_decimal 3495 (-1); num_of_Z 1234; num_of_Z 0] = [u "350ms"; u "1.23s"; u "—"].
Proof. vm_compute. reflexivity. Qed.

Example incident_title :
  incidentTitleFromContent (u "## **API** errors
details") = u "API errors".
Proof. vm_compute. reflexivity. Qed.

End Status.
