(* ===== verification/DashboardCharts.v ===== *)
(** * Dashboard charts
    (web/default/src/features/dashboard/lib/charts.ts and the time keys of
    lib/time.ts)

    The usage records of the server are summed by time and by model or user, cut
    to the largest series and handed to the chart library.  Quotas, counts and
    tokens are integers (they stay below 2^53); only the amounts of money are
    floating-point numbers.  Dates come from [dayjs] (the class [Dayjs]), numbers
    are written by [Intl].  The appearance of the charts (colours apart) is not
    modelled. *)

From S2P Require Import Prelude JsString JsNumber JsJson JsRegex Currency PricingModels.

Import Currency Pricing.
Open Scope Z_scope.

(** [dayjs(ms)], [d.format(f)] and [d.add(n, 'day')] *)
Class Dayjs := {
  Day : Type;
  dayjs : Z -> Day;
  day_format : Day -> jsstr -> jsstr;
  day_add : Day -> Z -> Day;
}.

Module Charts.

(** ** Records *)

Inductive TimeGranularity := hour | day | week.

Record QuotaDataItem := mkItem {
  username : option jsstr;
  model_name : option jsstr;
  created_at : Z;
  token_used : option Z;
  count : option Z;
  quota : option Z;
}.

Record Stats := mkStats { st_quota : Z; st_count : Z; st_tokens : Z }.

Definition MAX_CHART_TREND_POINTS : Z := 7.

(** [x || d] on a text that may be missing *)
Definition text_or (x : option jsstr) (d : jsstr) : jsstr := match x with Some (c :: s) => c :: s | _ => d end.

(** ** Sums by key *)

(** [m.set(k, add(m.get(k) || zero, v))] *)
Definition add_to {K V} `{!EqDecision K} (zero : V) (add : V -> V -> V) (k : K) (v : V) (m : list (K * V)) : list (K * V) :=
  map_set k (add (default zero (map_get k m)) v) m.

Definition no_stats : Stats := mkStats 0 0 0.
Definition add_stats (a b : Stats) : Stats :=
  mkStats (st_quota a + st_quota b) (st_count a + st_count b) (st_tokens a + st_tokens b).

Definition item_model (item : QuotaDataItem) : jsstr := text_or (model_name item) (u "Unknown").
Definition item_user (item : QuotaDataItem) : jsstr := text_or (username item) (u "unknown").
Definition item_stats (item : QuotaDataItem) : Stats :=
  mkStats (default 0 (quota item)) (default 0 (count item)) (default 0 (token_used item)).

Abbreviation stats_map := (list (jsstr * Stats)).

Definition modelTotalsMap (data : list QuotaDataItem) : stats_map :=
  foldl (fun m item => add_to no_stats add_stats (item_model item) (item_stats item) m) [] data.

(** [array.reduce((sum, x) => sum + f(x), 0)] *)
Definition reduce_sum {A} (f : A -> Z) (l : list A) : Z := foldl (fun sum x => sum + f x) 0 l.

(** ** Rows of the charts *)

Record UsageRow := mkUsageRow { Time : jsstr; Model : jsstr; rawQuota : Z; Usage : number; TimeSum : Z }.
Record TrendRow := mkTrendRow { tr_time : jsstr; tr_model : jsstr; tr_count : Z }.
Record UserRow := mkUserRow { us_time : jsstr; us_user : jsstr; us_quota : Z; us_usage : number }.

Definition MAX_AREA_MODELS : nat := 15.
Definition MAX_TREND_MODELS : nat := 20.
Definition MAX_RANK_MODELS : nat := 20.
Definition MAX_TOOLTIP_MODELS : nat := 15.

(** [b.value - a.value] *)
Definition descending {A} (f : A -> Z) (a b : A) : Z := f b - f a.

(** [Number(usd.toFixed(4))], and 0 for nothing *)
Definition usage_of (quotaPerUnit : number) (raw : Z) : number :=
  let usd := if raw =? 0 then num_of_Z 0 else num_div (num_of_Z raw) quotaPerUnit in
  if num_truthy usd then str_to_num (to_fixed 4 usd) else num_of_Z 0.

Section charts.
Context {D : Dayjs} {L : Locale}.

(** [formatChartTime] of a timestamp in seconds *)
Definition formatChartTime (timestamp : Z) (granularity : TimeGranularity) : jsstr :=
  let d := dayjs (timestamp * 1000) in
  let result := day_format d (u "MM-DD") in
  match granularity with
  | hour => result ++ u " " ++ day_format d (u "HH") ++ u ":00"
  | week => result ++ u " - " ++ day_format (day_add d 6) (u "MM-DD")
  | day => result
  end.

Definition item_time (g : TimeGranularity) (item : QuotaDataItem) : jsstr := formatChartTime (created_at item) g.

(** The maps of the models are updated in place. *)
Definition timeModelMap (g : TimeGranularity) (data : list QuotaDataItem) : list (jsstr * stats_map) :=
  foldl (fun m item =>
    let timeKey := item_time g item in
    map_set timeKey (add_to no_stats add_stats (item_model item) (item_stats item) (default [] (map_get timeKey m))) m) [] data.

Definition sortedTimes (g : TimeGranularity) (data : list QuotaDataItem) : list jsstr := js_sort str_cmp (timeModelMap g data).*1.
Definition sortedModels (data : list QuotaDataItem) : list jsstr := js_sort str_cmp (modelTotalsMap data).*1.

(** [Math.max(...data.map(...))], for data that is not empty *)
Definition lastTime (data : list QuotaDataItem) : Z :=
  match data with [] => 0 | item :: data => foldl (fun m x => Z.max m (created_at x)) (created_at item) data end.

Definition interval_seconds (g : TimeGranularity) : Z := match g with week => 604800 | day => 86400 | hour => 3600 end.

Definition fillTimePoints (g : TimeGranularity) (data : list QuotaDataItem) (times : list jsstr) : list jsstr :=
  if MAX_CHART_TREND_POINTS <=? Z.of_nat (length times) then times
  else map (fun i => formatChartTime (lastTime data - (MAX_CHART_TREND_POINTS - 1 - i) * interval_seconds g) g)
         (seqZ 0 MAX_CHART_TREND_POINTS).

Definition chartTimes (g : TimeGranularity) (data : list QuotaDataItem) : list jsstr := fillTimePoints g data (sortedTimes g data).

(** [timeModelMap.get(time)?.get(model)] *)
Definition stats_at (m : list (jsstr * stats_map)) (time model : jsstr) : Stats :=
  default no_stats (map_get time m ≫= map_get model).

Definition totalTimes (data : list QuotaDataItem) : Z := reduce_sum (fun kv => st_count kv.2) (modelTotalsMap data).
Definition totalQuotaRaw (data : list QuotaDataItem) : Z := reduce_sum (fun kv => st_quota kv.2) (modelTotalsMap data).

(** Models by calls, and by quota. *)
Definition pieValues (data : list QuotaDataItem) : list (jsstr * Z) :=
  js_sort (descending snd) (map (fun kv => (kv.1, st_count kv.2)) (modelTotalsMap data)).

Definition rankedQuotaModels (data : list QuotaDataItem) : list (jsstr * Z) :=
  js_sort (descending snd) (map (fun kv => (kv.1, st_quota kv.2)) (modelTotalsMap data)).

Definition rankedTrendModels (data : list QuotaDataItem) : list (jsstr * Z) :=
  js_sort (descending snd) (map (fun kv => (kv.1, st_count kv.2)) (modelTotalsMap data)).

Definition rankValues (otherLabel : jsstr) (data : list QuotaDataItem) : list (jsstr * Z) :=
  let all := rankedTrendModels data in
  if (MAX_RANK_MODELS <? length all)%nat
  then take MAX_RANK_MODELS all ++ [(otherLabel, reduce_sum snd (drop MAX_RANK_MODELS all))]
  else all.

(** [a.Time.localeCompare(b.Time)] *)
Definition by_time {A} (time : A -> jsstr) (a b : A) : Z := localeCompare (time a) (time b).

Definition line_block (quotaPerUnit : number) (g : TimeGranularity) (data : list QuotaDataItem) (time : jsstr) : list UsageRow :=
  let m := timeModelMap g data in
  let rows := map (fun model => let raw := st_quota (stats_at m time model) in mkUsageRow time model raw (usage_of quotaPerUnit raw) 0)
                (sortedModels data) in
  let timeSum := reduce_sum rawQuota rows in
  map (fun r => mkUsageRow (Time r) (Model r) (rawQuota r) (Usage r) timeSum) (js_sort (descending rawQuota) rows).

Definition lineValues (quotaPerUnit : number) (g : TimeGranularity) (data : list QuotaDataItem) : list UsageRow :=
  js_sort (by_time Time) (concat (map (line_block quotaPerUnit g data) (chartTimes g data))).

Definition topAreaModels (data : list QuotaDataItem) : list jsstr := map fst (take MAX_AREA_MODELS (rankedQuotaModels data)).

(** Quota and amount of a bucket; the amount is rounded at every step. *)
Definition add_bucket (prev new : Z * number) : Z * number :=
  (prev.1 + new.1, str_to_num (to_fixed 4 (num_add prev.2 new.2))).

Definition area_buckets (otherLabel : jsstr) (quotaPerUnit : number) (g : TimeGranularity) (data : list QuotaDataItem) (time : jsstr)
  : list (jsstr * (Z * number)) :=
  let m := timeModelMap g data in
  foldl (fun buckets model =>
      let raw := st_quota (stats_at m time model) in
      let key := if includes (topAreaModels data) model then model else otherLabel in
      add_to (0, num_of_Z 0) add_bucket key (raw, usage_of quotaPerUnit raw) buckets)
    [] (sortedModels data).

Definition area_block (otherLabel : jsstr) (quotaPerUnit : number) (g : TimeGranularity) (data : list QuotaDataItem) (time : jsstr)
  : list UsageRow :=
  let timeSum := reduce_sum (fun model => st_quota (stats_at (timeModelMap g data) time model)) (sortedModels data) in
  map (fun kv => mkUsageRow time kv.1 kv.2.1 kv.2.2 timeSum) (area_buckets otherLabel quotaPerUnit g data time).

Definition areaValues (otherLabel : jsstr) (quotaPerUnit : number) (g : TimeGranularity) (data : list QuotaDataItem) : list UsageRow :=
  js_sort (by_time Time) (concat (map (area_block otherLabel quotaPerUnit g data) (chartTimes g data))).

Definition trend_block (otherLabel : jsstr) (g : TimeGranularity) (data : list QuotaDataItem) (time : jsstr) : list TrendRow :=
  let calls model := st_count (stats_at (timeModelMap g data) time model) in
  let topTrendModels := map fst (take MAX_TREND_MODELS (rankedTrendModels data)) in
  let otherTrendModels := map fst (drop MAX_TREND_MODELS (rankedTrendModels data)) in
  map (fun model => mkTrendRow time model (calls model)) topTrendModels ++
  match otherTrendModels with [] => [] | _ => [mkTrendRow time otherLabel (reduce_sum calls otherTrendModels)] end.

Definition modelLineValues (otherLabel : jsstr) (g : TimeGranularity) (data : list QuotaDataItem) : list TrendRow :=
  js_sort (by_time tr_time) (concat (map (trend_block otherLabel g data) (chartTimes g data))).

(** ** Users *)

Definition userQuotaTotal (data : list QuotaDataItem) : list (jsstr * Z) :=
  foldl (fun m item => add_to 0 Z.add (item_user item) (default 0 (quota item)) m) [] data.

Definition topUsers (limit : nat) (data : list QuotaDataItem) : list (jsstr * Z) :=
  take limit (js_sort (descending snd) (userQuotaTotal data)).

Definition user_usage (quotaPerUnit : number) (raw : Z) : number := str_to_num (to_fixed 4 (num_div (num_of_Z raw) quotaPerUnit)).

Definition user_rankValues (quotaPerUnit : number) (limit : nat) (data : list QuotaDataItem) : list (jsstr * Z * number) :=
  map (fun kv => (kv.1, kv.2, user_usage quotaPerUnit kv.2)) (topUsers limit data).

Definition timeUserMap (g : TimeGranularity) (limit : nat) (data : list QuotaDataItem) : list (jsstr * list (jsstr * Z)) :=
  foldl (fun m item =>
    let timeKey := item_time g item in
    let user := item_user item in
    if negb (includes (topUsers limit data).*1 user) then m
    else map_set timeKey (add_to 0 Z.add user (default 0 (quota item)) (default [] (map_get timeKey m))) m) [] data.

Definition sortedTimePoints (g : TimeGranularity) (data : list QuotaDataItem) : list jsstr := js_sort str_cmp (js_set (map (item_time g) data)).

Definition trendValues (quotaPerUnit : number) (g : TimeGranularity) (limit : nat) (data : list QuotaDataItem) : list UserRow :=
  concat (map (fun time =>
      map (fun user => let q := default 0 (map_get time (timeUserMap g limit data) ≫= map_get user) in
                       mkUserRow time user q (user_usage quotaPerUnit q)) (topUsers limit data).*1)
    (sortedTimePoints g data)).

End charts.

(** ** Texts *)

Section texts.
Context {I : Intl}.
(** The currency of the store. *)
Context (stored : option StoredCurrency).

Definition renderQuotaCompat (rawQuota digits : Z) : jsstr :=
  let '(config, meta) := getCurrencyDisplay stored in
  let show symbol rate :=
    let value := num_mul (num_div (num_of_Z rawQuota) (quotaPerUnit config)) rate in
    let fixed := to_fixed digits value in
    if num_eq (parse_float fixed) (num_of_Z 0) && (0 <? rawQuota) && num_gt value (num_of_Z 0)
    then symbol ++ to_fixed digits (pow10 (- digits)) else symbol ++ fixed in
  match meta with
  | MTokens _ => intl_format (mkIntl None None None None None 3) (num_of_Z rawQuota)
  | MCurrency symbol _ rate | MCustom symbol rate => show symbol rate
  end.

Definition formatInt (value : Z) : jsstr := intl_format (mkIntl None None None None None 0) (num_of_Z value).

(** A line of a tooltip: the raw value, and of the row behind it the quota and
    the sum of its time. *)
Record TooltipLineItem := mkLine { tl_key : jsstr; tl_value : Z; tl_datum : option (Z * Z) }.

Definition isOtherTooltipKey (otherLabel key : jsstr) : bool := bool_decide (key = u "Other") || bool_decide (key = otherLabel).

(** The sum of the time is read off the last line that has one. *)
Definition tooltip_sum (array : list TooltipLineItem) : Z :=
  foldl (fun sum item => match tl_datum item with Some (_, timeSum) => if timeSum =? 0 then sum else timeSum | None => sum end) 0 array.

Definition tooltip_order (otherLabel : jsstr) (array : list TooltipLineItem) : list TooltipLineItem * list TooltipLineItem :=
  (js_sort (descending tl_value) (bfilter (fun item => negb (isOtherTooltipKey otherLabel (tl_key item))) array),
   bfilter (fun item => isOtherTooltipKey otherLabel (tl_key item)) array).

Definition raw_of (item : TooltipLineItem) : Z := match tl_datum item with Some (raw, _) => raw | None => 0 end.

(** Keys with quotas, before they are formatted. *)
Definition tooltip_lines (otherLabel : jsstr) (collapseOverflow : bool) (array : list TooltipLineItem) : list (jsstr * Z) :=
  let '(modelItems, otherItems) := tooltip_order otherLabel array in
  let all := modelItems ++ otherItems in
  let shown l := map (fun item => (tl_key item, tl_value item)) l in
  if collapseOverflow && (MAX_TOOLTIP_MODELS <? length all)%nat
  then shown (take MAX_TOOLTIP_MODELS modelItems) ++
       [(otherLabel, reduce_sum raw_of (drop MAX_TOOLTIP_MODELS modelItems ++ otherItems))]
  else shown all.

Definition makeTooltipDimensionUpdateContent (tt : jsstr -> jsstr) (collapseOverflow : bool) (array : list TooltipLineItem)
  : list (jsstr * jsstr) :=
  let otherLabel := tt (u "Other") in
  let '(modelItems, otherItems) := tooltip_order otherLabel array in
  (tt (u "Total:"), renderQuotaCompat (tooltip_sum (modelItems ++ otherItems)) 4) ::
  map (fun kv => (kv.1, renderQuotaCompat kv.2 4)) (tooltip_lines otherLabel collapseOverflow array).

(** The tooltip of the call trend. *)
Definition trend_updateContent (tt : jsstr -> jsstr) (array : list (jsstr * Z)) : list (jsstr * jsstr) :=
  let otherLabel := tt (u "Other") in
  let modelItems := js_sort (descending snd) (bfilter (fun item => negb (isOtherTooltipKey otherLabel item.1)) array) in
  let otherItems := bfilter (fun item => isOtherTooltipKey otherLabel item.1) array in
  (tt (u "Total:"), formatInt (reduce_sum snd (modelItems ++ otherItems))) ::
  map (fun item => (item.1, formatInt item.2)) (modelItems ++ otherItems).

(** The tooltip of the users' trend. *)
Definition user_updateContent (tt : jsstr -> jsstr) (array : list (jsstr * Z)) : list (jsstr * jsstr) :=
  let sorted := js_sort (descending snd) array in
  (tt (u "Total:"), renderQuotaCompat (reduce_sum snd sorted) 2) :: map (fun item => (item.1, renderQuotaCompat item.2 2)) sorted.

Section data.
Context {D : Dayjs} {L : Locale}.

(** The values of the charts; [None] for an empty list of records. *)
Record ProcessedChartData := mkCharts {
  pd_pie : list (jsstr * Z);
  pd_line : list UsageRow;
  pd_area : list UsageRow;
  pd_model_line : list TrendRow;
  pd_rank_bar : list (jsstr * Z);
  totalQuotaDisplay : jsstr;
  totalCountDisplay : jsstr;
}.

Definition processChartData (data : list QuotaDataItem) (g : TimeGranularity) (tt : jsstr -> jsstr) : ProcessedChartData :=
  let otherLabel := tt (u "Other") in
  match data with
  | [] => mkCharts [] [] [] [] [] (renderQuotaCompat 0 2) (formatInt 0)
  | _ =>
      let perUnit := quotaPerUnit (getCurrencyDisplay stored).1 in
      mkCharts (pieValues data) (lineValues perUnit g data) (areaValues otherLabel perUnit g data) (modelLineValues otherLabel g data)
        (rankValues otherLabel data) (renderQuotaCompat (totalQuotaRaw data) 2) (formatInt (totalTimes data))
  end.

Record ProcessedUserChartData := mkUserCharts {
  pu_rank : list (jsstr * Z * number);
  pu_trend : list UserRow;
  pu_subtext : jsstr;
}.

Definition processUserChartData (data : list QuotaDataItem) (g : TimeGranularity) (tt : jsstr -> jsstr) (limit : nat)
  : ProcessedUserChartData :=
  match data with
  | [] => mkUserCharts [] [] (tt (u "No data available"))
  | _ =>
      let perUnit := quotaPerUnit (getCurrencyDisplay stored).1 in
      mkUserCharts (user_rankValues perUnit limit data) (trendValues perUnit g limit data)
        (tt (u "Total:") ++ u " " ++ renderQuotaCompat (reduce_sum snd (topUsers limit data)) 2)
  end.

End data.

End texts.

(** ** Colours *)

Definition DEFAULT_CHART_COLOR_SCHEMES : list (option Z * list jsstr) :=
  [(Some 10, [u "#1664FF"; u "#1AC6FF"; u "#FF8A00"; u "#3CC780"; u "#7442D4"; u "#FFC400"; u "#304D77"; u "#B48DEB"; u "#009488"; u "#FF7DDA"]);
   (None, [u "#1664FF"; u "#B2CFFF"; u "#1AC6FF"; u "#94EFFF"; u "#FF8A00"; u "#FFCE7A"; u "#3CC780"; u "#B9EDCD"; u "#7442D4"; u "#DDC5FA";
           u "#FFC400"; u "#FAE878"; u "#304D77"; u "#8B959E"; u "#B48DEB"; u "#EFE3FF"; u "#009488"; u "#59BAA8"; u "#FF7DDA"; u "#FFCFEE"])].

(** [themeColors] as the page's theme has them. *)
Definition getVChartDefaultColors (domainLength : nat) (themeColors : list jsstr) : list jsstr :=
  match themeColors with
  | [] =>
      match List.find (fun item => match item.1 with None => true | Some n => Z.of_nat domainLength <=? n end) DEFAULT_CHART_COLOR_SCHEMES with
      | Some item => item.2
      | None => default [] (snd <$> last DEFAULT_CHART_COLOR_SCHEMES)
      end
  | _ => map (fun i => default [] (themeColors !! (i mod length themeColors)%nat)) (seq 0 (Nat.max domainLength (length themeColors)))
  end.

Definition modelColorDomain (otherLabel : jsstr) (data : list QuotaDataItem) : list jsstr := js_set (sortedModels data ++ [otherLabel]).

(** ** Lemmas: sums *)

Fixpoint sumZ {A} (f : A -> Z) (l : list A) : Z := match l with [] => 0 | x :: l => f x + sumZ f l end.

#[export] Instance sumZ_perm {A} (f : A -> Z) : Proper ((≡ₚ) ==> eq) (sumZ f).
Proof. intros l k H. induction H; cbn; lia. Qed.

Lemma reduce_sum_from {A} (f : A -> Z) l : forall z, foldl (fun sum x => sum + f x) z l = z + sumZ f l.
Proof. induction l as [|x l IH]; intros z; cbn [foldl sumZ]; [lia|]. rewrite IH. lia. Qed.

Lemma reduce_sumZ {A} (f : A -> Z) l : reduce_sum f l = sumZ f l.
Proof. unfold reduce_sum. rewrite reduce_sum_from. lia. Qed.

Lemma sumZ_app {A} (f : A -> Z) l k : sumZ f (l ++ k) = sumZ f l + sumZ f k.
Proof. induction l as [|x l IH]; cbn; [lia|]. rewrite IH. lia. Qed.

Lemma sumZ_map {A B} (g : A -> B) (f : B -> Z) l : sumZ f (map g l) = sumZ (fun x => f (g x)) l.
Proof. induction l as [|x l IH]; cbn; [done|]. by rewrite IH. Qed.

Lemma sumZ_concat {A B} (f : B -> Z) (g : A -> list B) l : sumZ f (concat (map g l)) = sumZ (fun x => sumZ f (g x)) l.
Proof. induction l as [|x l IH]; cbn; [done|]. by rewrite sumZ_app, IH. Qed.

Lemma sumZ_ext {A} (f g : A -> Z) l : (forall x, x ∈ l -> f x = g x) -> sumZ f l = sumZ g l.
Proof. induction l as [|x l IH]; intros H; cbn; [done|]. rewrite H by set_solver. rewrite IH; [done|]. intros y Hy. apply H. set_solver. Qed.

Lemma sumZ_zero {A} (f : A -> Z) l : (forall x, x ∈ l -> f x = 0) -> sumZ f l = 0.
Proof. intros H. rewrite (sumZ_ext f (fun _ => 0)) by done. clear H. induction l as [|x l IH]; cbn; lia. Qed.

Lemma sumZ_plus {A} (f g : A -> Z) l : sumZ (fun x => f x + g x) l = sumZ f l + sumZ g l.
Proof. induction l as [|x l IH]; cbn; [done|]. rewrite IH. lia. Qed.

(** The sum over the elements with a given key. *)
Definition sum_at {A K} `{!EqDecision K} (key : A -> K) (q : K) (f : A -> Z) (l : list A) : Z :=
  sumZ (fun x => if decide (key x = q) then f x else 0) l.

Lemma sum_at_one {K} `{!EqDecision K} (q : K) (z : Z) S : NoDup S -> q ∈ S -> sumZ (fun s => if decide (q = s) then z else 0) S = z.
Proof.
  induction S as [|s S IH]; intros Hn Hq; [by apply not_elem_of_nil in Hq|]. apply NoDup_cons in Hn as [Hs Hn]. cbn.
  case_decide as E.
  - subst s. rewrite sumZ_zero; [lia|]. intros x Hx. rewrite decide_False by congruence. done.
  - rewrite IH; [lia|done|set_solver].
Qed.

(** Elements are counted once when every key is there once. *)
Lemma sum_by_key {A K} `{!EqDecision K} (key : A -> K) (f : A -> Z) (l : list A) (S : list K) :
  NoDup S -> (forall x, x ∈ l -> key x ∈ S) -> sumZ (fun s => sum_at key s f l) S = sumZ f l.
Proof.
  intros Hn. induction l as [|x l IH]; intros Hl; unfold sum_at; cbn; [by apply sumZ_zero|].
  rewrite sumZ_plus, sum_at_one; [|done|apply Hl; set_solver]. f_equal. apply IH. intros y Hy. apply Hl. set_solver.
Qed.

Lemma sum_at_bfilter {A K} `{!EqDecision K} (key : A -> K) q f (l : list A) :
  sum_at key q f l = sumZ f (bfilter (fun x => bool_decide (key x = q)) l).
Proof.
  unfold sum_at. induction l as [|x l IH]; cbn; [done|]. rewrite IH. case_bool_decide; case_decide; try done; cbn; lia.
Qed.

(** ** Lemmas: maps of sums *)

Section grouping.
Context {A K V : Type} `{!EqDecision K} (zero : V) (add : V -> V -> V) (key : A -> K) (val : A -> V).
Context (f : V -> Z) (f_zero : f zero = 0) (f_add : forall a b, f (add a b) = f a + f b).

Definition grouped (l : list A) : list (K * V) := foldl (fun m x => add_to zero add (key x) (val x) m) [] l.

Lemma grouped_snoc l x : grouped (l ++ [x]) = add_to zero add (key x) (val x) (grouped l).
Proof. unfold grouped. by rewrite foldl_app. Qed.

Lemma grouped_keys l : (grouped l).*1 = js_set (map key l).
Proof.
  induction l as [|x l IH] using rev_ind; [done|]. rewrite grouped_snoc, map_app. unfold add_to. rewrite map_set_keys, IH.
  unfold js_set. by rewrite foldl_app.
Qed.

Lemma grouped_NoDup l : NoDup (grouped l).*1.
Proof. rewrite grouped_keys. apply js_set_NoDup. Qed.

Lemma grouped_get l q : f (default zero (map_get q (grouped l))) = sum_at key q (fun x => f (val x)) l.
Proof.
  induction l as [|x l IH] using rev_ind; [done|]. rewrite grouped_snoc. unfold add_to, sum_at in *. rewrite sumZ_app, <-IH, map_get_set.
  cbn [sumZ]. case_decide as E; cbn [from_option]; unfold id; [subst q; rewrite f_add|]; lia.
Qed.

Lemma grouped_sum l : sumZ (fun kv => f kv.2) (grouped l) = sumZ (fun x => f (val x)) l.
Proof.
  rewrite <-(sum_by_key key (fun x => f (val x)) l (grouped l).*1); [|apply grouped_NoDup|].
  - change ((grouped l).*1) with (map fst (grouped l)). rewrite sumZ_map. apply sumZ_ext. intros [q v] Hq. cbn [fst snd].
    rewrite <-grouped_get. apply map_get_elem in Hq; [|apply grouped_NoDup]. by rewrite Hq.
  - intros x Hx. rewrite grouped_keys. apply elem_of_js_set. by apply list_elem_of_fmap_2.
Qed.

(** Maps of sums, in a map. *)
Context {T : Type} `{!EqDecision T} (time : A -> T).

Definition nested (l : list A) : list (T * list (K * V)) :=
  foldl (fun m x => map_set (time x) (add_to zero add (key x) (val x) (default [] (map_get (time x) m))) m) [] l.

Lemma nested_snoc l x :
  nested (l ++ [x]) = map_set (time x) (add_to zero add (key x) (val x) (default [] (map_get (time x) (nested l)))) (nested l).
Proof. unfold nested. by rewrite foldl_app. Qed.

Lemma nested_get l t : default [] (map_get t (nested l)) = grouped (bfilter (fun x => bool_decide (time x = t)) l).
Proof.
  induction l as [|x l IH] using rev_ind; [done|]. rewrite nested_snoc, map_get_set, List.filter_app. cbn [List.filter].
  case_decide as E; case_bool_decide; try done.
  - rewrite grouped_snoc. subst t. by rewrite IH.
  - by rewrite app_nil_r.
Qed.

Lemma nested_keys l : (nested l).*1 = js_set (map time l).
Proof.
  induction l as [|x l IH] using rev_ind; [done|]. rewrite nested_snoc, map_app, map_set_keys, IH. unfold js_set. by rewrite foldl_app.
Qed.

End grouping.

(** ** Lemmas: charts *)

Section theory.
Context {D : Dayjs} {L : Locale}.
Context (g : TimeGranularity) (data : list QuotaDataItem).

Definition at_time (time : jsstr) : list QuotaDataItem := bfilter (fun x => bool_decide (item_time g x = time)) data.
Definition quota_of (item : QuotaDataItem) : Z := default 0 (quota item).
Definition count_of (item : QuotaDataItem) : Z := default 0 (count item).

(** A quantity that is summed. *)
Definition additive (f : Stats -> Z) : Prop := f no_stats = 0 /\ forall a b, f (add_stats a b) = f a + f b.

Lemma quota_additive : additive st_quota.
Proof. done. Qed.
Lemma count_additive : additive st_count.
Proof. done. Qed.

Lemma totals_sum f : additive f -> sumZ (fun kv => f kv.2) (modelTotalsMap data) = sumZ (fun x => f (item_stats x)) data.
Proof. intros [H0 Ha]. exact (grouped_sum no_stats add_stats item_model item_stats f H0 Ha data). Qed.

Lemma totals_keys : (modelTotalsMap data).*1 = js_set (map item_model data).
Proof. exact (grouped_keys no_stats add_stats item_model item_stats data). Qed.

Lemma times_keys : (timeModelMap g data).*1 = js_set (map (item_time g) data).
Proof. exact (nested_keys no_stats add_stats item_model item_stats (item_time g) data). Qed.

Lemma stats_at_sum f time model : additive f ->
  f (stats_at (timeModelMap g data) time model) = sum_at item_model model (fun x => f (item_stats x)) (at_time time).
Proof.
  intros [H0 Ha]. rewrite <-(grouped_get no_stats add_stats item_model item_stats f H0 Ha).
  unfold at_time. rewrite <-(nested_get no_stats add_stats item_model item_stats (item_time g)). unfold stats_at.
  change (nested no_stats add_stats item_model item_stats (item_time g) data) with (timeModelMap g data).
  by destruct (map_get time (timeModelMap g data)).
Qed.

(** Summed over all models. *)
Lemma models_sum f S time : additive f -> NoDup S -> (forall x, x ∈ data -> item_model x ∈ S) ->
  sumZ (fun model => f (stats_at (timeModelMap g data) time model)) S = sumZ (fun x => f (item_stats x)) (at_time time).
Proof.
  intros Hf HS Hin. rewrite (sumZ_ext _ (fun model => sum_at item_model model (fun x => f (item_stats x)) (at_time time))).
  - apply sum_by_key; [done|]. intros x [Hx _]%elem_of_bfilter. by apply Hin.
  - intros model _. by apply stats_at_sum.
Qed.

Lemma sortedModels_ok : NoDup (sortedModels data) /\ forall x, x ∈ data -> item_model x ∈ sortedModels data.
Proof.
  unfold sortedModels. rewrite totals_keys. split; [rewrite js_sort_perm; apply js_set_NoDup|].
  intros x Hx. rewrite js_sort_perm. apply elem_of_js_set. by apply list_elem_of_fmap_2.
Qed.

Lemma sortedTimes_ok : NoDup (sortedTimes g data) /\ forall x, x ∈ data -> item_time g x ∈ sortedTimes g data.
Proof.
  unfold sortedTimes. rewrite times_keys. split; [rewrite js_sort_perm; apply js_set_NoDup|].
  intros x Hx. rewrite js_sort_perm. apply elem_of_js_set. by apply list_elem_of_fmap_2.
Qed.

Lemma ranked_models (h : jsstr * Stats -> Z) :
  map fst (js_sort (descending snd) (map (fun kv => (kv.1, h kv)) (modelTotalsMap data))) ≡ₚ js_set (map item_model data).
Proof. rewrite js_sort_perm, map_map, <-totals_keys. done. Qed.

(** ** Lemmas: the rows of a time *)

Lemma line_block_ok perUnit time :
  Forall (fun r => Time r = time /\ TimeSum r = sumZ quota_of (at_time time)) (line_block perUnit g data time) /\
  sumZ rawQuota (line_block perUnit g data time) = sumZ quota_of (at_time time).
Proof.
  unfold line_block. set (rows := map _ (sortedModels data)).
  assert (sumZ rawQuota rows = sumZ quota_of (at_time time)) as Hs.
  { unfold rows. rewrite sumZ_map. cbn [rawQuota]. apply (models_sum st_quota); [done|apply sortedModels_ok..]. }
  rewrite reduce_sumZ, Hs. split.
  - apply Forall_forall. intros r (r0 & -> & Hr0)%list_elem_of_fmap. split; [|done]. rewrite js_sort_perm in Hr0.
    by apply list_elem_of_fmap in Hr0 as (m & -> & _).
  - rewrite sumZ_map. cbn [rawQuota]. rewrite js_sort_perm. exact Hs.
Qed.

Lemma area_block_ok other perUnit time :
  Forall (fun r => Time r = time /\ TimeSum r = sumZ quota_of (at_time time)) (area_block other perUnit g data time) /\
  sumZ rawQuota (area_block other perUnit g data time) = sumZ quota_of (at_time time).
Proof.
  unfold area_block. rewrite reduce_sumZ.
  assert (sumZ (fun model => st_quota (stats_at (timeModelMap g data) time model)) (sortedModels data) = sumZ quota_of (at_time time)) as Hs
    by (apply (models_sum st_quota); [done|apply sortedModels_ok..]).
  rewrite Hs. split.
  - apply Forall_forall. by intros r (kv & -> & _)%list_elem_of_fmap.
  - rewrite sumZ_map. cbn [rawQuota]. rewrite <-Hs. unfold area_buckets.
    exact (grouped_sum (0, num_of_Z 0) add_bucket (fun model => if includes (topAreaModels data) model then model else other)
      (fun model => (st_quota (stats_at (timeModelMap g data) time model), usage_of perUnit (st_quota (stats_at (timeModelMap g data) time model))))
      fst eq_refl (fun _ _ => eq_refl) (sortedModels data)).
Qed.

Lemma trend_block_ok other time :
  Forall (fun r => tr_time r = time) (trend_block other g data time) /\
  sumZ tr_count (trend_block other g data time) = sumZ count_of (at_time time).
Proof.
  unfold trend_block. set (calls := fun model => st_count (stats_at (timeModelMap g data) time model)). set (all := rankedTrendModels data).
  assert (sumZ calls (map fst all) = sumZ count_of (at_time time)) as Hs.
  { unfold all, rankedTrendModels. rewrite (ranked_models (fun kv => st_count kv.2)). apply (models_sum st_count); [done|apply js_set_NoDup|].
    intros x Hx. apply elem_of_js_set. by apply list_elem_of_fmap_2. }
  rewrite <-(take_drop MAX_TREND_MODELS all), map_app, sumZ_app in Hs.
  split.
  - apply Forall_app. split; [by apply Forall_map, Forall_forall|]. destruct (map fst (drop _ _)); by repeat constructor.
  - rewrite sumZ_app, sumZ_map, <-Hs. cbn [tr_count]. f_equal. destruct (map fst (drop _ _)) as [|m l]; [done|].
    cbn [sumZ tr_count]. rewrite reduce_sumZ. cbn [sumZ]. lia.
Qed.

(** Summed over the times of a chart. *)
Lemma blocks_sum {A} (time : A -> jsstr) (f : A -> Z) (block : jsstr -> list A) (X : jsstr -> Z) times t :
  (forall s, Forall (fun r => time r = s) (block s) /\ sumZ f (block s) = X s) ->
  sum_at time t f (js_sort (by_time time) (concat (map block times))) = occurrences t times * X t.
Proof.
  intros Hb. unfold sum_at. rewrite js_sort_perm, sumZ_concat.
  rewrite (sumZ_ext _ (fun s => if decide (s = t) then X t else 0)).
  - induction times as [|s times IH]; [done|]. cbn [sumZ]. rewrite IH. change (s :: times) with ([s] ++ times).
    rewrite occurrences_app, occurrences_one. case_decide; case_bool_decide; try done; lia.
  - intros s _. destruct (Hb s) as [Ht Hf]. rewrite Forall_forall in Ht. case_decide as E.
    + subst t. rewrite <-Hf. apply sumZ_ext. intros r Hr. by rewrite decide_True by by apply Ht.
    + apply sumZ_zero. intros r Hr. rewrite decide_False; [done|]. by rewrite (Ht r Hr).
Qed.

Lemma Forall_blocks {A} (time : A -> jsstr) (Q : jsstr -> A -> Prop) (block : jsstr -> list A) times :
  (forall s, Forall (fun r => time r = s /\ Q s r) (block s)) ->
  Forall (fun r => Q (time r) r) (js_sort (by_time time) (concat (map block times))).
Proof.
  intros Hb. rewrite js_sort_perm. apply Forall_concat, Forall_map, Forall_forall. intros s _.
  eapply Forall_impl; [apply Hb|]. intros r [-> H]. exact H.
Qed.

(** ** Lemmas: users *)

Lemma users_alt : userQuotaTotal data = grouped 0 Z.add item_user quota_of data.
Proof. done. Qed.

Lemma user_total_elem user q : (user, q) ∈ userQuotaTotal data -> q = sum_at item_user user quota_of data.
Proof.
  intros H. apply map_get_elem in H; [|apply grouped_NoDup]. rewrite users_alt in H.
  pose proof (grouped_get 0 Z.add item_user quota_of (fun z => z) eq_refl (fun _ _ => eq_refl) data user) as Hg. by rewrite H in Hg.
Qed.

Lemma topUsers_sublist limit : exists rest, topUsers limit data ++ rest ≡ₚ userQuotaTotal data /\
  (forall a b, a ∈ topUsers limit data -> b ∈ rest -> b.2 <= a.2) /\ StronglySorted (fun a b => b.2 <= a.2) (topUsers limit data).
Proof.
  set (all := js_sort (descending snd) (userQuotaTotal data)). exists (drop limit all).
  assert (SortsBy (@descending (jsstr * Z) snd) (fun a b => b.2 <= a.2)) as Hsb by (split; unfold descending; [intros x y z|..]; intros; lia).
  pose proof (js_sort_sorted (descending snd) (fun a b => b.2 <= a.2) (userQuotaTotal data)) as Hs. fold all in Hs.
  change (topUsers limit data) with (take limit all). rewrite take_drop. split; [apply js_sort_perm|].
  rewrite <-(take_drop limit all) in Hs. split.
  - intros a b Ha Hb. by eapply (StronglySorted_app_1_elem_of (fun a b : jsstr * Z => b.2 <= a.2)).
  - by eapply StronglySorted_app_1_l.
Qed.

Lemma foldl_filtered {A B} (p : A -> bool) (h : B -> A -> B) l : forall b,
  foldl (fun m x => if negb (p x) then m else h m x) b l = foldl h b (bfilter p l).
Proof. induction l as [|x l IH]; intros b; [done|]. cbn. by destruct (p x); cbn; rewrite IH. Qed.

Lemma sumZ_bfilter {A} (p : A -> bool) (f : A -> Z) l : sumZ f (bfilter p l) = sumZ (fun x => if p x then f x else 0) l.
Proof. induction l as [|x l IH]; [done|]. cbn. rewrite <-IH. by destruct (p x). Qed.

(** What a shown user used at a time. *)
Lemma user_at limit time user : user ∈ (topUsers limit data).*1 ->
  default 0 (map_get time (timeUserMap g limit data) ≫= map_get user) =
  sumZ (fun x => if decide (item_user x = user) then if decide (item_time g x = time) then quota_of x else 0 else 0) data.
Proof.
  intros Hu. set (shown := fun x => includes (topUsers limit data).*1 (item_user x)).
  assert (timeUserMap g limit data = nested 0 Z.add item_user quota_of (item_time g) (bfilter shown data)) as ->
    by exact (foldl_filtered shown _ data []).
  set (m := nested _ _ _ _ _ _). transitivity (default 0 (map_get user (default [] (map_get time m)))); [by destruct (map_get time m)|].
  unfold m. rewrite nested_get.
  rewrite (grouped_get 0 Z.add item_user quota_of (fun z => z) eq_refl (fun _ _ => eq_refl)). unfold sum_at.
  rewrite !sumZ_bfilter. apply sumZ_ext. intros x _. unfold shown. destruct (decide (item_user x = user)) as [->|].
  - assert (includes (topUsers limit data).*1 user = true) as -> by by apply includes_true. by case_bool_decide; case_decide.
  - by destruct (includes _ _); [case_bool_decide|].
Qed.

Lemma user_trend_sum perUnit limit user : user ∈ (topUsers limit data).*1 -> NoDup (topUsers limit data).*1 ->
  sum_at us_user user us_quota (trendValues perUnit g limit data) = sum_at item_user user quota_of data.
Proof.
  intros Hu Hn. unfold sum_at, trendValues. rewrite sumZ_concat.
  rewrite (sumZ_ext _ (fun time => sum_at (item_time g) time (fun x => if decide (item_user x = user) then quota_of x else 0) data)).
  - apply sum_by_key.
    + unfold sortedTimePoints. rewrite js_sort_perm. apply js_set_NoDup.
    + intros x Hx. unfold sortedTimePoints. rewrite js_sort_perm. apply elem_of_js_set. by apply list_elem_of_fmap_2.
  - intros time _. rewrite sumZ_map. cbn [us_user us_quota].
    rewrite (sumZ_ext _ (fun s => if decide (user = s) then default 0 (map_get time (timeUserMap g limit data) ≫= map_get user) else 0)).
    + rewrite sum_at_one by done. rewrite user_at by done. unfold sum_at. apply sumZ_ext. intros x _. by do 2 case_decide.
    + intros s _. by do 2 case_decide; subst.
Qed.

(** ** Lemmas: the whole chart *)

Lemma ranked_sum other : sumZ snd (rankedTrendModels data) = sumZ count_of data /\ sumZ snd (rankValues other data) = sumZ count_of data.
Proof.
  assert (sumZ snd (rankedTrendModels data) = sumZ count_of data) as Hr.
  { unfold rankedTrendModels. rewrite js_sort_perm, sumZ_map. apply (totals_sum st_count). done. }
  split; [done|]. unfold rankValues. destruct (_ <? _)%nat; [|done]. rewrite <-Hr, sumZ_app. cbn [sumZ snd]. rewrite reduce_sumZ, Z.add_0_r.
  by rewrite <-sumZ_app, take_drop.
Qed.

Lemma blocks_total {A} (f : A -> Z) (time : A -> jsstr) (block : jsstr -> list A) (h : QuotaDataItem -> Z) :
  (forall s, sumZ f (block s) = sumZ h (at_time s)) -> chartTimes g data ≡ₚ js_set (map (item_time g) data) ->
  sumZ f (js_sort (by_time time) (concat (map block (chartTimes g data)))) = sumZ h data.
Proof.
  intros Hb Ht. rewrite js_sort_perm, sumZ_concat, Ht.
  rewrite (sumZ_ext _ (fun s => sum_at (item_time g) s h data)) by (intros s _; rewrite Hb; symmetry; apply sum_at_bfilter).
  apply sum_by_key; [apply js_set_NoDup|]. intros x Hx. apply elem_of_js_set. by apply list_elem_of_fmap_2.
Qed.

Lemma chartTimes_enough :
  MAX_CHART_TREND_POINTS <= Z.of_nat (length (js_set (map (item_time g) data))) -> chartTimes g data ≡ₚ js_set (map (item_time g) data).
Proof.
  intros H. unfold chartTimes, fillTimePoints, sortedTimes. rewrite times_keys, js_sort_length. apply Z.leb_le in H. rewrite H.
  apply js_sort_perm.
Qed.

End theory.

(** ** Theorems *)

(** C38. The charts of the dashboard lose nothing: the totals, the pie and the
    ranking add up to the records; at every time of the axis the bars, the areas
    and the call trend add up to the records of that time, hidden models
    included, as often as the axis has the time, and each row has the sum of its
    time; and with at least seven times among the records the axis has each of
    them once and every record is shown.  (Quotas and counts are integers; the
    code adds doubles, which is the same below 2^53.) *)
Theorem charts_conserve {D : Dayjs} {L : Locale} other perUnit g data :
  (totalTimes data = sumZ count_of data /\ totalQuotaRaw data = sumZ quota_of data /\
   sumZ snd (pieValues data) = sumZ count_of data /\ sumZ snd (rankValues other data) = sumZ count_of data) /\
  (forall time, let n := occurrences time (chartTimes g data) in
     sum_at Time time rawQuota (lineValues perUnit g data) = n * sumZ quota_of (at_time g data time) /\
     sum_at Time time rawQuota (areaValues other perUnit g data) = n * sumZ quota_of (at_time g data time) /\
     sum_at tr_time time tr_count (modelLineValues other g data) = n * sumZ count_of (at_time g data time)) /\
  Forall (fun r => TimeSum r = sumZ quota_of (at_time g data (Time r))) (lineValues perUnit g data ++ areaValues other perUnit g data) /\
  (MAX_CHART_TREND_POINTS <= Z.of_nat (length (js_set (map (item_time g) data))) ->
     chartTimes g data ≡ₚ js_set (map (item_time g) data) /\
     sumZ rawQuota (lineValues perUnit g data) = sumZ quota_of data /\ sumZ rawQuota (areaValues other perUnit g data) = sumZ quota_of data /\
     sumZ tr_count (modelLineValues other g data) = sumZ count_of data).
Proof.
  pose proof (line_block_ok g data perUnit) as Hl. pose proof (area_block_ok g data other perUnit) as Ha.
  pose proof (trend_block_ok g data other) as Ht. destruct (ranked_sum data other) as [Hp Hr].
  split; [|split; [|split]].
  - unfold totalTimes, totalQuotaRaw. rewrite !reduce_sumZ. by rewrite (totals_sum data st_count), (totals_sum data st_quota).
  - intros time. unfold lineValues, areaValues, modelLineValues. split; [|split].
    + apply blocks_sum with (X := fun t => sumZ quota_of (at_time g data t)). intros s. destruct (Hl s) as [H1 H2]. split; [|done].
      eapply Forall_impl; [exact H1|]. by intros r [].
    + apply blocks_sum with (X := fun t => sumZ quota_of (at_time g data t)). intros s. destruct (Ha s) as [H1 H2]. split; [|done].
      eapply Forall_impl; [exact H1|]. by intros r [].
    + exact (blocks_sum tr_time tr_count _ (fun t => sumZ count_of (at_time g data t)) _ time Ht).
  - apply Forall_app. split; apply (Forall_blocks Time (fun t r => TimeSum r = sumZ quota_of (at_time g data t))); intros s;
      [apply Hl|apply Ha].
  - intros He%chartTimes_enough. split; [done|].
    split; [|split]; apply blocks_total; try done; intros s; [apply Hl|apply Ha|apply Ht].
Qed.

(** C26. The users' charts: at most [limit] users, largest first, and no user
    who is left out used more; the ranking has the quota of each and the trend
    splits it over the times without loss. *)
Theorem user_charts_conserve {D : Dayjs} perUnit g limit data :
  let shown := topUsers limit data in
  (length shown <= limit)%nat /\ NoDup shown.*1 /\ StronglySorted (fun a b => b.2 <= a.2) shown /\
  (forall x user q, x ∈ data -> item_user x ∉ shown.*1 -> (user, q) ∈ shown -> sum_at item_user (item_user x) quota_of data <= q) /\
  (forall user q, (user, q) ∈ shown ->
     q = sum_at item_user user quota_of data /\ sum_at us_user user us_quota (trendValues perUnit g limit data) = q).
Proof.
  intros shown. destruct (topUsers_sublist data limit) as (rest & Hp & Hle & Hs). fold shown in Hp, Hle, Hs.
  assert (NoDup (shown ++ rest).*1) as Hn by (rewrite Hp; apply grouped_NoDup). rewrite fmap_app in Hn. apply NoDup_app in Hn as (Hn & _ & _).
  split; [unfold shown, topUsers; rewrite length_take; lia|]. split; [done|]. split; [done|]. split.
  - intros x user q Hx Hout Hin.
    assert (item_user x ∈ (shown ++ rest).*1) as Hxin.
    { rewrite Hp, users_alt, grouped_keys. apply elem_of_js_set. by apply list_elem_of_fmap_2. }
    rewrite fmap_app in Hxin. apply elem_of_app in Hxin as [|Hxin]; [done|].
    apply list_elem_of_fmap in Hxin as ([u' q'] & Hu & Hr). cbn in Hu. subst u'.
    assert ((item_user x, q') ∈ userQuotaTotal data) as He by (rewrite <-Hp; apply elem_of_app; by right).
    rewrite <-(user_total_elem data _ _ He). exact (Hle (user, q) (item_user x, q') Hin Hr).
  - intros user q Hin. assert ((user, q) ∈ userQuotaTotal data) as He by (rewrite <-Hp; apply elem_of_app; by left).
    apply user_total_elem in He. split; [done|]. rewrite He. apply user_trend_sum; [|done]. by apply (list_elem_of_fmap_2 fst _ (user, q)).
Qed.

(** The lines of a tooltip add up to its rows, collapsed or not, when the rows
    carry their quota. *)
Theorem tooltip_conserves other collapse array :
  Forall (fun item => raw_of item = tl_value item) array -> sumZ snd (tooltip_lines other collapse array) = sumZ tl_value array.
Proof.
  intros Hr. set (m := (tooltip_order other array).1). set (o := (tooltip_order other array).2).
  assert (m ++ o ≡ₚ array) as Hp.
  { unfold m, o, tooltip_order. cbn [fst snd]. rewrite js_sort_perm, Permutation_app_comm.
    exact (bfilter_split_perm (fun item => isOtherTooltipKey other (tl_key item)) array). }
  assert (tooltip_lines other collapse array =
    if collapse && (MAX_TOOLTIP_MODELS <? length (m ++ o))%nat
    then map (fun item => (tl_key item, tl_value item)) (take MAX_TOOLTIP_MODELS m) ++ [(other, reduce_sum raw_of (drop MAX_TOOLTIP_MODELS m ++ o))]
    else map (fun item => (tl_key item, tl_value item)) (m ++ o)) as -> by done.
  rewrite <-Hp. destruct (collapse && _); [|by rewrite sumZ_map]. rewrite sumZ_app, sumZ_map. cbn [sumZ snd].
  rewrite reduce_sumZ, (sumZ_ext raw_of tl_value).
  - rewrite Z.add_0_r, <-sumZ_app, app_assoc, take_drop. done.
  - rewrite <-Hp, Forall_forall in Hr. intros x Hx. apply Hr. rewrite <-(take_drop MAX_TOOLTIP_MODELS m), <-app_assoc. apply elem_of_app. by right.
Qed.

(** ** Dates in UTC *)

(** Month and day of a number of days since 1970. *)
Definition month_day (days : Z) : Z * Z :=
  let z := days + 719468 in
  let doe := z mod 146097 in
  let yoe := (doe - doe / 1460 + doe / 36524 - doe / 146096) / 365 in
  let doy := doe - (365 * yoe + yoe / 4 - yoe / 100) in
  let mp := (5 * doy + 2) / 153 in
  ((if mp <? 10 then mp + 3 else mp - 9), doy - (153 * mp + 2) / 5 + 1).

Definition two_digits (z : Z) : jsstr := if z <? 10 then u "0" ++ Z_to_str z else Z_to_str z.

Definition utc : Dayjs := {|
  Day := Z;
  dayjs ms := ms / 1000;
  day_format s f :=
    if bool_decide (f = u "HH") then two_digits (s / 3600 mod 24)
    else let '(m, d) := month_day (s / 86400) in two_digits m ++ u "-" ++ two_digits d;
  day_add s n := s + n * 86400;
|}.

Definition plain_locale : Locale := {| toLowerCase s := s; localeCompare := str_cmp |}.

#[local] Existing Instances utc plain_locale.

Example chart_time_sample : formatChartTime 1709210096 hour = u "02-29 12:00" /\ formatChartTime 1709210096 week = u "02-29 - 03-06".
Proof. vm_compute. done. Qed.

Definition record_at (t q : Z) : QuotaDataItem := mkItem (Some (u "ann")) (Some (u "m")) t None (Some 1) (Some q).

Definition bars (g : TimeGranularity) (data : list QuotaDataItem) : Z := sumZ rawQuota (lineValues (num_of_Z 500000) g data).

(** With fewer than seven times the axis is replaced by the seven times that
    end at the last record: usage of ten days before is in the total but on no
    bar; by week, whose times start on the day of each record, even the usage of
    the day before is missing. *)
Theorem sparse_usage_not_shown :
  (let data := [record_at 1704067200 700; record_at 1704931200 300] in totalQuotaRaw data = 1000 /\ bars day data = 300) /\
  (let data := [record_at 1704067200 700; record_at 1704153600 300] in totalQuotaRaw data = 1000 /\ bars day data = 1000 /\ bars week data = 300).
Proof. vm_compute. done. Qed.

(** The times are sorted as texts without their year: January comes before the
    December it follows. *)
Theorem new_year_out_of_order :
  sortedTimes day [record_at 1703980800 1; record_at 1704067200 1] = [u "01-01"; u "12-31"] /\
  formatChartTime 1703980800 day = u "12-31" /\ formatChartTime 1704067200 day = u "01-01".
Proof. vm_compute. done. Qed.

End Charts.
