(* ===== verification/DashboardFilters.v ===== *)
(** * Dashboard filters and preferences
    (web/default/src/features/dashboard/lib/filters.ts, constants.ts)

    The filters that are sent, and the preferences for the charts, which the
    browser keeps as JSON.  A write to the storage that the browser refuses
    throws here ([None]). *)

From S2P Require Import Prelude JsString JsNumber JsJson JsRegex JsExpr JsPrint PgTypes PgCodec PgMessages PgPayload PgStorage DashboardCharts.

Import Print Charts.
Open Scope Z_scope.

Module Filters.

Abbreviation obj := (list (jsstr * json)).
Abbreviation storage := Storage.storage.

(** ** Constants *)

Definition TIME_GRANULARITY_STORAGE_KEY : jsstr := u "data_export_default_time".
Definition DASHBOARD_CHART_PREFERENCES_STORAGE_KEY : jsstr := u "dashboard_models_chart_preferences".
Definition DEFAULT_TIME_GRANULARITY : TimeGranularity := hour.
Definition TIME_RANGE_PRESETS : list Z := [1; 7; 14; 29].
Definition TIME_RANGE_BY_GRANULARITY (g : TimeGranularity) : Z := match g with hour => 1 | day => 7 | week => 30 end.

Inductive ConsumptionDistributionChartType := chart_bar | chart_area.
Inductive ModelAnalyticsChartTab := tab_trend | tab_proportion | tab_top.

Record DashboardChartPreferences := mkPrefs {
  consumptionDistributionChart : ConsumptionDistributionChartType;
  modelAnalyticsChart : ModelAnalyticsChartTab;
  defaultTimeRangeDays : Z;
  defaultTimeGranularity : TimeGranularity;
}.

Definition DEFAULT_DASHBOARD_CHART_PREFERENCES : DashboardChartPreferences := mkPrefs chart_bar tab_trend 1 DEFAULT_TIME_GRANULARITY.

(** ** Reading values *)

(** A value that is one of the given texts. *)
Definition one_of {A} (options : list (jsstr * A)) (value : option json) : option A :=
  match value with Some (JStr s) => map_get s options | _ => None end.

Definition granularities : list (jsstr * TimeGranularity) := [(u "hour", hour); (u "day", day); (u "week", week)].
Definition chart_types : list (jsstr * ConsumptionDistributionChartType) := [(u "bar", chart_bar); (u "area", chart_area)].
Definition chart_tabs : list (jsstr * ModelAnalyticsChartTab) := [(u "trend", tab_trend); (u "proportion", tab_proportion); (u "top", tab_top)].

Definition isTimeGranularity : option json -> option TimeGranularity := one_of granularities.
Definition isConsumptionDistributionChartType : option json -> option ConsumptionDistributionChartType := one_of chart_types.
Definition isModelAnalyticsChartTab : option json -> option ModelAnalyticsChartTab := one_of chart_tabs.

(** The preset that a value is equal to. *)
Definition isTimeRangePresetDays (value : option json) : option Z :=
  match value with Some (JNum x) => List.find (fun days => num_eq (num_of_Z days) x) TIME_RANGE_PRESETS | _ => None end.

Definition getLegacySavedGranularity (st : storage) : TimeGranularity :=
  default DEFAULT_TIME_GRANULARITY (isTimeGranularity (JStr <$> Storage.getItem TIME_GRANULARITY_STORAGE_KEY st)).

(** ** Preferences *)

Definition getSavedChartPreferences (st : storage) : DashboardChartPreferences :=
  let fallback := mkPrefs chart_bar tab_trend 1 (getLegacySavedGranularity st) in
  match Storage.getItem DASHBOARD_CHART_PREFERENCES_STORAGE_KEY st with
  | None | Some [] => fallback
  | Some raw =>
      match JSON_parse raw with
      | None | Some JNull => fallback
      | Some parsed =>
          mkPrefs
            (default (consumptionDistributionChart fallback) (isConsumptionDistributionChartType (json_get (u "consumptionDistributionChart") parsed)))
            (default (modelAnalyticsChart fallback) (isModelAnalyticsChartTab (json_get (u "modelAnalyticsChart") parsed)))
            (default (defaultTimeRangeDays fallback) (isTimeRangePresetDays (json_get (u "defaultTimeRangeDays") parsed)))
            (default (defaultTimeGranularity fallback) (isTimeGranularity (json_get (u "defaultTimeGranularity") parsed)))
      end
  end.

Definition chart_type_text (c : ConsumptionDistributionChartType) : jsstr := match c with chart_bar => u "bar" | chart_area => u "area" end.
Definition chart_tab_text (c : ModelAnalyticsChartTab) : jsstr :=
  match c with tab_trend => u "trend" | tab_proportion => u "proportion" | tab_top => u "top" end.
Definition granularity_text (g : TimeGranularity) : jsstr := match g with hour => u "hour" | day => u "day" | week => u "week" end.

Definition preferences_obj (p : DashboardChartPreferences) : obj :=
  [(u "consumptionDistributionChart", JStr (chart_type_text (consumptionDistributionChart p)));
   (u "modelAnalyticsChart", JStr (chart_tab_text (modelAnalyticsChart p)));
   (u "defaultTimeRangeDays", JNum (num_of_Z (defaultTimeRangeDays p)));
   (u "defaultTimeGranularity", JStr (granularity_text (defaultTimeGranularity p)))].

Section saving.
Context (refuses : storage -> jsstr -> jsstr -> bool).

Definition setItem_throws (k v : jsstr) (st : storage) : option storage := if refuses st k v then None else Some (map_set k v st).

Definition saveChartPreferences (p : DashboardChartPreferences) (st : storage) : option storage :=
  setItem_throws DASHBOARD_CHART_PREFERENCES_STORAGE_KEY (JSON_stringify (JObj (preferences_obj p))) st.

Definition saveGranularity (g : TimeGranularity) (st : storage) : option storage :=
  let p := getSavedChartPreferences st in
  st' ← saveChartPreferences (mkPrefs (consumptionDistributionChart p) (modelAnalyticsChart p) (defaultTimeRangeDays p) g) st;
  setItem_throws TIME_GRANULARITY_STORAGE_KEY (granularity_text g) st'.

End saving.

Definition getSavedGranularity (override : option TimeGranularity) (st : storage) : TimeGranularity :=
  match override with Some g => g | None => defaultTimeGranularity (getSavedChartPreferences st) end.

Definition getDefaultDays (granularity : option TimeGranularity) (st : storage) : Z :=
  match granularity with
  | None => defaultTimeRangeDays (getSavedChartPreferences st)
  | Some g => TIME_RANGE_BY_GRANULARITY (getSavedGranularity (Some g) st)
  end.

(** ** Filters *)

(** The value that is kept of a filter. *)
Definition clean_value (value : json) : option json :=
  match value with
  | JNull => None
  | JStr s => let trimmed := trim s in if truthy trimmed then Some (JStr trimmed) else None
  | v => Some v
  end.

Definition cleanFilters (filters : obj) : obj :=
  foldl (fun cleaned kv => match clean_value kv.2 with Some v => map_set kv.1 v cleaned | None => cleaned end) [] (obj_entries filters).

(** [getRollingDateRange], in milliseconds *)
Definition getRollingDateRange (days fromDate : Z) : Z * Z := (fromDate - days * 24 * 60 * 60 * 1000, fromDate).

Record DashboardFilters := mkDashFilters {
  df_start : option Z;
  df_end : option Z;
  df_granularity : TimeGranularity;
  df_username : jsstr;
}.

Definition EMPTY_DASHBOARD_FILTERS : DashboardFilters := mkDashFilters None None hour [].

Definition buildDefaultDashboardFilters (now : Z) (preferences : DashboardChartPreferences) : DashboardFilters :=
  let '(start, end_) := getRollingDateRange (defaultTimeRangeDays preferences) now in
  mkDashFilters (Some start) (Some end_) (defaultTimeGranularity preferences) (df_username EMPTY_DASHBOARD_FILTERS).

Definition buildQueryParams (start_timestamp end_timestamp : Z) (granularity : option TimeGranularity) (username : option jsstr) (st : storage) : obj :=
  [(u "start_timestamp", JNum (num_of_Z start_timestamp)); (u "end_timestamp", JNum (num_of_Z end_timestamp));
   (u "default_time", JStr (granularity_text (getSavedGranularity granularity st)))] ++
  match username with Some (c :: s) => [(u "username", JStr (c :: s))] | _ => [] end.

(** ** Lemmas *)

Definition preferences_ok (p : DashboardChartPreferences) : Prop := defaultTimeRangeDays p ∈ TIME_RANGE_PRESETS.

Lemma preset_read d : d ∈ TIME_RANGE_PRESETS -> isTimeRangePresetDays (Some (JNum (num_of_Z d))) = Some d.
Proof.
  assert (Forall (fun d => isTimeRangePresetDays (Some (JNum (num_of_Z d))) = Some d) TIME_RANGE_PRESETS) as H.
  { repeat (apply Forall_cons; split; [vm_compute; reflexivity|]). done. }
  rewrite Forall_forall in H. apply H.
Qed.

Lemma preset_elem v d : isTimeRangePresetDays v = Some d -> d ∈ TIME_RANGE_PRESETS.
Proof. destruct v as [[]|]; try done. intros [H _]%List.find_some. by apply list_elem_of_In. Qed.

Lemma preferences_good p : preferences_ok p -> good (JObj (preferences_obj p)).
Proof.
  intros Hp. apply good_obj.
  - refine (bool_decide_eq_true_1 (NoDup [u "consumptionDistributionChart"; u "modelAnalyticsChart"; u "defaultTimeRangeDays"; u "defaultTimeGranularity"]) _).
    vm_compute. reflexivity.
  - repeat (apply Forall_cons; split; [try done|]); [|done]. cbn [snd].
    assert (Forall (fun d => good (JNum (num_of_Z d))) TIME_RANGE_PRESETS) as H
      by (repeat (apply Forall_cons; split; [split; [done|vm_compute; reflexivity]|]); done).
    rewrite Forall_forall in H. by apply H.
Qed.

Lemma saved_read p st :
  preferences_ok p -> Storage.getItem DASHBOARD_CHART_PREFERENCES_STORAGE_KEY st = Some (JSON_stringify (JObj (preferences_obj p))) ->
  getSavedChartPreferences st = p.
Proof.
  intros Hp Hst. pose proof (preferences_good p Hp) as Hg. pose proof (good_obj_inv _ Hg) as [Hn _]. destruct Hg as [Hw Hpr].
  assert (JSON_parse (JSON_stringify (JObj (preferences_obj p))) = Some (ordered (JObj (preferences_obj p)))) as Hr
    by exact (parse_stringify [] _ eq_refl Hw Hpr).
  unfold getSavedChartPreferences. rewrite Hst. destruct (JSON_stringify (JObj (preferences_obj p))) as [|c t]; [done|]. rewrite Hr.
  assert (forall k v, (k, v) ∈ preferences_obj p -> json_get k (ordered (JObj (preferences_obj p))) = Some (ordered v)) as Hget.
  { intros k v Hin. rewrite ordered_get by done. apply map_get_elem in Hin; [|done]. by rewrite Hin. }
  erewrite (Hget (u "consumptionDistributionChart")) by (apply (list_elem_of_lookup_2 _ 0%nat); reflexivity).
  erewrite (Hget (u "modelAnalyticsChart")) by (apply (list_elem_of_lookup_2 _ 1%nat); reflexivity).
  erewrite (Hget (u "defaultTimeRangeDays")) by (apply (list_elem_of_lookup_2 _ 2%nat); reflexivity).
  erewrite (Hget (u "defaultTimeGranularity")) by (apply (list_elem_of_lookup_2 _ 3%nat); reflexivity).
  cbn [ordered]. rewrite preset_read by done. destruct p as [[] [] d []]; reflexivity.
Qed.

Lemma setItem_throws_Some refuses k v st st' : setItem_throws refuses k v st = Some st' -> st' = map_set k v st.
Proof. unfold setItem_throws. destruct (refuses _ _ _); [done|]. by intros [= <-]. Qed.

(** ** Theorems *)

(** Whatever the storage holds, the preferences have a time range that can be
    chosen. *)
Theorem preferences_usable st : preferences_ok (getSavedChartPreferences st).
Proof.
  unfold getSavedChartPreferences, preferences_ok. assert (1 ∈ TIME_RANGE_PRESETS) as H1 by (by left).
  destruct (Storage.getItem _ st) as [[|c raw]|]; [done| |done]. destruct (JSON_parse _) as [j|]; [|done].
  assert (default 1 (isTimeRangePresetDays (json_get (u "defaultTimeRangeDays") j)) ∈ TIME_RANGE_PRESETS) as H.
  { destruct (isTimeRangePresetDays _) eqn:E; [by apply preset_elem in E|done]. }
  destruct j; done.
Qed.

(** The chart preferences that were saved are read back, and saving a
    granularity changes it and nothing else. *)
Theorem preferences_roundtrip refuses p g st st1 st2 :
  preferences_ok p -> saveChartPreferences refuses p st = Some st1 -> saveGranularity refuses g st1 = Some st2 ->
  getSavedChartPreferences st1 = p /\
  getSavedChartPreferences st2 = mkPrefs (consumptionDistributionChart p) (modelAnalyticsChart p) (defaultTimeRangeDays p) g /\
  getSavedGranularity None st2 = g /\ getLegacySavedGranularity st2 = g.
Proof.
  intros Hp ->%setItem_throws_Some (st' & ->%setItem_throws_Some & ->%setItem_throws_Some)%bind_Some.
  assert (getSavedChartPreferences (map_set DASHBOARD_CHART_PREFERENCES_STORAGE_KEY (JSON_stringify (JObj (preferences_obj p))) st) = p) as Hs
    by (apply saved_read; [done|apply map_get_set_eq]).
  rewrite Hs. split; [reflexivity|].
  set (p' := mkPrefs _ _ _ g). set (st' := map_set TIME_GRANULARITY_STORAGE_KEY _ _).
  assert (getSavedChartPreferences st' = p') as Hs'.
  { apply saved_read; [done|]. unfold st', Storage.getItem. rewrite map_get_set_ne; [apply map_get_set_eq|].
    refine (bool_decide_eq_false_1 _ _). vm_compute. reflexivity. }
  split; [exact Hs'|]. split; [unfold getSavedGranularity; by rewrite Hs'|].
  unfold getLegacySavedGranularity, st', Storage.getItem. rewrite map_get_set_eq. by destruct g.
Qed.

Lemma preferences_roundtrip_witness :
  exists st1 st2, saveChartPreferences (fun _ _ _ => false) (mkPrefs chart_area tab_top 14 day) [] = Some st1 /\
    saveGranularity (fun _ _ _ => false) week st1 = Some st2 /\ getSavedChartPreferences st2 = mkPrefs chart_area tab_top 14 week.
Proof.
  eexists _, _. split; [reflexivity|]. split; [reflexivity|].
  eapply (preferences_roundtrip (fun _ _ _ => false) (mkPrefs chart_area tab_top 14 day) week [] _ _); [|reflexivity|reflexivity].
  apply (list_elem_of_lookup_2 _ 2%nat). reflexivity.
Defined.

End Filters.
